(* ===== verification/_CoqProject ===== *)
-Q . S2P
Prelude.v
GoStrings.v
Regex.v
Hosts.v
Ctcp.v
NetworkInfo.v
Event.v
Parse.v
Fmt.v
Writer.v
Queue.v
Client.v
Modes.v
ChannelModes.v
ModeDiff.v
UserModes.v
Channel.v
State.v
StateInv.v
StateRun.v
StateCrash.v
Access.v
JSONStorer.v
StoredUser.v
Store.v
StoreInv.v
DispatchCore.v
Dispatcher.v
Cmd.v
Cmds.v
CmdRun.v
ConfigMap.v
NetCTX.v
ExtCTX.v
Config.v
Validation.v
ConfigFile.v
ConfigSpec.v
ConfigClone.v
Effects.v
CoreText.v
CoreCmds.v
CoreRun.v
CoreSpec.v
CoreGate.v
CoreAccess.v
Server.v
CoreHandler.v
Lifecycle.v
Console.v
Shutdown.v
Bot.v
BotConfig.v
BotSpec.v
BotRun.v
Connection.v
Proto.v
Locks.v
Rehash.v
Markov.v
Simple.v
SimpleRun.v
