(* ===== verification/Prelude.v ===== *)
(** * A verification library for ultimateq, an IRC bot framework in Go

    The program is a library for writing IRC bots.  A connection
    ([src/inet]) reads bytes from a server and cuts them into messages;
    [src/parse] turns a message into an event of [src/irc]; the bot
    ([src/bot]) gives the event to the state of the network ([src/data]),
    which records who is on which channel with which modes, and then to the
    dispatcher ([src/dispatch]), which calls the handlers registered for it
    and to the commander ([src/dispatch/cmd]), which recognises commands in
    the text, checks what the sender may do against the store of users
    ([src/data]), and starts the command.  Handlers answer through the writer
    of [src/irc], whose lines go through the queue and the flood protection
    of [src/inet].  All of this is set up from the configuration of
    [src/config].  The library follows the same cut: one file, or a few, for
    each Go file, in the order in which they call each other.

    ** The files and the code they model

    Shared ground.
    - [Prelude]: panics ([go]), heaps of Go pointers, errors, tactics, hints
      and lemmas on lists that several components use.
    - [GoStrings]: strings as lists of bytes, UTF-8, and the functions of
      packages [strings], [bytes] and [strconv] the program calls.
    - [Regex]: package [regexp] for the anchored expressions of the program.
    - [Fmt]: package [fmt], for the verbs of the program, and for any format
      that is printed without operands.

    Package irc.
    - [Hosts]: hosts.go, [Host] and [Mask], their parts and the wildcard
      matcher.  [Ctcp]: ctcp.go.  [NetworkInfo]: network_info.go.  [Event]:
      event.go and the names of proto.go that other files use.  [Proto]: all
      of them as tables.  [Writer]: writer.go, every method of [Helper] and
      the splitting of long messages.

    Packages parse and inet.
    - [Parse]: parse.go.  [Queue]: queue.go, nodes in a heap.  [Client]:
      client.go: [calcSleepTime], the goroutine [pump] as a step relation,
      [siphon], [Read] and [Write].

    Package data.
    - [Modes] (modes_common.go), [ChannelModes] (channel_modes.go),
      [ModeDiff] (channel_modes_diff.go), [UserModes] (user_modes.go, user.go,
      channeluser_meta.go), [Channel] (channel.go).
    - [State]: state.go, every reader and the update by every event.
      [StateInv]: its invariant and the abstract world it refines.
      [StateRun]: when an update returns, and concrete runs.  [StateCrash]:
      exactly which events make it panic, as a condition to be computed.
    - [Access] (access.go), [JSONStorer] (json_storer.go, stored_channel.go),
      [StoredUser] (stored_user.go), [Store] (store.go).

    Packages dispatch and cmd.
    - [DispatchCore] (dispatch_core.go), [Dispatcher] (dispatcher.go,
      handlers.go), [Cmd] (cmd.go), [Cmds] (cmds.go, event.go), [CmdRun] (what
      registration and dispatch guarantee).

    Package config.
    - [ConfigMap] (map_helpers.go), [NetCTX] (network.go), [ExtCTX] (ext.go),
      [Config] (config.go), [Validation] (validation.go), [ConfigFile]
      (config_file.go), [ConfigSpec] and [ConfigClone] (the theorems).

    Package bot.
    - [Effects]: the monad of the core commands (reading and writing the store
      and the state, answering, panicking).  [CoreText], [CoreCmds]:
      core_commands.go, its texts and every command.  [CoreRun]: whole
      conversations evaluated, [CoreSpec]: what each command may change,
      [CoreGate]: who may change access, [CoreAccess]: giving and taking.
    - [Server]: server.go, the status, connecting and writing.  [CoreHandler]:
      core_handler.go.  [Lifecycle]: the goroutines of bot.go that start,
      stop and reconnect servers.  [Console]: starting and stopping networks
      and the loop of Run beside them.  [Shutdown]: who waits for whom when a
      connection is closed (server.go, client.go).  [Bot]: bot.go, making a
      bot, registering, and the way of a line to the handlers.  [BotConfig]:
      botconfig.go.  [BotSpec], [BotRun]: the theorems about both and concrete
      bots.  [Locks]: the locks of states and store (locker.go, event.go and
      what the bot and its commands do with them).  [Rehash]: who waits for
      whom when a configuration is replaced while servers run.  [Connection]:
      a connection from its first byte to its last, through client, parser,
      state, dispatchers and commanders.  [StoreInv]: what every
      operation of the store keeps in order.

    The example bot.
    - [Markov]: markov.go.  [Simple]: simple.go, its commands and handlers.
      [SimpleRun]: what its commands do to the quotes, and runs of it.

    ** How the model reads

    A Go expression gives a value or panics: the type [go].  An error that the
    code returns is a value, mostly an [option] of its text or of its type.
    What a method changes through its receiver is threaded: the receiver comes
    in as a record and goes out changed.  Where two variables share an object
    through a pointer and the sharing can be seen (the users and modes of a
    network, the nodes of the queue, cached and logged-in users of the store,
    commands, the nested maps of a configuration), the objects live in a
    [Heap] and the pointers are locations.  Integers whose width matters are
    [Z] with the wrap written out.  Maps are stdpp's [gmap]; where Go visits a
    map in an order of its own, the order is an argument or a parameter and
    the theorem holds for each.  A Go [string] and a [[]byte] are lists of
    bytes.  Runs of the program on concrete input are [Example]s and witnesses
    that the kernel evaluates.

    ** What the theorems show

    - [StateInv]: the tables of the state mirror each other and are keyed by
      folded names, every event keeps it so, and an update does to the
      abstract world (who is known, who is where with which modes) what the
      protocol says.  [StateRun]: the conditions under which an update does
      not panic, with runs that do panic outside them.  [StateCrash]: an
      update panics exactly when [crash] says so, and leaves no nil entry
      behind when it returns.
    - [ChannelModes], [ModeDiff]: the sets of modes stay well formed, print
      and parse back, and a difference applied afterwards has the effect of
      the modestring itself.
    - [Parse], [Ctcp], [Access]: round trips.  [Hosts]: the matcher agrees
      with the declarative meaning of wildcards and ends.  [NetworkInfo]:
      which lines of a server make the parser panic.
    - [Writer]: what [splitSend] sends has the right size and loses nothing
      but what the code means to drop.
    - [Queue]: a refinement of a list.  [Client]: cutting the input into
      reads does not change the messages found; the pump sends what it was
      given in order; bounds of the delay; reads conserve bytes.
    - [Store]: authentication is sound; the cache is transparent; saved users
      are found, removed ones not; logging out by name is complete.
    - [CmdRun], [Cmd], [DispatchCore], [Dispatcher]: a command is started only
      for an event that meets its kind, scope, levels and flags; arguments are
      assigned like a reference definition does; registration is inverted by
      unregistration; dispatching returns.
    - [ConfigSpec], [ConfigClone]: the maps form a tree, so a setting is seen
      exactly where its scope says; a validated configuration has the values
      its readers ask for; a copy reads like the original and is apart from
      it.
    - [CoreSpec], [CoreGate], [CoreAccess]: each core command keeps to its
      rule, however it ends; access changes only by those with the flag for
      it; what giving does.  [CoreHandler]: a free nick is found, channels
      are joined again.
    - [Lifecycle]: in every interleaving the monitor counts what runs; with
      servers started only when they are stopped nothing panics and stopping
      comes to its end.  [BotSpec]: a configuration in order makes a bot that
      is in order, replacing the configuration starts and stops exactly what
      changed, and every line goes through without a panic.
    - [Shutdown]: closing a connection gets through exactly when no handler is
      stuck with the server's lock.  [Locks]: commands that close their event
      before they write to the store never block the bot, and every lock is
      given back.  [Rehash]: a replacement gets through exactly when no server
      it stops is about to dispatch a command.  [Console]: when an interrupt
      ends the program.
    - [Connection]: whatever the cuts of the stream, a connection is served to
      its end as long as each line can be read when its turn comes; what can
      be read is computed.
    - [Markov]: generated text walks the chain of its source.  [SimpleRun]: a
      quote is removed or changed only by those with the flag for it.
    Where modelling showed that code does not do what it means to, a theorem
    or an example states what it does; the comment above it says so.

    ** Fuel

    [Hosts.match_loop], the matcher of [Regex], [Writer.splitSend], the loop
    of [Client.siphon], the range over a string and the copying of nested maps
    recurse on fuel, because the Go loops move indices or follow pointers.
    Each is called with a bound computed from its input (a length, or the
    size of the heap of maps), and a lemma of the same file shows that the
    fuel does not run out: the matcher's measure falls on every step
    ([Hosts.match_loop_terminates]), each piece sent is not empty, and a tree
    of maps is never deeper than the heap is large.

    ** Parameters

    What is not under src/ is an argument of the model, mostly as a class:
    [CaseTables] (the tables of package unicode), [Bcrypt], [KV] (package kv),
    [Gob] (encoding/gob), [JSON] (encoding/json), [Toml] and [Files] (the TOML
    library, the file system), [RangeOrder] (the order in which Go visits a
    map), [has_method] (reflection over a handler), [print] (the default
    format of a float, a slice or a map), [Quotes] and [Web] (the database of
    quotes and the web queries of the example bot).  The laws that theorems need of them
    are named in the class or in the section that uses them; the witnesses
    give concrete instances, so no law is contradictory.

    ** Not modelled

    - The scheduling of goroutines in the functional models: there every
      method runs with its state to itself, and where the program starts a
      goroutine (handlers and commands) the model returns the list of calls
      that are started.  What depends on the order of goroutines is modelled
      apart, as step relations: the pump and the reader of [inet] over the
      contents of channels ([Client]), the servers' life ([Lifecycle],
      [Console]), closing ([Shutdown]), locks ([Locks]) and the table of
      servers ([Rehash]).  The locks of configurations and dispatchers are
      left out.
    - Sockets, TLS connections and timers, which are arguments; opening
      database files; logging; [main] of simple.go, which opens the database
      of quotes, starts its web server and runs the bot.
    - mocks/conn_mock.go, a connection for tests with no part in the program,
      and the documentation comments of packages.
*)

From stdpp Require Export prelude gmap strings list fin_maps.
From Stdlib Require Export Ascii ZArith Lia.

Set Default Goal Selector "!".

(** ** Panics

    A Go expression either produces a value or panics (an index out of range,
    a method call through a nil pointer, a write to a nil map).  [go A] is the
    result of such an expression; error values that the code returns are
    ordinary data and are not [Panic]. *)

Inductive go (A : Type) : Type :=
  | Ret (a : A)
  | Panic.
Arguments Ret {A} a.
Arguments Panic {A}.

#[export] Instance go_ret : MRet go := fun A => @Ret A.
#[export] Instance go_bind : MBind go := fun A B f m =>
  match m with Ret a => f a | Panic => Panic end.
#[export] Instance go_fmap : FMap go := fun A B f m =>
  match m with Ret a => Ret (f a) | Panic => Panic end.

Definition is_panic {A} (m : go A) : bool :=
  match m with Ret _ => false | Panic => true end.

Lemma bind_Ret {A B} (a : A) (f : A -> go B) : (Ret a ≫= f) = f a.
Proof. done. Qed.

Lemma bind_Panic {A B} (f : A -> go B) : (Panic ≫= f) = Panic.
Proof. done. Qed.

Lemma bind_Ret_inv {A B} (m : go A) (f : A -> go B) (b : B) :
  (m ≫= f) = Ret b -> exists a, m = Ret a /\ f a = Ret b.
Proof. destruct m as [a|]; cbn; [eauto|done]. Qed.

Lemma bind_assoc {A B C} (m : go A) (f : A -> go B) (g : B -> go C) :
  ((m ≫= f) ≫= g) = (m ≫= fun a => f a ≫= g).
Proof. by destruct m. Qed.

(** The value an optional holds, a panic when it holds none: a nil pointer
    that is followed. *)
Definition deref {A} (o : option A) : go A :=
  match o with Some a => Ret a | None => Panic end.

(** [l[i]] *)
Definition index {A} (l : list A) (i : nat) : go A := deref (l !! i).

(** [l[i:]] *)
Definition slice_from {A} (l : list A) (i : nat) : go (list A) :=
  if decide (i <= length l) then Ret (drop i l) else Panic.

Lemma index_Ret {A} (l : list A) i x : index l i = Ret x <-> l !! i = Some x.
Proof. unfold index, deref. destruct (l !! i); naive_solver. Qed.

Lemma deref_Ret {A} (o : option A) x : deref o = Ret x <-> o = Some x.
Proof. unfold deref. destruct o; naive_solver. Qed.

(** Fold a panicking step over a list, left to right: a [for] loop. *)
Fixpoint go_fold {A B} (f : B -> A -> go B) (b : B) (l : list A) : go B :=
  match l with
  | [] => Ret b
  | x :: l => b' ← f b x; go_fold f b' l
  end.

Lemma go_fold_app {A B} (f : B -> A -> go B) b l1 l2 :
  go_fold f b (l1 ++ l2) = (go_fold f b l1 ≫= fun b' => go_fold f b' l2).
Proof.
  revert b. induction l1 as [|x l1 IH]; intros b; cbn; [done|].
  destruct (f b x); cbn; [apply IH|done].
Qed.

(** An invariant of the step is an invariant of the loop. *)
Lemma go_fold_inv {A B} (P : B -> Prop) (f : B -> A -> go B) l :
  (forall b x b', x ∈ l -> P b -> f b x = Ret b' -> P b') ->
  forall b b', P b -> go_fold f b l = Ret b' -> P b'.
Proof.
  induction l as [|x l IH]; intros Hf b b' Hb Hl; cbn in Hl; [naive_solver|].
  apply bind_Ret_inv in Hl as (b1 & H1 & H2).
  eapply IH; [|eapply Hf; [left|exact Hb|exact H1]|exact H2].
  intros b0 y b0' Hy. apply Hf. by right.
Qed.

(** ** Tactics *)

(** Take apart every hypothesis of the form "this monadic computation
    returned". *)
Ltac go_inv :=
  repeat match goal with
  | H : (_ ≫= _) = Ret _ |- _ => apply bind_Ret_inv in H as (? & ? & ?)
  | H : Ret _ = Ret _ |- _ => injection H as H; try subst
  | H : Panic = Ret _ |- _ => discriminate H
  | H : Ret _ = Panic |- _ => discriminate H
  | H : index _ _ = Ret _ |- _ => apply index_Ret in H
  | H : deref _ = Ret _ |- _ => apply deref_Ret in H
  end.

(** Case analysis on every [decide], then simplification. *)
Ltac decide_all :=
  repeat (case_decide; simplify_eq/=; try done).

(** A closed decidable goal, by computation. *)
Ltac decide_now := apply (bool_decide_unpack _); vm_compute; exact I.

(** ** Lists *)

Section lists.
Context {A : Type}.
Implicit Types l : list A.

Lemma take_drop_mid l i x :
  l !! i = Some x -> l = take i l ++ x :: drop (S i) l.
Proof. intros H. by rewrite take_drop_middle. Qed.

Lemma length_pos_cons l : 0 < length l <-> exists x l', l = x :: l'.
Proof. destruct l; cbn; split; [lia|naive_solver|naive_solver|lia]. Qed.

Lemma app_eq_len (a b c d : list A) :
  a ++ b = c ++ d -> length a = length c -> a = c /\ b = d.
Proof. intros H1 H2. by apply app_inj_1. Qed.

End lists.

(** ** The iteration order of a map

    A [for range] over a Go map visits its entries in an unspecified order.
    The code that depends on it is modelled over any such order. *)
Class RangeOrder (K : Type) `{Countable K} := {
  range : forall {A}, gmap K A -> list (K * A);
  range_perm : forall {A} (m : gmap K A), range m ≡ₚ map_to_list m;
}.

#[export] Program Instance list_order K `{Countable K} : RangeOrder K :=
  {| range := fun A m => map_to_list m |}.
Next Obligation. done. Qed.

Section range.
Context `{RangeOrder K}.

Lemma elem_of_range {A} (m : gmap K A) k x : (k, x) ∈ range m <-> m !! k = Some x.
Proof. rewrite range_perm. apply elem_of_map_to_list. Qed.

Lemma NoDup_range {A} (m : gmap K A) : NoDup (range m).*1.
Proof. rewrite range_perm. apply NoDup_fst_map_to_list. Qed.

End range.

(** ** Bits *)

Lemma land_pow2 x i : (0 <= i)%Z -> Z.land x (2 ^ i) = if Z.testbit x i then (2 ^ i)%Z else 0%Z.
Proof.
  intros Hi. apply Z.bits_inj'. intros n Hn. rewrite Z.land_spec, Z.pow2_bits_eqb by done.
  destruct (Z.eqb_spec i n) as [->|Hne].
  - rewrite andb_true_r. destruct (Z.testbit x n) eqn:E; [by rewrite Z.pow2_bits_true|].
    by rewrite Z.bits_0.
  - rewrite andb_false_r. destruct (Z.testbit x i); [|by rewrite Z.bits_0].
    by rewrite Z.pow2_bits_false.
Qed.

(** [x & bit == bit] for a single bit *)
Lemma land_pow2_eqb x i :
  (0 <= i)%Z -> bool_decide (Z.land (2 ^ i) x = 2 ^ i)%Z = Z.testbit x i.
Proof.
  intros Hi. rewrite Z.land_comm, land_pow2 by done. destruct (Z.testbit x i).
  - by apply bool_decide_true.
  - apply bool_decide_false. pose proof (Z.pow_pos_nonneg 2 i). lia.
Qed.

(** A number is its bits. *)
Lemma bits_ext_below n x y :
  (0 <= x < 2 ^ n)%Z -> (0 <= y < 2 ^ n)%Z ->
  (forall i, (0 <= i < n)%Z -> Z.testbit x i = Z.testbit y i) -> x = y.
Proof.
  intros Hx Hy H. apply Z.bits_inj'. intros i Hi.
  destruct (Z.lt_ge_cases i n) as [Hlt|Hge]; [by apply H|].
  assert (forall z, 0 <= z < 2 ^ n -> Z.testbit z i = false)%Z as Hz.
  { intros z Hz. destruct (decide (z = 0))%Z as [->|Hne]; [apply Z.bits_0|].
    apply Z.bits_above_log2; [lia|].
    assert (Z.log2 z < n)%Z; [|lia]. apply Z.log2_lt_pow2; lia. }
  by rewrite !Hz.
Qed.

Create HintDb go.
Create Rewrite HintDb go.
#[export] Hint Rewrite @bind_Ret @bind_Panic @length_app @length_take @length_drop : go.
#[export] Hint Resolve bind_Ret bind_Panic : go.
