(* ===== verification/GoStrings.v ===== *)
(** * The part of Go's strings the program uses

    A Go [string] and a [[]byte] are both a list of bytes here.  This file
    models the language's [range] over a string (UTF-8 decoding), [string(r)]
    (UTF-8 encoding), and the functions of the packages [strings], [bytes] and
    [strconv] that the modelled code calls, with the lemmas on them that the
    components share.

    The tables of package [unicode] behind [strings.ToLower] and
    [strings.ToUpper] are the class [CaseTables]: a string of ASCII bytes is
    mapped byte by byte, as the package does, and any other string by the
    class's function. *)

From S2P Require Import Prelude.
From stdpp Require Import pretty.

Abbreviation bytes := (list ascii).

(** A Go string literal. *)
Definition bs (s : string) : bytes := Stdlib.Strings.String.list_ascii_of_string s.

(** A rune is an [int32]; the code only builds non-negative ones. *)
Abbreviation rune := Z (only parsing).

(** ** Bytes as numbers *)

Definition code (c : ascii) : Z := Z.of_N (N_of_ascii c).
Definition byte_of (z : Z) : ascii := ascii_of_N (Z.to_N z).

Lemma code_range c : (0 <= code c < 256)%Z.
Proof. unfold code. pose proof (N_ascii_bounded c). lia. Qed.

Lemma byte_of_code c : byte_of (code c) = c.
Proof. unfold byte_of, code. rewrite N2Z.id. apply ascii_N_embedding. Qed.

Lemma code_byte_of z : (0 <= z < 256)%Z -> code (byte_of z) = z.
Proof.
  intros H. unfold code, byte_of. rewrite N_ascii_embedding; lia.
Qed.

Lemma code_inj c d : code c = code d -> c = d.
Proof. intros H. rewrite <- (byte_of_code c), <- (byte_of_code d). by f_equal. Qed.

#[export] Instance code_Inj : Inj (=) (=) code := code_inj.

Definition is_ascii (c : ascii) : bool := bool_decide (code c < 128)%Z.

(** ** UTF-8 *)

Definition rune_error : Z := 0xFFFD%Z.

Definition is_cont (c : ascii) : bool :=
  bool_decide (0x80 <= code c < 0xC0)%Z.

(** [utf8.DecodeRune]: the first rune of a non-empty string and its width in
    bytes; an invalid or incomplete sequence is [rune_error], one byte wide. *)
Definition decode_rune (s : bytes) : option (Z * nat) :=
  match s with
  | [] => None
  | c0 :: s1 =>
    let b0 := code c0 in
    Some (
    if bool_decide (b0 < 0x80)%Z then (b0, 1) else
    if bool_decide (b0 < 0xC2)%Z then (rune_error, 1) else
    if bool_decide (b0 < 0xE0)%Z then
      match s1 with
      | c1 :: _ =>
        if is_cont c1 then (((b0 - 0xC0) * 64 + (code c1 - 0x80))%Z, 2)
        else (rune_error, 1)
      | _ => (rune_error, 1)
      end else
    if bool_decide (b0 < 0xF0)%Z then
      match s1 with
      | c1 :: c2 :: _ =>
        if is_cont c1 && is_cont c2
           && negb (bool_decide (b0 = 0xE0)%Z && bool_decide (code c1 < 0xA0)%Z)
           && negb (bool_decide (b0 = 0xED)%Z && bool_decide (0xA0 <= code c1)%Z)
        then (((b0 - 0xE0) * 4096 + (code c1 - 0x80) * 64 + (code c2 - 0x80))%Z, 3)
        else (rune_error, 1)
      | _ => (rune_error, 1)
      end else
    if bool_decide (b0 < 0xF5)%Z then
      match s1 with
      | c1 :: c2 :: c3 :: _ =>
        if is_cont c1 && is_cont c2 && is_cont c3
           && negb (bool_decide (b0 = 0xF0)%Z && bool_decide (code c1 < 0x90)%Z)
           && negb (bool_decide (b0 = 0xF4)%Z && bool_decide (0x90 <= code c1)%Z)
        then (((b0 - 0xF0) * 262144 + (code c1 - 0x80) * 4096
               + (code c2 - 0x80) * 64 + (code c3 - 0x80))%Z, 4)
        else (rune_error, 1)
      | _ => (rune_error, 1)
      end
    else (rune_error, 1))
  end.

#[global] Arguments decode_rune : simpl never.

(** A Unicode scalar value. *)
Definition valid_rune (r : Z) : bool :=
  bool_decide (0 <= r < 0xD800)%Z || bool_decide (0xE000 <= r < 0x110000)%Z.

(** [string(r)] *)
Definition encode_rune (r : Z) : bytes :=
  let r := if valid_rune r then r else rune_error in
  if bool_decide (r < 0x80)%Z then [byte_of r] else
  if bool_decide (r < 0x800)%Z then
    [byte_of (0xC0 + r / 64); byte_of (0x80 + r mod 64)]%Z else
  if bool_decide (r < 0x10000)%Z then
    [byte_of (0xE0 + r / 4096); byte_of (0x80 + (r / 64) mod 64);
     byte_of (0x80 + r mod 64)]%Z
  else
    [byte_of (0xF0 + r / 262144); byte_of (0x80 + (r / 4096) mod 64);
     byte_of (0x80 + (r / 64) mod 64); byte_of (0x80 + r mod 64)]%Z.

#[global] Arguments encode_rune : simpl never.

Lemma decode_rune_width s r n :
  decode_rune s = Some (r, n) -> 1 <= n <= length s.
Proof.
  destruct s as [|c0 s1]; [done|]. unfold decode_rune. intros [= H].
  repeat (case_match; simplify_eq/=; try lia).
Qed.

Lemma decode_rune_ascii c s :
  is_ascii c = true -> decode_rune (c :: s) = Some (code c, 1).
Proof.
  unfold is_ascii. intros H%bool_decide_eq_true. unfold decode_rune.
  by rewrite bool_decide_true.
Qed.

(** Decoding what [encode_rune] wrote gives the rune back. *)
Ltac decide_bools :=
  repeat match goal with
  | |- context [bool_decide ?P] =>
      first [ rewrite (bool_decide_true P) by lia
            | rewrite (bool_decide_false P) by lia ]
  end.

Lemma decode_encode_rune r s :
  valid_rune r = true ->
  decode_rune (encode_rune r ++ s) = Some (r, length (encode_rune r)).
Proof.
  intros Hv. unfold encode_rune. rewrite Hv.
  unfold valid_rune in Hv. rewrite orb_true_iff, !bool_decide_eq_true in Hv.
  assert (0 <= r / 64 /\ 0 <= r / 4096 /\ 0 <= r / 262144 /\
          0 <= r mod 64 < 64 /\ 0 <= (r / 64) mod 64 < 64 /\
          0 <= (r / 4096) mod 64 < 64)%Z as Hb by (Z.div_mod_to_equations; lia).
  repeat case_bool_decide; cbn [app length]; unfold decode_rune, is_cont.
  - rewrite !code_byte_of by lia. decide_bools. done.
  - assert (2 <= r / 64 < 32 /\ r = (r / 64) * 64 + r mod 64)%Z
      by (Z.div_mod_to_equations; lia).
    rewrite !code_byte_of by lia. decide_bools. cbn. do 2 f_equal. lia.
  - assert (r / 4096 = 0 -> 32 <= (r / 64) mod 64)%Z
      by (Z.div_mod_to_equations; lia).
    assert (r / 4096 = 13 -> (r / 64) mod 64 < 32)%Z
      by (Z.div_mod_to_equations; lia).
    assert (r / 4096 < 16 /\ r = (r / 4096) * 4096 + ((r / 64) mod 64) * 64 + r mod 64)%Z
      as [? Hr] by (Z.div_mod_to_equations; lia).
    rewrite !code_byte_of by lia. decide_bools.
    repeat case_bool_decide; cbn; (exfalso; lia) || (do 2 f_equal; lia).
  - assert (r / 262144 = 0 -> 16 <= (r / 4096) mod 64)%Z
      by (Z.div_mod_to_equations; lia).
    assert (r / 262144 = 4 -> (r / 4096) mod 64 < 16)%Z
      by (Z.div_mod_to_equations; lia).
    assert (r / 262144 < 5 /\
            r = (r / 262144) * 262144 + ((r / 4096) mod 64) * 4096
                + ((r / 64) mod 64) * 64 + r mod 64)%Z
      as [? Hr] by (Z.div_mod_to_equations; lia).
    rewrite !code_byte_of by lia. decide_bools.
    repeat case_bool_decide; cbn; (exfalso; lia) || (do 2 f_equal; lia).
Qed.

(** The runes of a string with the bytes each was decoded from: what [range]
    visits.  A step consumes at least one byte, so the length of the string
    is fuel enough. *)
Fixpoint chunks_fuel (n : nat) (s : bytes) : list (Z * bytes) :=
  match n with
  | 0 => []
  | S n =>
    match decode_rune s with
    | None => []
    | Some (r, w) => (r, take w s) :: chunks_fuel n (drop w s)
    end
  end.

Definition chunks (s : bytes) : list (Z * bytes) := chunks_fuel (length s) s.

#[global] Arguments chunks : simpl never.

(** [for _, r := range s], also [[]rune(s)] *)
Definition runes (s : bytes) : list Z := map fst (chunks s).

(** [string(rs)] of a rune slice *)
Definition string_of_runes (rs : list Z) : bytes := concat (map encode_rune rs).

Lemma chunks_fuel_enough n m s :
  length s <= n -> length s <= m -> chunks_fuel n s = chunks_fuel m s.
Proof.
  revert m s. induction n as [|n IH]; intros m s Hn Hm.
  { destruct s; cbn in Hn; [by destruct m|lia]. }
  destruct m as [|m]; [destruct s; cbn in Hm; [done|lia]|].
  cbn [chunks_fuel]. destruct (decode_rune s) as [[r w]|] eqn:E; [|done].
  apply decode_rune_width in E. f_equal. apply IH; rewrite length_drop; lia.
Qed.

Lemma chunks_step s r w :
  decode_rune s = Some (r, w) -> chunks s = (r, take w s) :: chunks (drop w s).
Proof.
  intros E. pose proof (decode_rune_width _ _ _ E) as Hw.
  unfold chunks at 1. destruct (length s) as [|n] eqn:Hl; [lia|].
  cbn [chunks_fuel]. rewrite E. f_equal. unfold chunks.
  apply chunks_fuel_enough; rewrite length_drop; lia.
Qed.

Lemma chunks_ascii c s :
  is_ascii c = true -> chunks (c :: s) = (code c, [c]) :: chunks s.
Proof. intros H. by rewrite (chunks_step _ _ _ (decode_rune_ascii c s H)). Qed.

Lemma chunks_ind (P : bytes -> Prop) :
  P [] ->
  (forall s r w, decode_rune s = Some (r, w) -> P (drop w s) -> P s) ->
  forall s, P s.
Proof.
  intros H0 HS s. remember (length s) as n eqn:Hn.
  revert s Hn. induction n as [n IH] using lt_wf_ind; intros s ->.
  destruct s as [|c s]; [done|].
  destruct (decode_rune (c :: s)) as [[r w]|] eqn:E; [|done].
  eapply HS; [exact E|]. pose proof (decode_rune_width _ _ _ E).
  eapply IH; [|reflexivity]. rewrite length_drop. cbn [length] in *. lia.
Qed.

Lemma chunks_concat s : concat (map snd (chunks s)) = s.
Proof.
  induction s as [|s r w E IH] using chunks_ind; [done|].
  rewrite (chunks_step _ _ _ E). cbn. by rewrite IH, take_drop.
Qed.

Lemma chunks_encode r s :
  valid_rune r = true ->
  chunks (encode_rune r ++ s) = (r, encode_rune r) :: chunks s.
Proof.
  intros Hr. rewrite (chunks_step _ _ _ (decode_encode_rune r s Hr)).
  by rewrite take_app_length, drop_app_length.
Qed.

Lemma runes_encode r s :
  valid_rune r = true -> runes (encode_rune r ++ s) = r :: runes s.
Proof. intros Hr. unfold runes. by rewrite chunks_encode. Qed.

(** Decoding is the inverse of encoding on strings of scalar values. *)
Lemma runes_string_of_runes rs :
  Forall (fun r => valid_rune r = true) rs -> runes (string_of_runes rs) = rs.
Proof.
  induction 1 as [|r rs Hr _ IH]; [done|].
  unfold string_of_runes in *. cbn [map concat]. by rewrite runes_encode, IH.
Qed.

Lemma runes_ascii s : forallb is_ascii s = true -> runes s = map code s.
Proof.
  induction s as [|c s IH]; cbn; [done|]. intros [Hc Hs]%andb_true_iff.
  unfold runes. rewrite chunks_ascii by done. cbn. f_equal. by apply IH.
Qed.

(** A rune below 128 was read from the byte of the same number. *)
Lemma chunks_ascii_inv s r b :
  (r, b) ∈ chunks s -> (r < 128)%Z -> b = [byte_of r].
Proof.
  induction s as [|s r' w E IH] using chunks_ind; [by intros ?%not_elem_of_nil|].
  rewrite (chunks_step _ _ _ E). intros [H|H]%elem_of_cons Hr; [|by apply IH].
  injection H as -> ->. destruct s as [|c0 s1]; [done|].
  unfold decode_rune, rune_error, is_cont in E.
  pose proof (code_range c0).
  repeat (case_match; simplify_eq/=;
          rewrite ?andb_true_iff, ?negb_true_iff, ?andb_false_iff,
            ?bool_decide_eq_true, ?bool_decide_eq_false in *; try lia).
  by rewrite byte_of_code.
Qed.

(** An ASCII byte is a rune of its own. *)
Lemma chunks_byte_inv s z b c :
  (z, b) ∈ chunks s -> c ∈ b -> is_ascii c = true -> z = code c /\ b = [c].
Proof.
  intros Hin Hc Ha. unfold is_ascii in Ha. apply bool_decide_eq_true in Ha.
  revert Hin. induction s as [|s r' w E IH] using chunks_ind; [by intros ?%not_elem_of_nil|].
  rewrite (chunks_step _ _ _ E). intros [H|H]%elem_of_cons; [|by apply IH].
  injection H as -> ->. destruct s as [|c0 s1]; [done|].
  unfold decode_rune, is_cont in E.
  pose proof (code_range c0).
  repeat (case_match; simplify_eq/=;
          rewrite ?andb_true_iff, ?negb_true_iff, ?andb_false_iff,
            ?bool_decide_eq_true, ?bool_decide_eq_false in * ).
  all: rewrite ?elem_of_cons, ?take_0 in Hc.
  all: destruct_or?; try subst; try lia; try done.
  all: by apply not_elem_of_nil in Hc.
Qed.

(** An ASCII byte always starts a rune of its own. *)
Lemma is_cont_ascii c : is_ascii c = true -> is_cont c = false.
Proof.
  unfold is_ascii, is_cont. rewrite bool_decide_eq_true, bool_decide_eq_false. lia.
Qed.

Lemma decode_rune_app_ascii a c b :
  a <> [] -> is_ascii c = true -> decode_rune (a ++ c :: b) = decode_rune a.
Proof.
  intros Ha Hc%is_cont_ascii.
  destruct a as [|c0 [|c1 [|c2 [|c3 a]]]]; [done| | | |done];
    cbn [app]; unfold decode_rune; destruct b as [|d0 [|d1 b]];
    rewrite ?Hc, ?andb_false_r; cbn [andb]; repeat case_match; done.
Qed.

Lemma chunks_app_ascii a c b :
  is_ascii c = true ->
  chunks (a ++ c :: b) = chunks a ++ (code c, [c]) :: chunks b.
Proof.
  intros Hc. induction a as [|a r w E IH] using chunks_ind.
  { cbn [app]. by rewrite chunks_ascii. }
  pose proof (decode_rune_width _ _ _ E) as Hw.
  assert (a <> []) as Ha by (by intros ->).
  rewrite (chunks_step _ _ _ E), (chunks_step (a ++ c :: b) r w)
    by (by rewrite decode_rune_app_ascii).
  rewrite take_app_le, drop_app_le by lia. by rewrite IH.
Qed.

(** ** Case mapping *)

Definition lower_byte (c : ascii) : ascii :=
  if bool_decide (65 <= code c <= 90)%Z then byte_of (code c + 32) else c.
Definition upper_byte (c : ascii) : ascii :=
  if bool_decide (97 <= code c <= 122)%Z then byte_of (code c - 32) else c.

(** What package [unicode] contributes for strings that hold a byte outside
    ASCII.  Mapping twice is mapping once, and a string does not vanish. *)
Class CaseTables := {
  lower_wide : bytes -> bytes;
  upper_wide : bytes -> bytes;
  lower_wide_fix : forall s,
    let r := lower_wide s in
    if forallb is_ascii r then map lower_byte r = r else lower_wide r = r;
  lower_wide_nonempty : forall s, s <> [] -> lower_wide s <> [];
}.

(** [strings.ToLower] and [strings.ToUpper]: ASCII strings byte by byte, the
    others through the tables. *)
Definition ToLower {CT : CaseTables} (s : bytes) : bytes :=
  if forallb is_ascii s then map lower_byte s else lower_wide s.
Definition ToUpper {CT : CaseTables} (s : bytes) : bytes :=
  if forallb is_ascii s then map upper_byte s else upper_wide s.

Lemma lower_byte_ascii c : is_ascii (lower_byte c) = is_ascii c.
Proof.
  unfold is_ascii, lower_byte. destruct (decide (65 <= code c <= 90)%Z).
  - rewrite (bool_decide_true (65 <= code c <= 90)%Z) by done.
    rewrite code_byte_of by lia.
    apply bool_decide_ext. lia.
  - by rewrite (bool_decide_false (65 <= code c <= 90)%Z).
Qed.

Lemma lower_byte_idem c : lower_byte (lower_byte c) = lower_byte c.
Proof.
  assert (bool_decide (65 <= code (lower_byte c) <= 90)%Z = false) as H.
  { apply bool_decide_false. unfold lower_byte. case_bool_decide; [|done].
    rewrite code_byte_of by lia. lia. }
  unfold lower_byte at 1. by rewrite H.
Qed.

Lemma forallb_lower_byte s :
  forallb is_ascii (map lower_byte s) = forallb is_ascii s.
Proof. induction s as [|c s IH]; cbn; [done|]. by rewrite lower_byte_ascii, IH. Qed.

Section case.
Context {CT : CaseTables}.

Lemma ToLower_idem s : ToLower (ToLower s) = ToLower s.
Proof.
  unfold ToLower at 2 3. destruct (forallb is_ascii s) eqn:E.
  - unfold ToLower. rewrite forallb_lower_byte, E. rewrite map_map.
    apply map_ext, lower_byte_idem.
  - pose proof (lower_wide_fix s) as H. cbn in H. unfold ToLower.
    by destruct (forallb is_ascii (lower_wide s)).
Qed.

Lemma ToLower_nil s : ToLower s = [] <-> s = [].
Proof.
  split; [|by intros ->]. unfold ToLower.
  destruct (forallb is_ascii s) eqn:E; [by destruct s|].
  intros H. destruct (decide (s = [])) as [|Hs]; [done|].
  by apply lower_wide_nonempty in Hs.
Qed.

End case.

(** Tables under which bytes outside ASCII map to themselves. *)
Definition ascii_tables : CaseTables.
Proof.
  refine {| lower_wide := map lower_byte; upper_wide := map upper_byte |}.
  - intros s. cbn. assert (map lower_byte (map lower_byte s) = map lower_byte s)
      by (rewrite map_map; apply map_ext, lower_byte_idem).
    by case_match.
  - by intros [].
Defined.

(** ** Searching *)

(** The offset of the first byte that satisfies a predicate; [None] is Go's
    [-1].  [strings.IndexRune] of an ASCII rune and [strings.IndexAny] of a
    set of ASCII runes are both this search. *)
Fixpoint first_index (P : ascii -> bool) (s : bytes) : option nat :=
  match s with
  | [] => None
  | c :: s => if P c then Some 0 else S <$> first_index P s
  end.

Definition IndexByte (s : bytes) (c : ascii) : option nat :=
  first_index (fun d => bool_decide (d = c)) s.

Definition IndexAny (s set : bytes) : option nat :=
  first_index (fun d => bool_decide (d ∈ set)) s.

(** [strings.ContainsRune] *)
Definition ContainsRune (s : bytes) (r : Z) : bool := bool_decide (r ∈ runes s).

(** [strings.ContainsAny] for a set of ASCII runes *)
Definition ContainsAny (s set : bytes) : bool :=
  match IndexAny s set with Some _ => true | None => false end.

Definition HasPrefix (s p : bytes) : bool := bool_decide (take (length p) s = p).

(** [strings.Contains] *)
Fixpoint Contains (s sub : bytes) : bool :=
  HasPrefix s sub || match s with [] => false | _ :: s => Contains s sub end.

Lemma first_index_Some P s i :
  first_index P s = Some i <->
  exists a c b, s = a ++ c :: b /\ length a = i /\ P c = true /\
                Forall (fun d => P d = false) a.
Proof.
  revert i. induction s as [|c s IH]; intros i; cbn.
  { split; [done|]. intros (a & c & b & H & _). by destruct a. }
  destruct (P c) eqn:Hc.
  - split.
    + intros [= <-]. by exists [], c, s.
    + intros (a & d & b & H & Hl & Hd & Ha). destruct a as [|e a]; cbn in *.
      * by subst.
      * apply Forall_cons in Ha as [He _]. congruence.
  - rewrite fmap_Some. split.
    + intros (j & Hj & ->). apply IH in Hj as (a & d & b & -> & <- & Hd & Ha).
      exists (c :: a), d, b. by rewrite Forall_cons.
    + intros (a & d & b & H & Hl & Hd & Ha). destruct a as [|e a]; cbn in *.
      * congruence.
      * simplify_eq. apply Forall_cons in Ha as [_ Ha].
        exists (length a). split; [|done]. apply IH. eauto 8.
Qed.

Lemma first_index_None P s :
  first_index P s = None <-> Forall (fun d => P d = false) s.
Proof.
  induction s as [|c s IH]; cbn; [by split|].
  rewrite Forall_cons. destruct (P c) eqn:Hc; [naive_solver|].
  rewrite fmap_None, IH. naive_solver.
Qed.

Lemma first_index_lt P s i : first_index P s = Some i -> i < length s.
Proof.
  intros (a & c & b & -> & <- & _)%first_index_Some. rewrite length_app. cbn. lia.
Qed.

Lemma first_index_app_l P a b c :
  Forall (fun d => P d = false) a -> P c = true ->
  first_index P (a ++ c :: b) = Some (length a).
Proof. intros Ha Hc. apply first_index_Some. eauto 8. Qed.

Lemma ContainsAny_true s set :
  ContainsAny s set = true <-> exists c, c ∈ s /\ c ∈ set.
Proof.
  unfold ContainsAny, IndexAny. destruct (first_index _ s) eqn:E.
  - split; [|done]. apply first_index_Some in E as (a & c & b & -> & _ & Hc & _).
    intros _. exists c. apply bool_decide_eq_true in Hc. set_solver.
  - split; [done|]. intros (c & Hc & Hs). apply first_index_None in E.
    rewrite Forall_forall in E. apply E in Hc.
    by apply bool_decide_eq_false in Hc.
Qed.

Lemma ContainsAny_false s set :
  ContainsAny s set = false <-> forall c, c ∈ s -> c ∉ set.
Proof.
  rewrite <- not_true_iff_false, ContainsAny_true. naive_solver.
Qed.

Lemma HasPrefix_true s p : HasPrefix s p = true <-> exists t, s = p ++ t.
Proof.
  unfold HasPrefix. rewrite bool_decide_eq_true. split.
  - intros H. exists (drop (length p) s). by rewrite <- H at 1; rewrite take_drop.
  - intros [t ->]. apply take_app_length.
Qed.

(** ** Splitting and joining *)

(** [strings.Split(s, sep)] for a one-byte separator *)
Fixpoint SplitByte (s : bytes) (sep : ascii) : list bytes :=
  match s with
  | [] => [[]]
  | c :: s =>
    if decide (c = sep) then [] :: SplitByte s sep
    else match SplitByte s sep with
         | [] => [[c]]
         | x :: xs => (c :: x) :: xs
         end
  end.

(** [strings.SplitN(s, sep, 2)]: what is before the first separator, and what
    is after it when there is one *)
Definition SplitN2 (s : bytes) (sep : ascii) : bytes * option bytes :=
  match IndexByte s sep with
  | None => (s, None)
  | Some i => (take i s, Some (drop (S i) s))
  end.

(** [strings.Join(l, sep)] *)
Fixpoint Join (l : list bytes) (sep : bytes) : bytes :=
  match l with
  | [] => []
  | [x] => x
  | x :: l => x ++ sep ++ Join l sep
  end.

Lemma SplitByte_nonempty s sep : exists x xs, SplitByte s sep = x :: xs.
Proof.
  destruct s as [|c s]; cbn; [eauto|]. case_decide; [eauto|].
  destruct (SplitByte s sep); eauto.
Qed.

Lemma Join_cons x l sep : l <> [] -> Join (x :: l) sep = x ++ sep ++ Join l sep.
Proof. by destruct l. Qed.

Lemma Join_SplitByte s sep : Join (SplitByte s sep) [sep] = s.
Proof.
  induction s as [|c s IH]; cbn [SplitByte]; [done|].
  destruct (SplitByte_nonempty s sep) as (x & xs & E). rewrite E in IH |- *.
  case_decide as Hc.
  - subst c. rewrite Join_cons by done. rewrite IH. done.
  - destruct xs; cbn in IH |- *; by rewrite IH.
Qed.

Lemma SplitByte_no_sep s sep : sep ∉ s -> SplitByte s sep = [s].
Proof.
  induction s as [|c s IH]; cbn; [done|]. intros Hs.
  rewrite decide_False by set_solver. by rewrite IH by set_solver.
Qed.

Lemma SplitByte_app_sep s t sep :
  sep ∉ s -> SplitByte (s ++ sep :: t) sep = s :: SplitByte t sep.
Proof.
  induction s as [|c s IH]; cbn [app SplitByte]; intros Hs.
  - by rewrite decide_True.
  - rewrite decide_False by set_solver. by rewrite IH by set_solver.
Qed.

Lemma SplitByte_Join l sep :
  l <> [] -> Forall (fun x => sep ∉ x) l -> SplitByte (Join l [sep]) sep = l.
Proof.
  intros Hl Hf. induction Hf as [|x l Hx Hf IH]; [done|].
  destruct l as [|y l]; [by apply SplitByte_no_sep|].
  rewrite Join_cons by done. cbn [app].
  rewrite SplitByte_app_sep by done. by rewrite IH.
Qed.

(** [unicode.IsSpace] *)
Definition is_space (r : Z) : bool :=
  bool_decide (r ∈ [9; 10; 11; 12; 13; 32; 0x85; 0xA0; 0x1680; 0x2028; 0x2029;
                    0x202F; 0x205F; 0x3000]%Z)
  || bool_decide (0x2000 <= r <= 0x200A)%Z.

(** [strings.Fields] *)
Fixpoint fields_aux (cs : list (Z * bytes)) (cur : bytes) : list bytes :=
  match cs with
  | [] => if decide (cur = []) then [] else [cur]
  | (r, b) :: cs =>
    if is_space r then
      if decide (cur = []) then fields_aux cs [] else cur :: fields_aux cs []
    else fields_aux cs (cur ++ b)
  end.

Definition Fields (s : bytes) : list bytes := fields_aux (chunks s) [].

Lemma fields_aux_nonempty cs cur :
  Forall (fun rb => snd rb <> []) cs ->
  Forall (fun f => f <> []) (fields_aux cs cur).
Proof.
  revert cur. induction cs as [|[r b] cs IH]; intros cur Hcs; cbn.
  { case_decide; by repeat constructor. }
  apply Forall_cons in Hcs as [Hb Hcs].
  repeat case_match; try constructor; eauto.
Qed.

Lemma chunks_nonempty s : Forall (fun rb => snd rb <> []) (chunks s).
Proof.
  induction s as [|s r w E IH] using chunks_ind; [constructor|].
  rewrite (chunks_step _ _ _ E). constructor; [|done]. cbn.
  apply decode_rune_width in E. intros H%(f_equal length).
  rewrite length_take in H. cbn in H. lia.
Qed.

(** No field is empty. *)
Lemma Fields_nonempty s : Forall (fun f => f <> []) (Fields s).
Proof. apply fields_aux_nonempty, chunks_nonempty. Qed.

(** No byte of the text is white space. *)
Definition no_space (b : bytes) : Prop :=
  forall c, c ∈ b -> is_ascii c = true -> is_space (code c) = false.

(** No field holds white space. *)
Lemma fields_aux_no_space s pre cs cur :
  chunks s = pre ++ cs -> no_space cur -> Forall no_space (fields_aux cs cur).
Proof.
  revert pre cur. induction cs as [|[z b] cs IH]; intros pre cur Hs Hcur; cbn.
  { case_decide; by repeat constructor. }
  assert (chunks s = (pre ++ [(z, b)]) ++ cs) as Hs' by by rewrite <- app_assoc.
  destruct (is_space z) eqn:Hz.
  - case_decide; [|constructor; [done|]]; apply (IH _ _ Hs'); by intros ? ?%not_elem_of_nil.
  - apply (IH _ _ Hs'). intros c [Hc|Hc]%elem_of_app Ha; [by apply Hcur|].
    destruct (chunks_byte_inv s z b c) as [<- _]; [|done..].
    rewrite Hs. set_solver.
Qed.

Lemma Fields_no_space s : Forall no_space (Fields s).
Proof. apply (fields_aux_no_space s []); [done|]. by intros ? ?%not_elem_of_nil. Qed.

(** Trimming: the chunks at either end whose rune satisfies a predicate *)
Fixpoint trim_left_chunks (P : Z -> bool) (cs : list (Z * bytes)) : list (Z * bytes) :=
  match cs with
  | [] => []
  | (r, b) :: cs' => if P r then trim_left_chunks P cs' else cs
  end.

Definition unchunk (cs : list (Z * bytes)) : bytes := concat (map snd cs).

Definition trim_left_func (P : Z -> bool) (s : bytes) : bytes :=
  unchunk (trim_left_chunks P (chunks s)).
Definition trim_func (P : Z -> bool) (s : bytes) : bytes :=
  unchunk (rev (trim_left_chunks P (rev (trim_left_chunks P (chunks s))))).

(** [strings.TrimSpace], [strings.Trim] and [strings.TrimLeft] *)
Definition TrimSpace : bytes -> bytes := trim_func is_space.
Definition Trim (s cutset : bytes) : bytes :=
  trim_func (fun r => bool_decide (r ∈ runes cutset)) s.
Definition TrimLeft (s cutset : bytes) : bytes :=
  trim_left_func (fun r => bool_decide (r ∈ runes cutset)) s.

(** [bytes.Replace(s, old, new, -1)] for a non-empty [old]: every occurrence,
    left to right, without overlap.  [skip] counts the bytes of an occurrence
    that are still to be passed over. *)
Fixpoint replace_from (old new : bytes) (skip : nat) (s : bytes) : bytes :=
  match s with
  | [] => []
  | c :: s' =>
    match skip with
    | S k => replace_from old new k s'
    | 0 => if HasPrefix s old then new ++ replace_from old new (length old - 1) s'
           else c :: replace_from old new 0 s'
    end
  end.

Definition Replace (s old new : bytes) : bytes := replace_from old new 0 s.

(** [strconv.Itoa] *)
Definition Itoa (z : Z) : bytes := bs (pretty z).

#[export] Hint Rewrite @SplitByte_no_sep @take_app_length @drop_app_length : go.
