(* ===== verification/Regex.v ===== *)
(** * Go's regular expressions

    The package [regexp] of Go's standard library, as far as the modelled
    code's expressions need it: an anchored match of a whole string with
    capture groups, where the reported match is the one a backtracking
    matcher finds first (greedy repetition, first alternative first), as the
    package documents.  The subject is the list of the string's runes, each
    with the bytes it was decoded from, so an invalid byte is matched as
    U+FFFD and a capture is returned byte for byte. *)

From S2P Require Import Prelude GoStrings.

Inductive regex :=
  | RClass (P : Z -> bool)             (* one rune *)
  | REps                               (* the empty string *)
  | RSeq (r1 r2 : regex)
  | RAlt (r1 r2 : regex)
  | RStar (r : regex)                  (* greedy [r*] *)
  | RGroup (n : nat) (r : regex)       (* capture group number [n] *)
  | REnd.                              (* [$]: end of the text *)

Definition RPlus (r : regex) : regex := RSeq r (RStar r).
Definition ROpt (r : regex) : regex := RAlt r REps.
Definition RRune (z : Z) : regex := RClass (fun r => bool_decide (r = z)).
Definition RByte (c : ascii) : regex := RRune (code c).

Fixpoint RSeqs (rs : list regex) : regex :=
  match rs with
  | [] => REps
  | [r] => r
  | r :: rs => RSeq r (RSeqs rs)
  end.

Abbreviation subject := (list (Z * bytes)).
Abbreviation captures := (gmap nat bytes).

(** The continuation receives what is left of the subject.  [RStar] unrolls
    only while an iteration consumes something, so the length of the subject
    bounds the iterations. *)
Fixpoint rmatch (r : regex) (s : subject) (caps : captures)
    (k : subject -> captures -> option captures) : option captures :=
  match r with
  | RClass P =>
    match s with
    | (z, b) :: s' => if P z then k s' caps else None
    | [] => None
    end
  | REps => k s caps
  | RSeq r1 r2 => rmatch r1 s caps (fun s' caps' => rmatch r2 s' caps' k)
  | RAlt r1 r2 =>
    match rmatch r1 s caps k with
    | Some c => Some c
    | None => rmatch r2 s caps k
    end
  | RStar r =>
    (fix star (n : nat) (s : subject) (caps : captures) : option captures :=
       match n with
       | 0 => k s caps
       | S n =>
         match rmatch r s caps (fun s' caps' =>
                 if decide (length s' < length s) then star n s' caps' else None) with
         | Some c => Some c
         | None => k s caps
         end
       end) (length s) s caps
  | RGroup n r =>
    rmatch r s caps (fun s' caps' =>
      k s' (<[n := unchunk (take (length s - length s') s)]> caps'))
  | REnd => match s with [] => k s caps | _ :: _ => None end
  end.

(** [regexp.FindStringSubmatch] of an expression anchored at the start *)
Definition FindSubmatch (r : regex) (s : bytes) : option captures :=
  rmatch r (chunks s) ∅ (fun _ caps => Some caps).

(** [regexp.MatchString] *)
Definition MatchString (r : regex) (s : bytes) : bool :=
  match FindSubmatch r s with Some _ => true | None => false end.

(** The text of a group, empty when it did not take part in the match. *)
Definition group (caps : captures) (n : nat) : bytes := default [] (caps !! n).

(** ** Stepping through a match *)

Section rmatch.
Implicit Types (s : subject) (caps : captures)
  (k : subject -> captures -> option captures).

Lemma rmatch_class_yes P z b s caps k :
  P z = true -> rmatch (RClass P) ((z, b) :: s) caps k = k s caps.
Proof. intros H. cbn. by rewrite H. Qed.

Lemma rmatch_class_no P s caps k :
  match s with (z, _) :: _ => P z = false | [] => True end ->
  rmatch (RClass P) s caps k = None.
Proof. destruct s as [|[z b] s]; cbn; [done|]. by intros ->. Qed.

Lemma rmatch_seq r1 r2 s caps k :
  rmatch (RSeq r1 r2) s caps k =
  rmatch r1 s caps (fun s' caps' => rmatch r2 s' caps' k).
Proof. done. Qed.

Lemma rmatch_opt_some r s caps k c :
  rmatch r s caps k = Some c -> rmatch (ROpt r) s caps k = Some c.
Proof. intros H. cbn. by rewrite H. Qed.

Lemma rmatch_opt_none r s caps k :
  rmatch r s caps k = None -> rmatch (ROpt r) s caps k = k s caps.
Proof. intros H. cbn. by rewrite H. Qed.

Lemma rmatch_opt_inv r s caps k c :
  rmatch (ROpt r) s caps k = Some c -> rmatch r s caps k = Some c \/ k s caps = Some c.
Proof. cbn. destruct (rmatch r s caps k); naive_solver. Qed.

Lemma rmatch_group n r s caps k :
  rmatch (RGroup n r) s caps k =
  rmatch r s caps (fun s' caps' =>
    k s' (<[n := unchunk (take (length s - length s') s)]> caps')).
Proof. done. Qed.

(** The greedy repetition of a class reads the longest run of the class, when
    the rest of the match succeeds from there. *)
Lemma rmatch_star_class P xs rest caps k c :
  Forall (fun zb => P zb.1 = true) xs ->
  match rest with (z, _) :: _ => P z = false | [] => True end ->
  k rest caps = Some c ->
  rmatch (RStar (RClass P)) (xs ++ rest) caps k = Some c.
Proof.
  intros Hxs Hrest Hk. cbn.
  assert (forall n, length (xs ++ rest) <= n ->
    (fix star (n : nat) (s : subject) (caps : captures) : option captures :=
       match n with
       | 0 => k s caps
       | S n =>
         match match s with
               | (z, _) :: s' =>
                 if P z then
                   if decide (length s' < length s) then star n s' caps else None
                 else None
               | [] => None
               end with
         | Some c => Some c
         | None => k s caps
         end
       end) n (xs ++ rest) caps = Some c) as H; [|by apply H].
  induction Hxs as [|[z b] xs Hz Hxs IH]; intros n Hn; cbn [app] in *.
  - destruct n as [|n]; [done|].
    destruct rest as [|[z b] rest]; [done|]. by rewrite Hrest.
  - cbn [length] in Hn. destruct n as [|n]; [lia|]. cbn in Hz. rewrite Hz.
    rewrite decide_True by (cbn; lia). by rewrite IH by lia.
Qed.

(** One or more of a class. *)
Lemma rmatch_plus_class P z b xs rest caps k c :
  P z = true ->
  Forall (fun zb => P zb.1 = true) xs ->
  match rest with (z, _) :: _ => P z = false | [] => True end ->
  k rest caps = Some c ->
  rmatch (RPlus (RClass P)) ((z, b) :: xs ++ rest) caps k = Some c.
Proof.
  intros Hz Hxs Hrest Hk. unfold RPlus. rewrite rmatch_seq, rmatch_class_yes by done.
  by apply rmatch_star_class.
Qed.

(** The continuation is only asked about what is left of the subject. *)
Lemma rmatch_ext r s caps k1 k2 :
  (forall s' caps', length s' <= length s -> k1 s' caps' = k2 s' caps') ->
  rmatch r s caps k1 = rmatch r s caps k2.
Proof.
  revert s caps k1 k2.
  induction r as [P| |r1 IH1 r2 IH2|r1 IH1 r2 IH2|r IH|n r IH|];
    intros s caps k1 k2 Hk; cbn.
  - destruct s as [|[z b] s]; [done|]. case_match; [|done]. apply Hk. cbn. lia.
  - by apply Hk.
  - apply IH1. intros s' caps' Hs. apply IH2. intros. apply Hk. lia.
  - by rewrite (IH1 _ _ _ _ Hk), (IH2 _ _ _ _ Hk).
  - assert (length s <= length s) as Hn by done. revert Hn. revert caps.
    generalize (length s) at 2 3 4 as n. intros n. revert s Hk.
    induction n as [|n IHn]; intros s Hk caps Hn; [by apply Hk|].
    rewrite (Hk s) by done. erewrite IH; [reflexivity|].
    intros s' caps' Hs. cbn beta. case_decide; [|done]. apply IHn; [|lia].
    intros. apply Hk. lia.
  - apply IH. intros. apply Hk. lia.
  - destruct s; [by apply Hk|done].
Qed.

Lemma rmatch_never r s caps : rmatch r s caps (fun _ _ => None) = None.
Proof.
  revert s caps. induction r as [P| |r1 IH1 r2 IH2|r1 IH1 r2 IH2|r IH|n r IH|];
    intros s caps; cbn; try done.
  - destruct s as [|[z b] s]; [done|]. by case_match.
  - erewrite rmatch_ext; [apply IH1|]. intros. apply IH2.
  - by rewrite IH1, IH2.
  - generalize (length s) at 1 as n. intros n. revert s caps.
    induction n as [|n IHn]; intros s caps; [done|].
    rewrite (rmatch_ext _ _ _ _ (fun _ _ => None)); [by rewrite IH|].
    intros. by case_decide.
  - destruct s; done.
Qed.

(** One unrolling of a repetition. *)
Lemma rmatch_star_unroll r s caps k :
  rmatch (RStar r) s caps k =
  match rmatch r s caps (fun s' caps' =>
          if decide (length s' < length s) then rmatch (RStar r) s' caps' k else None) with
  | Some c => Some c
  | None => k s caps
  end.
Proof.
  cbn.
  set (star := fix star (n : nat) (s : subject) (caps : captures) : option captures := _).
  assert (forall n m s caps, length s <= n -> length s <= m -> star n s caps = star m s caps)
    as Hfuel.
  { induction n as [|n IH]; intros m s0 caps0 Hn Hm.
    - destruct s0; [|cbn in Hn; lia]. destruct m; [done|]. cbn.
      rewrite (rmatch_ext _ _ _ _ (fun _ _ => None)); [|by intros [] ?].
      by rewrite rmatch_never.
    - destruct m as [|m].
      { destruct s0; [|cbn in Hm; lia]. cbn.
        rewrite (rmatch_ext _ _ _ _ (fun _ _ => None)); [|by intros [] ?].
        by rewrite rmatch_never. }
      cbn. erewrite rmatch_ext; [reflexivity|]. intros s' caps' Hs. cbn beta.
      case_decide; [|done]. apply IH; lia. }
  destruct (length s) as [|n] eqn:Hs.
  - cbn. rewrite (rmatch_ext _ _ _ _ (fun _ _ => None)); [by rewrite rmatch_never|].
    intros. by rewrite decide_False by lia.
  - cbn. erewrite rmatch_ext; [reflexivity|]. intros s' caps' Hs'. cbn beta.
    rewrite Hs. case_decide; [|done]. apply Hfuel; lia.
Qed.

(** A repetition stops when its body does not match. *)
Lemma rmatch_star_stop r s caps k :
  (forall k', rmatch r s caps k' = None) ->
  rmatch (RStar r) s caps k = k s caps.
Proof. intros H. cbn. destruct (length s); [done|]. by rewrite H. Qed.

(** What a class repetition can have consumed when it succeeds: some prefix
    of runes all in the class. *)
Lemma rmatch_star_class_inv P s caps k c :
  rmatch (RStar (RClass P)) s caps k = Some c ->
  exists xs rest, s = xs ++ rest /\ Forall (fun zb => P zb.1 = true) xs /\
                  k rest caps = Some c.
Proof.
  cbn. generalize (length s) at 1 as n.
  induction s as [|[z b] s IH]; intros n H.
  { exists [], []. by destruct n. }
  destruct n as [|n]; [by exists [], ((z, b) :: s)|].
  destruct (P z) eqn:Hz; [|by exists [], ((z, b) :: s)].
  rewrite decide_True in H by (cbn; lia).
  match type of H with
  | match ?m with _ => _ end = _ => destruct m eqn:E
  end; [|by exists [], ((z, b) :: s)].
  injection H as ->. destruct (IH n) as (xs & rest & -> & Hxs & Hk); [exact E|].
  exists ((z, b) :: xs), rest. by repeat constructor.
Qed.

Lemma rmatch_plus_class_inv P s caps k c :
  rmatch (RPlus (RClass P)) s caps k = Some c ->
  exists xs rest, s = xs ++ rest /\ xs <> [] /\
                  Forall (fun zb => P zb.1 = true) xs /\ k rest caps = Some c.
Proof.
  unfold RPlus. rewrite rmatch_seq. destruct s as [|[z b] s]; cbn [rmatch]; [done|].
  destruct (P z) eqn:Hz; [|done].
  intros (xs & rest & -> & Hxs & Hk)%rmatch_star_class_inv.
  exists ((z, b) :: xs), rest. by repeat constructor.
Qed.

(** The capture groups of an expression. *)
Fixpoint has_group (n : nat) (r : regex) : bool :=
  match r with
  | RClass _ | REps | REnd => false
  | RSeq r1 r2 | RAlt r1 r2 => has_group n r1 || has_group n r2
  | RStar r => has_group n r
  | RGroup m r => bool_decide (m = n) || has_group n r
  end.

(** A match that succeeds consumed some prefix of the subject and changed
    only the captures of the expression's own groups. *)
Lemma rmatch_consumes r s caps k c :
  rmatch r s caps k = Some c ->
  exists xs rest caps', s = xs ++ rest /\ k rest caps' = Some c /\
    forall n, has_group n r = false -> caps' !! n = caps !! n.
Proof.
  revert s caps k. induction r as [P| |r1 IH1 r2 IH2|r1 IH1 r2 IH2|r IH|m r IH|];
    intros s caps k; cbn.
  - destruct s as [|[z b] s]; [done|]. case_match; [|done]. intros Hk.
    by exists [(z, b)], s, caps.
  - intros H. by exists [], s, caps.
  - intros (xs & rest & caps1 & -> & H & Hc)%IH1.
    apply IH2 in H as (ys & rest' & caps2 & -> & H' & Hc').
    exists (xs ++ ys), rest', caps2. rewrite app_assoc. split; [done|]. split; [done|].
    intros n [H1 H2]%orb_false_iff. by rewrite Hc', Hc.
  - destruct (rmatch r1 s caps k) eqn:E; intros H; simplify_eq.
    + apply IH1 in E as (xs & rest & caps1 & -> & H & Hc).
      exists xs, rest, caps1. split; [done|]. split; [done|].
      intros n [H1 H2]%orb_false_iff. by apply Hc.
    + apply IH2 in H as (xs & rest & caps1 & -> & H & Hc).
      exists xs, rest, caps1. split; [done|]. split; [done|].
      intros n [H1 H2]%orb_false_iff. by apply Hc.
  - generalize (length s) at 1 as n. intros n. revert s caps.
    induction n as [|n IHn]; intros s caps H; [by exists [], s, caps|].
    match type of H with match ?m with _ => _ end = _ => destruct m eqn:E end;
      [|by exists [], s, caps].
    injection H as ->. apply IH in E as (xs & rest & caps1 & -> & H1 & Hc).
    case_decide; [|done]. apply IHn in H1 as (ys & rest' & caps2 & -> & H2 & Hc').
    exists (xs ++ ys), rest', caps2. rewrite app_assoc. split; [done|]. split; [done|].
    intros i Hi. by rewrite Hc', Hc.
  - intros (xs & rest & caps1 & -> & H & Hc)%IH.
    exists xs, rest, (<[m := unchunk (take (length (xs ++ rest) - length rest) (xs ++ rest))]> caps1).
    split; [done|]. split; [done|].
    intros n [Hm%bool_decide_eq_false Hn]%orb_false_iff.
    rewrite lookup_insert_ne by done. by apply Hc.
  - destruct s; [|done]. intros H. by exists [], [], caps.
Qed.

End rmatch.

Lemma take_consumed (xs rest : subject) :
  take (length (xs ++ rest) - length rest) (xs ++ rest) = xs.
Proof. rewrite length_app, Nat.add_sub. apply take_app_length. Qed.

Create Rewrite HintDb regex.
#[export] Hint Rewrite rmatch_seq rmatch_group take_consumed : regex.
#[global] Arguments rmatch : simpl never.
