(* ===== verification/Hosts.v ===== *)
(** * Package irc: hosts and masks (irc/hosts.go)

    A full host is [nick!username@hostname]; a mask is the same with the
    wildcards [?] and [*].  The two regular expressions are data of type
    [regex]; the matcher [isMatch] is the source's index loop, where the pair
    of suffixes still to be read stands for the pair of indices. *)

From S2P Require Import Prelude GoStrings Regex.

(** ** Validating and splitting *)

(** [\w] of Go's regexp under the flag [(?i)]: the two runes outside ASCII
    are the case folds of [s] and [k]. *)
Definition word_rune (r : Z) : bool :=
  bool_decide (48 <= r <= 57)%Z || bool_decide (65 <= r <= 90)%Z
  || bool_decide (97 <= r <= 122)%Z || bool_decide (r = 95)%Z
  || bool_decide (r = 0x17F)%Z || bool_decide (r = 0x212A)%Z.

(** [\s] of Go's regexp *)
Definition space_rune (r : Z) : bool :=
  bool_decide (r ∈ [9; 10; 12; 13; 32]%Z).

(** irc/hosts.go:12-12 [rgxHost]: the class [[\w\x5B-\x60]]; [\d] adds
    nothing to it. *)
Definition nick_rune (r : Z) : bool :=
  word_rune r || bool_decide (0x5B <= r <= 0x60)%Z.

(** irc/hosts.go:21-21 [rgxMask]: the class [[\w\x5B-\x60\?\*]] *)
Definition mask_nick_rune (r : Z) : bool :=
  nick_rune r || bool_decide (r = code "?") || bool_decide (r = code "*").

(** irc/hosts.go:13-13 [rgxHost]: the class [[^\0@\s]] *)
Definition user_rune (r : Z) : bool :=
  negb (bool_decide (r = 0)%Z || bool_decide (r = code "@") || space_rune r).

(** irc/hosts.go:14-14 [rgxHost]: the class [[^\0\s]] *)
Definition host_rune (r : Z) : bool :=
  negb (bool_decide (r = 0)%Z || space_rune r).

Definition fullhost_regex (nick : Z -> bool) : regex :=
  RSeqs [RGroup 1 (RPlus (RClass nick)); RByte "!";
         RGroup 2 (RPlus (RClass user_rune)); RByte "@";
         RGroup 3 (RPlus (RClass host_rune)); REnd].

(** irc/hosts.go:9-16 [rgxHost] *)
Definition rgxHost : regex := fullhost_regex nick_rune.

(** irc/hosts.go:18-25 [rgxMask] *)
Definition rgxMask : regex := fullhost_regex mask_nick_rune.

(** irc/hosts.go [Split]: the fragments, all empty when the host is
    not in the accepted format *)
Definition Split (host : bytes) : bytes * bytes * bytes :=
  match FindSubmatch rgxHost host with
  | None => ([], [], [])
  | Some caps => (group caps 1, group caps 2, group caps 3)
  end.

(** irc/hosts.go [Nick]: what is before the first [!] or [@] *)
Definition Nick (host : bytes) : bytes :=
  match IndexAny host (bs "!@") with
  | Some i => take i host
  | None => host
  end.

(** irc/hosts.go [Username] *)
Definition Username (host : bytes) : bytes := let '(_, user, _) := Split host in user.

(** irc/hosts.go [Hostname] *)
Definition Hostname (host : bytes) : bytes := let '(_, _, hostname) := Split host in hostname.

(** irc/hosts.go [Host.IsValid] *)
Definition Host_IsValid (h : bytes) : bool := MatchString rgxHost h.

(** irc/hosts.go [Mask.IsValid] *)
Definition Mask_IsValid (m : bytes) : bool := MatchString rgxMask m.

(** irc/hosts.go [Mask.Split] *)
Definition Mask_Split (m : bytes) : bytes * bytes * bytes :=
  match FindSubmatch rgxMask m with
  | None => ([], [], [])
  | Some caps => (group caps 1, group caps 2, group caps 3)
  end.

(** ** Mask matching *)

Definition is_wild (c : ascii) : bool :=
  bool_decide (c = "?"%char) || bool_decide (c = "*"%char).

(** irc/hosts.go:104-111 [isMatch]: the run of wildcards at the front of the
    mask: whether it holds a star, its length, and what follows it *)
Fixpoint skip_wild (ms : bytes) : bool * nat * bytes :=
  match ms with
  | [] => (false, 0, [])
  | m :: ms' =>
    if is_wild m then
      let '(star, n, rest) := skip_wild ms' in
      (bool_decide (m = "*"%char) || star, S n, rest)
    else (false, 0, ms)
  end.

Inductive loop_result :=
  | Exit (ms hs : bytes) (consume : Z)   (* the loop's condition failed *)
  | ReturnFalse
  | OutOfFuel.

(** irc/hosts.go:100-129 [isMatch]: the main loop.  [ms] and [hs] are
    [ms[i:]] and [hs[j:]]; an iteration shortens one of them. *)
Fixpoint match_loop (fuel : nat) (ms hs : bytes) (consume : Z) : loop_result :=
  match fuel with
  | 0 => OutOfFuel
  | S fuel =>
    match ms, hs with
    | m :: ms', h :: hs' =>
      if is_wild m then
        let '(star, n, rest) := skip_wild ms in
        match_loop fuel rest hs (if star : bool then -1 else Z.of_nat n)
      else if decide (m = h) then match_loop fuel ms' hs' 0
      else if decide (consume <> 0)%Z then match_loop fuel ms hs' (consume - 1)
      else ReturnFalse
    | _, _ => Exit ms hs consume
    end
  end.

(** irc/hosts.go [isMatch] *)
Definition isMatch (hs ms : bytes) : bool :=
  match ms with
  | [] => bool_decide (length hs = 0)
  | _ =>
    match match_loop (S (length ms + length hs)) ms hs 0 with
    | Exit ms hs consume =>
      let ms := (skip_wild ms).2 in
      let consume := if bool_decide (consume < 0)%Z then Z.of_nat (length hs) else consume in
      negb (bool_decide (0 < length ms) || bool_decide (consume < Z.of_nat (length hs))%Z)
    | ReturnFalse | OutOfFuel => false
    end
  end.

(** irc/hosts.go [Mask.Match] *)
Definition Mask_Match (m h : bytes) : bool := isMatch h m.

(** irc/hosts.go [Host.Match] *)
Definition Host_Match (h m : bytes) : bool := isMatch h m.

(** ** The nick of a host *)

Lemma Nick_no_delim h : Forall (fun c => c ∉ bs "!@") (Nick h).
Proof.
  unfold Nick, IndexAny. destruct (first_index _ h) as [i|] eqn:E.
  - apply first_index_Some in E as (a & c & b & -> & <- & _ & Ha).
    rewrite take_app_length. eapply Forall_impl; [exact Ha|]. cbn.
    by intros d ?%bool_decide_eq_false.
  - apply first_index_None in E. eapply Forall_impl; [exact E|]. cbn.
    by intros d ?%bool_decide_eq_false.
Qed.

Lemma Nick_id n : Forall (fun c => c ∉ bs "!@") n -> Nick n = n.
Proof.
  intros Hn. unfold Nick, IndexAny.
  destruct (first_index _ n) as [i|] eqn:E; [|done].
  apply first_index_Some in E as (a & c & b & -> & _ & Hc & _).
  apply bool_decide_eq_true in Hc. rewrite Forall_app, Forall_cons in Hn. naive_solver.
Qed.

Lemma Nick_idem h : Nick (Nick h) = Nick h.
Proof. apply Nick_id, Nick_no_delim. Qed.

Lemma Nick_app n c t :
  Forall (fun c => c ∉ bs "!@") n -> c ∈ bs "!@" -> Nick (n ++ c :: t) = n.
Proof.
  intros Hn Hc. unfold Nick, IndexAny.
  rewrite (first_index_app_l (fun d => bool_decide (d ∈ bs "!@"))).
  - apply take_app_length.
  - eapply Forall_impl; [exact Hn|]. intros d ?. by apply bool_decide_eq_false.
  - by apply bool_decide_eq_true.
Qed.

(** ** Splitting is the inverse of composing *)

(** The composed form [nick!user@host]. *)
Definition fullhost (n u h : bytes) : bytes := n ++ "!"%char :: u ++ "@"%char :: h.

(** A string that is non-empty and made of a class's runes. *)
Definition of_class (P : Z -> bool) (s : bytes) : Prop :=
  s <> [] /\ Forall (fun zb => P zb.1 = true) (chunks s).

Lemma of_class_chunks P s :
  of_class P s -> exists z b xs, chunks s = (z, b) :: xs /\ P z = true /\
                                 Forall (fun zb => P zb.1 = true) xs.
Proof.
  intros [Hs Hf]. destruct (chunks s) as [|[z b] xs] eqn:E.
  - pose proof (chunks_concat s) as H. rewrite E in H. by destruct Hs.
  - apply Forall_cons in Hf as [? ?]. eauto 8.
Qed.

Lemma unchunk_chunks s : unchunk (chunks s) = s.
Proof. apply chunks_concat. Qed.

(** One group of the expression: the longest run of its class is captured,
    when the rest of the match succeeds from there. *)
Lemma rmatch_group_class n P s rest caps k c :
  of_class P s ->
  match rest with (z, _) :: _ => P z = false | [] => True end ->
  k rest (<[n := s]> caps) = Some c ->
  rmatch (RGroup n (RPlus (RClass P))) (chunks s ++ rest) caps k = Some c.
Proof.
  intros Hs Hrest Hk. destruct (of_class_chunks _ _ Hs) as (z & b & xs & E & Hz & Hxs).
  rewrite rmatch_group.
  match goal with |- rmatch _ _ _ ?K = _ => set (K0 := K) end.
  assert (K0 rest caps = Some c) as HK.
  { subst K0. cbn beta. by rewrite take_consumed, unchunk_chunks. }
  clearbody K0.
  rewrite E. cbn [app]. by apply rmatch_plus_class.
Qed.

Lemma rmatch_byte c s caps k :
  rmatch (RByte c) ((code c, [c]) :: s) caps k = k s caps.
Proof. unfold RByte, RRune. apply rmatch_class_yes. by apply bool_decide_eq_true. Qed.

Lemma chunks_fullhost n u h :
  chunks (fullhost n u h) =
  chunks n ++ (code "!", ["!"%char]) :: chunks u ++ (code "@", ["@"%char]) :: chunks h.
Proof. unfold fullhost. by rewrite !chunks_app_ascii. Qed.

Lemma fullhost_match P n u h :
  P (code "!") = false ->
  of_class P n -> of_class user_rune u -> of_class host_rune h ->
  FindSubmatch (fullhost_regex P) (fullhost n u h) =
    Some (<[3 := h]> (<[2 := u]> (<[1 := n]> ∅))).
Proof.
  intros HP Hn Hu Hh. unfold FindSubmatch, fullhost_regex. cbn [RSeqs].
  rewrite chunks_fullhost, !rmatch_seq.
  apply rmatch_group_class; [done|done|].
  rewrite rmatch_seq, rmatch_byte, rmatch_seq.
  apply rmatch_group_class; [done|done|].
  rewrite rmatch_seq, rmatch_byte, rmatch_seq.
  rewrite <- (app_nil_r (chunks h)).
  by apply rmatch_group_class.
Qed.

(** Splitting a full host that was composed from a nick, a user name and
    a host name of the accepted characters gives the three parts back. *)
Theorem Split_fullhost n u h :
  of_class nick_rune n -> of_class user_rune u -> of_class host_rune h ->
  Split (fullhost n u h) = (n, u, h).
Proof.
  intros Hn Hu Hh. unfold Split, rgxHost. rewrite fullhost_match by done.
  unfold group. by simplify_map_eq.
Qed.

Lemma rmatch_group_class_inv n P s caps k c :
  rmatch (RGroup n (RPlus (RClass P))) s caps k = Some c ->
  exists xs rest, s = xs ++ rest /\ xs <> [] /\
    Forall (fun zb => P zb.1 = true) xs /\ k rest (<[n := unchunk xs]> caps) = Some c.
Proof.
  rewrite rmatch_group. intros (xs & rest & -> & ? & ? & Hk)%rmatch_plus_class_inv.
  rewrite take_consumed in Hk. eauto 8.
Qed.

Lemma rmatch_byte_inv b s caps k c :
  rmatch (RByte b) s caps k = Some c ->
  exists bb ss, s = (code b, bb) :: ss /\ k ss caps = Some c.
Proof.
  unfold RByte, RRune. destruct s as [|[z b'] s]; [done|].
  cbv [rmatch]. case_bool_decide; [|done]. subst. eauto.
Qed.

Lemma fullhost_match_inv P s caps :
  FindSubmatch (fullhost_regex P) s = Some caps ->
  exists n u h, s = fullhost n u h /\ n <> [] /\ u <> [] /\ h <> [] /\
    ("@"%char ∉ u) /\ caps = <[3 := h]> (<[2 := u]> (<[1 := n]> ∅)).
Proof.
  unfold FindSubmatch, fullhost_regex. cbn [RSeqs]. rewrite !rmatch_seq.
  intros (n & s1 & Es & Hn & _ & H)%rmatch_group_class_inv.
  rewrite rmatch_seq in H. apply rmatch_byte_inv in H as (b1 & s2 & -> & H).
  rewrite rmatch_seq in H.
  apply rmatch_group_class_inv in H as (u & s3 & -> & Hu & Hcu & H).
  rewrite rmatch_seq in H. apply rmatch_byte_inv in H as (b2 & s4 & -> & H).
  rewrite rmatch_seq in H.
  apply rmatch_group_class_inv in H as (h & s5 & -> & Hh & _ & H).
  cbv [rmatch] in H. destruct s5; [|done]. injection H as <-. rewrite app_nil_r in Es.
  assert (forall x, x ∈ chunks s -> (x.1 < 128)%Z -> x.2 = [byte_of x.1]) as Hasc.
  { intros [z b] ? ?. by eapply chunks_ascii_inv. }
  assert (forall xs, xs <> [] -> (forall x, x ∈ xs -> x ∈ chunks s) -> unchunk xs <> []) as Hne.
  { intros [|[z b] xs] Hxs Hin; [done|]. cbn. pose proof (chunks_nonempty s) as Hf.
    rewrite Forall_forall in Hf. specialize (Hf (z, b)). cbn in Hf.
    destruct b; [|done]. by destruct Hf; [apply Hin; left|]. }
  assert (b1 = ["!"%char] /\ b2 = ["@"%char]) as [-> ->].
  { split; [apply (Hasc (code "!", b1))|apply (Hasc (code "@", b2))]; rewrite ?Es;
      try done; set_solver. }
  exists (unchunk n), (unchunk u), (unchunk h). split_and!; try done.
  - rewrite <- (unchunk_chunks s), Es. unfold unchunk, fullhost.
    rewrite !map_app, !concat_app. cbn. by rewrite map_app, concat_app.
  - apply Hne; [done|]. rewrite Es. set_solver.
  - apply Hne; [done|]. rewrite Es. set_solver.
  - apply Hne; [done|]. rewrite Es. set_solver.
  - intros Hat. unfold unchunk in Hat. apply list_elem_of_In, in_concat in Hat.
    destruct Hat as (b & ([z b'] & <- & Hzb)%in_map_iff & Hb).
    apply list_elem_of_In in Hzb, Hb. rewrite Forall_forall in Hcu.
    specialize (Hcu _ Hzb). cbn in Hcu, Hb.
    destruct (chunks_byte_inv s z b' "@"%char) as [-> _]; [|done|done|done].
    rewrite Es. set_solver.
Qed.

Lemma Split_fullhost_witness :
  Split (fullhost (bs "nick") (bs "~user") (bs "my.host"))
  = (bs "nick", bs "~user", bs "my.host").
Proof.
  apply Split_fullhost; (split; [done|]); vm_compute; repeat constructor.
Defined.

(** Splitting is exact: whenever the nick it returns is not empty, the
    three parts are non-empty and the host is their composition. *)
Theorem Split_exact s n u h :
  Split s = (n, u, h) -> n <> [] -> s = fullhost n u h /\ u <> [] /\ h <> [].
Proof.
  unfold Split. destruct (FindSubmatch rgxHost s) as [caps|] eqn:E; [|by intros [= <- _ _]].
  apply fullhost_match_inv in E as (n' & u' & h' & -> & ? & ? & ? & ? & ->).
  unfold group. simplify_map_eq. by intros [= <- <- <-].
Qed.

Lemma Split_exact_witness :
  bs "a!b@c" = fullhost (bs "a") (bs "b") (bs "c") /\ bs "b" <> [] /\ bs "c" <> [].
Proof. apply Split_exact; [by vm_compute|done]. Defined.

(** ** The relation a mask stands for *)

(** [?] stands for at most one character, [*] for any number. *)
Inductive glob : bytes -> bytes -> Prop :=
  | glob_nil : glob [] []
  | glob_lit c m h : is_wild c = false -> glob m h -> glob (c :: m) (c :: h)
  | glob_q0 m h : glob m h -> glob ("?"%char :: m) h
  | glob_q1 c m h : glob m h -> glob ("?"%char :: m) (c :: h)
  | glob_s0 m h : glob m h -> glob ("*"%char :: m) h
  | glob_s1 c m h : glob ("*"%char :: m) h -> glob ("*"%char :: m) (c :: h).

(** What the loop's [consume] allows: a prefix of the host of at most that
    length, or of any length when it is negative, is covered by wildcards
    already read. *)
Definition pending (consume : Z) (ms hs : bytes) : Prop :=
  exists a b, hs = a ++ b /\ (consume < 0 \/ Z.of_nat (length a) <= consume)%Z /\ glob ms b.

Lemma is_wild_cases c : is_wild c = true -> c = "?"%char \/ c = "*"%char.
Proof. unfold is_wild. rewrite orb_true_iff, !bool_decide_eq_true. done. Qed.

Lemma skip_wild_glob ms star n rest a b :
  skip_wild ms = (star, n, rest) ->
  star = true \/ length a <= n -> glob rest b -> glob ms (a ++ b).
Proof.
  revert star n a. induction ms as [|m ms IH]; intros star n a; cbn.
  { intros [= <- <- <-] [|Ha] Hb; [done|]. by destruct a; cbn in Ha; [|lia]. }
  destruct (is_wild m) eqn:Hm.
  2:{ intros [= <- <- <-] [|Ha] Hb; [done|]. by destruct a; cbn in Ha; [|lia]. }
  destruct (skip_wild ms) as [[star' n'] rest'] eqn:E. intros [= <- <- <-] Ha Hb.
  apply is_wild_cases in Hm as [->| ->].
  - rewrite bool_decide_false in Ha by done. cbn in Ha.
    destruct a as [|c a]; cbn [app].
    + apply glob_q0. apply (IH star' n' []); [done|cbn; destruct Ha; auto with lia|done].
    + apply glob_q1. apply (IH star' n' a); [done|cbn in Ha; destruct Ha; auto with lia|done].
  - clear Ha. induction a as [|c a IHa]; cbn [app]; [|by apply glob_s1].
    apply glob_s0. apply (IH star' n' []); [done|right; cbn; lia|done].
Qed.

Lemma skip_wild_length ms star n rest :
  skip_wild ms = (star, n, rest) -> length ms = n + length rest.
Proof.
  revert star n rest. induction ms as [|m ms IH]; intros star n rest; cbn; [by intros [= <- <- <-]|].
  destruct (is_wild m); [|by intros [= <- <- <-]].
  destruct (skip_wild ms) as [[s' n'] r']. intros [= <- <- <-].
  by rewrite (IH _ _ _ eq_refl).
Qed.

Lemma skip_wild_head m ms star n rest :
  is_wild m = true -> skip_wild (m :: ms) = (star, n, rest) -> 0 < n.
Proof.
  cbn. intros ->. destruct (skip_wild ms) as [[s' n'] r']. intros [= <- <- <-]. lia.
Qed.

Lemma match_loop_sound fuel ms hs consume ms' hs' consume' :
  match_loop fuel ms hs consume = Exit ms' hs' consume' ->
  pending consume' ms' hs' -> pending consume ms hs.
Proof.
  revert ms hs consume. induction fuel as [|fuel IH]; intros ms hs consume; [done|].
  destruct ms as [|m ms], hs as [|h hs]; cbn [match_loop]; try (by intros [= <- <- <-]).
  destruct (is_wild m) eqn:Hm.
  - destruct (skip_wild (m :: ms)) as [[star n] rest] eqn:E.
    intros Hl Hp. apply IH in Hl as (a & b & Hab & Hlen & Hg); [|done].
    exists [], (h :: hs). split_and!; [done|cbn; lia|]. rewrite Hab.
    eapply skip_wild_glob; [done| |done]. destruct star; [by left|right; lia].
  - case_decide as Heq; [subst h|case_decide as Hc; [|done]]; intros Hl Hp;
      apply IH in Hl as (a & b & Hab & Hlen & Hg); [|done| |done].
    + destruct a; cbn in Hlen; [|lia]. cbn in Hab. subst b.
      exists [], (m :: hs). split_and!; [done|cbn; lia|by constructor].
    + exists (h :: a), b. split_and!; [cbn; by f_equal|cbn; lia|done].
Qed.

Lemma match_loop_fuel ms hs consume fuel :
  length ms + length hs < fuel -> match_loop fuel ms hs consume <> OutOfFuel.
Proof.
  revert ms hs consume. induction fuel as [|fuel IH]; intros ms hs consume Hf; [lia|].
  destruct ms as [|m ms], hs as [|h hs]; cbn [match_loop]; try done.
  destruct (is_wild m) eqn:Hm.
  - destruct (skip_wild (m :: ms)) as [[star n] rest] eqn:E. apply IH.
    pose proof (skip_wild_head _ _ _ _ _ Hm E). apply skip_wild_length in E.
    cbn in *. lia.
  - cbn in Hf. repeat case_decide; try done; apply IH; cbn; lia.
Qed.

Lemma skip_wild_all ms h : (skip_wild ms).2 = [] -> glob ms h \/ h <> [].
Proof.
  destruct h as [|c h]; [left|by right]. destruct (skip_wild ms) as [[star n] rest] eqn:E.
  cbn in *. subst rest. rewrite <- (app_nil_r []).
  eapply skip_wild_glob; [done|right; cbn; lia|constructor].
Qed.

Lemma match_loop_exit fuel ms hs consume ms' hs' consume' :
  match_loop fuel ms hs consume = Exit ms' hs' consume' -> ms' = [] \/ hs' = [].
Proof.
  revert ms hs consume. induction fuel as [|fuel IH]; intros ms hs consume; [done|].
  destruct ms as [|m ms], hs as [|h hs]; cbn [match_loop];
    try (intros [= <- <- <-]; by auto).
  destruct (is_wild m); [destruct (skip_wild (m :: ms)) as [[star n] rest]; apply IH|].
  repeat case_decide; try done; apply IH.
Qed.

(** A mask only matches hosts it stands for: when [isMatch] answers true
    the host is in the relation [glob] of the mask, where [?] is at most one
    character and [*] is any number. *)
Theorem isMatch_sound hs ms : isMatch hs ms = true -> glob ms hs.
Proof.
  unfold isMatch. destruct ms as [|m ms].
  { intros H%bool_decide_eq_true. destruct hs; [constructor|done]. }
  destruct (match_loop _ _ _ _) as [ms' hs' consume'| |] eqn:E; [|done..].
  rewrite negb_true_iff, orb_false_iff, !bool_decide_eq_false. intros [Hm Hc].
  assert (pending 0 (m :: ms) hs) as (a & b & -> & Ha & Hg).
  { eapply match_loop_sound; [exact E|].
    pose proof (match_loop_exit _ _ _ _ _ _ _ E) as Hex.
    assert ((skip_wild ms').2 = []) as Hs by (destruct (skip_wild ms').2; [done|cbn in Hm; lia]).
    exists hs', []. rewrite app_nil_r. split_and!; [done| |].
    - case_bool_decide; lia.
    - by destruct (skip_wild_all ms' [] Hs). }
  destruct a; [done|cbn in Ha; lia].
Qed.

Lemma isMatch_sound_witness : glob (bs "n?ck!*@h*") (bs "nick!user@host").
Proof. apply isMatch_sound. by vm_compute. Defined.

(** The loop of [isMatch] ends: every iteration advances one of the two
    indices, so the sum of the lengths is fuel enough. *)
Theorem match_loop_terminates hs ms :
  match_loop (S (length ms + length hs)) ms hs 0 <> OutOfFuel.
Proof. apply match_loop_fuel. lia. Qed.

(** ** Where the matcher is complete, and where it is not *)

Lemma match_loop_mono fuel fuel' ms hs consume :
  fuel <= fuel' -> match_loop fuel ms hs consume <> OutOfFuel ->
  match_loop fuel' ms hs consume = match_loop fuel ms hs consume.
Proof.
  revert fuel' ms hs consume. induction fuel as [|fuel IH]; intros fuel' ms hs consume Hf; [done|].
  destruct fuel' as [|fuel']; [lia|].
  destruct ms as [|m ms], hs as [|h hs]; cbn [match_loop]; try done.
  destruct (is_wild m); [destruct (skip_wild (m :: ms)) as [[star n] rest]; apply IH; lia|].
  repeat case_decide; try done; apply IH; lia.
Qed.

(** The loop with fuel enough, and its equations. *)
Definition run (ms hs : bytes) (consume : Z) : loop_result :=
  match_loop (S (length ms + length hs)) ms hs consume.

Lemma run_fuel fuel ms hs consume :
  length ms + length hs < fuel -> match_loop fuel ms hs consume = run ms hs consume.
Proof. intros H. apply match_loop_mono; [lia|]. apply match_loop_fuel. lia. Qed.

Lemma run_eq m ms hs consume :
  is_wild m = false -> run (m :: ms) (m :: hs) consume = run ms hs 0.
Proof.
  intros Hm. unfold run at 1. cbn [match_loop]. rewrite Hm, decide_True by done.
  apply run_fuel. cbn. lia.
Qed.

Lemma run_skip m ms h hs consume :
  is_wild m = false -> h <> m -> (consume < 0)%Z ->
  run (m :: ms) (h :: hs) consume = run (m :: ms) hs (consume - 1).
Proof.
  intros Hm Hh Hc. unfold run at 1. cbn [match_loop].
  rewrite Hm, decide_False, decide_True by (done || lia). apply run_fuel. cbn. lia.
Qed.

Lemma run_star m ms h hs consume :
  is_wild m = false ->
  run ("*"%char :: m :: ms) (h :: hs) consume = run (m :: ms) (h :: hs) (-1).
Proof.
  intros Hm. unfold run at 1. cbn [match_loop].
  replace (skip_wild ("*"%char :: m :: ms)) with (true, 1, m :: ms)
    by (cbn; by rewrite Hm).
  cbn [is_wild]. rewrite run_fuel; [done|cbn; lia].
Qed.

(** A star followed by a literal stops at the literal's first occurrence. *)
Lemma run_star_literal m ms a b consume :
  is_wild m = false -> m ∉ a ->
  run ("*"%char :: m :: ms) (a ++ m :: b) consume = run ms b 0.
Proof.
  intros Hm Ha.
  assert (forall z, (z < 0)%Z -> run (m :: ms) (a ++ m :: b) z = run ms b 0) as H.
  { induction a as [|c a IH]; intros z Hz; cbn [app]; [by apply run_eq|].
    rewrite run_skip by set_solver. apply IH; [set_solver|lia]. }
  destruct a as [|c a]; cbn [app] in *; rewrite run_star by done; apply H; lia.
Qed.

Lemma run_literal h :
  Forall (fun c => is_wild c = false) h -> run h h 0 = Exit [] [] 0.
Proof. induction 1 as [|c h Hc _ IH]; [done|]. by rewrite run_eq. Qed.

(** The mask [*!*@host]: everyone from one host. *)
Definition host_mask (h : bytes) : bytes := bs "*!*@" ++ h.

(** The usual host ban is complete: [*!*@h] matches every full host with
    the host name [h], provided the nick has no [!] and the user name no
    [@]. *)
Theorem isMatch_host_mask n u h :
  "!"%char ∉ n -> "@"%char ∉ u -> Forall (fun c => is_wild c = false) h ->
  isMatch (fullhost n u h) (host_mask h) = true.
Proof.
  intros Hn Hu Hh. unfold isMatch, host_mask. cbn [bs String.list_ascii_of_string app].
  change (match_loop _ ?m ?s 0) with (run m s 0).
  unfold fullhost. rewrite !run_star_literal by done. by rewrite run_literal.
Qed.

Lemma isMatch_host_mask_witness :
  isMatch (fullhost (bs "bob") (bs "~b") (bs "example.org")) (host_mask (bs "example.org")) = true.
Proof. apply isMatch_host_mask; decide_now. Defined.

(** The matcher does not backtrack: the host [abbc] is one the mask
    [*bc] stands for, and [isMatch] refuses it. *)
Theorem isMatch_incomplete :
  glob (bs "*bc") (bs "abbc") /\ isMatch (bs "abbc") (bs "*bc") = false.
Proof.
  split; [|by vm_compute]. do 2 apply glob_s1. apply glob_s0.
  by repeat constructor.
Qed.
