(* ===== verification/Ctcp.v ===== *)
(** * Package irc: the CTCP quoting (irc/ctcp.go)

    A CTCP message is a tag and optional data, quoted at a high level, joined
    with a space, quoted again at a low level and put between two [\x01].
    A [nil] slice is [None] where the code tells it from an empty one. *)

From S2P Require Import Prelude GoStrings.

(** irc/ctcp.go:6-6 [ctcpDelim] *)
Definition ctcpDelim : ascii := byte_of 0x01.
(** irc/ctcp.go:7-7 [ctcpLowQuote] *)
Definition ctcpLowQuote : ascii := byte_of 0x10.
(** irc/ctcp.go:8-8 [ctcpHighQuote] *)
Definition ctcpHighQuote : ascii := byte_of 0x5C.
(** irc/ctcp.go:9-9 [ctcpSep] *)
Definition ctcpSep : ascii := byte_of 0x20.

Definition CR : ascii := byte_of 13.
Definition LF : ascii := byte_of 10.
Definition NUL : ascii := byte_of 0.
Definition letter_a : ascii := byte_of 0x61.

(** irc/ctcp.go [IsCTCP]. An empty message panics. *)
Definition IsCTCP (msg : bytes) : go bool :=
  first ← index msg 0;
  if bool_decide (ctcpDelim = first) then
    last ← index msg (length msg - 1);
    Ret (bool_decide (ctcpDelim = last))
  else Ret false.

(** irc/ctcp.go [IsCTCPString] *)
Definition IsCTCPString (msg : bytes) : go bool := IsCTCP msg.

(** irc/ctcp.go [ctcpUnpack] *)
Definition ctcpUnpack (input : bytes) : bytes * option bytes := SplitN2 input ctcpSep.

(** irc/ctcp.go [ctcpPack] *)
Definition ctcpPack (tag : bytes) (data : option bytes) : bytes :=
  match data with
  | None | Some [] => tag
  | Some data => tag ++ ctcpSep :: data
  end.

(** irc/ctcp.go [ctcpHighLevelEscape] *)
Definition ctcpHighLevelEscape (input : bytes) : bytes :=
  let out := Replace input [ctcpHighQuote] [ctcpHighQuote; ctcpHighQuote] in
  Replace out [ctcpDelim] [ctcpHighQuote; letter_a].

(** irc/ctcp.go [ctcpHighLevelUnescape] *)
Definition ctcpHighLevelUnescape (input : bytes) : bytes :=
  let out := Replace input [ctcpHighQuote; letter_a] [ctcpDelim] in
  Replace out [ctcpHighQuote; ctcpHighQuote] [ctcpHighQuote].

(** irc/ctcp.go [ctcpLowLevelEscape] *)
Definition ctcpLowLevelEscape (input : bytes) : bytes :=
  let out := Replace input [ctcpLowQuote] [ctcpLowQuote; ctcpLowQuote] in
  let out := Replace out [CR] [ctcpLowQuote; CR] in
  let out := Replace out [LF] [ctcpLowQuote; LF] in
  Replace out [NUL] [ctcpLowQuote; NUL].

(** irc/ctcp.go [ctcpLowLevelUnescape] *)
Definition ctcpLowLevelUnescape (input : bytes) : bytes :=
  let out := Replace input [ctcpLowQuote; NUL] [NUL] in
  let out := Replace out [ctcpLowQuote; LF] [LF] in
  let out := Replace out [ctcpLowQuote; CR] [CR] in
  Replace out [ctcpLowQuote; ctcpLowQuote] [ctcpLowQuote].

(** irc/ctcp.go [CTCPunpack]. The slice [msg[1:len(msg)-1]] panics on a
    message of fewer than two bytes. *)
Definition CTCPunpack (msg : bytes) : go (bytes * option bytes) :=
  if decide (length msg < 2) then Panic else
  let msg := drop 1 (take (length msg - 1) msg) in
  let msg := ctcpLowLevelUnescape msg in
  let '(tag, data) := ctcpUnpack msg in
  let tag := ctcpHighLevelUnescape tag in
  Ret (tag, ctcpHighLevelUnescape <$> data).

(** irc/ctcp.go [CTCPpack] *)
Definition CTCPpack (tag : bytes) (data : option bytes) : bytes :=
  let data := ctcpHighLevelEscape <$> data in
  let tag := ctcpHighLevelEscape tag in
  let ret := ctcpPack tag data in
  let ret := ctcpLowLevelEscape ret in
  ctcpDelim :: ret ++ [ctcpDelim].

(** irc/ctcp.go [CTCPunpackString] *)
Definition CTCPunpackString (msg : bytes) : go (bytes * bytes) :=
  '(t, d) ← CTCPunpack msg; Ret (t, default [] d).

(** irc/ctcp.go [CTCPpackString] *)
Definition CTCPpackString (tag data : bytes) : bytes := CTCPpack tag (Some data).

(** ** Quoting as a map over the bytes *)

Definition emit (f : ascii -> bytes) (s : bytes) : bytes := concat (map f s).

Lemma emit_cons f c s : emit f (c :: s) = f c ++ emit f s.
Proof. done. Qed.

(** Replacing a single byte is a map over the bytes. *)
Lemma Replace_byte c new s :
  Replace s [c] new = emit (fun d => if decide (d = c) then new else [d]) s.
Proof.
  unfold Replace. induction s as [|d s IH]; [done|].
  rewrite emit_cons, <- IH. cbn [replace_from]. unfold HasPrefix. cbn.
  rewrite take_0. case_decide as Hd.
  - subst d. by rewrite bool_decide_true.
  - rewrite bool_decide_false; [done|]. congruence.
Qed.

Lemma emit_emit f g s : emit g (emit f s) = emit (fun c => emit g (f c)) s.
Proof.
  induction s as [|c s IH]; [done|]. rewrite !emit_cons, <- IH.
  unfold emit. by rewrite map_app, concat_app.
Qed.

Lemma emit_ext f g s : (forall c, c ∈ s -> f c = g c) -> emit f s = emit g s.
Proof.
  intros H. unfold emit. f_equal. apply map_ext_in. intros c Hc%list_elem_of_In. auto.
Qed.

(** The low level: a byte of a set [S] is preceded by the quote [q]. *)
Definition quoted (q : ascii) (S : list ascii) (c : ascii) : bytes :=
  if decide (c ∈ S) then [q; c] else [c].

Lemma HasPrefix_2 a b c d s :
  HasPrefix (c :: d :: s) [a; b] = bool_decide (c = a /\ d = b).
Proof. unfold HasPrefix. cbn. rewrite take_0. apply bool_decide_ext. naive_solver. Qed.

Lemma HasPrefix_2_no a b c s : c <> a -> HasPrefix (c :: s) [a; b] = false.
Proof. intros H. unfold HasPrefix. apply bool_decide_false. cbn. congruence. Qed.

(** Unquoting one byte [x] of the set leaves the others quoted. *)
Lemma unquote_step q S x s :
  q ∈ S -> x ∈ S -> x <> q ->
  Replace (emit (quoted q S) s) [q; x] [x] =
  emit (quoted q (filter (fun y => y <> x) S)) s.
Proof.
  intros Hq Hx Hxq. unfold Replace. induction s as [|c s IH]; [done|].
  rewrite !emit_cons. unfold quoted at 1 3.
  assert (c <> q -> replace_from [q; x] [x] 0 (c :: emit (quoted q S) s) =
          c :: emit (quoted q (filter (fun y => y <> x) S)) s) as Hstep.
  { intros Hc. cbn [replace_from]. by rewrite HasPrefix_2_no, IH by done. }
  destruct (decide (c ∈ S)) as [Hc|Hc]; cbn [app].
  2:{ rewrite decide_False by (rewrite list_elem_of_filter; naive_solver).
      apply Hstep. naive_solver. }
  cbn [replace_from]. rewrite HasPrefix_2.
  destruct (decide (c = x)) as [->|Hcx].
  - rewrite bool_decide_true by done. cbn. rewrite IH.
    by rewrite decide_False by (rewrite list_elem_of_filter; naive_solver).
  - rewrite bool_decide_false by naive_solver.
    rewrite decide_True by (rewrite list_elem_of_filter; naive_solver). cbn [app].
    f_equal. destruct (decide (c = q)) as [->|Hcq]; [|by apply Hstep].
    rewrite <- IH. cbn [replace_from].
    destruct s as [|d s]; [unfold HasPrefix; cbn; by rewrite bool_decide_false|].
    rewrite emit_cons. unfold quoted at 1 3.
    destruct (decide (d ∈ S)) as [Hd|Hd]; cbn [app]; rewrite HasPrefix_2.
    + by rewrite bool_decide_false by naive_solver.
    + by rewrite bool_decide_false by naive_solver.
Qed.

(** Undoubling the quote itself. *)
Lemma unquote_last q s : Replace (emit (quoted q [q]) s) [q; q] [q] = s.
Proof.
  unfold Replace. induction s as [|c s IH]; [done|]. rewrite emit_cons.
  unfold quoted at 1. destruct (decide (c ∈ [q])) as [->%list_elem_of_singleton|Hc];
    cbn [app replace_from].
  - rewrite HasPrefix_2, bool_decide_true by done. cbn. by rewrite IH.
  - rewrite HasPrefix_2_no by set_solver. by rewrite IH.
Qed.

Lemma ctcpLowLevelEscape_emit s :
  ctcpLowLevelEscape s = emit (quoted ctcpLowQuote [NUL; LF; CR; ctcpLowQuote]) s.
Proof.
  unfold ctcpLowLevelEscape. rewrite !Replace_byte, !emit_emit.
  apply emit_ext. intros c _. unfold quoted.
  destruct (decide (c = ctcpLowQuote)) as [->|H1]; [by vm_compute|].
  destruct (decide (c = CR)) as [->|H2]; [by vm_compute|].
  destruct (decide (c = LF)) as [->|H3]; [by vm_compute|].
  destruct (decide (c = NUL)) as [->|H4]; [by vm_compute|].
  rewrite decide_False by set_solver.
  repeat (unfold emit; cbn; rewrite decide_False by done). done.
Qed.

(** The low level of the quoting is undone by its inverse on every
    message. *)
Theorem ctcpLowLevel_roundtrip s : ctcpLowLevelUnescape (ctcpLowLevelEscape s) = s.
Proof.
  rewrite ctcpLowLevelEscape_emit. unfold ctcpLowLevelUnescape.
  rewrite !unquote_step by decide_now.
  replace (filter _ _) with [ctcpLowQuote] by (by vm_compute).
  apply unquote_last.
Qed.

(** The high level: the quote is doubled, and the delimiter becomes the quote
    and an [a]. *)
Definition high (c : ascii) : bytes :=
  if decide (c = ctcpHighQuote) then [ctcpHighQuote; ctcpHighQuote]
  else if decide (c = ctcpDelim) then [ctcpHighQuote; letter_a] else [c].

Lemma ctcpHighLevelEscape_emit s : ctcpHighLevelEscape s = emit high s.
Proof.
  unfold ctcpHighLevelEscape. rewrite !Replace_byte, !emit_emit.
  apply emit_ext. intros c _. unfold high.
  destruct (decide (c = ctcpHighQuote)) as [->|H1]; [by vm_compute|].
  unfold emit. cbn. by rewrite app_nil_r.
Qed.

(** The sequence the high level cannot carry: the quote followed by [a]. *)
Definition quote_a : bytes := [ctcpHighQuote; letter_a].

Lemma Contains_cons c s sub :
  Contains (c :: s) sub = false -> HasPrefix (c :: s) sub = false /\ Contains s sub = false.
Proof. cbn [Contains]. by intros ?%orb_false_iff. Qed.

Lemma unescape_delim s :
  Contains s quote_a = false ->
  Replace (emit high s) quote_a [ctcpDelim] =
  emit (fun c => if decide (c = ctcpHighQuote) then [ctcpHighQuote; ctcpHighQuote] else [c]) s.
Proof.
  unfold Replace. induction s as [|c s IH]; [done|]. intros [Hp Hs]%Contains_cons.
  specialize (IH Hs). rewrite !emit_cons. unfold high at 1.
  destruct (decide (c = ctcpHighQuote)) as [->|Hc].
  - cbn [app replace_from]. unfold quote_a at 1. rewrite HasPrefix_2.
    rewrite bool_decide_false by (by intros [_ ?]). f_equal. rewrite <- IH.
    cbn [replace_from]. destruct s as [|d s]; [by vm_compute|].
    assert (HasPrefix (ctcpHighQuote :: emit high (d :: s)) quote_a = false) as ->; [|done].
    rewrite emit_cons. unfold high at 1.
    destruct (decide (d = ctcpHighQuote)) as [->|H1];
      [|destruct (decide (d = ctcpDelim)) as [->|H2]];
      cbn [app]; unfold quote_a in *; rewrite HasPrefix_2 in *;
      apply bool_decide_false; try (by intros [_ ?]).
    by apply bool_decide_eq_false in Hp.
  - destruct (decide (c = ctcpDelim)) as [->|Hd]; cbn [app replace_from].
    + unfold quote_a at 1. rewrite HasPrefix_2, bool_decide_true by done.
      change (length quote_a - 1) with 1. cbn [app replace_from]. by rewrite IH.
    + unfold quote_a at 1. rewrite HasPrefix_2_no by done. by rewrite IH.
Qed.

Lemma undouble s :
  Replace (emit (fun c => if decide (c = ctcpHighQuote)
                          then [ctcpHighQuote; ctcpHighQuote] else [c]) s)
    [ctcpHighQuote; ctcpHighQuote] [ctcpHighQuote] = s.
Proof.
  erewrite emit_ext; [apply (unquote_last ctcpHighQuote)|].
  intros c _. unfold quoted. destruct (decide (c = ctcpHighQuote)) as [->|Hc].
  - by rewrite decide_True by set_solver.
  - by rewrite decide_False by set_solver.
Qed.

Lemma ctcpHighLevel_roundtrip s :
  Contains s quote_a = false -> ctcpHighLevelUnescape (ctcpHighLevelEscape s) = s.
Proof.
  intros Hs. rewrite ctcpHighLevelEscape_emit. unfold ctcpHighLevelUnescape.
  fold quote_a. by rewrite unescape_delim, undouble.
Qed.

Lemma emit_high_in c s : c ∈ emit high s -> c ∈ s \/ c = ctcpHighQuote \/ c = letter_a.
Proof.
  induction s as [|d s IH]; [by intros ?%not_elem_of_nil|].
  rewrite emit_cons, elem_of_app. intros [H|H].
  - unfold high in H. repeat case_decide; set_solver.
  - apply IH in H. set_solver.
Qed.

Lemma emit_high_delim s : ctcpDelim ∉ emit high s.
Proof.
  induction s as [|d s IH]; [apply not_elem_of_nil|].
  rewrite emit_cons, not_elem_of_app. split; [|done]. unfold high.
  repeat case_decide; rewrite ?not_elem_of_cons; split_and?; try done;
    try apply not_elem_of_nil; congruence.
Qed.

Lemma SplitN2_sep s t c : c ∉ s -> SplitN2 (s ++ c :: t) c = (s, Some t).
Proof.
  intros Hs. unfold SplitN2, IndexByte. rewrite first_index_app_l.
  - rewrite take_app_length, drop_app_ge by lia.
    by replace (S (length s) - length s) with 1 by lia.
  - apply Forall_forall. intros d Hd. apply bool_decide_false. congruence.
  - by apply bool_decide_true.
Qed.

Lemma SplitN2_no s c : c ∉ s -> SplitN2 s c = (s, None).
Proof.
  intros Hs. unfold SplitN2, IndexByte.
  destruct (first_index _ s) as [i|] eqn:E; [|done].
  apply first_index_Some in E as (a & d & b & -> & _ & ?%bool_decide_eq_true & _).
  subst. set_solver.
Qed.

Lemma high_no_sep tag : ctcpSep ∉ tag -> ctcpSep ∉ ctcpHighLevelEscape tag.
Proof.
  rewrite ctcpHighLevelEscape_emit. intros Ht [?|[?|?]]%emit_high_in; done.
Qed.

Lemma unwrap (s : bytes) : drop 1 (take (length (ctcpDelim :: s ++ [ctcpDelim]) - 1)
                             (ctcpDelim :: s ++ [ctcpDelim])) = s.
Proof.
  cbn. rewrite length_app, Nat.sub_0_r. cbn. rewrite Nat.add_1_r. cbn.
  by rewrite drop_0, take_app_length.
Qed.

(** A CTCP message that was packed is unpacked to the tag and the data it
    was packed from, for every data without the sequence backslash-[a] and
    every tag without that sequence and without a space. *)
Theorem CTCP_roundtrip tag data :
  ctcpSep ∉ tag -> Contains tag quote_a = false -> Contains data quote_a = false ->
  CTCPunpackString (CTCPpackString tag data) = Ret (tag, data).
Proof.
  intros Hsep Ht Hd. unfold CTCPunpackString, CTCPpackString, CTCPunpack, CTCPpack.
  rewrite decide_False by (cbn; rewrite length_app; cbn; lia).
  rewrite unwrap, ctcpLowLevel_roundtrip. unfold ctcpUnpack, ctcpPack.
  destruct data as [|d data]; cbn [fmap option_fmap option_map].
  - replace (ctcpHighLevelEscape []) with (@nil ascii) by done.
    rewrite SplitN2_no by (by apply high_no_sep). cbn.
    by rewrite ctcpHighLevel_roundtrip.
  - destruct (ctcpHighLevelEscape (d :: data)) as [|e es] eqn:E.
    { rewrite ctcpHighLevelEscape_emit, emit_cons in E. unfold high in E.
      by repeat case_decide. }
    rewrite SplitN2_sep by (by apply high_no_sep). rewrite <- E.
    cbn -[ctcpHighLevelUnescape ctcpHighLevelEscape].
    by rewrite !ctcpHighLevel_roundtrip.
Qed.

Lemma CTCP_roundtrip_witness :
  CTCPunpackString (CTCPpackString (bs "PING") (byte_of 1 :: bs "x\y" ++ [NUL; CR; LF]))
  = Ret (bs "PING", byte_of 1 :: bs "x\y" ++ [NUL; CR; LF]).
Proof. apply CTCP_roundtrip; decide_now. Defined.

(** Packing always gives a CTCP message, and the delimiter occurs in it
    only at the two ends. *)
Theorem CTCPpack_delimited tag data :
  IsCTCP (CTCPpack tag data) = Ret true /\
  exists body, CTCPpack tag data = ctcpDelim :: body ++ [ctcpDelim] /\ ctcpDelim ∉ body.
Proof.
  split.
  - unfold CTCPpack. generalize (ctcpLowLevelEscape
      (ctcpPack (ctcpHighLevelEscape tag) (ctcpHighLevelEscape <$> data))) as body.
    intros body. unfold IsCTCP.
    change (index (ctcpDelim :: body ++ [ctcpDelim]) 0) with (Ret ctcpDelim).
    rewrite bind_Ret, bool_decide_true by done.
    replace (index (ctcpDelim :: body ++ [ctcpDelim]) _) with (Ret ctcpDelim).
    { rewrite bind_Ret. by rewrite bool_decide_true. }
    symmetry. apply index_Ret. rewrite app_comm_cons, lookup_app_r;
      rewrite length_app; cbn; [|lia].
    by replace (length body + 1 - 0 - S (length body)) with 0 by lia.
  - unfold CTCPpack. eexists. split; [done|].
    rewrite ctcpLowLevelEscape_emit.
    assert (forall s, ctcpDelim ∉ s -> ctcpDelim ∉ emit (quoted ctcpLowQuote [NUL; LF; CR; ctcpLowQuote]) s) as Hlow.
    { induction s as [|c s IH]; [done|]. rewrite not_elem_of_cons. intros [Hc Hs].
      rewrite emit_cons, not_elem_of_app. split; [|auto]. unfold quoted.
      case_decide; rewrite ?not_elem_of_cons; split_and?; try done; apply not_elem_of_nil. }
    apply Hlow. unfold ctcpPack. rewrite ctcpHighLevelEscape_emit.
    destruct data as [data|]; cbn; [|apply emit_high_delim].
    rewrite ctcpHighLevelEscape_emit.
    destruct (emit high data) as [|e es] eqn:E; [apply emit_high_delim|].
    rewrite <- E, not_elem_of_app, not_elem_of_cons.
    split_and!; [apply emit_high_delim|done|apply emit_high_delim].
Qed.

(** Data that holds a backslash followed by [a] does not survive: the
    unescaping reads the second of the doubled backslashes as the quote of
    the [a]. *)
Theorem CTCP_loses_quote_a :
  CTCPunpackString (CTCPpackString (bs "T") (bs "\a")) = Ret (bs "T", ctcpHighQuote :: [ctcpDelim]).
Proof. by vm_compute. Qed.

(** The low level quotes NUL, CR and LF but leaves the bytes themselves
    in the message: whatever byte the input holds, the escaped form holds. *)
Theorem ctcpLowLevelEscape_keeps c s : c ∈ s -> c ∈ ctcpLowLevelEscape s.
Proof.
  rewrite ctcpLowLevelEscape_emit. induction s as [|d s IH]; [by intros ?%not_elem_of_nil|].
  rewrite emit_cons, elem_of_app, elem_of_cons. intros [->|H]; [left|right; auto].
  unfold quoted. case_decide; set_solver.
Qed.

Lemma ctcpLowLevelEscape_keeps_witness : LF ∈ ctcpLowLevelEscape [LF].
Proof. apply ctcpLowLevelEscape_keeps. decide_now. Defined.
