(* ===== verification/NetworkInfo.v ===== *)
(** * Package irc: server capabilities (irc/network_info.go)

    What a server says about itself in the events 004 and 005.  The read
    accessors take the instance's lock around the read of one field; the lock
    is not part of the model. *)

From S2P Require Import Prelude GoStrings Regex Hosts.

(** irc/network_info.go [NetworkInfo] *)
Record NetworkInfo := {
  serverName : bytes;
  ircdVersion : bytes;
  usermodes : bytes;
  lchanmodes : bytes;
  rfc : bytes;
  ircd : bytes;
  casemapping : bytes;
  prefix : bytes;
  chantypes : bytes;
  chanmodes : bytes;
  chanlimit : Z;
  channellen : Z;
  nicklen : Z;
  topiclen : Z;
  awaylen : Z;
  kicklen : Z;
  modes : Z;
  extras : gmap bytes bytes;
}.

(** irc/network_info.go [NewNetworkInfo], with the constants
    [INFO_DEFAULT_*] *)
Definition NewNetworkInfo : NetworkInfo := {|
  serverName := bs "unknown";
  ircdVersion := bs "unknown";
  usermodes := bs "acCiorRswx";
  lchanmodes := bs "beiIklmnoOPrRstvz";
  rfc := bs "RFC2812";
  ircd := bs "unknown";
  casemapping := bs "ascii";
  prefix := bs "(ov)@+";
  chantypes := bs "#&~";
  chanmodes := bs "beI,k,l,imnOPRstz";
  chanlimit := 20;
  channellen := 50;
  nicklen := 9;
  topiclen := 490;
  awaylen := 127;
  kicklen := 400;
  modes := 5;
  extras := ∅;
|}.

(** irc/network_info.go [NetworkInfo.Clone]: a copy with a map of its own *)
Definition Clone (p : NetworkInfo) : NetworkInfo := {|
  serverName := p.(serverName); ircdVersion := p.(ircdVersion);
  usermodes := p.(usermodes); lchanmodes := p.(lchanmodes);
  rfc := p.(rfc); ircd := p.(ircd); casemapping := p.(casemapping);
  prefix := p.(prefix); chantypes := p.(chantypes); chanmodes := p.(chanmodes);
  chanlimit := p.(chanlimit); channellen := p.(channellen);
  nicklen := p.(nicklen); topiclen := p.(topiclen); awaylen := p.(awaylen);
  kicklen := p.(kicklen); modes := p.(modes);
  extras := map_fold (fun k v m => <[k := v]> m) ∅ p.(extras);
|}.

(** irc/network_info.go [NetworkInfo.ServerName] *)
Definition ServerName (p : NetworkInfo) : bytes := p.(serverName).
(** irc/network_info.go [NetworkInfo.IrcdVersion] *)
Definition IrcdVersion (p : NetworkInfo) : bytes := p.(ircdVersion).
(** irc/network_info.go [NetworkInfo.Usermodes] *)
Definition Usermodes (p : NetworkInfo) : bytes := p.(usermodes).
(** irc/network_info.go [NetworkInfo.LegacyChanmodes] *)
Definition LegacyChanmodes (p : NetworkInfo) : bytes := p.(lchanmodes).
(** irc/network_info.go [NetworkInfo.RFC] *)
Definition RFC (p : NetworkInfo) : bytes := p.(rfc).
(** irc/network_info.go [NetworkInfo.IRCD] *)
Definition IRCD (p : NetworkInfo) : bytes := p.(ircd).
(** irc/network_info.go [NetworkInfo.Casemapping] *)
Definition Casemapping (p : NetworkInfo) : bytes := p.(casemapping).
(** irc/network_info.go [NetworkInfo.Prefix] *)
Definition Prefix (p : NetworkInfo) : bytes := p.(prefix).
(** irc/network_info.go [NetworkInfo.Chantypes] *)
Definition Chantypes (p : NetworkInfo) : bytes := p.(chantypes).
(** irc/network_info.go [NetworkInfo.Chanmodes] *)
Definition Chanmodes (p : NetworkInfo) : bytes := p.(chanmodes).
(** irc/network_info.go [NetworkInfo.Chanlimit] *)
Definition Chanlimit (p : NetworkInfo) : Z := p.(chanlimit).
(** irc/network_info.go [NetworkInfo.Channellen] *)
Definition Channellen (p : NetworkInfo) : Z := p.(channellen).
(** irc/network_info.go [NetworkInfo.Nicklen] *)
Definition Nicklen (p : NetworkInfo) : Z := p.(nicklen).
(** irc/network_info.go [NetworkInfo.Topiclen] *)
Definition Topiclen (p : NetworkInfo) : Z := p.(topiclen).
(** irc/network_info.go [NetworkInfo.Awaylen] *)
Definition Awaylen (p : NetworkInfo) : Z := p.(awaylen).
(** irc/network_info.go [NetworkInfo.Kicklen] *)
Definition Kicklen (p : NetworkInfo) : Z := p.(kicklen).
(** irc/network_info.go [NetworkInfo.Modes] *)
Definition Modes (p : NetworkInfo) : Z := p.(modes).
(** irc/network_info.go [NetworkInfo.Extra] *)
Definition Extra (p : NetworkInfo) (key : bytes) : bytes := default [] (p.(extras) !! key).

(** irc/network_info.go [NetworkInfo.IsChannel] *)
Definition IsChannel (p : NetworkInfo) (target : bytes) : bool :=
  match target with
  | [] => false
  | c :: _ => ContainsRune p.(chantypes) (code c)
  end.

(** irc/network_info.go [NetworkInfo.ParseMyInfo] *)
Definition ParseMyInfo (p : NetworkInfo) (args : list bytes) : go NetworkInfo :=
  a1 ← index args 1; a2 ← index args 2; a3 ← index args 3; a4 ← index args 4;
  Ret {| serverName := a1; ircdVersion := a2; usermodes := a3; lchanmodes := a4;
         rfc := p.(rfc); ircd := p.(ircd); casemapping := p.(casemapping);
         prefix := p.(prefix); chantypes := p.(chantypes); chanmodes := p.(chanmodes);
         chanlimit := p.(chanlimit); channellen := p.(channellen);
         nicklen := p.(nicklen); topiclen := p.(topiclen); awaylen := p.(awaylen);
         kicklen := p.(kicklen); modes := p.(modes); extras := p.(extras) |}.

(** ** Capabilities (005) *)

(** The class [[A-Z0-9]] under [(?i)] *)
Definition cap_rune (r : Z) : bool :=
  bool_decide (48 <= r <= 57)%Z || bool_decide (65 <= r <= 90)%Z
  || bool_decide (97 <= r <= 122)%Z
  || bool_decide (r = 0x17F)%Z || bool_decide (r = 0x212A)%Z.

Definition nonspace_rune (r : Z) : bool := negb (space_rune r).

(** irc/network_info.go:52-52 [capsRegexp] *)
Definition capsRegexp : regex :=
  RSeqs [RGroup 1 (RPlus (RClass cap_rune));
         ROpt (RSeq (RByte "=") (RGroup 2 (RPlus (RClass nonspace_rune)))); REnd].

(** [strconv.Atoi]: an optional sign and decimal digits, within an [int] *)
Definition digit (c : ascii) : option Z :=
  if bool_decide (48 <= code c <= 57)%Z then Some (code c - 48)%Z else None.

Fixpoint digits (s : bytes) (acc : Z) : option Z :=
  match s with
  | [] => Some acc
  | c :: s => d ← digit c; digits s (acc * 10 + d)%Z
  end.

Definition in_int (z : Z) : bool := bool_decide (- 2 ^ 63 <= z < 2 ^ 63)%Z.

Definition Atoi (s : bytes) : option Z :=
  let '(sign, ds) :=
    match s with
    | c :: s' => if bool_decide (c = "-"%char) then (-1, s')%Z
                 else if bool_decide (c = "+"%char) then (1, s')%Z else (1, s)%Z
    | [] => (1, s)%Z
    end in
  match ds with
  | [] => None
  | _ => n ← digits ds 0; if in_int (sign * n) then Some (sign * n)%Z else None
  end.

Section update.
Variable p : NetworkInfo.

(** One field of the record replaced. *)
Definition with_str (f : bytes) (v : bytes) : NetworkInfo := {|
  serverName := p.(serverName); ircdVersion := p.(ircdVersion);
  usermodes := p.(usermodes); lchanmodes := p.(lchanmodes);
  rfc := if decide (f = bs "RFC") then v else p.(rfc);
  ircd := if decide (f = bs "IRCD") then v else p.(ircd);
  casemapping := if decide (f = bs "CASEMAPPING") then v else p.(casemapping);
  prefix := if decide (f = bs "PREFIX") then v else p.(prefix);
  chantypes := if decide (f = bs "CHANTYPES") then v else p.(chantypes);
  chanmodes := if decide (f = bs "CHANMODES") then v else p.(chanmodes);
  chanlimit := p.(chanlimit); channellen := p.(channellen);
  nicklen := p.(nicklen); topiclen := p.(topiclen); awaylen := p.(awaylen);
  kicklen := p.(kicklen); modes := p.(modes); extras := p.(extras) |}.

Definition with_int (f : bytes) (v : Z) : NetworkInfo := {|
  serverName := p.(serverName); ircdVersion := p.(ircdVersion);
  usermodes := p.(usermodes); lchanmodes := p.(lchanmodes);
  rfc := p.(rfc); ircd := p.(ircd); casemapping := p.(casemapping);
  prefix := p.(prefix); chantypes := p.(chantypes); chanmodes := p.(chanmodes);
  chanlimit := if decide (f = bs "CHANLIMIT") then v else p.(chanlimit);
  channellen := if decide (f = bs "CHANNELLEN") then v else p.(channellen);
  nicklen := if decide (f = bs "NICKLEN") then v else p.(nicklen);
  topiclen := if decide (f = bs "TOPICLEN") then v else p.(topiclen);
  awaylen := if decide (f = bs "AWAYLEN") then v else p.(awaylen);
  kicklen := if decide (f = bs "KICKLEN") then v else p.(kicklen);
  modes := if decide (f = bs "MODES") then v else p.(modes); extras := p.(extras) |}.

Definition with_extra (k v : bytes) : NetworkInfo := {|
  serverName := p.(serverName); ircdVersion := p.(ircdVersion);
  usermodes := p.(usermodes); lchanmodes := p.(lchanmodes);
  rfc := p.(rfc); ircd := p.(ircd); casemapping := p.(casemapping);
  prefix := p.(prefix); chantypes := p.(chantypes); chanmodes := p.(chanmodes);
  chanlimit := p.(chanlimit); channellen := p.(channellen);
  nicklen := p.(nicklen); topiclen := p.(topiclen); awaylen := p.(awaylen);
  kicklen := p.(kicklen); modes := p.(modes);
  extras := <[k := v]> p.(extras) |}.
End update.

(** The capabilities kept as strings and as numbers. *)
Definition str_caps : list bytes :=
  [bs "IRCD"; bs "CASEMAPPING"; bs "PREFIX"; bs "CHANTYPES"; bs "CHANMODES"].
Definition int_caps : list bytes :=
  [bs "CHANLIMIT"; bs "CHANNELLEN"; bs "NICKLEN"; bs "TOPICLEN"; bs "AWAYLEN";
   bs "KICKLEN"; bs "MODES"].

(** irc/network_info.go:274-333 [NetworkInfo.ParseISupport]: the switch on one
    capability *)
Definition set_cap (p : NetworkInfo) (name value : bytes) : go NetworkInfo :=
  if HasPrefix name (bs "RFC") then Ret (with_str p (bs "RFC") name) else
  if bool_decide (name ∈ str_caps) then Ret (with_str p name value) else
  if bool_decide (name ∈ int_caps) then
    value ← (if bool_decide (name = bs "CHANLIMIT") && Contains value (bs ":")
             then index (SplitByte value ":") 1 else Ret value);
    Ret match Atoi value with Some i => with_int p name i | None => p end
  else Ret (with_extra p name (if decide (value = []) then bs "true" else value)).

(** irc/network_info.go:266-334 [NetworkInfo.ParseISupport]: one argument of
    the event.  An argument the expression does not match leaves
    [regexResult] nil, and [regexResult[1]] panics. *)
Definition isupport_arg (p : NetworkInfo) (arg : bytes) : go NetworkInfo :=
  if Contains arg (bs " ") then Ret p else
  caps ← deref (FindSubmatch capsRegexp arg);
  set_cap p (group caps 1) (group caps 2).

(** irc/network_info.go [NetworkInfo.ParseISupport] *)
Definition ParseISupport (p : NetworkInfo) (args : list bytes) : go NetworkInfo :=
  args ← slice_from args 1;
  go_fold isupport_arg p args.

(** ** Properties *)

Lemma Clone_extras (m : gmap bytes bytes) :
  map_fold (fun k v m => <[k := v]> m) ∅ m = m.
Proof.
  apply (map_fold_weak_ind (fun r m => r = m)); naive_solver.
Qed.

(** A clone is equal to the instance it was made from. *)
Lemma Clone_eq p : Clone p = p.
Proof. destruct p. unfold Clone. cbn. by rewrite Clone_extras. Qed.

Lemma Contains_SplitByte s c : Contains s [c] = true -> c ∈ s.
Proof.
  induction s as [|d s IH]; cbn; [done|]. unfold HasPrefix. cbn. rewrite take_0.
  intros [[= ->]%bool_decide_eq_true|H]%orb_true_iff; set_solver.
Qed.

Lemma SplitByte_two s c : c ∈ s -> exists x, SplitByte s c !! 1 = Some x.
Proof.
  intros H. apply list_elem_of_split in H as (a & b & ->).
  revert b. induction a as [|d a IH]; intros b; cbn [app SplitByte].
  - rewrite decide_True by done. destruct (SplitByte_nonempty b c) as (x & xs & ->). by exists x.
  - case_decide.
    + destruct (SplitByte_nonempty (a ++ c :: b) c) as (x & xs & ->). by exists x.
    + destruct (IH b) as [x Hx]. destruct (SplitByte (a ++ c :: b) c); [done|]. by exists x.
Qed.

Lemma set_cap_total p name value : exists p', set_cap p name value = Ret p'.
Proof.
  unfold set_cap. repeat (case_match; [by eexists|]).
  destruct (bool_decide (name ∈ int_caps)); [|by eexists].
  destruct (bool_decide (name = bs "CHANLIMIT") && Contains value (bs ":")) eqn:E;
    [|by eexists].
  apply andb_true_iff in E as [_ E%Contains_SplitByte].
  apply SplitByte_two in E as [x Hx]. apply index_Ret in Hx. rewrite Hx. by eexists.
Qed.

(** An argument the capability expression reads: it holds a space, or it
    matches. *)
Definition readable (arg : bytes) : bool :=
  Contains arg (bs " ") || MatchString capsRegexp arg.

Lemma isupport_arg_total p arg :
  is_panic (isupport_arg p arg) = negb (readable arg).
Proof.
  unfold isupport_arg, readable, MatchString.
  destruct (Contains arg (bs " ")); [done|].
  destruct (FindSubmatch capsRegexp arg) as [caps|]; [|done].
  cbn. destruct (set_cap_total p (group caps 1) (group caps 2)) as [p' ->]. done.
Qed.

Lemma isupport_fold_panics args p :
  is_panic (go_fold isupport_arg p args) = negb (forallb readable args).
Proof.
  revert p. induction args as [|arg args IH]; intros p; cbn; [done|].
  pose proof (isupport_arg_total p arg) as H.
  destruct (isupport_arg p arg); cbn in *; destruct (readable arg); done.
Qed.


(** Such arguments, and the state the event leaves in their absence. *)
Example ParseISupport_bad_args :
  readable (bs "-NAMESX") = false /\ readable (bs "EXCEPTS=") = false.
Proof. by vm_compute. Qed.

Example ParseISupport_good_args :
  match ParseISupport NewNetworkInfo
    [bs "bot"; bs "RFC8213"; bs "PREFIX=(qaohv)~&@%+"; bs "CHANLIMIT=#:30";
     bs "NICKLEN=x"; bs "SAFELIST"; bs "are supported"] with
  | Ret p => p.(rfc) = bs "RFC8213" /\ p.(prefix) = bs "(qaohv)~&@%+"
             /\ p.(chanlimit) = 30%Z /\ p.(nicklen) = 9%Z
             /\ Extra p (bs "SAFELIST") = bs "true"
  | Panic => False
  end.
Proof. by vm_compute. Qed.

(** A target is a channel exactly when its first byte is one of the
    channel types the server announced. *)
Theorem IsChannel_ascii p c t :
  forallb is_ascii p.(chantypes) = true ->
  IsChannel p (c :: t) = bool_decide (c ∈ p.(chantypes)).
Proof.
  intros Ha. unfold IsChannel, ContainsRune. rewrite runes_ascii by done.
  apply bool_decide_ext. split; [|apply list_elem_of_fmap_2].
  intros (d & Hd%code_inj & ?)%list_elem_of_fmap. by subst.
Qed.
