(* ===== verification/Event.v ===== *)
(** * Package irc: events and protocol constants (irc/event.go, irc/proto.go)

    An event is a plain record; its [Time] is the reading of the clock that
    [NewEvent] is given here as an argument, and its [NetworkInfo] is a
    pointer that may be nil. *)

From S2P Require Import Prelude GoStrings Hosts Ctcp NetworkInfo.

(** ** Constants *)

(** irc/proto.go:6-6 [JOIN] *)
Definition JOIN : bytes := bs "JOIN".
(** irc/proto.go:7-7 [KICK] *)
Definition KICK : bytes := bs "KICK".
(** irc/proto.go:8-8 [MODE] *)
Definition MODE : bytes := bs "MODE".
(** irc/proto.go:9-9 [NICK] *)
Definition NICK : bytes := bs "NICK".
(** irc/proto.go:10-10 [NOTICE] *)
Definition NOTICE : bytes := bs "NOTICE".
(** irc/proto.go:11-11 [PART] *)
Definition PART : bytes := bs "PART".
(** irc/proto.go:12-12 [PING] *)
Definition PING : bytes := bs "PING".
(** irc/proto.go:14-14 [PRIVMSG] *)
Definition PRIVMSG : bytes := bs "PRIVMSG".
(** irc/proto.go:15-15 [QUIT] *)
Definition QUIT : bytes := bs "QUIT".
(** irc/proto.go:16-16 [TOPIC] *)
Definition TOPIC : bytes := bs "TOPIC".
(** irc/proto.go:24-24 [RPL_WELCOME] *)
Definition RPL_WELCOME : bytes := bs "001".
(** irc/proto.go:27-27 [RPL_MYINFO] *)
Definition RPL_MYINFO : bytes := bs "004".
(** irc/proto.go:28-28 [RPL_ISUPPORT] *)
Definition RPL_ISUPPORT : bytes := bs "005".
(** irc/proto.go:47-47 [RPL_CHANNELMODEIS] *)
Definition RPL_CHANNELMODEIS : bytes := bs "324".
(** irc/proto.go:49-49 [RPL_TOPIC] *)
Definition RPL_TOPIC : bytes := bs "332".
(** irc/proto.go:57-57 [RPL_WHOREPLY] *)
Definition RPL_WHOREPLY : bytes := bs "352".
(** irc/proto.go:59-59 [RPL_NAMREPLY] *)
Definition RPL_NAMREPLY : bytes := bs "353".
(** irc/proto.go:63-63 [RPL_BANLIST] *)
Definition RPL_BANLIST : bytes := bs "367".

(** ** Events *)

(** irc/event.go [Event] *)
Record Event := {
  Name : bytes;
  Sender : bytes;
  Args : list bytes;
  Time : Z;
  NetworkID : bytes;
  NetInfo : option NetworkInfo;
}.

(** irc/event.go [NewEvent]: [now] is the reading of the clock. *)
Definition NewEvent (now : Z) (netID : bytes) (ni : option NetworkInfo)
    (name sender : bytes) (args : list bytes) : Event :=
  {| Name := name; Sender := sender; Args := args; Time := now;
     NetworkID := netID; NetInfo := ni |}.

(** irc/event.go [Event.Nick] *)
Definition Event_Nick (e : Event) : bytes := Hosts.Nick e.(Sender).
(** irc/event.go [Event.Username] *)
Definition Event_Username (e : Event) : bytes := Hosts.Username e.(Sender).
(** irc/event.go [Event.Hostname] *)
Definition Event_Hostname (e : Event) : bytes := Hosts.Hostname e.(Sender).
(** irc/event.go [Event.SplitHost] *)
Definition SplitHost (e : Event) : bytes * bytes * bytes := Hosts.Split e.(Sender).

(** irc/event.go [Event.SplitArgs] *)
Definition SplitArgs (e : Event) (i : nat) : go (list bytes) :=
  arg ← index e.(Args) i; Ret (SplitByte arg ",").

(** irc/event.go [Event.Target] *)
Definition Target (e : Event) : go bytes := index e.(Args) 0.

(** irc/event.go [Event.IsTargetChan]: a nil [NetworkInfo] panics, except on
    an empty target, for which the method reads no field. *)
Definition IsTargetChan (e : Event) : go bool :=
  target ← index e.(Args) 0;
  match target, e.(NetInfo) with
  | [], _ => Ret false
  | _, Some ni => Ret (IsChannel ni target)
  | _, None => Panic
  end.

(** irc/event.go [Event.Message] *)
Definition Message (e : Event) : go bytes := index e.(Args) 1.

Fixpoint write_args (args : list bytes) : bytes :=
  match args with
  | [] => []
  | [arg] => " "%char :: (if ContainsRune arg (code " ") then ":"%char :: arg else arg)
  | arg :: args => " "%char :: arg ++ write_args args
  end.

(** irc/event.go [Event.String] *)
Definition Event_String (e : Event) : bytes :=
  (match e.(Sender) with
   | [] => []
   | sender => ":"%char :: sender ++ [" "%char]
   end)
  ++ e.(Name) ++ write_args e.(Args).

(** irc/event.go [Event.IsCTCP] *)
Definition Event_IsCTCP (e : Event) : go bool :=
  if (bool_decide (e.(Name) = PRIVMSG) || bool_decide (e.(Name) = NOTICE))
     && bool_decide (2 <= length e.(Args))
  then arg ← index e.(Args) 1; IsCTCPString arg
  else Ret false.

(** irc/event.go [Event.UnpackCTCP] *)
Definition UnpackCTCP (e : Event) : go (bytes * bytes) :=
  arg ← index e.(Args) 1; CTCPunpackString arg.

(** ** Lemmas *)

Lemma write_args_app args arg :
  write_args (args ++ [arg]) =
  concat (map (cons " "%char) args) ++ write_args [arg].
Proof.
  induction args as [|a args IH]; [done|].
  cbn [app map concat]. rewrite <- app_assoc, <- IH.
  by destruct (args ++ [arg]) eqn:E; [destruct args|].
Qed.
