(* ===== verification/Parse.v ===== *)
(** * Package parse: the IRC line parser (parse/parse.go)

    The expression [ircRegex] is data of type [regex].  A line that does not
    match is returned as the error [ParseError]; the middle parameters are cut
    with [strings.Fields] and the trailing one is kept whole. *)

From S2P Require Import Prelude GoStrings Regex Hosts NetworkInfo Event.

(** The class [[A-Z0-9]] *)
Definition name_rune (r : Z) : bool :=
  bool_decide (48 <= r <= 57)%Z || bool_decide (65 <= r <= 90)%Z.
(** [\S] *)
Definition nonblank (r : Z) : bool := negb (space_rune r).
(** The class [[^:\s]] *)
Definition middle_rune (r : Z) : bool :=
  negb (bool_decide (r = code ":") || space_rune r).
(** [.]: any rune but a newline *)
Definition any_rune (r : Z) : bool := negb (bool_decide (r = 10)%Z).

Definition re_sender : regex :=
  RSeqs [RByte ":"; RGroup 1 (RPlus (RClass nonblank)); RByte " "].
Definition re_middle : regex :=
  RSeq (RByte " ") (RSeq (RClass middle_rune) (RStar (RClass nonblank))).
Definition re_trailing : regex :=
  RSeqs [RByte " "; RByte ":"; RGroup 4 (RStar (RClass any_rune))].

(** parse/parse.go:18-22 [ircRegex] *)
Definition ircRegex : regex :=
  RSeqs [ROpt re_sender; RGroup 2 (RPlus (RClass name_rune));
         RGroup 3 (RStar re_middle); ROpt re_trailing;
         RStar (RClass space_rune); REnd].

(** parse/parse.go [ParseError] *)
Inductive ParseError := MkParseError (Irc : bytes).

(** parse/parse.go [ParseError.Error] *)
Definition ParseError_Error (_ : ParseError) : bytes :=
  bs "parse: Unable to parse received irc protocol".

(** parse/parse.go [Parse] *)
Definition Parse (now : Z) (str : bytes) : ParseError + Event :=
  match FindSubmatch ircRegex str with
  | None => inl (MkParseError str)
  | Some parts =>
    let sender := group parts 1 in
    let name := group parts 2 in
    let args := if decide (group parts 3 = []) then [] else Fields (group parts 3) in
    let args := if decide (group parts 4 = []) then args else args ++ [group parts 4] in
    inr (NewEvent now [] None name sender args)
  end.

(** ** Matching a line that was printed *)

(** A parameter that can stand between the command and the trailing one: not
    empty, no rune that is white space, no leading colon. *)
Definition middle_arg (a : bytes) : bool :=
  match chunks a with
  | [] => false
  | (z, _) :: _ => negb (bool_decide (z = code ":"))
  end && forallb (fun zb => negb (is_space zb.1)) (chunks a).

(** A last parameter that is printed behind a colon. *)
Definition trailing_arg (a : bytes) : bool :=
  ContainsRune a (code " ") && forallb (fun zb => any_rune zb.1) (chunks a).

Definition line_args (l : list bytes) (t : option bytes) : list bytes :=
  match t with None => l | Some t => l ++ [t] end.

Lemma space_rune_is_space r : is_space r = false -> space_rune r = false.
Proof.
  unfold is_space, space_rune. rewrite orb_false_iff, !bool_decide_eq_false.
  intros [H _]. set_solver.
Qed.

(** A parameter's chunks, as the middle expression reads them. *)
Lemma middle_arg_chunks a :
  middle_arg a = true ->
  exists z b xs, chunks a = (z, b) :: xs /\ middle_rune z = true /\
    Forall (fun zb => nonblank zb.1 = true) xs /\
    Forall (fun zb => is_space zb.1 = false) (chunks a).
Proof.
  unfold middle_arg. destruct (chunks a) as [|[z b] xs] eqn:E; [done|].
  intros [Hz Hxs]%andb_true_iff. exists z, b, xs. split; [done|].
  assert (Forall (fun zb => is_space zb.1 = false) ((z, b) :: xs)) as Hf.
  { apply Forall_forall. intros x Hx. rewrite forallb_forall in Hxs.
    apply negb_true_iff, Hxs, list_elem_of_In, Hx. }
  split; [|split; [|done]].
  - apply Forall_cons in Hf as [Hf _]. apply space_rune_is_space in Hf.
    apply negb_true_iff in Hz. unfold middle_rune. cbn in Hf. by rewrite Hz, Hf.
  - apply Forall_cons in Hf as [_ Hf]. eapply Forall_impl; [exact Hf|].
    intros x Hx. unfold nonblank. by rewrite space_rune_is_space.
Qed.

Definition line_chunks (args : list bytes) : list (Z * bytes) :=
  concat (map (fun a => (code " ", [" "%char]) :: chunks a) args).

Lemma chunks_line a args :
  chunks (a ++ concat (map (cons " "%char) args)) = chunks a ++ line_chunks args.
Proof.
  revert a. induction args as [|b args IH]; intros a.
  { by rewrite !app_nil_r. }
  cbn [map concat app line_chunks]. rewrite chunks_app_ascii by done.
  by rewrite IH.
Qed.

(** What can follow a middle parameter: the end, or a space. *)
Definition after_middle (s : subject) : Prop :=
  match s with (z, _) :: _ => z = code " " | [] => True end.

(** The expression for the middle parameters reads each of them in turn, and
    stops where no middle parameter follows. *)
Lemma rmatch_middles args rest caps k c :
  Forall (fun a => middle_arg a = true) args ->
  after_middle rest ->
  (forall k', rmatch re_middle rest caps k' = None) ->
  k rest caps = Some c ->
  rmatch (RStar re_middle) (line_chunks args ++ rest) caps k = Some c.
Proof.
  intros Ha Hr Hno Hk. induction Ha as [|a args Ha Hargs IH].
  { cbn [line_chunks map concat app]. by rewrite rmatch_star_stop. }
  destruct (middle_arg_chunks _ Ha) as (z & b & xs & E & Hz & Hxs & _).
  change (line_chunks (a :: args)) with
    (((code " ", [" "%char]) :: chunks a) ++ line_chunks args).
  rewrite rmatch_star_unroll. cbn [app]. unfold re_middle at 1.
  rewrite rmatch_seq, rmatch_byte, rmatch_seq, E. cbn [app].
  rewrite <- !app_assoc.
  rewrite rmatch_class_yes by done.
  match goal with |- match rmatch _ _ _ ?K with _ => _ end = _ =>
    assert (rmatch (RStar (RClass nonblank)) (xs ++ line_chunks args ++ rest) caps K
            = Some c) as H end.
  { apply rmatch_star_class; [done| |].
    - destruct args as [|a' args]; cbn; [|done].
      destruct rest as [|[z' b'] rest]; cbn in *; [done|by subst].
    - cbn beta. rewrite decide_True by (cbn [length app]; rewrite !length_app; cbn [length]; rewrite ?length_app; lia).
      exact IH. }
  by rewrite H.
Qed.

Lemma name_class_group n rest caps k c :
  of_class name_rune n ->
  match rest with (z, _) :: _ => name_rune z = false | [] => True end ->
  k rest (<[2 := n]> caps) = Some c ->
  rmatch (RGroup 2 (RPlus (RClass name_rune))) (chunks n ++ rest) caps k = Some c.
Proof. apply rmatch_group_class. Qed.

Lemma unchunk_app a b : unchunk (a ++ b) = unchunk a ++ unchunk b.
Proof. unfold unchunk. by rewrite map_app, concat_app. Qed.

Lemma unchunk_line args :
  unchunk (line_chunks args) = concat (map (cons " "%char) args).
Proof.
  induction args as [|a args IH]; [done|].
  change (line_chunks (a :: args)) with
    (((code " ", [" "%char]) :: chunks a) ++ line_chunks args).
  rewrite unchunk_app, IH. cbn. by rewrite chunks_concat.
Qed.

(** The part of the expression behind the sender. *)
Definition re_tail : regex :=
  RSeqs [RGroup 2 (RPlus (RClass name_rune)); RGroup 3 (RStar re_middle);
         ROpt re_trailing; RStar (RClass space_rune); REnd].

Definition tail_caps (caps : captures) (name : bytes) (args : list bytes)
    (t : option bytes) : captures :=
  let caps := <[3 := concat (map (cons " "%char) args)]> (<[2 := name]> caps) in
  match t with None => caps | Some t => <[4 := t]> caps end.

Definition tail_chunks (name : bytes) (args : list bytes) (t : option bytes) : subject :=
  chunks name ++ line_chunks args ++
  match t with
  | None => []
  | Some t => (code " ", [" "%char]) :: (code ":", [":"%char]) :: chunks t
  end.

Lemma rmatch_end caps k : rmatch (RSeq (RStar (RClass space_rune)) REnd) [] caps k = k [] caps.
Proof. done. Qed.

Lemma re_middle_no caps k' (s : subject) :
  rmatch re_middle ((code " ", [" "%char]) :: (code ":", [":"%char]) :: s) caps k' = None.
Proof. unfold re_middle. by rewrite rmatch_seq, rmatch_byte. Qed.

Lemma rmatch_tail name args t caps :
  of_class name_rune name ->
  Forall (fun a => middle_arg a = true) args ->
  match t with None => True | Some t => forallb (fun zb => any_rune zb.1) (chunks t) = true end ->
  rmatch re_tail (tail_chunks name args t) caps (fun _ c => Some c) =
    Some (tail_caps caps name args t).
Proof.
  intros Hn Ha Ht. unfold re_tail, tail_chunks. cbn [RSeqs].
  rewrite rmatch_seq. apply name_class_group; [done| |].
  { destruct args; [|done]. by destruct t. }
  rewrite rmatch_seq, rmatch_group.
  match goal with |- rmatch _ _ _ ?K = _ => set (K0 := K) end.
  apply rmatch_middles; [done| | |].
  { by destruct t. }
  { intros k'. destruct t; [apply re_middle_no|done]. }
  subst K0. cbn beta. rewrite take_consumed, unchunk_line, rmatch_seq.
  destruct t as [t|]; [|done].
  apply rmatch_opt_some. unfold re_trailing. cbn [RSeqs].
  rewrite rmatch_seq, rmatch_byte, rmatch_seq, rmatch_byte, rmatch_group.
  rewrite <- (app_nil_r (chunks t)).
  match goal with |- rmatch _ _ _ ?K = _ => set (K0 := K) end.
  apply rmatch_star_class; [|done|].
  { apply Forall_forall. intros x Hx. rewrite forallb_forall in Ht.
    by apply Ht, list_elem_of_In. }
  subst K0. cbn beta. rewrite take_consumed, unchunk_chunks. done.
Qed.

Lemma fields_aux_run xs rest cur :
  Forall (fun zb => is_space zb.1 = false) xs ->
  fields_aux (xs ++ rest) cur = fields_aux rest (cur ++ unchunk xs).
Proof.
  intros H. revert cur. induction H as [|[z b] xs Hz _ IH]; intros cur; cbn in *.
  - by rewrite app_nil_r.
  - rewrite Hz, IH. by rewrite <- app_assoc.
Qed.

Lemma middle_arg_nonempty a : middle_arg a = true -> a <> [].
Proof. by intros H ->. Qed.

Lemma fields_aux_line args cur :
  Forall (fun a => middle_arg a = true) args ->
  fields_aux (line_chunks args) cur = (if decide (cur = []) then [] else [cur]) ++ args.
Proof.
  intros H. revert cur. induction H as [|a args Ha _ IH]; intros cur.
  { cbn. by rewrite app_nil_r. }
  change (line_chunks (a :: args)) with
    ((code " ", [" "%char]) :: (chunks a ++ line_chunks args)).
  destruct (middle_arg_chunks _ Ha) as (z & b & xs & _ & _ & _ & Hs).
  assert (fields_aux (chunks a ++ line_chunks args) [] = a :: args) as H.
  { rewrite fields_aux_run, IH, unchunk_chunks by done. cbn [app].
    by rewrite decide_False by (by apply middle_arg_nonempty). }
  cbn [fields_aux]. replace (is_space (code " ")) with true by done.
  rewrite H. by case_decide.
Qed.

(** Cutting the middle parameters apart again. *)
Lemma Fields_line args :
  Forall (fun a => middle_arg a = true) args ->
  Fields (concat (map (cons " "%char) args)) = args.
Proof.
  intros H. unfold Fields. pose proof (chunks_line [] args) as E.
  change (chunks (concat (map (cons " "%char) args)) = line_chunks args) in E.
  rewrite E. by rewrite fields_aux_line.
Qed.

(** The parameters of an event that can be printed and read back: every one
    but the last can stand in the middle, the last one there or behind a
    colon. *)
Fixpoint wf_args (args : list bytes) : bool :=
  match args with
  | [] => true
  | [a] => middle_arg a || trailing_arg a
  | a :: args => middle_arg a && wf_args args
  end.

Lemma middle_arg_no_space a : middle_arg a = true -> ContainsRune a (code " ") = false.
Proof.
  intros H. destruct (middle_arg_chunks _ H) as (_ & _ & _ & _ & _ & _ & Hs).
  apply bool_decide_eq_false. intros (zb & E & Hin)%list_elem_of_fmap.
  rewrite Forall_forall in Hs. apply Hs in Hin. rewrite <- E in Hin. done.
Qed.

Lemma wf_args_split args :
  wf_args args = true ->
  exists l t, args = line_args l t /\ Forall (fun a => middle_arg a = true) l /\
    match t with None => True | Some t => trailing_arg t = true end.
Proof.
  induction args as [|a args IH]; intros H; [by exists [], None|].
  destruct args as [|a' args].
  { cbn in H. apply orb_true_iff in H as [H|H].
    - exists [a], None. by repeat constructor.
    - by exists [], (Some a). }
  change (middle_arg a && wf_args (a' :: args) = true) in H.
  apply andb_true_iff in H as [Ha H]. destruct (IH H) as (l & t & E & Hl & Ht).
  exists (a :: l), t. rewrite E. split; [by destruct t|]. split; [by constructor|done].
Qed.

Lemma write_args_middle l :
  Forall (fun a => middle_arg a = true) l ->
  write_args l = concat (map (cons " "%char) l).
Proof.
  induction 1 as [|a l Ha Hl IH]; [done|].
  destruct l as [|b l].
  - cbn. rewrite middle_arg_no_space by done. by rewrite app_nil_r.
  - change (write_args (a :: b :: l)) with (" "%char :: a ++ write_args (b :: l)).
    by rewrite IH.
Qed.

Lemma chunks_tail name l t :
  Forall (fun a => middle_arg a = true) l ->
  match t with None => True | Some t => trailing_arg t = true end ->
  chunks (name ++ write_args (line_args l t)) = tail_chunks name l t.
Proof.
  intros Hl Ht. unfold tail_chunks. destruct t as [t|]; cbn [line_args].
  - rewrite write_args_app. cbn [write_args]. unfold trailing_arg in Ht.
    apply andb_true_iff in Ht as [-> _].
    rewrite app_assoc, chunks_app_ascii, chunks_ascii, chunks_line by done.
    by rewrite <- app_assoc.
  - rewrite write_args_middle, chunks_line by done. by rewrite app_nil_r.
Qed.

Lemma tail_chunks_no_colon name l t caps k :
  of_class name_rune name -> rmatch re_sender (tail_chunks name l t) caps k = None.
Proof.
  intros Hn. destruct (of_class_chunks _ _ Hn) as (z & b & xs & E & Hz & _).
  unfold tail_chunks, re_sender. cbn [RSeqs]. rewrite rmatch_seq, E.
  apply rmatch_class_no. apply bool_decide_eq_false. intros ->. done.
Qed.

Lemma ircRegex_eq s caps k :
  rmatch ircRegex s caps k =
  rmatch (ROpt re_sender) s caps (fun s' caps' => rmatch re_tail s' caps' k).
Proof. done. Qed.

Definition sender_caps (sender : bytes) : captures :=
  match sender with [] => ∅ | _ => {[1 := sender]} end.

(** The match of a printed event. *)
Lemma FindSubmatch_String ev l t :
  ev.(Sender) = [] \/ of_class nonblank ev.(Sender) ->
  of_class name_rune ev.(Name) ->
  ev.(Args) = line_args l t ->
  Forall (fun a => middle_arg a = true) l ->
  match t with None => True | Some t => trailing_arg t = true end ->
  FindSubmatch ircRegex (Event_String ev) =
    Some (tail_caps (sender_caps ev.(Sender)) ev.(Name) l t).
Proof.
  intros Hs Hn Ha Hl Ht. unfold FindSubmatch. rewrite ircRegex_eq.
  assert (forall caps, rmatch re_tail (tail_chunks ev.(Name) l t) caps (fun _ c => Some c)
    = Some (tail_caps caps ev.(Name) l t)) as Htail.
  { intros caps. apply rmatch_tail; [done|done|]. destruct t; [|done].
    unfold trailing_arg in Ht. by apply andb_true_iff in Ht as [_ Ht]. }
  unfold Event_String. rewrite Ha. destruct ev.(Sender) as [|c s] eqn:Es.
  - cbn [app]. rewrite chunks_tail by done.
    rewrite rmatch_opt_none by (by apply tail_chunks_no_colon). apply Htail.
  - destruct Hs as [Hs|Hs]; [done|].
    apply rmatch_opt_some. unfold re_sender. cbn [RSeqs].
    rewrite <- (app_comm_cons _ _ ":"%char), chunks_ascii by done.
    rewrite <- app_assoc. cbn [app]. rewrite app_comm_cons, chunks_app_ascii by done.
    rewrite chunks_tail by done.
    rewrite rmatch_seq, rmatch_byte, rmatch_seq. apply rmatch_group_class; [done|done|].
    rewrite rmatch_byte. apply Htail.
Qed.

(** C5. Printing an event and parsing the line gives the event's name, sender
    and arguments back: for a sender without blanks (or none), a name of
    capitals and digits, and arguments of which only the last holds a
    space. *)
Theorem Parse_String now ev :
  ev.(Sender) = [] \/ of_class nonblank ev.(Sender) ->
  of_class name_rune ev.(Name) ->
  wf_args ev.(Args) = true ->
  Parse now (Event_String ev) =
    inr (NewEvent now [] None ev.(Name) ev.(Sender) ev.(Args)).
Proof.
  intros Hs Hn (l & t & Ha & Hl & Ht)%wf_args_split.
  unfold Parse. erewrite FindSubmatch_String by done.
  assert (group (tail_caps (sender_caps ev.(Sender)) ev.(Name) l t) 1 = ev.(Sender)) as ->.
  { unfold group, tail_caps, sender_caps. destruct t, ev.(Sender); by simplify_map_eq. }
  assert (group (tail_caps (sender_caps ev.(Sender)) ev.(Name) l t) 2 = ev.(Name)) as ->.
  { unfold group, tail_caps. destruct t; by simplify_map_eq. }
  assert (group (tail_caps (sender_caps ev.(Sender)) ev.(Name) l t) 3
          = concat (map (cons " "%char) l)) as ->.
  { unfold group, tail_caps. destruct t; by simplify_map_eq. }
  assert (group (tail_caps (sender_caps ev.(Sender)) ev.(Name) l t) 4
          = default [] t) as ->.
  { unfold group, tail_caps, sender_caps. destruct t, ev.(Sender); by simplify_map_eq. }
  do 2 f_equal. rewrite Ha, Fields_line by done.
  replace (if decide (concat (map (cons " "%char) l) = []) then [] else l) with l
    by (destruct l; done).
  destruct t as [t|]; cbn; [|done].
  rewrite decide_False; [done|]. by intros ->.
Qed.

Lemma Parse_String_witness :
  Parse 7 (Event_String (NewEvent 3 [] None (bs "PRIVMSG") (bs "n!u@h")
                           [bs "#chan"; bs "hello : there"]))
  = inr (NewEvent 7 [] None (bs "PRIVMSG") (bs "n!u@h") [bs "#chan"; bs "hello : there"]).
Proof.
  apply (Parse_String 7 (NewEvent 3 [] None (bs "PRIVMSG") (bs "n!u@h")
                           [bs "#chan"; bs "hello : there"])).
  - right. split; [done|]. decide_now.
  - split; [done|]. decide_now.
  - reflexivity.
Defined.

(** The last parameter is printed without a colon when it holds no space,
    so one that starts with a colon of its own loses it on the way. *)
Theorem Parse_String_colon now :
  Parse now (Event_String (NewEvent now [] None PRIVMSG (bs "n!u@h") [bs "#chan"; bs ":)"]))
  = inr (NewEvent now [] None PRIVMSG (bs "n!u@h") [bs "#chan"; bs ")"]).
Proof. by vm_compute. Qed.

(** ** What a parsed line can be *)

Lemma unchunk_elem xs c : c ∈ unchunk xs -> exists z b, (z, b) ∈ xs /\ c ∈ b.
Proof.
  induction xs as [|[z b] xs IH]; [by intros ?%not_elem_of_nil|].
  unfold unchunk. cbn. intros [Hc|Hc]%elem_of_app.
  - exists z, b. split; [left|done].
  - destruct (IH Hc) as (z' & b' & ? & ?). exists z', b'. split; [by right|done].
Qed.

(** The four groups of a match. *)
Lemma ircRegex_inv str parts :
  FindSubmatch ircRegex str = Some parts ->
  (exists pre xs post, chunks str = pre ++ xs ++ post /\ group parts 1 = unchunk xs /\
     Forall (fun zb => nonblank zb.1 = true) xs) /\
  exists pre xs post, chunks str = pre ++ xs ++ post /\ group parts 2 = unchunk xs /\
    xs <> [] /\ Forall (fun zb => name_rune zb.1 = true) xs.
Proof.
  unfold FindSubmatch. rewrite ircRegex_eq. intros H.
  assert (exists pre s' caps', chunks str = pre ++ s' /\
    (exists pre1 xs post, chunks str = pre1 ++ xs ++ post /\ group caps' 1 = unchunk xs /\
     Forall (fun zb => nonblank zb.1 = true) xs) /\
    rmatch re_tail s' caps' (fun _ c => Some c) = Some parts)
    as (pre & s' & caps' & E & H1 & Ht).
  { apply rmatch_opt_inv in H as [H|H].
    - unfold re_sender in H. cbn [RSeqs] in H. rewrite rmatch_seq in H.
      apply rmatch_byte_inv in H as (bb & s1 & E1 & H). rewrite rmatch_seq in H.
      apply rmatch_group_class_inv in H as (xs & s2 & -> & _ & Hxs & H).
      apply rmatch_byte_inv in H as (bb' & s3 & -> & H).
      exists ((code ":", bb) :: xs ++ [(code " ", bb')]), s3, (<[1 := unchunk xs]> ∅).
      split; [rewrite E1; cbn; by rewrite <- app_assoc|]. split; [|done].
      exists [(code ":", bb)], xs, ((code " ", bb') :: s3). split; [done|]. split; [|done].
      unfold group. by simplify_map_eq.
    - exists [], (chunks str), ∅. split; [done|]. split; [|done].
      by exists [], [], (chunks str). }
  unfold re_tail in Ht. cbn [RSeqs] in Ht. rewrite rmatch_seq in Ht.
  apply rmatch_group_class_inv in Ht as (xs & rest & -> & Hne & Hxs & Ht).
  apply rmatch_consumes in Ht as (_ & _ & caps2 & _ & [= <-] & Hc).
  assert (forall n, n = 1 \/ n = 2 -> group caps2 n = group (<[2 := unchunk xs]> caps') n) as Hg.
  { intros n Hn. unfold group. rewrite Hc; [done|]. by destruct Hn as [->| ->]. }
  split.
  - destruct H1 as (p & ys & q & H1 & H2 & H3). exists p, ys, q. split; [done|].
    split; [|done]. rewrite Hg by auto. unfold group. by simplify_map_eq.
  - exists pre, xs, rest. split; [done|]. rewrite Hg by auto.
    split; [|done]. unfold group. by simplify_map_eq.
Qed.

(** What a parsed line gives: a non-empty name of capitals and digits, a
    sender without blanks, and non-empty arguments of which only the last can
    hold white space. *)
Theorem Parse_shape now str ev :
  Parse now str = inr ev ->
  ev.(Name) <> [] /\ Forall (fun c => name_rune (code c) = true) ev.(Name) /\
  " "%char ∉ ev.(Sender) /\
  Forall (fun a => a <> []) ev.(Args) /\
  exists middle last, ev.(Args) = middle ++ last /\ length last <= 1 /\
                      Forall no_space middle.
Proof.
  unfold Parse. destruct (FindSubmatch ircRegex str) as [parts|] eqn:E; [|done].
  intros [= <-]. cbn [NewEvent Name Sender Args].
  destruct (ircRegex_inv _ _ E) as [(p1 & xs1 & q1 & H1 & -> & Hx1)
                                    (p2 & xs2 & q2 & H2 & -> & Hne & Hx2)].
  split; [|split; [|split; [|split]]].
  - destruct xs2 as [|[z b] xs2]; [done|].
    pose proof (chunks_nonempty str) as Hf. rewrite H2 in Hf.
    apply Forall_app in Hf as [_ [[Hb _]%Forall_cons _]%Forall_app].
    unfold unchunk. cbn. cbn in Hb. by destruct b.
  - apply Forall_forall. intros c (z & b & Hin & Hc)%unchunk_elem.
    rewrite Forall_forall in Hx2. specialize (Hx2 _ Hin). cbn in Hx2.
    assert (0 <= z < 128)%Z as Hz.
    { unfold name_rune in Hx2. apply orb_true_iff in Hx2.
      rewrite !bool_decide_eq_true in Hx2. lia. }
    rewrite (chunks_ascii_inv str z b) in Hc; [|rewrite H2; set_solver|lia].
    apply list_elem_of_singleton in Hc. subst c. by rewrite code_byte_of by lia.
  - intros (z & b & Hin & Hc)%unchunk_elem.
    rewrite Forall_forall in Hx1. specialize (Hx1 _ Hin). cbn in Hx1.
    destruct (chunks_byte_inv str z b " ") as [-> _]; [|done..].
    rewrite H1. set_solver.
  - assert (Forall (fun a => a <> [])
      (if decide (group parts 3 = []) then [] else Fields (group parts 3))) as Hf.
    { case_decide; [constructor|apply Fields_nonempty]. }
    destruct (decide (group parts 4 = [])); [done|]. apply Forall_app. by repeat constructor.
  - eexists _, (if decide (group parts 4 = []) then [] else [group parts 4]).
    split; [|split; [case_decide; cbn; lia|]].
    + destruct (decide (group parts 4 = [])); [by rewrite app_nil_r|reflexivity].
    + case_decide; [constructor|apply Fields_no_space].
Qed.

Lemma Parse_shape_witness :
  match Parse 0 (bs ":n!u@h PRIVMSG #c  :a b") with
  | inr ev => ev.(Name) <> [] /\ " "%char ∉ ev.(Sender)
  | inl _ => True
  end.
Proof.
  destruct (Parse 0 (bs ":n!u@h PRIVMSG #c  :a b")) as [e|ev] eqn:E; [exact I|].
  split; apply (Parse_shape 0 _ _ E).
Defined.
