(* ===== verification/Fmt.v ===== *)
(** * The part of Go's package fmt the program uses

    Operands are values of dynamic type: strings, integers of some type, and
    values of other types with the text their [Error] or [String] method (or
    the default format) gives.  A format string may hold the verbs [%v], [%s],
    [%d], [%T] and [%%] with an optional [-] flag and a width, given as digits or as
    [*]; every other verb is reported in the output the way the package
    reports a bad verb. *)

From S2P Require Import Prelude GoStrings.

Inductive value :=
  | VString (s : bytes)
  | VInt (typ : bytes) (z : Z)
  | VOther (typ : bytes) (text : bytes).

(** The text of the default format [%v]. *)
Definition show (v : value) : bytes :=
  match v with VString s => s | VInt _ z => Itoa z | VOther _ t => t end.

Definition type_name (v : value) : bytes :=
  match v with VString _ => bs "string" | VInt t _ | VOther t _ => t end.

Definition is_string (v : value) : bool :=
  match v with VString _ => true | _ => false end.

(** [fmt.Sprint]: a space between two operands when neither is a string *)
Fixpoint Sprint (args : list value) : bytes :=
  match args with
  | [] => []
  | [a] => show a
  | a :: (b :: _) as rest =>
    show a ++ (if is_string a || is_string b then [] else bs " ") ++ Sprint rest
  end.

(** [fmt.Sprintln] *)
Definition Sprintln (args : list value) : bytes :=
  Join (map show args) (bs " ") ++ [byte_of 10].

Definition bad_verb (verb : ascii) (v : value) : bytes :=
  bs "%!" ++ [verb] ++ bs "(" ++ type_name v ++ bs "=" ++ show v ++ bs ")".

Definition format_verb (verb : ascii) (v : value) : bytes :=
  if bool_decide (verb = "v"%char) then show v else
  if bool_decide (verb = "s"%char) then
    match v with VInt _ _ => bad_verb verb v | _ => show v end else
  if bool_decide (verb = "d"%char) then
    match v with VInt _ _ => show v | _ => bad_verb verb v end else
  if bool_decide (verb = "T"%char) then type_name v
  else bad_verb verb v.

(** Padding to a width counted in runes. *)
Definition pad (lj : bool) (width : nat) (s : bytes) : bytes :=
  let fill := replicate (width - length (runes s)) " "%char in
  if lj then s ++ fill else fill ++ s.

(** The operands that no directive took. *)
Definition extra_args (args : list value) : bytes :=
  match args with
  | [] => []
  | _ => bs "%!(EXTRA " ++
         Join (map (fun v => type_name v ++ bs "=" ++ show v) args) (bs ", ") ++ bs ")"
  end.

(** Inside a directive: the flag and the width read so far. *)
Inductive fmt_state :=
  | Text
  | Directive (lj : bool) (width : nat).

Definition digit_val (c : ascii) : option nat :=
  if bool_decide (48 <= code c <= 57)%Z then Some (Z.to_nat (code c - 48)) else None.

Fixpoint format_from (st : fmt_state) (f : bytes) (args : list value) : bytes :=
  match f with
  | [] =>
    match st with Text => extra_args args | Directive _ _ => bs "%!(NOVERB)" ++ extra_args args end
  | c :: f =>
    match st with
    | Text =>
      if bool_decide (c = "%"%char) then format_from (Directive false 0) f args
      else c :: format_from Text f args
    | Directive lj width =>
      if bool_decide (c = "-"%char) then format_from (Directive true width) f args else
      match digit_val c with
      | Some d => format_from (Directive lj (width * 10 + d)) f args
      | None =>
        if bool_decide (c = "*"%char) then
          match args with
          | VInt _ z :: args =>
            if bool_decide (0 <= z)%Z then format_from (Directive lj (Z.to_nat z)) f args
            else format_from (Directive true (Z.to_nat (- z))) f args
          | _ :: args => bs "%!(BADWIDTH)" ++ format_from (Directive lj width) f args
          | [] => bs "%!(BADWIDTH)" ++ format_from (Directive lj width) f args
          end else
        if bool_decide (c = "%"%char) then "%"%char :: format_from Text f args else
        match args with
        | [] => bs "%!" ++ [c] ++ bs "(MISSING)" ++ format_from Text f []
        | v :: args => pad lj width (format_verb c v) ++ format_from Text f args
        end
      end
    end
  end.

(** ** Formats without operands

    A text that is not meant as a format is one when it is given to [Sprintf]
    alone, so all the syntax of directives is read, though none finds an
    operand. *)

Fixpoint skip_flags (f : bytes) : bytes :=
  match f with
  | c :: f' => if bool_decide (c ∈ bs "#0+- ") then skip_flags f' else f
  | [] => []
  end.

(** A number: whether there is one, and what follows; one that is too large
    takes everything with it. *)
Fixpoint parse_num (num : Z) (isnum : bool) (f : bytes) : bool * bytes :=
  match f with
  | c :: f' =>
    match digit_val c with
    | Some d => if bool_decide (1000000 < num)%Z then (false, []) else parse_num (num * 10 + Z.of_nat d) true f'
    | None => (isnum, f)
    end
  | [] => (isnum, [])
  end.

(** The number of an operand in brackets: what follows, whether it was well
    formed, and whether all is still good, which no number without operands
    is. *)
Definition arg_number (f : bytes) (good : bool) : bytes * bool * bool :=
  match f with
  | "["%char :: f' =>
    if bool_decide (length f < 3) then (f', false, false) else
    match IndexByte f' "]"%char with
    | Some j =>
      let '(isnum, rest) := parse_num 0 false (take j f') in
      (drop (S j) f', isnum && bool_decide (rest = []), false)
    | None => (f', false, false)
    end
  | _ => (f, false, good)
  end.

(** One directive, from behind its percent sign: what is written, and what
    follows *)
Definition directive (f : bytes) : bytes * bytes :=
  let '(f, after, good) := arg_number (skip_flags f) true in
  let '(out, f, after, good) :=
    match f with
    | "*"%char :: f => (bs "%!(BADWIDTH)", f, false, good)
    | _ => let '(isnum, f) := parse_num 0 false f in ([], f, after, good && negb (after && isnum))
    end in
  let '(out, f, after, good) :=
    match f with
    | "."%char :: f =>
      let '(f, after, good) := arg_number f (good && negb after) in
      match f with
      | "*"%char :: f => (out ++ bs "%!(BADPREC)", f, false, good)
      | _ => (out, (parse_num 0 false f).2, after, good)
      end
    | _ => (out, f, after, good)
    end in
  let '(f, good) := if after : bool then (f, good) else let '(f, _, good) := arg_number f good in (f, good) in
  match decode_rune f with
  | None => (out ++ bs "%!(NOVERB)", [])
  | Some (verb, w) =>
    (out ++ (if bool_decide (verb = code "%") then bs "%"
             else bs "%!" ++ encode_rune verb ++ (if good then bs "(MISSING)" else bs "(BADINDEX)")),
     drop w f)
  end.

(** Every directive takes a byte or ends the format, so the length is fuel
    enough. *)
Fixpoint bare_fuel (n : nat) (f : bytes) : bytes :=
  match n, f with
  | S n, c :: f =>
    if bool_decide (c = "%"%char) then let '(out, f) := directive f in out ++ bare_fuel n f
    else c :: bare_fuel n f
  | _, _ => []
  end.
Definition Sprintf_bare (format : bytes) : bytes := bare_fuel (length format) format.

Lemma bare_text f : "%"%char ∉ f -> Sprintf_bare f = f.
Proof.
  unfold Sprintf_bare. induction f as [|c f IH]; [done|]. intros Hf. cbn [length bare_fuel].
  rewrite bool_decide_false by set_solver. by rewrite IH by set_solver.
Qed.

(** [fmt.Sprintf] *)
Definition Sprintf (format : bytes) (args : list value) : bytes :=
  match args with
  | [] => Sprintf_bare format
  | _ => format_from Text format args
  end.

Lemma Sprintf_args format v args : Sprintf format (v :: args) = format_from Text format (v :: args).
Proof. done. Qed.

Example bare_runs :
  map Sprintf_bare (map bs ["100% sure"; "50%"; "a%%b"; "%[1]d"; "%[2"; "%5.*x"; "%[3]*.[2]*[1]f"]%string)
  = map bs ["100%!s(MISSING)ure"; "50%!(NOVERB)"; "a%b"; "%!d(BADINDEX)"; "%!(NOVERB)"; "%!(BADPREC)%!x(MISSING)";
            "%!(BADWIDTH)%!(BADPREC)%!f(BADINDEX)"]%string.
Proof. vm_compute. reflexivity. Qed.

Lemma Sprintln_last args :
  Sprintln args = take (length (Sprintln args) - 1) (Sprintln args) ++ [byte_of 10] /\
  take (length (Sprintln args) - 1) (Sprintln args) = Join (map show args) (bs " ").
Proof.
  assert (take (length (Sprintln args) - 1) (Sprintln args)
          = Join (map show args) (bs " ")) as E.
  { unfold Sprintln. rewrite length_app. cbn [length]. rewrite Nat.add_sub.
    apply take_app_length. }
  by rewrite E.
Qed.

Lemma pad_0 lj s : pad lj 0 s = s.
Proof. unfold pad. cbn. destruct lj; [apply app_nil_r|done]. Qed.

(** Text without a percent sign is copied. *)
Lemma format_text f g args :
  "%"%char ∉ f -> format_from Text (f ++ g) args = f ++ format_from Text g args.
Proof.
  induction f as [|c f IH]; intros Hf; [done|]. cbn [app format_from].
  rewrite bool_decide_false by set_solver. by rewrite IH by set_solver.
Qed.

Lemma format_s g s args :
  format_from Text ("%"%char :: "s"%char :: g) (VString s :: args)
  = s ++ format_from Text g args.
Proof. cbn -[pad]. by rewrite pad_0. Qed.

#[export] Hint Rewrite format_s : go.
