(* ===== verification/Writer.v ===== *)
(** * Package irc: the write helper (irc/writer.go)

    [Helper] turns calls into IRC lines and hands them to an [io.Writer].  The
    underlying writer is any state of type [W] with an operation that takes
    the bytes and returns the new state and an error or none. *)

From S2P Require Import Prelude GoStrings Fmt NetworkInfo Ctcp Event.

(** irc/writer.go:14-14 [IRC_MAX_LENGTH] *)
Definition IRC_MAX_LENGTH : nat := 510 - 62.
(** irc/writer.go:18-18 [SPLIT_BACKWARD] *)
Definition SPLIT_BACKWARD : nat := 20.
(** irc/writer.go:28-28 [fmtNotifyHeader] *)
Definition fmtNotifyHeader (msgType target : bytes) : bytes :=
  Sprintf (bs "%s %s :") [VString msgType; VString target].
(** irc/writer.go:20-20 [fmtPrivmsgHeader] *)
Definition fmtPrivmsgHeader (target : bytes) : bytes :=
  Sprintf (PRIVMSG ++ bs " %s :") [VString target].
(** irc/writer.go:22-22 [fmtNoticeHeader] *)
Definition fmtNoticeHeader (target : bytes) : bytes :=
  Sprintf (NOTICE ++ bs " %s :") [VString target].
(** irc/writer.go:24-24 [fmtCTCP] *)
Definition fmtCTCP (target msg : bytes) : bytes :=
  Sprintf (PRIVMSG ++ bs " %s :%s") [VString target; VString msg].
(** irc/writer.go:26-26 [fmtCTCPReply] *)
Definition fmtCTCPReply (target msg : bytes) : bytes :=
  Sprintf (NOTICE ++ bs " %s :%s") [VString target; VString msg].
(** irc/writer.go:30-30 [fmtJoin] *)
Definition fmtJoin (s : bytes) : bytes := Sprintf (JOIN ++ bs " :%s") [VString s].
(** irc/writer.go:32-32 [fmtPart] *)
Definition fmtPart (s : bytes) : bytes := Sprintf (PART ++ bs " :%s") [VString s].
(** irc/writer.go:34-34 [fmtQuit] *)
Definition fmtQuit (s : bytes) : bytes := Sprintf (QUIT ++ bs " :%s") [VString s].

(** [str[:len(str)-1]] of a string printed with [Sprintln] *)
Definition sprintln_cut (args : list value) : bytes :=
  let str := Sprintln args in take (length str - 1) str.

(** irc/writer.go:310-316 [Helper.splitSend]: the search for a space from
    position [i] down, [n] positions far, position 0 excluded *)
Fixpoint find_space (msg : bytes) (i n : nat) : option nat :=
  match n, i with
  | 0, _ | _, 0 => None
  | S n, S j => if bool_decide (msg !! i = Some " "%char) then Some i
                else find_space msg j n
  end.

(** irc/writer.go:305-317 [Helper.splitSend]: the size of the next piece and
    the number of bytes dropped behind it *)
Definition next_piece (msgMax : nat) (msg : bytes) : nat * nat :=
  if decide (length msg <= msgMax) then (length msg, 0) else
  match find_space msg msgMax SPLIT_BACKWARD with
  | Some i => (i, 1)
  | None => (msgMax, 0)
  end.

Section Helper.
Context {W E : Type} (Write : bytes -> W -> W * option E).
Implicit Types (w : W).

(** irc/writer.go:304-328 [Helper.splitSend]: the loop.  [None] is a loop that
    has not ended within [fuel] iterations. *)
Fixpoint split_loop (fuel : nat) (header : bytes) (msgMax : nat) (msg : bytes) w
  : option (W * option E) :=
  match msg with
  | [] => Some (w, None)
  | _ =>
    match fuel with
    | 0 => None
    | S fuel =>
      let '(size, nextWriteOffset) := next_piece msgMax msg in
      match Write (header ++ take size msg) w with
      | (w, Some err) => Some (w, Some err)
      | (w, None) => split_loop fuel header msgMax (drop (size + nextWriteOffset) msg) w
      end
    end
  end.

(** irc/writer.go [Helper.splitSend].  Every piece but the last is longer
    than nothing when the header leaves room, so the length of the message is
    fuel enough; with a header of more than [IRC_MAX_LENGTH] bytes [msg[i]]
    has a negative index. *)
Definition splitSend_fuel (fuel : nat) (header msg : bytes) w : go (option (W * option E)) :=
  let lnh := length header in
  if decide (lnh + length msg <= IRC_MAX_LENGTH) then Ret (Some (Write (header ++ msg) w)) else
  if decide (msg = []) then Ret (Some (w, None)) else
  if decide (IRC_MAX_LENGTH < lnh) then Panic else
  Ret (split_loop fuel header (IRC_MAX_LENGTH - lnh) msg w).

Definition splitSend (header msg : bytes) w : go (option (W * option E)) :=
  splitSend_fuel (length msg) header msg w.

Definition write1 (msg : bytes) w : go (option (W * option E)) :=
  Ret (Some (Write msg w)).

(** irc/writer.go [Helper.Send] *)
Definition Send (args : list value) := write1 (Sprint args).
(** irc/writer.go [Helper.Sendln] *)
Definition Sendln (args : list value) := write1 (sprintln_cut args).
(** irc/writer.go [Helper.Sendf] *)
Definition Sendf (format : bytes) (args : list value) := write1 (Sprintf format args).

(** irc/writer.go [Helper.Privmsg] *)
Definition Privmsg (target : bytes) (args : list value) :=
  splitSend (fmtPrivmsgHeader target) (Sprint args).
(** irc/writer.go [Helper.Privmsgln] *)
Definition Privmsgln (target : bytes) (args : list value) :=
  splitSend (fmtPrivmsgHeader target) (sprintln_cut args).
(** irc/writer.go [Helper.Privmsgf] *)
Definition Privmsgf (target format : bytes) (args : list value) :=
  splitSend (fmtPrivmsgHeader target) (Sprintf format args).

(** irc/writer.go [Helper.Notice] *)
Definition Notice (target : bytes) (args : list value) :=
  splitSend (fmtNoticeHeader target) (Sprint args).
(** irc/writer.go [Helper.Noticeln] *)
Definition Noticeln (target : bytes) (args : list value) :=
  splitSend (fmtNoticeHeader target) (sprintln_cut args).
(** irc/writer.go [Helper.Noticef] *)
Definition Noticef (target format : bytes) (args : list value) :=
  splitSend (fmtNoticeHeader target) (Sprintf format args).

(** irc/writer.go [Helper.CTCP] *)
Definition CTCP (target tag : bytes) (data : list value) :=
  write1 (fmtCTCP target (CTCPpack tag (Some (Sprint data)))).
(** irc/writer.go [Helper.CTCPln] *)
Definition CTCPln (target tag : bytes) (data : list value) :=
  write1 (fmtCTCP target (CTCPpack tag (Some (sprintln_cut data)))).
(** irc/writer.go [Helper.CTCPf] *)
Definition CTCPf (target tag format : bytes) (data : list value) :=
  write1 (fmtCTCP target (CTCPpack tag (Some (Sprintf format data)))).
(** irc/writer.go [Helper.CTCPReply] *)
Definition CTCPReply (target tag : bytes) (data : list value) :=
  write1 (fmtCTCPReply target (CTCPpack tag (Some (Sprint data)))).
(** irc/writer.go [Helper.CTCPReplyln] *)
Definition CTCPReplyln (target tag : bytes) (data : list value) :=
  write1 (fmtCTCPReply target (CTCPpack tag (Some (sprintln_cut data)))).
(** irc/writer.go [Helper.CTCPReplyf] *)
Definition CTCPReplyf (target tag format : bytes) (data : list value) :=
  write1 (fmtCTCPReply target (CTCPpack tag (Some (Sprintf format data)))).

(** irc/writer.go:225-230 [Helper.Notify]: the kind of message and its
    target; [Notifyln] and [Notifyf] start with the same lines. *)
Definition notify_header (ev : Event) (target : bytes) : go bytes :=
  chan ← IsTargetChan ev;
  if (chan : bool) then target ← Target ev; Ret (fmtNotifyHeader PRIVMSG target)
  else Ret (fmtNotifyHeader NOTICE target).

(** irc/writer.go [Helper.Notify] *)
Definition Notify (ev : Event) (target : bytes) (args : list value) w :=
  header ← notify_header ev target; splitSend header (Sprint args) w.
(** irc/writer.go [Helper.Notifyln] *)
Definition Notifyln (ev : Event) (target : bytes) (args : list value) w :=
  header ← notify_header ev target; splitSend header (sprintln_cut args) w.
(** irc/writer.go [Helper.Notifyf] *)
Definition Notifyf (ev : Event) (target format : bytes) (args : list value) w :=
  header ← notify_header ev target; splitSend header (Sprintf format args) w.

(** irc/writer.go [Helper.Join] *)
Definition Helper_Join (targets : list bytes) w : go (option (W * option E)) :=
  if decide (targets = []) then Ret (Some (w, None))
  else write1 (fmtJoin (Join targets (bs ","))) w.
(** irc/writer.go [Helper.Part] *)
Definition Helper_Part (targets : list bytes) w : go (option (W * option E)) :=
  if decide (targets = []) then Ret (Some (w, None))
  else write1 (fmtPart (Join targets (bs ","))) w.
(** irc/writer.go [Helper.Quit] *)
Definition Helper_Quit (msg : bytes) := write1 (fmtQuit msg).

(** ** Splitting *)

(** Writing lines until one fails. *)
Fixpoint write_all (ls : list bytes) w : W * option E :=
  match ls with
  | [] => (w, None)
  | l :: ls => match Write l w with
               | (w, Some err) => (w, Some err)
               | (w, None) => write_all ls w
               end
  end.

End Helper.

(** A message cut into pieces, with at most one space dropped between two. *)
Inductive cut_into : bytes -> list bytes -> Prop :=
  | cut_last msg : cut_into msg [msg]
  | cut_hard p msg ps : cut_into msg ps -> cut_into (p ++ msg) (p :: ps)
  | cut_space p msg ps : cut_into msg ps -> cut_into (p ++ " "%char :: msg) (p :: ps)
  | cut_end p : cut_into (p ++ [" "%char]) [p].

Lemma find_space_Some msg i n j :
  find_space msg i n = Some j -> 1 <= j <= i /\ i < j + n /\ msg !! j = Some " "%char.
Proof.
  revert i. induction n as [|n IH]; intros i H; [by destruct i|].
  destruct i as [|i]; [done|]. cbn in H. case_bool_decide; simplify_eq.
  - split; [lia|]. split; [lia|done].
  - apply IH in H. split; [lia|]. split; [lia|]. by destruct H as (_ & _ & ?).
Qed.

(** The search misses no space in its window. *)
Lemma find_space_None msg i n j :
  find_space msg i n = None -> 1 <= j <= i -> i < j + n -> msg !! j <> Some " "%char.
Proof.
  revert i. induction n as [|n IH]; intros i H Hj Hn; [lia|].
  destruct i as [|i]; [lia|]. cbn in H. case_bool_decide; [done|].
  destruct (decide (j = S i)) as [->|]; [done|]. apply (IH i); [done|lia..].
Qed.

(** What one iteration takes off the message. *)
Lemma next_piece_spec msgMax msg size off :
  0 < msgMax -> msg <> [] -> next_piece msgMax msg = (size, off) ->
  0 < size <= msgMax /\ size <= length msg /\
  (off = 0 \/ off = 1 /\ msg !! size = Some " "%char).
Proof.
  unfold next_piece. intros Hm Hmsg. case_decide.
  - intros [= <- <-]. destruct msg; [done|]. cbn in *. lia.
  - destruct (find_space msg msgMax SPLIT_BACKWARD) as [i|] eqn:Hf; intros [= <- <-].
    + apply find_space_Some in Hf as (? & ? & ?). split; [lia|]. split; [lia|]. by right.
    + split; [lia|]. split; [lia|]. by left.
Qed.

Lemma cut_piece msg size off ps :
  size <= length msg -> (off = 0 \/ off = 1 /\ msg !! size = Some " "%char) ->
  cut_into (drop (size + off) msg) ps ->
  cut_into msg (take size msg :: ps).
Proof.
  intros Hs Ho Hc. destruct Ho as [->|[-> Hsp]].
  - rewrite Nat.add_0_r in Hc. rewrite <- (take_drop size msg) at 1. by constructor.
  - rewrite Nat.add_1_r in Hc. rewrite (take_drop_mid _ _ _ Hsp) at 1. by constructor.
Qed.

Lemma cut_piece_last msg size off :
  size <= length msg -> (off = 0 \/ off = 1 /\ msg !! size = Some " "%char) ->
  drop (size + off) msg = [] -> cut_into msg [take size msg].
Proof.
  intros Hs Ho Hd. destruct Ho as [->|[-> Hsp]].
  - rewrite Nat.add_0_r in Hd. rewrite <- (take_drop size msg), Hd, app_nil_r at 1.
    constructor.
  - rewrite Nat.add_1_r in Hd. rewrite (take_drop_mid _ _ _ Hsp), Hd at 1. apply cut_end.
Qed.

(** The loop cuts the message and writes the pieces behind the header. *)
Lemma split_loop_pieces fuel msgMax msg :
  0 < msgMax -> msg <> [] -> length msg <= fuel ->
  exists ps, cut_into msg ps /\ Forall (fun p => p <> [] /\ length p <= msgMax) ps /\
    forall {W E} (Write : bytes -> W -> W * option E) header w,
      split_loop Write fuel header msgMax msg w = Some (write_all Write (map (app header) ps) w).
Proof.
  intros Hm. revert msg. induction fuel as [|fuel IH]; intros msg Hmsg Hf.
  { destruct msg; [done|cbn in Hf; lia]. }
  destruct (next_piece msgMax msg) as [size off] eqn:Hn.
  destruct (next_piece_spec _ _ _ _ Hm Hmsg Hn) as (Hsz & Hle & Hoff).
  assert (forall W E (Write : bytes -> W -> W * option E) header w,
    split_loop Write (S fuel) header msgMax msg w =
    match Write (header ++ take size msg) w with
    | (w, Some err) => Some (w, Some err)
    | (w, None) => split_loop Write fuel header msgMax (drop (size + off) msg) w
    end) as Hstep.
  { intros. cbn [split_loop]. rewrite Hn. by destruct msg. }
  assert (take size msg <> [] /\ length (take size msg) <= msgMax) as Hp.
  { split; [|rewrite length_take; lia].
    intros Ht%(f_equal length). rewrite length_take in Ht. cbn in Ht. lia. }
  destruct (decide (drop (size + off) msg = [])) as [Hd|Hd].
  - exists [take size msg]. split; [by apply cut_piece_last with off|].
    split; [by apply Forall_singleton|]. intros. rewrite Hstep, Hd. cbn.
    destruct (Write _ w) as [w' [err|]]; [done|]. by destruct fuel.
  - destruct (IH (drop (size + off) msg)) as (ps & Hc & Hps & Hw); [done|rewrite length_drop; lia|].
    exists (take size msg :: ps). split; [by apply cut_piece with off|].
    split; [by apply Forall_cons|]. intros. rewrite Hstep. cbn.
    destruct (Write _ w) as [w' [err|]]; [done|]. apply Hw.
Qed.

(** C9. With a header shorter than the line limit, [splitSend] terminates: it
    writes the header followed by one piece of the message per line, until a
    write fails.  Every line fits the limit, and the pieces are the message
    with at most one space dropped at each cut. *)
Theorem splitSend_pieces header msg :
  length header < IRC_MAX_LENGTH ->
  exists ps, cut_into msg ps /\
    Forall (fun p => length (header ++ p) <= IRC_MAX_LENGTH) ps /\
    forall {W E} (Write : bytes -> W -> W * option E) w,
      splitSend Write header msg w =
        Ret (Some (write_all Write (map (app header) ps) w)).
Proof.
  intros Hh. unfold splitSend, splitSend_fuel.
  case_decide as Hl.
  - exists [msg]. split; [constructor|]. split.
    { apply Forall_singleton. by rewrite length_app. }
    intros. cbn. by destruct (Write _ w) as [w' [err|]].
  - assert (msg <> []) as Hmsg by (intros ->; cbn [length] in Hl; lia).
    destruct (split_loop_pieces (length msg) (IRC_MAX_LENGTH - length header) msg)
      as (ps & Hc & Hps & Hw); [lia|done|done|].
    exists ps. split; [done|]. split.
    + eapply Forall_impl; [exact Hps|]. intros p [_ Hp]. rewrite length_app. lia.
    + intros. rewrite decide_False by done. rewrite decide_False by lia. by rewrite Hw.
Qed.

Lemma splitSend_pieces_witness :
  length (fmtPrivmsgHeader (bs "#chan")) < IRC_MAX_LENGTH /\
  exists ps, cut_into (replicate 1000 "x"%char) ps /\
    Forall (fun p => length (fmtPrivmsgHeader (bs "#chan") ++ p) <= IRC_MAX_LENGTH) ps.
Proof.
  assert (length (fmtPrivmsgHeader (bs "#chan")) < IRC_MAX_LENGTH) as H by decide_now.
  split; [exact H|].
  destruct (splitSend_pieces (fmtPrivmsgHeader (bs "#chan")) (replicate 1000 "x"%char) H)
    as (ps & Hc & Hl & _). by exists ps.
Defined.

(** A header that fills the line leaves no room: over a writer that never
    fails, the loop of [splitSend] does not end, whatever the number of
    iterations; and a longer header makes it panic. *)
Theorem splitSend_long_header header msg fuel {W E} (Write : bytes -> W -> W * option E) w :
  msg <> [] -> (forall l w, (Write l w).2 = None) ->
  (length header = IRC_MAX_LENGTH ->
     splitSend_fuel Write fuel header msg w = Ret None) /\
  (IRC_MAX_LENGTH < length header ->
     splitSend_fuel Write fuel header msg w = Panic).
Proof.
  intros Hmsg HW. unfold splitSend_fuel.
  assert (0 < length msg) as Hlen by (destruct msg; [done|cbn; lia]).
  split; intros Hh; (rewrite decide_False by lia); (rewrite decide_False by done).
  - rewrite decide_False by lia. rewrite Hh, Nat.sub_diag. f_equal.
    revert w. induction fuel as [|fuel IH]; intros w; [by destruct msg|].
    cbn [split_loop]. unfold next_piece. rewrite decide_False by lia. cbn [find_space SPLIT_BACKWARD].
    destruct msg as [|c msg]; [done|]. specialize (HW (header ++ take 0 (c :: msg)) w).
    destruct (Write _ w) as [w' [err|]]; [done|]. cbn [Nat.add]. rewrite drop_0. apply IH.
  - by rewrite decide_True.
Qed.

Lemma splitSend_long_header_witness :
  splitSend_fuel (E := unit) (fun l log => (l :: log, None)) 1000
    (replicate IRC_MAX_LENGTH "h"%char) (bs "m") [] = Ret None.
Proof.
  apply (splitSend_long_header (replicate IRC_MAX_LENGTH "h"%char) (bs "m") 1000
           (E := unit) (fun l log => (l :: log, None)) []); [done|done|decide_now].
Defined.
