(* ===== verification/Queue.v ===== *)
(** * Package inet: the write queue (inet/queue.go)

    A singly linked queue over a heap of nodes.  The abstract value of a queue
    is the list of byte slices it holds; [queue_of] says when a heap and a
    queue represent a list, and the two operations refine adding at the end
    and removing from the front. *)

From S2P Require Import Prelude GoStrings.

Abbreviation ptr := (option nat).

(** inet/queue.go [queueNode] *)
Record queueNode := { next : ptr; data : bytes }.

Abbreviation node_heap := (gmap nat queueNode).

(** inet/queue.go [Queue] *)
Record Queue := { front : ptr; back : ptr; qlength : nat }.

(** The zero value. *)
Definition new_queue : Queue := {| front := None; back := None; qlength := 0 |}.

(** [p.next = n], a panic when [p] is nil *)
Definition set_next (h : node_heap) (p n : ptr) : go node_heap :=
  l ← deref p; nd ← deref (h !! l);
  Ret (<[l := {| next := n; data := nd.(data) |}]> h).

(** inet/queue.go [Queue.Enqueue] *)
Definition Enqueue (h : node_heap) (q : Queue) (b : bytes) : go (node_heap * Queue) :=
  if decide (b = []) then Ret (h, q) else
  let node := fresh (dom h) in
  let h := <[node := {| next := None; data := b |}]> h in
  if decide (q.(qlength) = 0) then
    Ret (h, {| front := Some node; back := Some node; qlength := S q.(qlength) |})
  else
    h ← set_next h q.(back) (Some node);
    Ret (h, {| front := q.(front); back := Some node; qlength := S q.(qlength) |}).

(** inet/queue.go [Queue.Dequeue]: [None] is the nil slice of an empty
    queue. *)
Definition Dequeue (h : node_heap) (q : Queue) : go (option bytes * Queue) :=
  if decide (q.(qlength) = 0) then Ret (None, q) else
  l ← deref q.(front); nd ← deref (h !! l);
  Ret (Some nd.(data),
       {| front := nd.(next);
          back := if decide (q.(qlength) = 1) then None else q.(back);
          qlength := q.(qlength) - 1 |}).

(** ** Representation *)

(** The nodes of a queue, front to back, and what they hold. *)
Definition nodes_of (h : node_heap) (locs : list nat) (l : list bytes) : Prop :=
  length locs = length l /\ NoDup locs /\
  forall i loc, locs !! i = Some loc ->
    exists b, l !! i = Some b /\ h !! loc = Some {| next := locs !! S i; data := b |}.

Definition queue_of (h : node_heap) (q : Queue) (l : list bytes) : Prop :=
  exists locs, nodes_of h locs l /\ q.(front) = locs !! 0 /\
               q.(back) = last locs /\ q.(qlength) = length l.

Lemma queue_of_nil h : queue_of h new_queue [].
Proof. exists []. by repeat split; try constructor. Qed.

Lemma queue_of_length h q l : queue_of h q l -> q.(qlength) = length l.
Proof. by intros (? & _ & _ & _ & ?). Qed.

Lemma nodes_of_dom h locs l loc : nodes_of h locs l -> loc ∈ locs -> loc ∈ dom h.
Proof.
  intros (_ & _ & H) [i Hi]%list_elem_of_lookup.
  destruct (H _ _ Hi) as (b & _ & Hb). apply elem_of_dom. eauto.
Qed.

(** Dropping the first node of a representation. *)
Lemma nodes_of_tail h loc locs b l :
  nodes_of h (loc :: locs) (b :: l) -> nodes_of h locs l.
Proof.
  intros (Hl & Hd & H). split; [by injection Hl|].
  split; [by apply NoDup_cons in Hd as [_ ?]|]. intros i loc' Hi.
  apply (H (S i) loc' Hi).
Qed.

(** A node that is not one of the queue's can be written. *)
Lemma nodes_of_insert h locs l loc nd :
  nodes_of h locs l -> loc ∉ locs -> nodes_of (<[loc := nd]> h) locs l.
Proof.
  intros (Hl & Hd & H) Hn. split; [done|]. split; [done|]. intros i loc' Hi.
  destruct (H _ _ Hi) as (b & ? & ?). exists b. split; [done|].
  rewrite lookup_insert_ne; [done|]. intros ->. apply Hn, list_elem_of_lookup. eauto.
Qed.

(** Linking a fresh node behind the last one. *)
Lemma nodes_of_snoc h locs l lst b new bl :
  nodes_of h (locs ++ [lst]) l ->
  h !! lst = Some {| next := None; data := bl |} ->
  new ∉ locs ++ [lst] ->
  nodes_of (<[lst := {| next := Some new; data := bl |}]>
             (<[new := {| next := None; data := b |}]> h))
    ((locs ++ [lst]) ++ [new]) (l ++ [b]).
Proof.
  intros (Hl & Hd & H) Hlst Hn. split; [|split].
  - rewrite !length_app in *. cbn in *. lia.
  - apply NoDup_app. split; [done|]. split; [set_solver|apply NoDup_singleton].
  - rewrite length_app in Hl. cbn in Hl. apply NoDup_app in Hd as (_ & Hd & _).
    intros i loc Hi. apply lookup_app_Some in Hi as [Hi|[Hge Hi]].
    + destruct (H _ _ Hi) as (b' & Hb & Hnode). exists b'.
      assert (loc ∈ locs ++ [lst]) as Hin by (apply list_elem_of_lookup; eauto).
      pose proof (lookup_lt_Some _ _ _ Hi) as Hlt. rewrite length_app in Hlt. cbn in Hlt.
      split; [rewrite lookup_app_l; [done|lia]|].
      destruct (decide (i = length locs)) as [->|Hne].
      * rewrite lookup_app_r, Nat.sub_diag in Hi by lia. injection Hi as <-.
        rewrite lookup_insert_eq. rewrite Hlst in Hnode. injection Hnode as _ ->.
        rewrite lookup_app_r by (rewrite length_app; cbn; lia).
        rewrite length_app. cbn. by replace (S (length locs) - (length locs + 1)) with 0 by lia.
      * rewrite lookup_insert_ne.
        2:{ intros <-. apply (Hd lst); [|set_solver].
            rewrite lookup_app_l in Hi by lia. apply list_elem_of_lookup. eauto. }
        rewrite lookup_insert_ne by (by intros ->).
        rewrite (lookup_app_l (locs ++ [lst]) [new]); [done|].
        rewrite length_app. cbn. lia.
    + rewrite length_app in Hge, Hi. cbn in Hge, Hi.
      destruct (i - (length locs + 1)) as [|k] eqn:Hk; [|done]. injection Hi as <-.
      exists b. assert (i = length l) as -> by lia.
      rewrite lookup_app_r, Nat.sub_diag by done. split; [done|].
      rewrite lookup_insert_ne by set_solver. rewrite lookup_insert_eq.
      rewrite lookup_ge_None_2; [done|]. rewrite !length_app. cbn. lia.
Qed.

(** Adding to a queue never panics and adds a non-empty slice at the end;
    an empty slice is not added. *)
Lemma Enqueue_refines h q l b :
  queue_of h q l ->
  exists h' q', Enqueue h q b = Ret (h', q') /\
                queue_of h' q' (if decide (b = []) then l else l ++ [b]).
Proof.
  intros (locs & Hn & Hf & Hb & Hlen). unfold Enqueue.
  case_decide; [exists h, q; split; [done|]; by exists locs|].
  set (node := fresh (dom h)).
  assert (node ∉ dom h) as Hfresh by apply is_fresh.
  assert (node ∉ locs) as Hnl by (intros Hin; by apply (nodes_of_dom _ _ _ _ Hn) in Hin).
  pose proof Hn as (Hll & _ & Hnode).
  case_decide as H0.
  - rewrite H0 in Hlen. destruct l; [|done]. destruct locs; [|done].
    eexists _, _. split; [done|]. exists [node]. rewrite H0.
    split; [|done]. split; [done|]. split; [apply NoDup_singleton|].
    intros [|i] loc Hi; [|done]. injection Hi as <-. exists b.
    by rewrite lookup_insert_eq.
  - destruct locs as [|lst locs _] using rev_ind; [cbn in Hll; lia|].
    rewrite last_snoc in Hb.
    destruct (Hnode (length locs) lst) as (bl & Hbl & Hlst).
    { by rewrite lookup_app_r, Nat.sub_diag by done. }
    rewrite lookup_ge_None_2 in Hlst by (rewrite length_app; cbn; lia).
    unfold set_next. rewrite Hb. cbn [deref]. rewrite bind_Ret.
    rewrite lookup_insert_ne by set_solver. rewrite Hlst. cbn -[last].
    eexists _, _. split; [done|]. exists ((locs ++ [lst]) ++ [node]).
    split; [by apply nodes_of_snoc|]. cbn [front back qlength].
    split; [rewrite Hf; by destruct locs|]. split; [by rewrite last_snoc|].
    rewrite length_app. cbn. lia.
Qed.

(** Removing from a queue never panics: an empty queue gives nothing, any
    other gives its oldest slice and keeps the rest in order. *)
Lemma Dequeue_refines h q l :
  queue_of h q l ->
  exists q', Dequeue h q = Ret (head l, q') /\ queue_of h q' (tail l).
Proof.
  intros (locs & Hn & Hf & Hb & Hlen). unfold Dequeue.
  destruct l as [|b l].
  { rewrite decide_True by done. exists q. split; [done|]. by exists locs. }
  rewrite decide_False by (rewrite Hlen; cbn; lia).
  pose proof Hn as (Hll & Hd & Hnode). destruct locs as [|loc locs]; [done|].
  destruct (Hnode 0 loc) as (b' & [= <-] & Hloc); [done|].
  rewrite Hf. cbn [lookup list_lookup deref]. rewrite bind_Ret, Hloc. cbn.
  eexists. split; [done|]. exists locs. split; [by eapply nodes_of_tail|].
  cbn. rewrite Hlen. cbn. split; [done|]. split; [|lia].
  cbn in Hll. destruct l as [|b2 l].
  - by destruct locs.
  - rewrite decide_False by (cbn; lia). rewrite Hb. by destruct locs.
Qed.

(** A program over a queue, and the same program over a list. *)
Inductive queue_op := OpEnqueue (b : bytes) | OpDequeue.

Fixpoint run_queue (ops : list queue_op) (h : node_heap) (q : Queue)
    : go (list (option bytes) * (node_heap * Queue)) :=
  match ops with
  | [] => Ret ([], (h, q))
  | OpEnqueue b :: ops => '(h, q) ← Enqueue h q b; run_queue ops h q
  | OpDequeue :: ops =>
    '(o, q) ← Dequeue h q; '(os, r) ← run_queue ops h q; Ret (o :: os, r)
  end.

Fixpoint run_list (ops : list queue_op) (l : list bytes) : list (option bytes) * list bytes :=
  match ops with
  | [] => ([], l)
  | OpEnqueue b :: ops => run_list ops (if decide (b = []) then l else l ++ [b])
  | OpDequeue :: ops => let '(os, l') := run_list ops (tail l) in (head l :: os, l')
  end.

Lemma run_queue_refines ops h q l :
  queue_of h q l ->
  exists h' q', run_queue ops h q = Ret ((run_list ops l).1, (h', q')) /\
                queue_of h' q' (run_list ops l).2.
Proof.
  revert h q l. induction ops as [|[b|] ops IH]; intros h q l Hq; cbn.
  - eauto.
  - destruct (Enqueue_refines h q l b Hq) as (h1 & q1 & -> & Hq1). by apply IH.
  - destruct (Dequeue_refines h q l Hq) as (q1 & -> & Hq1). cbn.
    destruct (IH _ _ _ Hq1) as (h2 & q2 & -> & Hq2). cbn.
    destruct (run_list ops (tail l)) as [os l']. cbn in *. eauto.
Qed.

(** C6. The linked queue implements a first-in first-out list: any sequence of
    operations on a new queue runs without a panic, gives what the same
    operations give on a list, and ends in a heap that represents the list. *)
Theorem queue_simulates ops :
  exists h q, run_queue ops ∅ new_queue = Ret ((run_list ops []).1, (h, q)) /\
              queue_of h q (run_list ops []).2.
Proof. apply run_queue_refines, queue_of_nil. Qed.
