(* ===== verification/Client.v ===== *)
(** * Package inet: the connection (inet/client.go)

    Three parts of [IrcClient]: the flood protection and the goroutine [pump]
    that writes, the goroutine [siphon] that cuts what is read into messages,
    and the reader and writer methods.  A [time.Time] is a number of
    nanoseconds since the zero time; a [time.Duration] is a 64-bit integer
    whose operations wrap.  The connection is not part of this code: what its
    [Read] and [Write] return is given to the steps as data, and an error is
    the text it prints. *)

From Stdlib Require Import Floats.SpecFloat.
From S2P Require Import Prelude GoStrings Queue.

(** ** Errors *)

(** inet/client.go [ClientError] *)
Record ClientError := { Socket : option bytes; Pump : option bytes; Siphon : option bytes }.

(** inet/client.go [ClientError.CheckNeeded] *)
Definition CheckNeeded (c : ClientError) : option ClientError :=
  match c.(Pump), c.(Siphon), c.(Socket) with
  | None, None, None => None
  | _, _, _ => Some c
  end.

(** inet/client.go [ClientError.Error] *)
Definition ClientError_Error (c : ClientError) : bytes :=
  let b := match c.(Socket) with None => [] | Some e => bs "Socket: " ++ e end in
  let wrote := match c.(Socket) with None => false | Some _ => true end in
  let b := match c.(Pump) with
           | None => b
           | Some e => b ++ (if wrote then bs " || " else []) ++ bs "Pump: " ++ e
           end in
  let wrote := wrote || match c.(Pump) with None => false | Some _ => true end in
  match c.(Siphon) with
  | None => b
  | Some e => b ++ (if wrote then bs " || " else []) ++ bs "Siphon: " ++ e
  end.

(** ** The client *)

(** inet/client.go:19-19 [bufferSize] *)
Definition bufferSize : nat := 16348.
(** inet/client.go:23-23 [defaultTimeScale] *)
Definition defaultTimeScale : Z := 1000000000.
(** inet/client.go:28-28 [pong] *)
Definition pong : bytes := bs "PONG".
Definition CRLF : bytes := [byte_of 13; byte_of 10].
(** inet/client.go:30-30 [ping] *)
Definition ping : bytes := bs "PING :ping" ++ CRLF.

(** inet/client.go:80-109 [IrcClient]: the queue with its heap of nodes, the
    throttling state, the reader's buffer, and whether the kill channels have
    been made *)
Record IrcClient := {
  isShutdown : bool;
  killpump : bool;
  killsiphon : bool;
  qheap : node_heap;
  queue : Queue;
  lastwrite : Z;
  penalty : Z;
  timeout : Z;
  basestep : Z;
  lenPenaltyFactor : spec_float;
  scale : Z;
  keepalive : Z;
  readbuf : bytes;
  pos : nat;
}.

(** [float64] arithmetic *)
Definition float64 (z : Z) : spec_float := binary_normalize 53 1024 z 0 false.
Definition fmul : spec_float -> spec_float -> spec_float := SFmul 53 1024.
Definition fdiv : spec_float -> spec_float -> spec_float := SFdiv 53 1024.

Definition wrap64 (z : Z) : Z := (z + 2 ^ 63) mod 2 ^ 64 - 2 ^ 63.

(** The conversion [int64(f)]: the fraction is discarded; a value out of range
    gives the smallest integer, as on amd64. *)
Definition int64_of (f : spec_float) : Z :=
  let in_range z := if bool_decide (- 2 ^ 63 <= z < 2 ^ 63)%Z then z else (- 2 ^ 63)%Z in
  match f with
  | S754_zero _ => 0%Z
  | S754_finite s m e =>
    let a := if bool_decide (0 <= e)%Z then (Z.pos m * 2 ^ e)%Z else (Z.pos m / 2 ^ (- e))%Z in
    in_range (if s then - a else a)%Z
  | _ => (- 2 ^ 63)%Z
  end.

(** inet/client.go [createIrcClient] *)
Definition createIrcClient : IrcClient := {|
  isShutdown := false; killpump := false; killsiphon := false;
  qheap := ∅; queue := new_queue; lastwrite := 0; penalty := 0; timeout := 0;
  basestep := 0; lenPenaltyFactor := S754_zero false; scale := defaultTimeScale;
  keepalive := 0; readbuf := []; pos := 0 |}.

(** inet/client.go [NewIrcClient] *)
Definition NewIrcClient (lpf : Z) (timeout basestep keepalive scale' : Z) : IrcClient :=
  let c := createIrcClient in {|
  isShutdown := c.(isShutdown); killpump := c.(killpump); killsiphon := c.(killsiphon);
  qheap := c.(qheap); queue := c.(queue); lastwrite := c.(lastwrite); penalty := c.(penalty);
  timeout := timeout; basestep := basestep;
  lenPenaltyFactor := if bool_decide (0 < lpf)%Z then fdiv (float64 1) (float64 lpf)
                      else c.(lenPenaltyFactor);
  scale := if bool_decide (scale' <> 0%Z) then scale' else c.(scale);
  keepalive := keepalive; readbuf := c.(readbuf); pos := c.(pos) |}.

(** inet/client.go [IrcClient.SpawnWorkers] *)
Definition SpawnWorkers (c : IrcClient) (pump siphon : bool) : IrcClient := {|
  isShutdown := false;
  killpump := pump || c.(killpump); killsiphon := siphon || c.(killsiphon);
  qheap := c.(qheap); queue := c.(queue); lastwrite := c.(lastwrite); penalty := c.(penalty);
  timeout := c.(timeout); basestep := c.(basestep); lenPenaltyFactor := c.(lenPenaltyFactor);
  scale := c.(scale); keepalive := c.(keepalive); readbuf := c.(readbuf); pos := c.(pos) |}.

(** inet/client.go [IrcClient.IsClosed] *)
Definition IsClosed (c : IrcClient) : bool := c.(isShutdown).

(** inet/client.go [IrcClient.Close]: what the socket's [Close] returns and
    what the two goroutines send before they end are arguments. *)
Definition Close (c : IrcClient) (sock pump siphon : option bytes)
    : IrcClient * option ClientError :=
  if IsClosed c then (c, None) else
  ({| isShutdown := true; killpump := c.(killpump); killsiphon := c.(killsiphon);
      qheap := c.(qheap); queue := c.(queue); lastwrite := c.(lastwrite);
      penalty := c.(penalty); timeout := c.(timeout); basestep := c.(basestep);
      lenPenaltyFactor := c.(lenPenaltyFactor); scale := c.(scale);
      keepalive := c.(keepalive); readbuf := c.(readbuf); pos := c.(pos) |},
   CheckNeeded {| Socket := sock; Pump := if c.(killpump) then pump else None;
                  Siphon := if c.(killsiphon) then siphon else None |}).

(** Updates of single fields. *)
Definition with_queue (c : IrcClient) (h : node_heap) (q : Queue) : IrcClient := {|
  isShutdown := c.(isShutdown); killpump := c.(killpump); killsiphon := c.(killsiphon);
  qheap := h; queue := q; lastwrite := c.(lastwrite); penalty := c.(penalty);
  timeout := c.(timeout); basestep := c.(basestep); lenPenaltyFactor := c.(lenPenaltyFactor);
  scale := c.(scale); keepalive := c.(keepalive); readbuf := c.(readbuf); pos := c.(pos) |}.
Definition with_times (c : IrcClient) (lw pen : Z) : IrcClient := {|
  isShutdown := c.(isShutdown); killpump := c.(killpump); killsiphon := c.(killsiphon);
  qheap := c.(qheap); queue := c.(queue); lastwrite := lw; penalty := pen;
  timeout := c.(timeout); basestep := c.(basestep); lenPenaltyFactor := c.(lenPenaltyFactor);
  scale := c.(scale); keepalive := c.(keepalive); readbuf := c.(readbuf); pos := c.(pos) |}.
Definition with_reader (c : IrcClient) (buf : bytes) (p : nat) : IrcClient := {|
  isShutdown := c.(isShutdown); killpump := c.(killpump); killsiphon := c.(killsiphon);
  qheap := c.(qheap); queue := c.(queue); lastwrite := c.(lastwrite); penalty := c.(penalty);
  timeout := c.(timeout); basestep := c.(basestep); lenPenaltyFactor := c.(lenPenaltyFactor);
  scale := c.(scale); keepalive := c.(keepalive); readbuf := buf; pos := p |}.

(** ** Flood protection *)

(** [time.Time.Sub]: the difference, saturating *)
Definition time_sub (a b : Z) : Z := Z.max (- 2 ^ 63) (Z.min (2 ^ 63 - 1) (a - b)).

(** Division of 64-bit integers truncates, and panics on zero. *)
Definition div64 (a b : Z) : go Z :=
  if decide (b = 0%Z) then Panic else Ret (wrap64 (Z.quot a b)).

(** inet/client.go:168-170 [IrcClient.calcSleepTime]: the closure
    [roundToScale] *)
Definition roundToScale (scale d : Z) : go Z :=
  half ← div64 scale 2;
  n ← div64 (wrap64 (d + half)) scale;
  Ret (wrap64 (n * scale)).

(** inet/client.go:178-178 [IrcClient.calcSleepTime]: the length penalty *)
Definition length_penalty (c : IrcClient) (msgLen : Z) : Z :=
  int64_of (fmul (fmul (float64 c.(scale)) (float64 msgLen)) c.(lenPenaltyFactor)).

(** inet/client.go [IrcClient.calcSleepTime] *)
Definition calcSleepTime (c : IrcClient) (t msgLen : Z) : go (Z * IrcClient) :=
  let pen := if bool_decide (c.(penalty) < c.(lastwrite))%Z then c.(lastwrite) else c.(penalty) in
  r1 ← roundToScale c.(scale) (time_sub pen t);
  let applyPenalty := bool_decide (c.(timeout) <= r1)%Z in
  r2 ← roundToScale c.(scale) (length_penalty c msgLen);
  let pen := (pen + wrap64 (c.(basestep) + r2))%Z in
  let c' := with_times c c.(lastwrite) pen in
  if applyPenalty then
    sleep ← roundToScale c.(scale) (wrap64 (time_sub pen t - c.(timeout)));
    Ret (if bool_decide (c.(timeout) < sleep)%Z then c.(timeout) else sleep, c')
  else Ret (0%Z, c').

Lemma wrap64_id z : (- 2 ^ 63 <= z < 2 ^ 63)%Z -> wrap64 z = z.
Proof. unfold wrap64. intros H. rewrite Z.mod_small; lia. Qed.

(** Rounding to the nearest multiple of the scale, where nothing overflows. *)
Lemma roundToScale_eq sc d :
  (0 < sc <= 2 ^ 60)%Z -> (- 2 ^ 62 <= d <= 2 ^ 62)%Z ->
  roundToScale sc d = Ret (Z.quot (d + sc / 2) sc * sc)%Z.
Proof.
  intros Hs Hd. unfold roundToScale, div64.
  rewrite (decide_False (P := (2 = 0)%Z)) by lia.
  rewrite bind_Ret, decide_False by lia. rewrite bind_Ret.
  rewrite (Z.quot_div_nonneg sc 2) by lia.
  assert (0 <= sc / 2 < sc)%Z as Hh by (Z.div_mod_to_equations; lia).
  rewrite (wrap64_id (sc / 2)) by lia. rewrite (wrap64_id (d + sc / 2)) by lia.
  pose proof (Z.quot_rem' (d + sc / 2) sc) as E.
  pose proof (Z.rem_bound_abs (d + sc / 2) sc ltac:(lia)) as Hr.
  assert (- 2 ^ 63 <= (d + sc / 2) ÷ sc * sc < 2 ^ 63)%Z by lia.
  assert (- 2 ^ 63 <= (d + sc / 2) ÷ sc < 2 ^ 63)%Z by nia.
  by rewrite !wrap64_id by (rewrite ?wrap64_id; lia).
Qed.

Lemma round_mono sc a b :
  (0 < sc)%Z -> (a <= b)%Z ->
  (Z.quot (a + sc / 2) sc * sc <= Z.quot (b + sc / 2) sc * sc)%Z.
Proof. intros Hs Hab. apply Z.mul_le_mono_nonneg_r; [lia|]. apply Z.quot_le_mono; lia. Qed.

Lemma round_ge sc d t :
  (0 < sc)%Z -> (0 <= t)%Z -> (t <= Z.quot (d + sc / 2) sc * sc)%Z ->
  (- sc < (d - t) + sc / 2)%Z.
Proof.
  intros Hs Ht H. assert (0 <= sc / 2 < sc)%Z by (Z.div_mod_to_equations; lia).
  destruct (decide (0 <= d + sc / 2)%Z).
  - rewrite Z.quot_div_nonneg in H by lia.
    pose proof (Z.mul_div_le (d + sc / 2) sc). lia.
  - pose proof (Z.quot_rem' (d + sc / 2) sc).
    pose proof (Z.rem_bound_abs (d + sc / 2) sc ltac:(lia)).
    pose proof (Z.rem_nonpos (d + sc / 2) sc ltac:(lia) ltac:(lia)).
    assert (0 <= (d + sc / 2) ÷ sc)%Z by nia. nia.
Qed.

Lemma round_nonneg sc x :
  (0 < sc)%Z -> (- sc < x + sc / 2)%Z -> (0 <= Z.quot (x + sc / 2) sc * sc)%Z.
Proof.
  intros Hs H. destruct (decide (0 <= x + sc / 2)%Z).
  - pose proof (Z.quot_pos (x + sc / 2) sc). nia.
  - pose proof (Z.quot_rem' (x + sc / 2) sc) as E.
    assert ((x + sc / 2) ÷ sc = 0)%Z as ->; [|lia].
    apply Z.quot_small_iff; lia.
Qed.

(** Ranges within which none of the 64-bit operations wraps: about 36 years
    for the clocks and the configured durations. *)
Definition sleep_ranges (c : IrcClient) (t msgLen : Z) : Prop :=
  (0 < c.(scale) <= 2 ^ 60)%Z /\ (0 <= c.(timeout) <= 2 ^ 60)%Z /\
  (0 <= c.(basestep) <= 2 ^ 60)%Z /\ (0 <= length_penalty c msgLen <= 2 ^ 60)%Z /\
  (- 2 ^ 60 <= Z.max c.(penalty) c.(lastwrite) - t <= 2 ^ 60)%Z.

#[export] Instance sleep_ranges_dec c t n : Decision (sleep_ranges c t n).
Proof. unfold sleep_ranges. apply _. Defined.

Lemma time_sub_id a b : (- 2 ^ 62 <= a - b <= 2 ^ 62)%Z -> time_sub a b = (a - b)%Z.
Proof. unfold time_sub. lia. Qed.



(** ** Reading: from bytes to messages *)

Section find.
Context {S : Type} (block : bytes -> S -> S * bool).

(** inet/client.go:435-446 [findChunks]: the loop *)
Fixpoint find_loop (fuel start i : nat) (buf : bytes) (st : S) : S * (nat * bool * bool) :=
  match fuel with
  | 0 => (st, (start, true, false))
  | Datatypes.S fuel =>
    if decide (i < length buf) then
      if bool_decide (buf !! (i - 1) = Some (byte_of 13) /\ buf !! i = Some (byte_of 10)) then
        let i := i + 1 in
        let '(st, stop) := block (take (i - start) (drop start buf)) st in
        if (stop : bool) then (st, (start, false, true))
        else if decide (i = length buf) then (st, (start, false, false))
        else find_loop fuel i (i + 1) buf st
      else find_loop fuel start (i + 1) buf st
    else (st, (start, true, false))
  end.

(** inet/client.go [findChunks] *)
Definition findChunks (buf : bytes) (st : S) : S * (nat * bool * bool) :=
  find_loop (length buf) 0 1 buf st.

(** The callback run over a list, until it asks to stop. *)
Fixpoint feed (ms : list bytes) (st : S) : S * bool :=
  match ms with
  | [] => (st, false)
  | m :: ms => let '(st, stop) := block m st in
               if (stop : bool) then (st, true) else feed ms st
  end.
End find.

Section siphon.
(** Whether the goroutine is told to end instead of delivering the next
    message, given what it has delivered. *)
Variable killed : list bytes -> bool.

(** inet/client.go:308-318 [IrcClient.extractMessages]: the closure [send] *)
Definition send (chunk : bytes) (out : list bytes) : list bytes * bool :=
  let cpy := take (length chunk - 2) chunk in
  if killed out then (out, true) else (out ++ [cpy], false).

(** inet/client.go [IrcClient.extractMessages]: the bytes before the position
    that is returned, instead of the position, and whether to shut down. *)
Definition extractMessages (buf : bytes) (out : list bytes) : list bytes * (bytes * bool) :=
  let '(out, (start, remaining, abort)) := findChunks send buf out in
  if (abort : bool) then (out, ([], true))
  else if (remaining : bool) then (out, (drop start buf, false))
  else (out, ([], false)).

Inductive siphon_state :=
  | Reading (pending : bytes)
  | Killed
  | Ended (err : bytes).

(** inet/client.go [IrcClient.siphon]: [pending] is the buffer up to
    [position]; every element of [reads] is what one [Read] put behind it and
    the error it returned. *)
Fixpoint siphon (reads : list (bytes * option bytes)) (pending : bytes) (out : list bytes)
    : list bytes * siphon_state :=
  match reads with
  | [] => (out, Reading pending)
  | (d, err) :: reads =>
    let '(out, (pending, shutdown)) :=
      match d with
      | [] => (out, (pending, false))
      | _ => extractMessages (pending ++ d) out
      end in
    if (shutdown : bool) then (out, Killed) else
    match err with
    | Some e => (out, Ended e)
    | None => siphon reads pending out
    end
  end.
End siphon.

(** What a read can return: it is given the rest of the buffer. *)
Definition read_fits (pending d : bytes) : Prop := length pending + length d <= bufferSize.

(** The messages of a byte stream, each ended by a carriage return and a line
    feed, and what is left behind the last one. *)
Fixpoint crlf (s : bytes) : list bytes * bytes :=
  match s with
  | [] => ([], [])
  | c :: s' =>
    match s' with
    | d :: s'' =>
      if bool_decide (c = byte_of 13 /\ d = byte_of 10) then
        let '(ms, r) := crlf s'' in ([] :: ms, r)
      else let '(ms, r) := crlf s' in
           match ms with [] => ([], c :: r) | m :: ms => ((c :: m) :: ms, r) end
    | [] => ([], [c])
    end
  end.

(** No message break inside. *)
Fixpoint no_crlf (s : bytes) : bool :=
  match s with
  | c :: (d :: _) as s' => negb (bool_decide (c = byte_of 13 /\ d = byte_of 10)) && no_crlf s'
  | _ => true
  end.

Lemma bytes_ind2 (P : bytes -> Prop) :
  P [] -> (forall c, P [c]) ->
  (forall c d s, P s -> P (d :: s) -> P (c :: d :: s)) -> forall s, P s.
Proof.
  intros H0 H1 H2 s. enough (P s /\ forall c, P (c :: s)) by naive_solver.
  induction s as [|d s [IH1 IH2]]; [by auto|]. split; [done|]. intros c. by apply H2.
Qed.

Lemma crlf_cons2 c d s :
  crlf (c :: d :: s) =
  if bool_decide (c = byte_of 13 /\ d = byte_of 10) then
    let '(ms, r) := crlf s in ([] :: ms, r)
  else let '(ms, r) := crlf (d :: s) in
       match ms with [] => ([], c :: r) | m :: ms => ((c :: m) :: ms, r) end.
Proof. done. Qed.

#[global] Arguments crlf : simpl never.

Lemma crlf_no s : no_crlf s = true -> crlf s = ([], s).
Proof.
  induction s as [|c|c d s _ IH] using bytes_ind2; [done|done|].
  intros H. rewrite crlf_cons2. cbn [no_crlf] in H. apply andb_true_iff in H as [H1 H2].
  apply negb_true_iff in H1. rewrite H1. by rewrite IH.
Qed.

(** The stream up to its first break. *)
Lemma crlf_first m s :
  no_crlf (m ++ [byte_of 13]) = true ->
  crlf (m ++ CRLF ++ s) = (m :: (crlf s).1, (crlf s).2).
Proof.
  induction m as [|c|c d m _ IH] using bytes_ind2; intros H.
  - cbn [app CRLF]. rewrite crlf_cons2, bool_decide_true by done. by destruct (crlf s).
  - cbn [app CRLF] in *. rewrite crlf_cons2. cbn [no_crlf] in H.
    apply andb_true_iff in H as [H _]. apply negb_true_iff in H. rewrite H.
    rewrite crlf_cons2, bool_decide_true by done. by destruct (crlf s).
  - cbn [app] in *. rewrite crlf_cons2. cbn [no_crlf] in H.
    apply andb_true_iff in H as [H H']. apply negb_true_iff in H. rewrite H.
    rewrite IH by done. done.
Qed.

(** Cutting a stream that arrives in two parts. *)
Lemma crlf_app a b :
  crlf (a ++ b) = ((crlf a).1 ++ (crlf ((crlf a).2 ++ b)).1, (crlf ((crlf a).2 ++ b)).2).
Proof.
  induction a as [|c|c d a IH IH'] using bytes_ind2.
  - change (crlf []) with (@nil bytes, @nil ascii). cbn [fst snd app].
    by destruct (crlf b).
  - change (crlf [c]) with (@nil bytes, [c]). cbn [fst snd app].
    by destruct (crlf (c :: b)).
  - rewrite crlf_cons2. cbn [app]. rewrite crlf_cons2. case_bool_decide as Hcd.
    + rewrite IH. destruct (crlf a) as [ms r]. cbn.
      by destruct (crlf (r ++ b)) as [ms' r'].
    + change (d :: a ++ b) with ((d :: a) ++ b). rewrite IH'.
      destruct (crlf (d :: a)) as [ms r] eqn:E. cbn [fst snd].
      destruct ms as [|m ms]; cbn [app fst snd]; [|done].
      assert (exists r', r = d :: r') as [r' ->].
      { clear -E. destruct a as [|e a]; [cbv in E; naive_solver|].
        rewrite crlf_cons2 in E. case_bool_decide; destruct (crlf _) as [[|] ?]; naive_solver. }
      cbn [app]. rewrite crlf_cons2, bool_decide_false by done.
      by destruct (crlf (d :: r' ++ b)) as [[|m ms] r''].
Qed.

Lemma no_crlf_snoc l a b :
  no_crlf (l ++ [a]) = true -> ~ (a = byte_of 13 /\ b = byte_of 10) ->
  no_crlf (l ++ [a; b]) = true.
Proof.
  intros H Hab. induction l as [|c|c d l _ IH] using bytes_ind2.
  - cbn [app no_crlf]. by rewrite bool_decide_false.
  - cbn [app no_crlf] in *. apply andb_true_iff in H as [-> _].
    by rewrite bool_decide_false.
  - cbn [app no_crlf] in *. apply andb_true_iff in H as [-> H]. by apply IH.
Qed.

Lemma take_snoc {A} (l : list A) n x :
  l !! n = Some x -> take (S n) l = take n l ++ [x].
Proof. intros H. by apply take_S_r. Qed.

Section find_spec.
Context {S : Type} (block : bytes -> S -> S * bool) (buf : bytes).

Let lines (start : nat) := crlf (drop start buf).

(** What the loop has to do from one of its states: run the callback over the
    messages from [start] on, and say what is left behind the last one. *)
Definition find_ok (start : nat) (st : S) (res : S * (nat * bool * bool)) : Prop :=
  feed block (map (fun m => m ++ CRLF) (lines start).1) st = (res.1, res.2.2) /\
  (res.2.2 = false ->
   (lines start).2 = if res.2.1.2 then drop res.2.1.1 buf else []).

Lemma find_ok_end start st :
  no_crlf (drop start buf) = true -> find_ok start st (st, (start, true, false)).
Proof. intros H. unfold find_ok, lines. by rewrite crlf_no. Qed.

Lemma find_loop_ok fuel start i st :
  start < i -> i <= length buf -> length buf - i <= fuel ->
  no_crlf (take (i - start) (drop start buf)) = true ->
  find_ok start st (find_loop block fuel start i buf st).
Proof.
  revert start i st. induction fuel as [|fuel IH]; intros start i st Hsi Hi Hf Hno.
  { apply find_ok_end. rewrite take_ge in Hno; [done|]. rewrite length_drop. lia. }
  cbn [find_loop]. case_decide as Hlt.
  2:{ apply find_ok_end. rewrite take_ge in Hno; [done|]. rewrite length_drop. lia. }
  destruct (lookup_lt_is_Some_2 buf (i - 1) ltac:(lia)) as [a Ha].
  destruct (lookup_lt_is_Some_2 buf i ltac:(lia)) as [b Hb].
  set (m := take (i - 1 - start) (drop start buf)).
  assert (take (i - start) (drop start buf) = m ++ [a]) as Hcur.
  { replace (i - start) with (Datatypes.S (i - 1 - start)) by lia.
    apply take_snoc. rewrite lookup_drop. by replace (start + (i - 1 - start)) with (i - 1) by lia. }
  assert (take (i + 1 - start) (drop start buf) = m ++ [a; b]) as Hcur2.
  { replace (i + 1 - start) with (Datatypes.S (i - start)) by lia.
    erewrite take_snoc; [rewrite Hcur, <- app_assoc; done|].
    rewrite lookup_drop. by replace (start + (i - start)) with i by lia. }
  rewrite Hcur in Hno. rewrite Ha, Hb.
  case_bool_decide as Hab.
  - destruct Hab as [[= ->] [= ->]].
    assert (drop start buf = m ++ CRLF ++ drop (i + 1) buf) as Hs.
    { rewrite <- (take_drop (i + 1 - start) (drop start buf)) at 1.
      rewrite Hcur2, drop_drop. cbn. rewrite <- app_assoc. cbn.
      by replace (start + (i + 1 - start)) with (i + 1) by lia. }
    rewrite Hcur2. unfold find_ok, lines. rewrite Hs, crlf_first by done.
    cbn [fst snd map feed]. change (m ++ [byte_of 13; byte_of 10]) with (m ++ CRLF).
    destruct (block (m ++ CRLF) st) as [st' [|]]; [done|].
    case_decide as Hend.
    + rewrite Hend, drop_all. done.
    + apply IH; [lia..|].
      replace (i + 1 + 1 - (i + 1)) with 1 by lia.
      destruct (drop (i + 1) buf) as [|x [|y l]]; done.
  - apply IH; [lia..|]. rewrite Hcur2. apply no_crlf_snoc; [done|]. naive_solver.
Qed.

Lemma findChunks_ok st : buf <> [] -> find_ok 0 st (findChunks block buf st).
Proof.
  intros Hb. apply find_loop_ok; [lia| |lia|]; destruct buf as [|c [|d b]]; cbn; (done || lia).
Qed.
End find_spec.

Lemma feed_send (killed : list bytes -> bool) ms out :
  (forall o, killed o = false) ->
  feed (send killed) (map (fun m => m ++ CRLF) ms) out = (out ++ ms, false).
Proof.
  intros Hk. revert out. induction ms as [|m ms IH]; intros out; cbn [map feed].
  - by rewrite app_nil_r.
  - unfold send at 1. rewrite Hk, length_app. cbn [length CRLF].
    rewrite Nat.add_sub, take_app_length, IH, <- app_assoc. done.
Qed.

(** Cutting a buffer that is not empty. *)
Lemma extractMessages_crlf (killed : list bytes -> bool) buf out :
  (forall o, killed o = false) -> buf <> [] ->
  extractMessages killed buf out = (out ++ (crlf buf).1, ((crlf buf).2, false)).
Proof.
  intros Hk Hb. unfold extractMessages.
  destruct (findChunks_ok (send killed) buf out Hb) as [H1 H2].
  rewrite feed_send in H1 by done. rewrite drop_0 in *.
  destruct (findChunks (send killed) buf out) as [out' [[start rem] abort]].
  cbn [fst snd] in *. injection H1 as <- <-. rewrite (H2 eq_refl). by destruct rem.
Qed.

Lemma crlf_none_rest s r : crlf s = ([], r) -> r = s /\ no_crlf s = true.
Proof.
  revert r. induction s as [|c|c d s _ IH] using bytes_ind2; intros r H.
  - by injection H as <-.
  - by injection H as <-.
  - rewrite crlf_cons2 in H. case_bool_decide as Hcd; [by destruct (crlf s)|].
    destruct (crlf (d :: s)) as [[|m ms] r'] eqn:E; [|done]. injection H as <-.
    destruct (IH _ eq_refl) as [-> Hno]. split; [done|]. cbn [no_crlf] in *.
    by rewrite bool_decide_false, Hno.
Qed.

(** What is left behind the last message holds no message. *)
Lemma crlf_rest s : crlf (crlf s).2 = ([], (crlf s).2).
Proof.
  induction s as [|c|c d s IH IH'] using bytes_ind2; [done|done|].
  rewrite crlf_cons2. case_bool_decide as Hcd; [by destruct (crlf s)|].
  destruct (crlf (d :: s)) as [[|m ms] r] eqn:E; cbn [snd] in *; [|done].
  apply crlf_none_rest in E as [-> Hno]. apply crlf_no. cbn [no_crlf].
  rewrite bool_decide_false by done. exact Hno.
Qed.

Lemma siphon_cuts ds pending out :
  crlf pending = ([], pending) ->
  siphon (fun _ => false) (map (fun d => (d, None)) ds) pending out
  = (out ++ (crlf (pending ++ concat ds)).1, Reading (crlf (pending ++ concat ds)).2).
Proof.
  revert pending out. induction ds as [|d ds IH]; intros pending out Hp; cbn [map siphon concat].
  { rewrite app_nil_r, Hp. cbn. by rewrite app_nil_r. }
  assert (match d with [] => (out, (pending, false))
          | _ => extractMessages (fun _ => false) (pending ++ d) out end
          = (out ++ (crlf (pending ++ d)).1, ((crlf (pending ++ d)).2, false))) as ->.
  { destruct d as [|x d]; [by rewrite app_nil_r, Hp, app_nil_r|].
    rewrite <- (extractMessages_crlf (fun _ => false)); [done|done|].
    by intros [_ ?]%app_eq_nil. }
  rewrite IH by apply crlf_rest.
  rewrite app_assoc, (crlf_app (pending ++ d) (concat ds)).
  cbn [fst snd]. by rewrite app_assoc.
Qed.

(** C7. However the connection cuts the stream into reads, the messages
    delivered are the ones of the stream, in order, and the buffer keeps what
    is behind the last of them. *)
Theorem siphon_segmentation ds pending out :
  crlf pending = ([], pending) ->
  siphon (fun _ => false) (map (fun d => (d, None)) ds) pending out
  = (out ++ (crlf (pending ++ concat ds)).1, Reading (crlf (pending ++ concat ds)).2).
Proof. apply siphon_cuts. Qed.

Lemma siphon_segmentation_witness :
  siphon (fun _ => false)
    (map (fun d => (d, None)) [bs "PING :a" ++ [byte_of 13]; byte_of 10 :: bs "NOT"; bs "ICE"])
    [] [] = ([bs "PING :a"], Reading (bs "NOTICE")).
Proof.
  exact (siphon_segmentation
    [bs "PING :a" ++ [byte_of 13]; byte_of 10 :: bs "NOT"; bs "ICE"] [] [] eq_refl).
Defined.

(** A line as long as the buffer is never finished: once the buffer is
    full without a message break, every read is given no room, and the
    goroutine goes on reading nothing for as long as the connection reports no
    error. *)
Theorem siphon_stuck killed reads pending out :
  length pending = bufferSize ->
  Forall (fun r => read_fits pending r.1 /\ r.2 = None) reads ->
  siphon killed reads pending out = (out, Reading pending).
Proof.
  intros Hl. induction 1 as [|[d e] reads [Hd He] _ IH]; [done|].
  unfold read_fits in Hd. cbn [fst snd] in *. subst e.
  destruct d; [|cbn [length] in Hd; lia]. cbn [siphon]. apply IH.
Qed.

Lemma siphon_stuck_witness :
  siphon (fun _ => false) (replicate 100 ([], None)) (replicate bufferSize "x"%char) []
  = ([], Reading (replicate bufferSize "x"%char)).
Proof.
  apply siphon_stuck; [apply length_replicate|].
  apply Forall_replicate. split; [|reflexivity].
  unfold read_fits. rewrite length_replicate. cbn [fst length]. lia.
Defined.

(** ** Reading one message at a time, or through a buffer *)

(** inet/client.go [IrcClient.ReadMessage]: the messages in the channel, which
    is closed behind the last of them. *)
Definition ReadMessage (ch : list bytes) : option bytes * list bytes :=
  match ch with [] => (None, []) | m :: ch => (Some m, ch) end.

(** inet/client.go [IrcClient.Read]: with a buffer of [n] bytes; [None] is
    [io.EOF]. *)
Definition Read (c : IrcClient) (n : nat) (ch : list bytes)
    : IrcClient * list bytes * option bytes :=
  let '(buf, ch) :=
    if decide (c.(pos) = 0) then ReadMessage ch else (Some c.(readbuf), ch) in
  match buf with
  | None => (with_reader c [] c.(pos), ch, None)
  | Some buf =>
    let got := take n (drop c.(pos) buf) in
    let p := c.(pos) + length got in
    (if decide (p = length buf) then with_reader c [] 0 else with_reader c buf p, ch, Some got)
  end.

(** A sequence of reads with the given buffer sizes, and what they return put
    together. *)
Fixpoint read_many (c : IrcClient) (ns : list nat) (ch : list bytes)
    : IrcClient * list bytes * bytes :=
  match ns with
  | [] => (c, ch, [])
  | n :: ns =>
    let '(c, ch, got) := Read c n ch in
    let '(c, ch, more) := read_many c ns ch in
    (c, ch, default [] got ++ more)
  end.

Definition unread (c : IrcClient) : bytes :=
  if decide (c.(pos) = 0) then [] else drop c.(pos) c.(readbuf).

Lemma take_drop_length {A} n (l : list A) : take n l ++ drop (length (take n l)) l = l.
Proof.
  destruct (decide (n <= length l)) as [H|H].
  - rewrite length_take, Nat.min_l by lia. apply take_drop.
  - rewrite take_ge, drop_all by lia. apply app_nil_r.
Qed.

(** One read hands out the next bytes of what has not been read. *)
Lemma Read_conserves c n ch c' ch' got :
  0 < n -> Read c n ch = (c', ch', got) ->
  unread c ++ concat ch = default [] got ++ unread c' ++ concat ch'.
Proof.
  intros Hn. unfold Read, unread.
  destruct (decide (c.(pos) = 0)) as [H0|H0]; [destruct ch as [|m ch]|];
    cbn [ReadMessage]; intros [= <- <- <-]; cbn [default app concat id].
  - cbn. by rewrite decide_True.
  - rewrite H0, drop_0, app_assoc. f_equal. cbn [Nat.add].
    destruct (decide (length (take n m) = length m)) as [Hl|Hl]; cbn [with_reader pos readbuf].
    + rewrite <- (take_drop_length n m) at 1. rewrite Hl, drop_all. done.
    + rewrite decide_False; [by rewrite take_drop_length|].
      rewrite length_take in *. destruct m; cbn [length] in *; lia.
  - set (l := drop (pos c) (readbuf c)). rewrite app_assoc. f_equal.
    destruct (decide (pos c + length (take n l) = length (readbuf c))) as [Hl|Hl];
      cbn [with_reader pos readbuf].
    + rewrite <- (take_drop_length n l) at 1. f_equal. rewrite decide_True by done.
      unfold l at 2. by rewrite drop_drop, Hl, drop_all.
    + rewrite decide_False by lia. rewrite <- drop_drop. fold l. by rewrite take_drop_length.
Qed.

(** Reading through buffers of any positive sizes gives the bytes of the
    messages in order: what was returned, what is still in the reader's buffer
    and what is still in the channel are together what there was before. *)
Theorem read_many_conserves c ns ch c' ch' got :
  Forall (fun n => 0 < n) ns -> read_many c ns ch = (c', ch', got) ->
  unread c ++ concat ch = got ++ unread c' ++ concat ch'.
Proof.
  intros Hns. revert c ch got. induction Hns as [|n ns Hn _ IH]; intros c ch got; cbn [read_many].
  { by intros [= -> -> <-]. }
  destruct (Read c n ch) as [[c1 ch1] g1] eqn:E1.
  destruct (read_many c1 ns ch1) as [[c2 ch2] g2] eqn:E2. intros [= <- <- <-].
  rewrite (Read_conserves _ _ _ _ _ _ Hn E1), (IH _ _ _ E2). by rewrite <- app_assoc.
Qed.

Lemma read_many_conserves_witness :
  let '(c', ch', got) := read_many createIrcClient [4; 3; 9] [bs "NOTICE"; bs "PING"] in
  unread createIrcClient ++ bs "NOTICEPING" = got ++ unread c' ++ concat ch'.
Proof.
  exact (read_many_conserves createIrcClient [4; 3; 9] [bs "NOTICE"; bs "PING"]
    _ _ _ ltac:(repeat constructor) eq_refl).
Defined.

(** A read with an empty buffer takes a message from the channel and
    drops it. *)
Theorem Read_empty_buffer c m ch :
  c.(pos) = 0 -> m <> [] ->
  Read c 0 (m :: ch) = (with_reader c m 0, ch, Some []) /\
  forall n, Read (with_reader c m 0) n ch = Read c n ch.
Proof.
  intros H0 Hm. split.
  - unfold Read. rewrite H0, decide_True by done. cbn -[decide].
    rewrite decide_False; [done|]. destruct m; cbn; congruence.
  - intros n. unfold Read. cbn [with_reader pos]. rewrite H0. by destruct ch.
Qed.

Lemma Read_empty_buffer_witness :
  Read createIrcClient 0 [bs "PING"] = (with_reader createIrcClient (bs "PING") 0, [], Some []).
Proof. apply (Read_empty_buffer createIrcClient (bs "PING") []); done. Defined.

(** ** Writing *)

(** inet/client.go:416-419 [IrcClient.Write]: what is handed to the pump *)
Definition sanitize (buf : bytes) : bytes :=
  let buf := Replace buf [byte_of 13] [] in
  let buf := Replace buf [byte_of 10] [] in
  let buf := Replace buf [byte_of 0] [] in
  buf ++ CRLF.

(** inet/client.go [IrcClient.Write]: the result and the message the pump
    gets.  [pump_open] says whether [pumpservice] is still open; a closed one
    gives [io.EOF]. *)
Definition Write (pump_open : bool) (buf : bytes) : option nat * option bytes :=
  let n := length buf in
  if decide (n = 0) then (Some 0, None) else
  let buf := sanitize buf in
  if pump_open then (Some n, Some buf) else (None, None).

Lemma Replace_delete c s : Replace s [c] [] = filter (fun d => d <> c) s.
Proof.
  unfold Replace. induction s as [|d s IH]; [done|]. cbn [replace_from length].
  unfold HasPrefix. cbn [length take].
  replace (take 0 s) with (@nil ascii) by by destruct s.
  rewrite filter_cons. case_bool_decide as H.
  - injection H as ->. rewrite decide_False by naive_solver. cbn [app Nat.sub]. exact IH.
  - rewrite decide_True by (intros ->; by apply H). by rewrite IH.
Qed.

(** C38. Whatever is written reaches the server as one line: the pump gets the
    bytes without any carriage return, line feed or zero byte, and a reader
    that cuts its stream sees exactly one message. *)
Theorem Write_one_message buf rest :
  exists m, sanitize buf = m ++ CRLF /\
    (forall c, c ∈ m <-> c ∈ buf /\ c <> byte_of 13 /\ c <> byte_of 10 /\ c <> byte_of 0) /\
    crlf (sanitize buf ++ rest) = (m :: (crlf rest).1, (crlf rest).2).
Proof.
  unfold sanitize. rewrite !Replace_delete.
  set (m := filter _ _). exists m.
  assert (forall c, c ∈ m <-> c ∈ buf /\ c <> byte_of 13 /\ c <> byte_of 10 /\ c <> byte_of 0)
    as Hm by (intros c; unfold m; rewrite !list_elem_of_filter; naive_solver).
  split; [done|]. split; [done|]. rewrite <- app_assoc. apply crlf_first.
  assert (byte_of 13 ∉ m) as Hc by (rewrite Hm; naive_solver).
  clearbody m. clear Hm. induction m as [|c|c d m _ IH] using bytes_ind2; [done| |].
  - cbn. rewrite bool_decide_false; [done|]. intros [-> _]. set_solver.
  - cbn [app no_crlf]. rewrite bool_decide_false; [apply IH; set_solver|].
    intros [-> _]. set_solver.
Qed.

(** inet/client.go [IrcClient.writeMessage]: every element of [rs] is what one
    [conn.Write] returned.  The slice [msg[written:len(msg)-2]] panics when
    fewer than two bytes are left.  [None] is a loop that needs more writes
    than were given. *)
Fixpoint writeMessage (rs : list (nat * option bytes)) (msg : bytes) (written : nat)
    : go (option (option bytes)) :=
  if decide (length msg <= written) then Ret (Some None) else
  match rs with
  | [] => Ret None
  | (n, err) :: rs =>
    if decide (length msg < written + 2) then Panic else
    match err with
    | Some e => Ret (Some (Some e))
    | None => writeMessage rs msg (written + n)
    end
  end.

(** Over a connection that writes all or reports an error, a message that
    ends as the ones of [Write] do is written with one call; after a short
    write that left a single byte, the loop panics. *)
Theorem writeMessage_spec m :
  let msg := m ++ CRLF in
  writeMessage [(length msg, None)] msg 0 = Ret (Some None) /\
  (forall k e, writeMessage [(k, Some e)] msg 0 = Ret (Some (Some e))) /\
  (forall r rs, writeMessage ((length msg - 1, None) :: r :: rs) msg 0 = Panic).
Proof.
  cbn zeta. assert (length (m ++ CRLF) = length m + 2) as Hl by by rewrite length_app.
  split; [|split].
  - cbn [writeMessage]. rewrite decide_False by lia. rewrite decide_False by lia.
    by rewrite decide_True by lia.
  - intros k e. cbn [writeMessage]. rewrite decide_False by lia. by rewrite decide_False by lia.
  - intros [n [e|]] rs; cbn [writeMessage]; (rewrite decide_False by lia);
      (rewrite decide_False by lia); (rewrite decide_False by lia); by rewrite decide_True by lia.
Qed.

(** *** The pump *)

(** What wakes the goroutine's [select]: a message from [Write], the timer of
    the throttle, the timer of the keep alive, or [Close].  [now] is the clock
    and [err] what the connection's [Write] returns, if the step writes. *)
Inductive pump_event :=
  | EvMessage (message : bytes) (now : Z) (err : option bytes)
  | EvSleeper (now : Z) (err : option bytes)
  | EvPinger (now : Z) (err : option bytes)
  | EvKill.

(** The goroutine's local state with the client it works on; [wire] is what
    the connection has accepted, [stopped] what it leaves for [Close]. *)
Record pump_state := {
  client : IrcClient;
  sleeper : option Z;
  wire : list bytes;
  stopped : option (option bytes);
}.

(** One message written by a connection that takes it whole or fails. *)
Definition pump_write (st : pump_state) (msg : bytes) (now : Z) (err : option bytes)
    : go pump_state :=
  r ← writeMessage [(length msg, err)] msg 0;
  match r with
  | Some None =>
    Ret {| client := if decide (msg = []) then st.(client)
                     else with_times st.(client) now st.(client).(penalty);
           sleeper := st.(sleeper); wire := st.(wire) ++ [msg]; stopped := st.(stopped) |}
  | Some (Some e) =>
    Ret {| client := st.(client); sleeper := st.(sleeper); wire := st.(wire);
           stopped := Some (Some e) |}
  | None => Ret st
  end.

Definition set_sleeper (st : pump_state) (s : option Z) : pump_state :=
  {| client := st.(client); sleeper := s; wire := st.(wire); stopped := st.(stopped) |}.
Definition set_client (st : pump_state) (c : IrcClient) : pump_state :=
  {| client := c; sleeper := st.(sleeper); wire := st.(wire); stopped := st.(stopped) |}.

Definition pump_enqueue (st : pump_state) (msg : bytes) : go pump_state :=
  '(h, q) ← Enqueue st.(client).(qheap) st.(client).(queue) msg;
  Ret (set_client st (with_queue st.(client) h q)).

(** inet/client.go [IrcClient.pump]: one iteration of the loop.  [None] when
    the event cannot happen: the goroutine has ended, or a nil timer. *)
Definition pump_iter (st : pump_state) (ev : pump_event) : go (option pump_state) :=
  match st.(stopped) with Some _ => Ret None | None =>
  match ev with
  | EvMessage message now err =>
    if decide (length message = 0) then Ret (Some st) else
    if HasPrefix message pong then Some <$> pump_write st message now err else
    match st.(sleeper) with
    | None =>
      '(sleepTime, c) ← calcSleepTime st.(client) now (Z.of_nat (length message));
      let st := set_client st c in
      if decide (sleepTime = 0%Z) then Some <$> pump_write st message now err
      else st ← pump_enqueue st message; Ret (Some (set_sleeper st (Some sleepTime)))
    | Some _ => Some <$> pump_enqueue st message
    end
  | EvSleeper now err =>
    match st.(sleeper) with None => Ret None | Some _ =>
    '(message, q) ← Dequeue st.(client).(qheap) st.(client).(queue);
    let message := default [] message in
    let st := set_client st (with_queue st.(client) st.(client).(qheap) q) in
    st ← pump_write st message now err;
    match st.(stopped) with Some _ => Ret (Some st) | None =>
    if decide (0 < st.(client).(queue).(qlength)) then
      '(sleepTime, c) ← calcSleepTime st.(client) now (Z.of_nat (length message));
      Ret (Some (set_sleeper (set_client st c) (Some sleepTime)))
    else Ret (Some (set_sleeper st None))
    end end
  | EvPinger now err =>
    if decide (st.(client).(keepalive) = 0%Z) then Ret None else
    match st.(sleeper) with
    | Some _ => Some <$> pump_enqueue st ping
    | None => Some <$> pump_write st ping now err
    end
  | EvKill =>
    Ret (Some {| client := st.(client); sleeper := st.(sleeper); wire := st.(wire);
                 stopped := Some None |})
  end end.

(** The goroutine as a transition relation. *)
Inductive pump_step : pump_state -> pump_event -> pump_state -> Prop :=
  | pump_step_intro st ev st' :
      pump_iter st ev = Ret (Some st') -> pump_step st ev st'.

Inductive pump_steps : pump_state -> list pump_event -> pump_state -> Prop :=
  | pump_steps_nil st : pump_steps st [] st
  | pump_steps_cons st ev st1 evs st2 :
      pump_step st ev st1 -> pump_steps st1 evs st2 -> pump_steps st (ev :: evs) st2.

(** The messages an event brings: the keep alive counts as one. *)
Definition brought (ev : pump_event) : list bytes :=
  match ev with
  | EvMessage m _ _ => if decide (length m = 0) then [] else [m]
  | EvPinger _ _ => [ping]
  | _ => []
  end.

Definition is_pong (m : bytes) : bool := HasPrefix m pong.

(** The two orders the pump keeps apart. *)
Definition not_pongs (l : list bytes) : list bytes := filter (fun m => is_pong m = false) l.
Definition pongs (l : list bytes) : list bytes := filter (fun m => is_pong m = true) l.

(** The queue is in use exactly while a throttle timer is set. *)
Definition pump_inv (st : pump_state) (l : list bytes) : Prop :=
  queue_of st.(client).(qheap) st.(client).(queue) l /\
  (st.(sleeper) = None <-> l = []) /\
  Forall (fun m => m <> [] /\ is_pong m = false) l.

Lemma not_pongs_app a b : not_pongs (a ++ b) = not_pongs a ++ not_pongs b.
Proof. apply filter_app. Qed.
Lemma pongs_app a b : pongs (a ++ b) = pongs a ++ pongs b.
Proof. apply filter_app. Qed.
Lemma not_pongs_one m : not_pongs [m] = if is_pong m then [] else [m].
Proof. unfold not_pongs. rewrite filter_cons. by destruct (is_pong m). Qed.
Lemma pongs_one m : pongs [m] = if is_pong m then [m] else [].
Proof. unfold pongs. rewrite filter_cons. by destruct (is_pong m). Qed.

(** A step that writes one message leaves queue and timer alone. *)
Lemma pump_write_ok st msg now err st' :
  pump_write st msg now err = Ret st' ->
  st.(stopped) = None ->
  (exists e, st'.(stopped) = Some (Some e)) \/
  st'.(stopped) = None /\ st'.(wire) = st.(wire) ++ [msg] /\ st'.(sleeper) = st.(sleeper) /\
  st'.(client).(queue) = st.(client).(queue) /\ st'.(client).(qheap) = st.(client).(qheap) /\
  st'.(client).(scale) = st.(client).(scale).
Proof.
  unfold pump_write. intros (r & Hr & H)%bind_Ret_inv Hs.
  assert (r = Some None \/ exists e, r = Some (Some e)) as Hc.
  { cbn [writeMessage Nat.add] in Hr. destruct (decide (length msg <= 0)) as [H0|H0].
    - left. by injection Hr as <-.
    - destruct (decide (length msg < 2)); [done|].
      destruct err as [e|]; [right; exists e; by injection Hr as <-|left].
      rewrite decide_True in Hr by lia. by injection Hr as <-. }
  destruct Hc as [->|[e ->]]; injection H as <-; [right|left; by exists e].
  cbn. by destruct (decide (msg = [])).
Qed.

Lemma pump_enqueue_ok st msg l :
  queue_of st.(client).(qheap) st.(client).(queue) l -> msg <> [] ->
  exists st', pump_enqueue st msg = Ret st' /\
    queue_of st'.(client).(qheap) st'.(client).(queue) (l ++ [msg]) /\
    st'.(sleeper) = st.(sleeper) /\ st'.(wire) = st.(wire) /\ st'.(stopped) = st.(stopped) /\
    st'.(client).(keepalive) = st.(client).(keepalive) /\
    st'.(client).(scale) = st.(client).(scale).
Proof.
  intros Hq Hm. unfold pump_enqueue.
  destruct (Enqueue_refines _ _ l msg Hq) as (h & q & -> & Hq').
  rewrite decide_False in Hq' by done. cbn. eexists. split; [done|]. by cbn.
Qed.

Lemma div64_ok a b : b <> 0%Z -> exists z, div64 a b = Ret z.
Proof. intros H. unfold div64. rewrite decide_False by done. eauto. Qed.

Lemma roundToScale_ok sc d : sc <> 0%Z -> exists z, roundToScale sc d = Ret z.
Proof.
  intros H. unfold roundToScale. destruct (div64_ok sc 2) as [? ->]; [done|]. cbn.
  destruct (div64_ok (wrap64 (d + x)) sc) as [? ->]; [done|]. cbn. eauto.
Qed.

(** The computation of the sleep changes only the penalty. *)
Lemma calcSleepTime_ok c t n :
  c.(scale) <> 0%Z ->
  exists s pen, calcSleepTime c t n = Ret (s, with_times c c.(lastwrite) pen).
Proof.
  intros H. unfold calcSleepTime.
  destruct (roundToScale_ok c.(scale) (time_sub (if bool_decide (penalty c < lastwrite c)%Z
    then lastwrite c else penalty c) t) H) as [r1 ->]. cbn -[bool_decide].
  destruct (roundToScale_ok c.(scale) (length_penalty c n) H) as [r2 ->]. cbn -[bool_decide].
  case_bool_decide; [|eauto].
  match goal with |- context [roundToScale ?s ?d] =>
    destruct (roundToScale_ok s d H) as [r3 ->] end. cbn. eauto.
Qed.

(** What one event does to the two orders, as long as no write fails. *)
Definition step_order (st st' : pump_state) (l l' : list bytes) (ev : pump_event) : Prop :=
  not_pongs st'.(wire) ++ l' = not_pongs st.(wire) ++ l ++ not_pongs (brought ev) /\
  pongs st'.(wire) = pongs st.(wire) ++ pongs (brought ev).

Lemma write_order st st' l ev m :
  st'.(wire) = st.(wire) ++ [m] -> brought ev = [m] ->
  is_pong m = true \/ l = [] -> step_order st st' l l ev.
Proof.
  intros Hw Hb Hm. unfold step_order. rewrite Hw, Hb, not_pongs_app, pongs_app.
  split; [|done]. rewrite not_pongs_one.
  destruct Hm as [-> | ->]; [by rewrite !app_nil_r|].
  by rewrite !app_nil_r.
Qed.

Lemma queue_order st st' l ev m :
  st'.(wire) = st.(wire) -> brought ev = [m] -> is_pong m = false ->
  step_order st st' l (l ++ [m]) ev.
Proof.
  intros Hw Hb Hm. unfold step_order. rewrite Hw, Hb, not_pongs_one, pongs_one, Hm.
  by rewrite app_nil_r.
Qed.

Lemma pump_step_message st m now err st' l :
  pump_inv st l -> st.(stopped) = None -> st.(client).(scale) <> 0%Z ->
  pump_iter st (EvMessage m now err) = Ret (Some st') ->
  (exists e, st'.(stopped) = Some (Some e)) \/
  exists l', pump_inv st' l' /\ step_order st st' l l' (EvMessage m now err).
Proof.
  intros (Hq & Hsl & Hl) Hs Hsc. unfold pump_iter. rewrite Hs.
  case_decide as Hlen.
  { intros [= <-]. right. exists l. split; [done|]. unfold step_order. cbn.
    rewrite decide_True by done. cbn. by rewrite !app_nil_r. }
  assert (m <> []) as Hm by by intros ->.
  assert (brought (EvMessage m now err) = [m]) as Hb by (cbn; by rewrite decide_False).
  fold (is_pong m). destruct (is_pong m) eqn:Hp.
  { intros H. destruct (pump_write st m now err) as [st1|] eqn:E; [|done].
    cbn in H. injection H as <-. destruct (pump_write_ok _ _ _ _ _ E Hs)
      as [?|(H1 & H2 & H3 & H4 & H5 & H6)]; [by left|right].
    exists l. split; [|eapply write_order; eauto].
    unfold pump_inv. by rewrite H3, H4, H5. }
  destruct st.(sleeper) as [s|] eqn:Es.
  - destruct (pump_enqueue_ok st m l Hq Hm) as (st1 & -> & Hq1 & H1 & H2 & H3 & _).
    cbn. intros [= <-]. right. exists (l ++ [m]).
    split; [|by eapply queue_order]. split; [done|]. rewrite H1, Es. split.
    { split; [done|]. by intros [_ ?]%app_eq_nil. }
    apply Forall_app. split; [done|]. by apply Forall_singleton.
  - assert (l = []) as -> by by apply Hsl.
    destruct (calcSleepTime_ok st.(client) now (Z.of_nat (length m)) Hsc) as (sl & pen & ->).
    rewrite bind_Ret. case_decide as H0.
    + intros H. destruct (pump_write _ m now err) as [st1|] eqn:E; [|done].
      cbn in H. injection H as <-. destruct (pump_write_ok _ _ _ _ _ E Hs)
        as [?|(H1 & H2 & H3 & H4 & H5 & H6)]; [by left|right].
      exists []. split; [|eapply write_order; eauto].
      unfold pump_inv. by rewrite H3, H4, H5.
    + match goal with |- context [pump_enqueue ?s m] =>
        destruct (pump_enqueue_ok s m [] Hq Hm) as (st1 & -> & Hq1 & H1 & H2 & H3 & _) end.
      rewrite bind_Ret. intros [= <-]. right. exists [m].
      split; [|by eapply (queue_order st _ [])]. split; [done|]. cbn. split; [done|].
      by apply Forall_singleton.
Qed.

Lemma pump_step_sleeper st now err st' l :
  pump_inv st l -> st.(stopped) = None -> st.(client).(scale) <> 0%Z ->
  pump_iter st (EvSleeper now err) = Ret (Some st') ->
  (exists e, st'.(stopped) = Some (Some e)) \/
  exists l', pump_inv st' l' /\ step_order st st' l l' (EvSleeper now err).
Proof.
  intros (Hq & Hsl & Hl) Hs Hsc. unfold pump_iter. rewrite Hs.
  destruct st.(sleeper) as [s|] eqn:Es; [|done].
  destruct l as [|m l]; [by destruct Hsl as [_ Hsl]; discriminate Hsl|].
  destruct (Dequeue_refines _ _ _ Hq) as (q & -> & Hq'). rewrite bind_Ret. cbn [head default tail id] in *.
  apply Forall_cons in Hl as [[Hm Hp] Hl].
  set (st1 := set_client st _).
  intros H. apply bind_Ret_inv in H as (st2 & E & H).
  destruct (pump_write_ok _ _ _ _ _ E Hs) as [[e He]|(H1 & H2 & H3 & H4 & H5 & H6)].
  { rewrite He in H. injection H as <-. left. by exists e. }
  right. exists l. rewrite H1 in H.
  assert (queue_of st2.(client).(qheap) st2.(client).(queue) l) as Hq2 by by rewrite H4, H5.
  assert (forall x, x.(wire) = st2.(wire) -> step_order st x (m :: l) l (EvSleeper now err)) as Hord.
  { intros x Hx. unfold step_order. rewrite Hx, H2, not_pongs_app, pongs_app. cbn [brought].
    rewrite not_pongs_one, pongs_one, Hp. cbn. by rewrite <- app_assoc, !app_nil_r. }
  rewrite (queue_of_length _ _ _ Hq2) in H.
  case_decide as Hlen.
  - destruct (calcSleepTime_ok st2.(client) now (Z.of_nat (length m))) as (sl & pen & Ec).
    { by rewrite H6. }
    rewrite Ec in H. cbn in H. injection H as <-. split; [|by apply Hord].
    split; [done|]. cbn. split; [|done]. destruct l; [cbn in Hlen; lia|done].
  - injection H as <-. split; [|by apply Hord]. split; [done|]. cbn.
    destruct l; [done|cbn in Hlen; lia].
Qed.

Lemma pump_step_pinger st now err st' l :
  pump_inv st l -> st.(stopped) = None ->
  pump_iter st (EvPinger now err) = Ret (Some st') ->
  (exists e, st'.(stopped) = Some (Some e)) \/
  exists l', pump_inv st' l' /\ step_order st st' l l' (EvPinger now err).
Proof.
  intros (Hq & Hsl & Hl) Hs. unfold pump_iter. rewrite Hs. case_decide; [done|].
  destruct st.(sleeper) as [s|] eqn:Es.
  - destruct (pump_enqueue_ok st ping l Hq) as (st1 & -> & Hq1 & H1 & H2 & H3 & _); [done|].
    cbn. intros [= <-]. right. exists (l ++ [ping]).
    split; [|by eapply queue_order]. split; [done|]. rewrite H1, Es. split.
    { split; [done|]. by intros [_ ?]%app_eq_nil. }
    apply Forall_app. split; [done|]. by apply Forall_singleton.
  - assert (l = []) as -> by by apply Hsl.
    intros Hp. destruct (pump_write st ping now err) as [st1|] eqn:E; [|done].
    cbn in Hp. injection Hp as <-. destruct (pump_write_ok _ _ _ _ _ E Hs)
      as [?|(H1 & H2 & H3 & H4 & H5 & H6)]; [by left|right].
    exists []. split; [|eapply write_order; eauto].
    unfold pump_inv. by rewrite H3, H4, H5, Es.
Qed.

(** The time scale never changes. *)
Lemma calcSleepTime_scale c t n s c' :
  calcSleepTime c t n = Ret (s, c') -> c'.(scale) = c.(scale).
Proof.
  unfold calcSleepTime. intros H. go_inv. case_bool_decide; go_inv; by simplify_eq.
Qed.

Lemma pump_write_scale st m now err st' :
  pump_write st m now err = Ret st' -> st'.(client).(scale) = st.(client).(scale).
Proof.
  unfold pump_write. intros (r & _ & H)%bind_Ret_inv.
  destruct r as [[e|]|]; injection H as <-; cbn; by repeat case_decide.
Qed.

Lemma pump_enqueue_scale st m st' :
  pump_enqueue st m = Ret st' -> st'.(client).(scale) = st.(client).(scale).
Proof. unfold pump_enqueue. intros ([h q] & _ & [= <-])%bind_Ret_inv. done. Qed.

Lemma pump_iter_scale st ev st' :
  pump_iter st ev = Ret (Some st') -> st'.(client).(scale) = st.(client).(scale).
Proof.
  assert (forall (m : go pump_state), (Some <$> m) = Ret (Some st') -> m = Ret st') as Hmap
    by (intros [|] H; [by injection H as ->|done]).
  unfold pump_iter. destruct st.(stopped); [done|]. destruct ev as [m now err|now err|now err|].
  - case_decide; [by intros [= <-]|]. case_match; [by intros ?%Hmap%pump_write_scale|].
    case_match; [by intros ?%Hmap%pump_enqueue_scale|].
    intros ([s c] & Hc%calcSleepTime_scale & H')%bind_Ret_inv. case_decide.
    + apply Hmap, pump_write_scale in H'. by rewrite H'.
    + apply bind_Ret_inv in H' as (st1 & Hw%pump_enqueue_scale & [= <-]). cbn in *. by rewrite Hw.
  - case_match; [|done]. intros ([o q] & _ & H')%bind_Ret_inv.
    apply bind_Ret_inv in H' as (st1 & Hw%pump_write_scale & H'). cbn in Hw.
    case_match; [injection H' as <-; done|]. case_decide; [|injection H' as <-; done].
    apply bind_Ret_inv in H' as ([s' c] & Hc%calcSleepTime_scale & [= <-]). cbn. by rewrite Hc.
  - case_decide; [done|].
    case_match; [by intros ?%Hmap%pump_enqueue_scale|by intros ?%Hmap%pump_write_scale].
  - by intros [= <-].
Qed.

(** The invariant over the whole run. *)
Lemma pump_steps_order st evs st' :
  pump_steps st evs st' ->
  forall l, pump_inv st l -> st.(client).(scale) <> 0%Z ->
  (exists e, st'.(stopped) = Some (Some e)) \/
  exists l', pump_inv st' l' /\
    not_pongs st'.(wire) ++ l' = not_pongs st.(wire) ++ l ++ not_pongs (concat (map brought evs)) /\
    pongs st'.(wire) = pongs st.(wire) ++ pongs (concat (map brought evs)).
Proof.
  induction 1 as [st|st ev st1 evs st2 [st0 ev0 st0' Hst] Hsteps IH]; intros l Hinv Hsc.
  { right. exists l. split; [done|]. cbn. by rewrite !app_nil_r. }
  destruct st0.(stopped) as [r|] eqn:Hs.
  { unfold pump_iter in Hst. by rewrite Hs in Hst. }
  assert ((exists e, st0'.(stopped) = Some (Some e)) \/
    exists l', pump_inv st0' l' /\ step_order st0 st0' l l' ev0) as [[e He]|(l' & Hinv' & Ho & Hp)].
  { destruct ev0; [by eapply pump_step_message|by eapply pump_step_sleeper|
      by eapply pump_step_pinger|].
    right. exists l. unfold pump_iter in Hst. rewrite Hs in Hst. injection Hst as <-.
    split; [done|]. unfold step_order. cbn. by rewrite !app_nil_r. }
  - left. inversion Hsteps as [|? ? ? ? ? [? ? ? Hst'] _]; subst; [by exists e|].
    unfold pump_iter in Hst'. by rewrite He in Hst'.
  - rewrite <- (pump_iter_scale _ _ _ Hst) in Hsc.
    destruct (IH l' Hinv' Hsc) as [?|(l2 & Hi & Ho' & Hp')]; [by left|right].
    exists l2. split; [done|]. cbn [map concat]. rewrite not_pongs_app, pongs_app.
    rewrite Ho', Hp', Hp. rewrite (app_assoc (not_pongs (wire st0'))), Ho.
    by rewrite !app_assoc.
Qed.

Definition pump_start (c : IrcClient) : pump_state :=
  {| client := c; sleeper := None; wire := []; stopped := None |}.

(** C18. The pump loses and reorders nothing: in every state it can reach from
    a new client without a failed write, the messages on the wire that are
    not replies to a ping, followed by the ones still queued, are the ones it
    was given, in order; replies to a ping are on the wire in the order they
    came; and the queue holds something exactly while the throttle sleeps. *)
Theorem pump_order lpf to step ka sc evs st :
  pump_steps (pump_start (NewIrcClient lpf to step ka sc)) evs st ->
  (exists e, st.(stopped) = Some (Some e)) \/
  exists queued, queue_of st.(client).(qheap) st.(client).(queue) queued /\
    (st.(sleeper) = None <-> queued = []) /\
    not_pongs st.(wire) ++ queued = not_pongs (concat (map brought evs)) /\
    pongs st.(wire) = pongs (concat (map brought evs)).
Proof.
  intros H. destruct (pump_steps_order _ _ _ H []) as [?|(l & (Hq & Hs & _) & Ho & Hp)].
  - split; [apply queue_of_nil|]. split; [done|constructor].
  - cbn. case_bool_decide; [done|]. done.
  - by left.
  - right. exists l. done.
Qed.

Definition pump_demo : list pump_event :=
  let msg s := bs s ++ CRLF in
  [EvMessage (msg "A") 1000 None; EvMessage (msg "B") 1001 None;
   EvMessage (msg "PONG x") 1002 None; EvMessage (msg "C") 1003 None; EvSleeper 1004 None].

Fixpoint pump_run (st : pump_state) (evs : list pump_event) : option pump_state :=
  match evs with
  | [] => Some st
  | ev :: evs => match pump_iter st ev with Ret (Some st) => pump_run st evs | _ => None end
  end.

Lemma pump_run_steps st evs st' : pump_run st evs = Some st' -> pump_steps st evs st'.
Proof.
  revert st. induction evs as [|ev evs IH]; intros st H; cbn in H.
  - injection H as <-. constructor.
  - destruct (pump_iter st ev) as [[st1|]|] eqn:E; [|done..].
    econstructor; [by constructor|by apply IH].
Qed.

Lemma pump_order_witness :
  match pump_run (pump_start (NewIrcClient 10 5 20 0 1)) pump_demo with
  | Some st => st.(stopped) = None /\
      exists queued, not_pongs st.(wire) ++ queued = [bs "A" ++ CRLF; bs "B" ++ CRLF; bs "C" ++ CRLF]
  | None => False
  end.
Proof.
  destruct (pump_run (pump_start (NewIrcClient 10 5 20 0 1)) pump_demo) as [st|] eqn:E;
    [|vm_compute in E; discriminate E].
  assert (stopped st = None) as Hs by (vm_compute in E; injection E as <-; reflexivity).
  split; [exact Hs|].
  destruct (pump_order 10 5 20 0 1 pump_demo st (pump_run_steps _ _ _ E))
    as [[e He]|(l & _ & _ & Ho & _)].
  - rewrite Hs in He. discriminate He.
  - exists l. exact Ho.
Defined.
