(* ===== verification/Modes.v ===== *)
(** * Package data: what modes are (data/modes_common.go)

    The two tables of mode kinds, the parser of complex modestrings [apply],
    which drives any implementation of the interface [moder], and the parser
    of simple modestrings.  The tables are shared by every mode set of a
    network; the operations take them as the record [kinds]. *)

From S2P Require Import Prelude GoStrings Fmt.

(** data/modes_common.go:10-10 [ARGS_NONE] *)
Definition ARGS_NONE : Z := 1.
(** data/modes_common.go:11-11 [ARGS_ALWAYS] *)
Definition ARGS_ALWAYS : Z := 2.
(** data/modes_common.go:12-12 [ARGS_ONSET] *)
Definition ARGS_ONSET : Z := 3.
(** data/modes_common.go:13-13 [ARGS_ADDRESS] *)
Definition ARGS_ADDRESS : Z := 4.
(** data/modes_common.go:25-25 [BITS_IN_BYTE] *)
Definition BITS_IN_BYTE : nat := 8.
(** data/modes_common.go:18-18 [fmtErrCsvParse] *)
Definition fmtErrCsvParse : bytes := bs "data: Could not parse csv string (%v)".
(** data/modes_common.go:21-21 [fmtErrCouldNotParsePrefix] *)
Definition fmtErrCouldNotParsePrefix : bytes := bs "data: Could not parse prefix (%v)".
(** data/modes_common.go:23-23 [errMsgMoreThanEight] *)
Definition errMsgMoreThanEight : bytes :=
  bs "data: UserModeKinds supports maximum 8 modes (%v)".

(** data/modes_common.go [UserMode] *)
Record UserMode := { um_Mode : Z; um_Arg : bytes }.

(** ** User modes: a letter and a symbol each *)

(** data/modes_common.go [UserModeKinds] *)
Record UserModeKinds := { modeInfo : list (Z * Z) }.

(** data/modes_common.go:82-85 [parsePrefixString]: the loop.  A prefix with
    fewer symbols than letters makes [prefix[split+i]] panic. *)
Fixpoint prefix_loop (prefix : bytes) (split i n : nat) : go (list (Z * Z)) :=
  match n with
  | 0 => Ret []
  | S n =>
    a ← index prefix i; b ← index prefix (split + i);
    rest ← prefix_loop prefix split (S i) n;
    Ret ((code a, code b) :: rest)
  end.

(** data/modes_common.go [parsePrefixString] *)
Definition parsePrefixString (prefix : bytes) : go (bytes + list (Z * Z)) :=
  match prefix with
  | "("%char :: _ =>
    match IndexByte prefix ")" with
    | None => Ret (inl (Sprintf fmtErrCouldNotParsePrefix [VString prefix]))
    | Some split =>
      if decide (BITS_IN_BYTE < split - 1)
      then Ret (inl (Sprintf errMsgMoreThanEight [VString prefix]))
      else inr <$> prefix_loop prefix split 1 (split - 1)
    end
  | _ => Ret (inl (Sprintf fmtErrCouldNotParsePrefix [VString prefix]))
  end.

(** data/modes_common.go [NewUserModeKinds] *)
Definition NewUserModeKinds (prefix : bytes) : go (bytes + UserModeKinds) :=
  r ← parsePrefixString prefix;
  Ret match r with inl e => inl e | inr m => inr {| modeInfo := m |} end.

(** data/modes_common.go [UserModeKinds.UpdateModes]: the error, if any, and
    the table afterwards *)
Definition UpdateModes (u : UserModeKinds) (prefix : bytes) : go (option bytes * UserModeKinds) :=
  r ← parsePrefixString prefix;
  Ret match r with inl e => (Some e, u) | inr m => (None, {| modeInfo := m |}) end.

(** data/modes_common.go [UserModeKinds.GetSymbol] *)
Definition GetSymbol (u : UserModeKinds) (mode : Z) : Z :=
  match list_find (fun i => i.1 = mode) u.(modeInfo) with Some (_, i) => i.2 | None => 0%Z end.
(** data/modes_common.go [UserModeKinds.GetMode] *)
Definition GetMode (u : UserModeKinds) (symbol : Z) : Z :=
  match list_find (fun i => i.2 = symbol) u.(modeInfo) with Some (_, i) => i.1 | None => 0%Z end.
(** data/modes_common.go [UserModeKinds.GetModeBit]: [1 << i] in a byte *)
Definition GetModeBit (u : UserModeKinds) (mode : Z) : Z :=
  match list_find (fun i => i.1 = mode) u.(modeInfo) with
  | Some (i, _) => (Z.shiftl 1 (Z.of_nat i) mod 256)%Z
  | None => 0%Z
  end.

(** ** Channel modes: a kind each *)

(** data/modes_common.go [ChannelModeKinds] *)
Record ChannelModeKinds := { ckinds : gmap Z Z }.

Definition set_kinds (s : bytes) (k : Z) (m : gmap Z Z) : gmap Z Z :=
  foldl (fun m mode => <[mode := k]> m) m (runes s).

(** data/modes_common.go [parseChannelModeKinds] *)
Definition parseChannelModeKinds (address always onset none : bytes) : gmap Z Z :=
  set_kinds none ARGS_NONE (set_kinds address ARGS_ADDRESS
    (set_kinds onset ARGS_ONSET (set_kinds always ARGS_ALWAYS ∅))).

(** data/modes_common.go [parseChannelModeKindsCSV] *)
Definition parseChannelModeKindsCSV (kindstr : bytes) : bytes + gmap Z Z :=
  if decide (kindstr = []) then inl (Sprintf fmtErrCsvParse [VString kindstr]) else
  match SplitByte kindstr "," with
  | [address; always; onset; none] => inr (parseChannelModeKinds address always onset none)
  | _ => inl (Sprintf fmtErrCsvParse [VString kindstr])
  end.

(** data/modes_common.go [NewChannelModeKindsCSV] *)
Definition NewChannelModeKindsCSV (kindstr : bytes) : bytes + ChannelModeKinds :=
  match parseChannelModeKindsCSV kindstr with
  | inl e => inl e | inr k => inr {| ckinds := k |} end.
(** data/modes_common.go [NewChannelModeKinds] *)
Definition NewChannelModeKinds (address always onset none : bytes) : ChannelModeKinds :=
  {| ckinds := parseChannelModeKinds address always onset none |}.
(** data/modes_common.go [ChannelModeKinds.Update] *)
Definition Update (_ : ChannelModeKinds) (address always onset none : bytes)
    : ChannelModeKinds :=
  {| ckinds := parseChannelModeKinds address always onset none |}.
(** data/modes_common.go [ChannelModeKinds.UpdateCSV] *)
Definition UpdateCSV (m : ChannelModeKinds) (kindstr : bytes) : option bytes * ChannelModeKinds :=
  match parseChannelModeKindsCSV kindstr with
  | inl e => (Some e, m) | inr k => (None, {| ckinds := k |}) end.
(** data/modes_common.go [ChannelModeKinds.getKind] *)
Definition getKind (m : ChannelModeKinds) (mode : Z) : Z := default 0%Z (m.(ckinds) !! mode).

(** The two tables a mode set refers to; the one of user modes may be nil. *)
Record kinds := { chan_kinds : ChannelModeKinds; user_kinds : option UserModeKinds }.

(** data/channel_modes.go [ChannelModes.isUserMode]; [ModeDiff] has the same. *)
Definition isUserMode (K : kinds) (mode : Z) : bool :=
  match K.(user_kinds) with
  | Some u => bool_decide (0 < GetModeBit u mode)%Z
  | None => false
  end.

(** ** Complex modestrings *)

(** data/modes_common.go [moder]: the part of the interface that changes
    state; the tables are the same for every instance. *)
Class moder (M : Type) := {
  setMode : Z -> M -> M;
  setArg : Z -> bytes -> M -> M;
  setAddress : Z -> bytes -> M -> M;
  unsetMode : Z -> M -> M;
  unsetArg : Z -> bytes -> M -> M;
  unsetAddress : Z -> bytes -> M -> M;
}.

Section apply.
Context {M : Type} `{moder M} (K : kinds).

(** The variables of [apply]. *)
Record apply_state := {
  ap_m : M; adding : bool; used : nat; pos : list UserMode; neg : list UserMode;
}.

Definition call (f : M -> M) (st : apply_state) : apply_state :=
  {| ap_m := f st.(ap_m); adding := st.(adding); used := st.(used);
     pos := st.(pos); neg := st.(neg) |}.
Definition use (st : apply_state) : apply_state :=
  {| ap_m := st.(ap_m); adding := st.(adding); used := S st.(used);
     pos := st.(pos); neg := st.(neg) |}.

(** data/modes_common.go:236-291 [apply]: one character of the modes.  A
    [break] leaves the switch, that is, passes over the character. *)
Definition apply_char (args : list bytes) (st : apply_state) (mode : Z) : apply_state :=
  let add := bool_decide (mode = code "+") in
  let sub := bool_decide (mode = code "-") in
  if add || sub then
    {| ap_m := st.(ap_m); adding := add; used := st.(used); pos := st.(pos); neg := st.(neg) |}
  else
  let kind := getKind K.(chan_kinds) mode in
  if bool_decide (kind = ARGS_ALWAYS) || bool_decide (kind = ARGS_ONSET) then
    if st.(adding) then
      match args !! st.(used) with
      | None => st
      | Some arg => use (call (setArg mode arg) st)
      end
    else if bool_decide (kind = ARGS_ALWAYS) then
      match args !! st.(used) with
      | None => st
      | Some arg => call (unsetArg mode arg) (use st)
      end
    else call (unsetArg mode []) st
  else if bool_decide (kind = ARGS_ADDRESS) then
    match args !! st.(used) with
    | None => st
    | Some arg =>
      use (call (if st.(adding) then setAddress mode arg else unsetAddress mode arg) st)
    end
  else if isUserMode K mode then
    match args !! st.(used) with
    | None => st
    | Some arg =>
      let um := {| um_Mode := mode; um_Arg := arg |} in
      use {| ap_m := st.(ap_m); adding := st.(adding); used := st.(used);
             pos := if st.(adding) then st.(pos) ++ [um] else st.(pos);
             neg := if st.(adding) then st.(neg) else st.(neg) ++ [um] |}
    end
  else call (if st.(adding) then setMode mode else unsetMode mode) st.

(** data/modes_common.go [apply] *)
Definition apply (m : M) (modestring : bytes) : M * list UserMode * list UserMode :=
  let splits := SplitByte (TrimSpace modestring) " " in
  let args := tail splits in
  let st := foldl (apply_char args)
    {| ap_m := m; adding := true; used := 0; pos := []; neg := [] |}
    (runes (default [] (head splits))) in
  (st.(ap_m), st.(pos), st.(neg)).
End apply.

(** *** The calls a modestring makes *)

Inductive mode_op :=
  | OpSetMode (r : Z) | OpSetArg (r : Z) (a : bytes) | OpSetAddress (r : Z) (a : bytes)
  | OpUnsetMode (r : Z) | OpUnsetArg (r : Z) (a : bytes) | OpUnsetAddress (r : Z) (a : bytes).

Definition run_op {M} `{moder M} (m : M) (o : mode_op) : M :=
  match o with
  | OpSetMode r => setMode r m
  | OpSetArg r a => setArg r a m
  | OpSetAddress r a => setAddress r a m
  | OpUnsetMode r => unsetMode r m
  | OpUnsetArg r a => unsetArg r a m
  | OpUnsetAddress r a => unsetAddress r a m
  end.

(** Recording the calls is an implementation of the interface. *)
#[export] Instance moder_trace : moder (list mode_op) := {|
  setMode r l := l ++ [OpSetMode r];
  setArg r a l := l ++ [OpSetArg r a];
  setAddress r a l := l ++ [OpSetAddress r a];
  unsetMode r l := l ++ [OpUnsetMode r];
  unsetArg r a l := l ++ [OpUnsetArg r a];
  unsetAddress r a l := l ++ [OpUnsetAddress r a];
|}.

(** The calls and the two lists of user modes a modestring stands for. *)
Definition mode_ops (K : kinds) (s : bytes) : list mode_op * list UserMode * list UserMode :=
  apply K (@nil mode_op) s.

Definition same_but_m {M N} (x : @apply_state M) (y : @apply_state N) : Prop :=
  x.(adding) = y.(adding) /\ x.(used) = y.(used) /\ x.(pos) = y.(pos) /\ x.(neg) = y.(neg).

Lemma apply_char_trace {M} `{moder M} K args m0 (st : @apply_state M)
    (tr : @apply_state (list mode_op)) r :
  same_but_m st tr -> st.(ap_m) = foldl run_op m0 tr.(ap_m) ->
  same_but_m (apply_char K args st r) (apply_char K args tr r) /\
  (apply_char K args st r).(ap_m) = foldl run_op m0 (apply_char K args tr r).(ap_m).
Proof.
  intros (H1 & H2 & H3 & H4) Hm. unfold apply_char. rewrite H1, H2.
  repeat case_match; cbn; unfold same_but_m; cbn;
    rewrite ?foldl_app, ?H1, ?H2, ?H3, ?H4, ?Hm; done.
Qed.

(** What a modestring does to a mode set is the same for every
    implementation of the interface: the set receives a sequence of calls
    that depends on the modestring and the tables alone, and so do the user
    modes that are returned. *)
Lemma apply_trace {M} `{moder M} K (m : M) s :
  apply K m s = (foldl run_op m (mode_ops K s).1.1, (mode_ops K s).1.2, (mode_ops K s).2).
Proof.
  unfold mode_ops, apply. cbn [fst snd].
  set (args := tail _). set (rs := runes _).
  set (st := {| ap_m := m; adding := true; used := 0; pos := []; neg := [] |}).
  set (tr := {| ap_m := @nil mode_op; adding := true; used := 0; pos := []; neg := [] |}).
  assert (forall rs, same_but_m (foldl (apply_char K args) st rs) (foldl (apply_char K args) tr rs)
    /\ (foldl (apply_char K args) st rs).(ap_m)
       = foldl run_op m (foldl (apply_char K args) tr rs).(ap_m)) as Hall.
  { clear rs. intros rs. induction rs as [|r rs [IH1 IH2]] using rev_ind; [done|].
    rewrite !foldl_app. cbn [foldl]. by apply apply_char_trace. }
  destruct (Hall rs) as [(_ & _ & -> & ->) ->]. done.
Qed.

(** ** Simple modestrings *)

(** data/modes_common.go:315-318 [parseSimpleModestrings]: the swaps of the
    mode read last with the [n] before it; an index below zero panics. *)
Fixpoint swap_back (modes : list Z) (swap n : nat) : go (list Z) :=
  match n with
  | 0 => Ret modes
  | S n =>
    match swap with
    | 0 => Panic
    | S prev =>
      a ← index modes swap; b ← index modes prev;
      swap_back (<[swap := b]> (<[prev := a]> modes)) prev n
    end
  end.

(** data/modes_common.go:304-319 [parseSimpleModestrings]: one modestring *)
Definition simple_step (st : list Z * list bytes) (s : bytes) : go (list Z * list bytes) :=
  let '(modes, args) := st in
  let modestr := TrimSpace s in
  if decide (modestr = []) then Ret st else
  if Contains modestr (bs " ") then
    let splits := SplitByte modestr " " in
    Ret (modes ++ runes (default [] (head splits)), args ++ tail splits)
  else
    let modes := modes ++ runes modestr in
    modes ← swap_back modes (length modes - 1) (length args);
    Ret (modes, args).

(** data/modes_common.go [parseSimpleModestrings] *)
Definition parseSimpleModestrings (modestrs : list bytes) : go (list Z * list bytes) :=
  go_fold simple_step ([], []) modestrs.

(** ** The tables *)

Lemma prefix_loop_spec (letters symbols : bytes) k n :
  k + n = length letters ->
  prefix_loop ("("%char :: letters ++ ")"%char :: symbols) (S (length letters)) (S k) n =
  if decide (n = 0 \/ length letters <= length symbols)
  then Ret (zip (map code (drop k letters)) (map code (drop k symbols))) else Panic.
Proof.
  revert k. induction n as [|n IH]; intros k Hk.
  { rewrite decide_True by auto. cbn. by rewrite drop_ge by lia. }
  destruct (lookup_lt_is_Some_2 letters k ltac:(lia)) as [a Ha].
  assert (index ("("%char :: letters ++ ")"%char :: symbols) (S k) = Ret a) as H1.
  { apply index_Ret. change ((letters ++ ")"%char :: symbols) !! k = Some a).
    by rewrite lookup_app_l by lia. }
  assert (index ("("%char :: letters ++ ")"%char :: symbols) (S (length letters) + S k)
          = deref (symbols !! k)) as H2.
  { unfold index. f_equal.
    change ((letters ++ ")"%char :: symbols) !! (length letters + S k) = symbols !! k).
    rewrite lookup_app_r by lia.
    by replace (length letters + S k - length letters) with (S k) by lia. }
  cbn [prefix_loop]. rewrite H1, bind_Ret, H2, IH by lia.
  destruct (symbols !! k) as [b|] eqn:Hb; cbn [deref].
  - rewrite bind_Ret. rewrite (drop_S _ _ _ Ha), (drop_S _ _ _ Hb). cbn [map zip zip_with].
    pose proof (lookup_lt_Some _ _ _ Hb).
    destruct (decide (length letters <= length symbols)).
    + by rewrite !decide_True by auto.
    + destruct (decide (n = 0)) as [->|]; [exfalso; lia|].
      rewrite !decide_False by lia. done.
  - apply lookup_ge_None in Hb. rewrite bind_Panic. by rewrite decide_False by lia.
Qed.

(** A prefix of at most eight letters is parsed to its letters paired with
    its symbols when there is a symbol for every letter; with fewer symbols
    the parser panics. *)
Theorem parsePrefixString_spec (letters symbols : bytes) :
  ")"%char ∉ letters -> length letters <= BITS_IN_BYTE ->
  parsePrefixString ("("%char :: letters ++ ")"%char :: symbols) =
  if decide (length letters <= length symbols)
  then Ret (inr (zip (map code letters) (map code symbols))) else Panic.
Proof.
  intros Hl H8. unfold parsePrefixString.
  replace (IndexByte _ _) with (Some (S (length letters))).
  2:{ symmetry. apply first_index_Some. exists ("("%char :: letters), ")"%char, symbols.
      split; [done|]. split; [done|]. split; [done|]. constructor; [done|].
      apply Forall_forall. intros c Hc. apply bool_decide_eq_false. by intros ->. }
  rewrite decide_False by (cbn [Nat.sub]; lia).
  replace (S (length letters) - 1) with (length letters) by lia.
  rewrite prefix_loop_spec by done. rewrite !drop_0.
  destruct (decide (length letters <= length symbols)).
  - by rewrite decide_True by auto.
  - rewrite decide_False; [done|]. lia.
Qed.

Lemma parsePrefixString_spec_witness :
  parsePrefixString (bs "(qaohv)~&@%+") =
    Ret (inr (zip (map code (bs "qaohv")) (map code (bs "~&@%+")))) /\
  parsePrefixString (bs "(ov)@") = Panic.
Proof.
  split.
  - exact (parsePrefixString_spec (bs "qaohv") (bs "~&@%+") ltac:(decide_now) ltac:(decide_now)).
  - exact (parsePrefixString_spec (bs "ov") (bs "@") ltac:(decide_now) ltac:(decide_now)).
Defined.

(** The bit of a mode is the power of two of its place in the table. *)
Lemma GetModeBit_spec u mode :
  length u.(modeInfo) <= BITS_IN_BYTE ->
  GetModeBit u mode = 0%Z /\ (forall i, i ∈ u.(modeInfo) -> i.1 <> mode) \/
  exists i, GetModeBit u mode = (2 ^ Z.of_nat i)%Z /\ i < BITS_IN_BYTE /\
            fst <$> u.(modeInfo) !! i = Some mode.
Proof.
  intros H8. unfold GetModeBit. destruct (list_find _ _) as [[i p]|] eqn:E.
  - right. apply list_find_Some in E as (Hi & Hp & _).
    pose proof (lookup_lt_Some _ _ _ Hi) as Hlt. exists i.
    rewrite Z.shiftl_1_l, Z.mod_small.
    + split; [done|]. split; [lia|]. rewrite Hi. cbn. by f_equal.
    + split; [lia|]. change 256%Z with (2 ^ 8)%Z. apply Z.pow_lt_mono_r; unfold BITS_IN_BYTE in *; lia.
  - left. split; [done|]. apply list_find_None in E. by rewrite Forall_forall in E.
Qed.

(** Simple modestrings with more arguments than modes before them. *)
Theorem parseSimpleModestrings_panics :
  parseSimpleModestrings [bs "k a b"; bs "n"] = Panic.
Proof. by vm_compute. Qed.
