(* ===== verification/ChannelModes.v ===== *)
(** * Package data: the modes of a channel (data/channel_modes.go)

    A [ChannelModes] holds flags, modes with one argument and modes with a
    list of addresses.  It implements [moder].  The lists of addresses have no
    duplicates and their total length is cached in [addresses]; [cm_wf] is
    that invariant. *)

From S2P Require Import Prelude GoStrings Fmt Modes.

(** data/channel_modes.go:12-21 [ChannelModes]: the pointers to the two tables
    are the argument [kinds] of the operations that read them. *)
Record ChannelModes := {
  modes : gmap Z bool;
  argModes : gmap Z bytes;
  addressModes : gmap Z (list bytes);
  addresses : Z;
}.

(** data/channel_modes.go [NewChannelModes] *)
Definition NewChannelModes : ChannelModes :=
  {| modes := ∅; argModes := ∅; addressModes := ∅; addresses := 0 |}.

(** ** The operations of the interface *)

(** data/channel_modes.go [ChannelModes.isModeSet] *)
Definition isModeSet (m : ChannelModes) (mode : Z) : bool := default false (m.(modes) !! mode).

(** data/channel_modes.go [ChannelModes.setMode] *)
Definition cm_setMode (mode : Z) (m : ChannelModes) : ChannelModes :=
  {| modes := <[mode := true]> m.(modes); argModes := m.(argModes);
     addressModes := m.(addressModes); addresses := m.(addresses) |}.

(** data/channel_modes.go [ChannelModes.unsetMode] *)
Definition cm_unsetMode (mode : Z) (m : ChannelModes) : ChannelModes :=
  {| modes := delete mode m.(modes); argModes := m.(argModes);
     addressModes := m.(addressModes); addresses := m.(addresses) |}.

(** Whether an argument is the one looked for; the empty one fits all. *)
Definition arg_fits (arg check : bytes) : bool :=
  bool_decide (arg = []) || bool_decide (arg = check).

(** data/channel_modes.go [ChannelModes.isArgSet] *)
Definition isArgSet (m : ChannelModes) (mode : Z) (arg : bytes) : bool :=
  match m.(argModes) !! mode with Some check => arg_fits arg check | None => false end.

(** data/channel_modes.go [ChannelModes.setArg] *)
Definition cm_setArg (mode : Z) (arg : bytes) (m : ChannelModes) : ChannelModes :=
  {| modes := m.(modes); argModes := <[mode := arg]> m.(argModes);
     addressModes := m.(addressModes); addresses := m.(addresses) |}.

(** data/channel_modes.go [ChannelModes.unsetArg] *)
Definition cm_unsetArg (mode : Z) (arg : bytes) (m : ChannelModes) : ChannelModes :=
  if isArgSet m mode arg then
    {| modes := m.(modes); argModes := delete mode m.(argModes);
       addressModes := m.(addressModes); addresses := m.(addresses) |}
  else m.

(** data/channel_modes.go:280-282 [ChannelModes.setAddress]: the search for an
    address, [None] when the index runs past the end *)
Definition find_address (l : list bytes) (address : bytes) : option nat :=
  fst <$> list_find (fun a => a = address) l.

(** data/channel_modes.go [ChannelModes.isAddressSet] *)
Definition isAddressSet (m : ChannelModes) (mode : Z) (address : bytes) : bool :=
  match m.(addressModes) !! mode with
  | None => false
  | Some l => bool_decide (address = []) || bool_decide (is_Some (find_address l address))
  end.

Definition with_addresses (m : ChannelModes) (am : gmap Z (list bytes)) (n : Z) : ChannelModes :=
  {| modes := m.(modes); argModes := m.(argModes); addressModes := am; addresses := n |}.

(** data/channel_modes.go [ChannelModes.setAddress] *)
Definition cm_setAddress (mode : Z) (address : bytes) (m : ChannelModes) : ChannelModes :=
  match m.(addressModes) !! mode with
  | None => with_addresses m (<[mode := [address]]> m.(addressModes)) (m.(addresses) + 1)
  | Some l =>
    match find_address l address with
    | None => with_addresses m (<[mode := l ++ [address]]> m.(addressModes)) (m.(addresses) + 1)
    | Some _ => m
    end
  end.

(** data/channel_modes.go:301-305 [ChannelModes.unsetAddress]: the last
    element takes the place of the one removed. *)
Definition remove_swap (i : nat) (l : list bytes) : list bytes :=
  match l !! (length l - 1) with
  | None => l
  | Some lst => take (length l - 1) (<[i := lst]> l)
  end.

(** data/channel_modes.go [ChannelModes.unsetAddress] *)
Definition cm_unsetAddress (mode : Z) (address : bytes) (m : ChannelModes) : ChannelModes :=
  match m.(addressModes) !! mode with
  | None => m
  | Some l =>
    match find_address l address with
    | None => m
    | Some i =>
      if decide (length l = 1)
      then with_addresses m (delete mode m.(addressModes)) (m.(addresses) - 1)
      else with_addresses m (<[mode := remove_swap i l]> m.(addressModes)) (m.(addresses) - 1)
    end
  end.

#[export] Instance moder_ChannelModes : moder ChannelModes := {|
  setMode := cm_setMode; setArg := cm_setArg; setAddress := cm_setAddress;
  unsetMode := cm_unsetMode; unsetArg := cm_unsetArg; unsetAddress := cm_unsetAddress;
|}.

(** ** The public operations *)

(** data/channel_modes.go [ChannelModes.Apply] *)
Definition Apply (K : kinds) (m : ChannelModes) (modestring : bytes)
    : ChannelModes * list UserMode * list UserMode := apply K m modestring.

(** data/channel_modes.go [ChannelModes.GetArg] *)
Definition GetArg (m : ChannelModes) (mode : Z) : bytes := default [] (m.(argModes) !! mode).

(** data/channel_modes.go [ChannelModes.GetAddresses] *)
Definition GetAddresses (m : ChannelModes) (mode : Z) : option (list bytes) :=
  m.(addressModes) !! mode.

(** data/channel_modes.go:116-138 [ChannelModes.IsSet]: the loop, with the
    number of arguments used *)
Fixpoint is_set_loop (K : kinds) (m : ChannelModes) (args : list bytes) (ms : list Z) (used : nat)
    : bool :=
  match ms with
  | [] => true
  | mode :: ms =>
    let kind := getKind K.(chan_kinds) mode in
    if bool_decide (kind = ARGS_ALWAYS \/ kind = ARGS_ONSET \/ kind = ARGS_ADDRESS) then
      let '(arg, used) :=
        match args !! used with Some a => (a, S used) | None => ([], used) end in
      (if bool_decide (kind = ARGS_ADDRESS) then isAddressSet m mode arg else isArgSet m mode arg)
      && is_set_loop K m args ms used
    else isModeSet m mode && is_set_loop K m args ms used
  end.

(** data/channel_modes.go [ChannelModes.IsSet] *)
Definition IsSet (K : kinds) (m : ChannelModes) (modestrs : list bytes) : go bool :=
  '(ms, args) ← parseSimpleModestrings modestrs;
  Ret (if decide (ms = []) then false else is_set_loop K m args ms 0).

(** data/channel_modes.go:152-169 [ChannelModes.Set]: the loop *)
Fixpoint set_loop (K : kinds) (m : ChannelModes) (args : list bytes) (ms : list Z) (used : nat)
    : ChannelModes :=
  match ms with
  | [] => m
  | mode :: ms =>
    let kind := getKind K.(chan_kinds) mode in
    if bool_decide (kind = ARGS_ALWAYS \/ kind = ARGS_ONSET) then
      match args !! used with
      | None => set_loop K m args ms used
      | Some a => set_loop K (setArg mode a m) args ms (S used)
      end
    else if bool_decide (kind = ARGS_ADDRESS) then
      match args !! used with
      | None => set_loop K m args ms used
      | Some a => set_loop K (setAddress mode a m) args ms (S used)
      end
    else set_loop K (setMode mode m) args ms used
  end.

(** data/channel_modes.go [ChannelModes.Set] *)
Definition Set_modes (K : kinds) (m : ChannelModes) (modestrs : list bytes) : go ChannelModes :=
  '(ms, args) ← parseSimpleModestrings modestrs; Ret (set_loop K m args ms 0).

(** data/channel_modes.go:181-201 [ChannelModes.Unset]: the loop *)
Fixpoint unset_loop (K : kinds) (m : ChannelModes) (args : list bytes) (ms : list Z) (used : nat)
    : ChannelModes :=
  match ms with
  | [] => m
  | mode :: ms =>
    let kind := getKind K.(chan_kinds) mode in
    if bool_decide (kind = ARGS_ALWAYS) then
      match args !! used with
      | None => unset_loop K m args ms used
      | Some a => unset_loop K (unsetArg mode a m) args ms (S used)
      end
    else if bool_decide (kind = ARGS_ADDRESS) then
      match args !! used with
      | None => unset_loop K m args ms used
      | Some a => unset_loop K (unsetAddress mode a m) args ms (S used)
      end
    else if bool_decide (kind = ARGS_ONSET) then unset_loop K (unsetArg mode [] m) args ms used
    else unset_loop K (unsetMode mode m) args ms used
  end.

(** data/channel_modes.go [ChannelModes.Unset] *)
Definition Unset (K : kinds) (m : ChannelModes) (modestrs : list bytes) : go ChannelModes :=
  '(ms, args) ← parseSimpleModestrings modestrs; Ret (unset_loop K m args ms 0).

Section String.
Context {RO : RangeOrder Z}.

Definition address_list (m : ChannelModes) : list (Z * bytes) :=
  concat (map (fun ml => map (pair ml.1) ml.2) (range m.(addressModes))).

(** data/channel_modes.go [ChannelModes.String]: the maps are visited in some
    order.  The two slices are made from the sizes of the maps and the cached
    number of addresses: writing past their ends panics, and what is not
    written stays zero. *)
Definition ChannelModes_String (m : ChannelModes) : go bytes :=
  let arglength := (Z.of_nat (size m.(argModes)) + m.(addresses))%Z in
  let flags := map fst (range m.(modes)) in
  let argful := range m.(argModes) ++ address_list m in
  if decide (arglength < Z.of_nat (length argful))%Z then Panic else
  let pad := Z.to_nat (arglength - Z.of_nat (length argful)) in
  let rs := string_of_runes (flags ++ map fst argful ++ replicate pad 0%Z) in
  if decide (argful = []) then Ret rs
  else Ret (rs ++ bs " " ++ Join (map snd argful ++ replicate pad []) (bs " ")).
End String.

(** ** The invariant *)

Definition total (am : gmap Z (list bytes)) : Z :=
  map_fold (fun _ l n => Z.of_nat (length l) + n)%Z 0%Z am.

Record cm_wf (m : ChannelModes) : Prop := {
  wf_flags : forall r b, m.(modes) !! r = Some b -> b = true;
  wf_addresses : forall r l, m.(addressModes) !! r = Some l -> l <> [] /\ NoDup l;
  wf_total : m.(addresses) = total m.(addressModes);
}.

Lemma total_insert_new am r l :
  am !! r = None -> total (<[r := l]> am) = (Z.of_nat (length l) + total am)%Z.
Proof. intros Hr. unfold total. by rewrite map_fold_insert_L by (done || intros; lia). Qed.

Lemma total_delete am r l :
  am !! r = Some l -> total am = (Z.of_nat (length l) + total (delete r am))%Z.
Proof. intros Hr. unfold total. by rewrite (map_fold_delete_L _ _ r l) by (done || intros; lia). Qed.

Lemma total_replace am r l l' :
  am !! r = Some l ->
  total (<[r := l']> am) = (total am + Z.of_nat (length l') - Z.of_nat (length l))%Z.
Proof.
  intros Hr. rewrite <- insert_delete_eq, total_insert_new by apply lookup_delete_eq.
  rewrite (total_delete am r l Hr). lia.
Qed.

Lemma find_address_Some l a i :
  find_address l a = Some i -> l !! i = Some a.
Proof.
  unfold find_address. rewrite fmap_Some. intros ([j b] & H & ->).
  apply list_find_Some in H as (H & -> & _). done.
Qed.

Lemma find_address_None l a : find_address l a = None <-> a ∉ l.
Proof.
  unfold find_address. rewrite fmap_None, list_find_None, Forall_forall. naive_solver.
Qed.

Lemma find_address_elem l a : is_Some (find_address l a) <-> a ∈ l.
Proof.
  rewrite <- not_eq_None_Some, find_address_None.
  destruct (decide (a ∈ l)); naive_solver.
Qed.

(** Removal by swapping removes one element, up to the order. *)
Lemma remove_swap_perm i l a :
  l !! i = Some a -> l ≡ₚ a :: remove_swap i l.
Proof.
  intros Hi. unfold remove_swap. pose proof (lookup_lt_Some _ _ _ Hi) as Hlt.
  destruct l as [|lst l _] using rev_ind; [done|].
  rewrite length_app. cbn [length]. replace (length l + 1 - 1) with (length l) by lia.
  rewrite lookup_app_r, Nat.sub_diag by done. cbn [lookup list_lookup].
  rewrite length_app in Hlt. cbn in Hlt.
  destruct (decide (i = length l)) as [->|Hne].
  - rewrite lookup_app_r, Nat.sub_diag in Hi by done. injection Hi as ->.
    rewrite insert_app_r_alt, Nat.sub_diag by done. cbn.
    rewrite take_app_length. by rewrite Permutation_app_comm.
  - rewrite lookup_app_l in Hi by lia. rewrite insert_app_l by lia.
    rewrite <- (length_insert l i lst) at 1. rewrite take_app_length.
    rewrite insert_take_drop by lia.
    rewrite (take_drop_mid _ _ _ Hi) at 1.
    rewrite <- app_assoc. cbn. rewrite <- Permutation_middle. apply Permutation_skip.
    apply Permutation_app_head. by rewrite Permutation_app_comm.
Qed.

Lemma new_wf : cm_wf NewChannelModes.
Proof. split; cbn; [naive_solver..|done]. Qed.

(** The addresses of a mode, none when it is not set. *)
Definition addrs (m : ChannelModes) (r : Z) : list bytes := default [] (m.(addressModes) !! r).

Lemma setAddress_spec mode a m :
  cm_wf m ->
  cm_wf (cm_setAddress mode a m) /\
  forall r b, b ∈ addrs (cm_setAddress mode a m) r <-> b ∈ addrs m r \/ r = mode /\ b = a.
Proof.
  intros [Hf Ha Ht]. unfold cm_setAddress.
  destruct (m.(addressModes) !! mode) as [l|] eqn:E.
  - destruct (find_address l a) as [i|] eqn:Ef.
    + split; [done|]. intros r b. split; [by left|]. intros [?|[-> ->]]; [done|].
      unfold addrs. rewrite E. cbn. apply find_address_elem. by rewrite Ef.
    + apply find_address_None in Ef. destruct (Ha _ _ E) as [Hn Hd]. split; [split; cbn|].
      * done.
      * intros r l' [[<- <-]|[Hne Hl]]%lookup_insert_Some; [|by apply Ha in Hl].
        split; [by destruct l|]. apply NoDup_app. split; [done|].
        split; [set_solver|apply NoDup_singleton].
      * rewrite (total_replace _ _ _ _ E), length_app, Ht. cbn. lia.
      * intros r b. unfold addrs. cbn. destruct (decide (r = mode)) as [->|Hne].
        -- rewrite lookup_insert_eq, E. cbn. set_solver.
        -- rewrite lookup_insert_ne by done. naive_solver.
  - split; [split; cbn|].
    + done.
    + intros r l' [[<- <-]|[Hne Hl]]%lookup_insert_Some; [|by apply Ha in Hl].
      split; [done|apply NoDup_singleton].
    + rewrite total_insert_new, Ht by done. cbn. lia.
    + intros r b. unfold addrs. cbn. destruct (decide (r = mode)) as [->|Hne].
      * rewrite lookup_insert_eq, E. cbn. set_solver.
      * rewrite lookup_insert_ne by done. naive_solver.
Qed.

Lemma unsetAddress_spec mode a m :
  cm_wf m ->
  cm_wf (cm_unsetAddress mode a m) /\
  forall r b, b ∈ addrs (cm_unsetAddress mode a m) r <-> b ∈ addrs m r /\ ~ (r = mode /\ b = a).
Proof.
  intros [Hf Ha Ht]. unfold cm_unsetAddress.
  destruct (m.(addressModes) !! mode) as [l|] eqn:E.
  2:{ split; [done|]. intros r b. split; [|naive_solver]. intros Hb. split; [done|].
      intros [-> ->]. unfold addrs in Hb. rewrite E in Hb. by apply not_elem_of_nil in Hb. }
  destruct (find_address l a) as [i|] eqn:Ef.
  2:{ apply find_address_None in Ef. split; [done|]. intros r b. split; [|naive_solver].
      intros Hb. split; [done|]. intros [-> ->]. unfold addrs in Hb. by rewrite E in Hb. }
  apply find_address_Some in Ef. destruct (Ha _ _ E) as [Hn Hd].
  pose proof (remove_swap_perm _ _ _ Ef) as Hp.
  assert (length l = S (length (remove_swap i l))) as Hlen by by rewrite Hp at 1.
  assert (NoDup (a :: remove_swap i l)) as Hd' by by rewrite <- Hp.
  apply NoDup_cons in Hd' as [Hna Hd'].
  set (l' := remove_swap i l) in *. clearbody l'.
  case_decide as H1.
  - assert (l' = []) as Hr by (apply nil_length_inv; lia).
    rewrite Hr in Hp. apply Permutation_singleton_r in Hp as ->.
    split; [split; cbn|].
    + done.
    + intros r l2 [Hne Hl]%lookup_delete_Some. by apply Ha in Hl.
    + rewrite Ht, (total_delete _ _ _ E). cbn. lia.
    + intros r b. unfold addrs. cbn. destruct (decide (r = mode)) as [->|Hne].
      * rewrite lookup_delete_eq, E. cbn. set_solver.
      * rewrite lookup_delete_ne by done. naive_solver.
  - split; [split; cbn|].
    + done.
    + intros r l2 [[<- <-]|[Hne Hl]]%lookup_insert_Some; [|by apply Ha in Hl].
      split; [|done]. intros Hnil. rewrite Hnil in Hlen. done.
    + rewrite (total_replace _ _ _ _ E), Ht, Hlen. lia.
    + intros r b. unfold addrs. cbn. destruct (decide (r = mode)) as [->|Hne].
      * rewrite lookup_insert_eq, E. cbn. rewrite Hp, elem_of_cons. naive_solver.
      * rewrite lookup_insert_ne by done. naive_solver.
Qed.

Lemma run_op_wf m o : cm_wf m -> cm_wf (run_op m o).
Proof.
  intros Hm. destruct o as [r|r a|r a|r|r a|r a]; cbn.
  - destruct Hm. split; [|done..]. cbn. intros r' b [[_ <-]|[_ ?]]%lookup_insert_Some; eauto.
  - by destruct Hm.
  - by apply setAddress_spec.
  - destruct Hm. split; [|done..]. cbn. intros r' b [_ ?]%lookup_delete_Some. eauto.
  - unfold cm_unsetArg. case_match; [by destruct Hm|done].
  - by apply unsetAddress_spec.
Qed.

Lemma run_ops_wf ops m : cm_wf m -> cm_wf (foldl run_op m ops).
Proof. revert m. induction ops as [|o ops IH]; intros m Hm; [done|]. by apply IH, run_op_wf. Qed.

Lemma apply_keeps_wf K (m : ChannelModes) s : cm_wf m -> cm_wf (apply K m s).1.1.
Proof. intros Hm. rewrite apply_trace. by apply run_ops_wf. Qed.

(** C17. Applying a modestring keeps the invariant: the address lists stay free
    of duplicates and never empty, and their cached total stays right. *)
Theorem Apply_wf K m s : cm_wf m -> cm_wf (Apply K m s).1.1.
Proof. apply apply_keeps_wf. Qed.

Lemma Apply_wf_witness :
  let K := {| chan_kinds := NewChannelModeKinds (bs "beI") (bs "k") (bs "l") (bs "imnt");
              user_kinds := None |} in
  cm_wf (Apply K NewChannelModes (bs "+ntbbk-b *!*@a *!*@b key *!*@a")).1.1.
Proof. apply Apply_wf, new_wf. Defined.

(** *** Equivalence up to the order of the addresses *)

Definition cm_equiv (m n : ChannelModes) : Prop :=
  m.(modes) = n.(modes) /\ m.(argModes) = n.(argModes) /\
  m.(addresses) = n.(addresses) /\
  (forall r, is_Some (m.(addressModes) !! r) <-> is_Some (n.(addressModes) !! r)) /\
  forall r, addrs m r ≡ₚ addrs n r.

#[export] Instance cm_equiv_equivalence : Equivalence cm_equiv.
Proof.
  split.
  - intros m. by repeat split.
  - intros m n (H1 & H2 & H3 & H4 & H5). repeat split; try done; naive_solver.
  - intros m n o (H1 & H2 & H3 & H4 & H5) (G1 & G2 & G3 & G4 & G5).
    split; [congruence|split; [congruence|split; [congruence|split]]]; intros r.
    + by rewrite H4.
    + by rewrite H5.
Qed.

(** Everything the program can observe is the same for equivalent sets. *)
#[export] Instance isModeSet_proper : Proper (cm_equiv ==> (=) ==> (=)) isModeSet.
Proof. intros m n (H & _) r ? <-. unfold isModeSet. by rewrite H. Qed.
#[export] Instance isArgSet_proper : Proper (cm_equiv ==> (=) ==> (=) ==> (=)) isArgSet.
Proof. intros m n (_ & H & _) r ? <- a ? <-. unfold isArgSet. by rewrite H. Qed.
#[export] Instance isAddressSet_proper : Proper (cm_equiv ==> (=) ==> (=) ==> (=)) isAddressSet.
Proof.
  intros m n (_ & _ & _ & Hs & Hp) r ? <- a ? <-. unfold isAddressSet.
  specialize (Hs r). specialize (Hp r). unfold addrs in Hp.
  destruct (addressModes m !! r) as [l|], (addressModes n !! r) as [l'|]; cbn in Hp;
    [|exfalso; destruct Hs; by destruct H|exfalso; destruct Hs; by destruct H0|done].
  f_equal. apply bool_decide_ext. rewrite !find_address_elem. by rewrite Hp.
Qed.

Lemma IsSet_equiv K m n modestrs : cm_equiv m n -> IsSet K m modestrs = IsSet K n modestrs.
Proof.
  intros H. unfold IsSet. destruct (parseSimpleModestrings modestrs) as [[ms args]|]; [|done].
  cbn. f_equal. case_decide; [done|]. generalize 0 as used. clear -H.
  induction ms as [|r ms IH]; intros used; cbn [is_set_loop]; [done|].
  rewrite (isModeSet_proper _ _ H r r eq_refl).
  destruct (match args !! used with Some a => _ | None => _ end) as [a u] eqn:E.
  rewrite (isAddressSet_proper _ _ H r r eq_refl a a eq_refl),
    (isArgSet_proper _ _ H r r eq_refl a a eq_refl), !IH. done.
Qed.

Lemma total_ext am an :
  (forall r, default [] (am !! r) ≡ₚ default [] (an !! r)) -> total am = total an.
Proof.
  revert an. induction am as [|r l am Hr IH] using map_ind; intros an H.
  - unfold total at 1. rewrite map_fold_empty.
    induction an as [|r l an Hr IH] using map_ind; [done|].
    rewrite total_insert_new by done.
    pose proof (H r) as Hl. rewrite lookup_insert_eq, lookup_empty in Hl. cbn in Hl.
    apply Permutation_nil_l in Hl as <-. cbn. rewrite <- IH; [done|].
    intros r'. specialize (H r'). destruct (decide (r' = r)) as [->|Hne].
    + by rewrite Hr.
    + by rewrite lookup_insert_ne in H.
  - rewrite total_insert_new by done. pose proof (H r) as Hl. rewrite lookup_insert_eq in Hl.
    cbn in Hl. assert (total am = total (delete r an)) as ->.
    { apply IH. intros r'. specialize (H r'). destruct (decide (r' = r)) as [->|Hne].
      - by rewrite Hr, lookup_delete_eq.
      - by rewrite lookup_insert_ne in H by done; rewrite lookup_delete_ne. }
    destruct (an !! r) as [l'|] eqn:E; cbn in Hl.
    + by rewrite (total_delete _ _ _ E), Hl.
    + apply Permutation_nil_r in Hl as ->. by rewrite delete_id.
Qed.

(** Two well-formed sets with the same flags, arguments and addresses are
    equivalent. *)
Lemma cm_equiv_intro m n :
  cm_wf m -> cm_wf n ->
  (forall r, m.(modes) !! r = n.(modes) !! r) ->
  (forall r, m.(argModes) !! r = n.(argModes) !! r) ->
  (forall r a, a ∈ addrs m r <-> a ∈ addrs n r) -> cm_equiv m n.
Proof.
  intros [_ Hm Htm] [_ Hn Htn] Hf Ha Hs.
  assert (forall r, addrs m r ≡ₚ addrs n r) as Hp.
  { intros r. apply NoDup_Permutation; [| |apply Hs]; unfold addrs.
    - destruct (addressModes m !! r) as [l|] eqn:E; [by apply Hm in E as [_ ?]|constructor].
    - destruct (addressModes n !! r) as [l|] eqn:E; [by apply Hn in E as [_ ?]|constructor]. }
  split; [by apply map_eq|]. split; [by apply map_eq|]. split; [|split; [|done]].
  - rewrite Htm, Htn. by apply total_ext.
  - intros r. specialize (Hp r). unfold addrs in Hp.
    destruct (addressModes m !! r) as [l|] eqn:Em, (addressModes n !! r) as [l'|] eqn:En;
      cbn in Hp; try done.
    + by apply Permutation_nil_r in Hp as ->; apply Hm in Em as [? _].
    + by apply Permutation_nil_l in Hp as <-; apply Hn in En as [? _].
Qed.

(** ** Printing and applying again *)

(** The rune is a flag, a mode with an argument, or one with addresses. *)
Definition plain_rune (r : Z) : bool :=
  valid_rune r && negb (is_space r) && negb (bool_decide (r = code "+")) &&
  negb (bool_decide (r = code "-")).
Definition is_flag (K : kinds) (r : Z) : bool :=
  plain_rune r && negb (isUserMode K r) &&
  negb (bool_decide (getKind K.(chan_kinds) r ∈ [ARGS_ALWAYS; ARGS_ONSET; ARGS_ADDRESS])).
Definition is_argmode (K : kinds) (r : Z) : bool :=
  plain_rune r && bool_decide (getKind K.(chan_kinds) r ∈ [ARGS_ALWAYS; ARGS_ONSET]).
Definition is_addrmode (K : kinds) (r : Z) : bool :=
  plain_rune r && bool_decide (getKind K.(chan_kinds) r = ARGS_ADDRESS).

(** An argument that stays one word. *)
Definition word (a : bytes) : bool :=
  negb (bool_decide (a = [])) && forallb (fun zb => negb (is_space zb.1)) (chunks a).

Record cm_typed (K : kinds) (m : ChannelModes) : Prop := {
  ty_flags : forall r b, m.(modes) !! r = Some b -> is_flag K r = true;
  ty_args : forall r a, m.(argModes) !! r = Some a -> is_argmode K r = true /\ word a = true;
  ty_addrs : forall r a, a ∈ addrs m r -> is_addrmode K r = true /\ word a = true;
}.

Lemma word_spec a :
  word a = true -> a <> [] /\ Forall (fun zb => is_space zb.1 = false) (chunks a).
Proof.
  unfold word. rewrite andb_true_iff, negb_true_iff, bool_decide_eq_false, forallb_forall.
  intros [H1 H2]. split; [done|]. apply Forall_forall. intros x Hx.
  apply negb_true_iff, H2, list_elem_of_In, Hx.
Qed.

Lemma chunks_string_of_runes rs :
  Forall (fun r => valid_rune r = true) rs ->
  chunks (string_of_runes rs) = map (fun r => (r, encode_rune r)) rs.
Proof.
  induction 1 as [|r rs Hr _ IH]; [done|]. unfold string_of_runes in *. cbn [map concat].
  by rewrite chunks_encode, IH.
Qed.

(** No rune of the string is white space, then no byte of it is a space. *)
Lemma no_space_byte s :
  Forall (fun zb => is_space zb.1 = false) (chunks s) -> " "%char ∉ s.
Proof.
  intros Hs Hin. rewrite <- (chunks_concat s) in Hin. fold (unchunk (chunks s)) in Hin.
  assert (exists z b, (z, b) ∈ chunks s /\ " "%char ∈ b) as (z & b & H1 & H2).
  { revert Hin. generalize (chunks s). clear. intros xs.
    induction xs as [|[z b] xs IH]; [by intros ?%not_elem_of_nil|].
    unfold unchunk. cbn. intros [Hc|Hc]%elem_of_app.
    - exists z, b. split; [left|done].
    - destruct (IH Hc) as (z' & b' & ? & ?). exists z', b'. split; [by right|done]. }
  destruct (chunks_byte_inv s z b " ") as [-> _]; [done..|].
  rewrite Forall_forall in Hs. by apply Hs in H1.
Qed.

Lemma trim_left_none P cs :
  match cs with (z, _) :: _ => P z = false | [] => True end -> trim_left_chunks P cs = cs.
Proof. destruct cs as [|[z b] cs]; cbn; [done|]. by intros ->. Qed.

(** Nothing to trim when neither end is white space. *)
Lemma TrimSpace_id s z b xs ys z' b' :
  chunks s = (z, b) :: xs -> chunks s = ys ++ [(z', b')] ->
  is_space z = false -> is_space z' = false -> TrimSpace s = s.
Proof.
  intros Hs Hs' Hz Hz'. unfold TrimSpace, trim_func.
  rewrite (trim_left_none _ (chunks s)) by (by rewrite Hs).
  rewrite trim_left_none, rev_involutive; [apply chunks_concat|].
  by rewrite Hs', rev_app_distr.
Qed.

Lemma chunks_nil s : chunks s = [] -> s = [].
Proof. intros H. by rewrite <- (chunks_concat s), H. Qed.

Lemma word_last a : word a = true -> exists xs z b, chunks a = xs ++ [(z, b)] /\ is_space z = false.
Proof.
  intros [Hn Hs]%word_spec. destruct (chunks a) as [|[z b] xs _] eqn:E using rev_ind.
  - by apply chunks_nil in E.
  - apply Forall_app in Hs as [_ [Hz _]%Forall_cons]. exists xs, z, b. split; [done|exact Hz].
Qed.

Lemma words_last args :
  args <> [] -> Forall (fun a => word a = true) args ->
  exists xs z b, chunks (Join args (bs " ")) = xs ++ [(z, b)] /\ is_space z = false.
Proof.
  intros Hn. induction 1 as [|a args Ha Hargs IH]; [done|].
  destruct args as [|a' args]; [by apply word_last|].
  destruct (IH ltac:(done)) as (xs & z & b & E & Hz). rewrite Join_cons by done.
  change (bs " ") with [" "%char] in *. cbn [app]. rewrite chunks_app_ascii, E by done.
  exists (chunks a ++ (code " ", [" "%char]) :: xs), z, b. by rewrite <- app_assoc.
Qed.

(** The set a list of flags, arguments and addresses builds. *)
Definition set_ops (flags : list Z) (as_ : list (Z * bytes)) (ads : list (Z * bytes)) : list mode_op :=
  map OpSetMode flags ++ map (fun p => OpSetArg p.1 p.2) as_ ++
  map (fun p => OpSetAddress p.1 p.2) ads.

Section apply_set.
Context {M : Type} `{moder M} (K : kinds).

Lemma apply_flags args (st : @apply_state M) flags :
  st.(adding) = true -> Forall (fun r => is_flag K r = true) flags ->
  foldl (apply_char K args) st flags =
  {| ap_m := foldl run_op st.(ap_m) (map OpSetMode flags); adding := true;
     used := st.(used); pos := st.(pos); neg := st.(neg) |}.
Proof.
  intros Ha Hf. revert st Ha. induction Hf as [|r flags Hr _ IH]; intros st Ha; cbn [map foldl].
  { destruct st; cbn in *. by subst. }
  assert (apply_char K args st r = call (setMode r) st) as ->.
  { unfold is_flag, plain_rune in Hr.
    rewrite !andb_true_iff, !negb_true_iff, !bool_decide_eq_false in Hr.
    destruct Hr as [[[[_ Hp] Hm] Hu] Hk].
    unfold apply_char. rewrite !(bool_decide_false (r = _)) by done. cbn [orb].
    rewrite !(bool_decide_false (getKind _ _ = _)) by (intros E; apply Hk; rewrite E; set_solver).
    by rewrite Hu, Ha. }
  rewrite IH; done.
Qed.

Lemma apply_argful args (st : @apply_state M) (as_ : list (Z * bytes)) op :
  st.(adding) = true ->
  (forall r st a, st.(adding) = true -> r ∈ map fst as_ -> args !! st.(used) = Some a ->
     apply_char K args st r = use (call (fun m => run_op m (op r a)) st)) ->
  (forall i, map snd as_ !! i = args !! (st.(used) + i) \/ length as_ <= i) ->
  foldl (apply_char K args) st (map fst as_) =
  {| ap_m := foldl run_op st.(ap_m) (map (fun p => op p.1 p.2) as_); adding := true;
     used := st.(used) + length as_; pos := st.(pos); neg := st.(neg) |}.
Proof.
  intros Ha Hop Hargs. revert st Ha Hargs.
  induction as_ as [|[r a] as_ IH]; intros st Ha Hargs; cbn [map foldl fst snd length].
  { rewrite Nat.add_0_r. destruct st; cbn in *. by subst. }
  rewrite (Hop r st a); [|done|set_solver|].
  2:{ destruct (Hargs 0) as [H0|H0]; [|cbn in H0; lia].
      by rewrite Nat.add_0_r in H0. }
  rewrite IH; [|intros r' st' a' ? Hr'; apply Hop; [done|set_solver]|done|].
  - cbn [use call ap_m used]. f_equal. lia.
  - intros i. destruct (Hargs (S i)) as [H1|H1]; [left|right; cbn in H1; lia].
    cbn [use call used]. cbn [map lookup list_lookup] in H1.
    replace (S (used st) + i) with (used st + S i) by lia. done.
Qed.
End apply_set.

(** ** Runs of calls of one sort *)

Abbreviation setArgs l := (map (fun p => OpSetArg p.1 p.2) l).
Abbreviation unsetArgs l := (map (fun p => OpUnsetArg p.1 p.2) l).
Abbreviation setAddresses l := (map (fun p => OpSetAddress p.1 p.2) l).
Abbreviation unsetAddresses l := (map (fun p => OpUnsetAddress p.1 p.2) l).

Lemma fold_setMode fs m :
  let m' := foldl run_op m (map OpSetMode fs) in
  (forall r, m'.(modes) !! r = if decide (r ∈ fs) then Some true else m.(modes) !! r) /\
  m'.(argModes) = m.(argModes) /\ m'.(addressModes) = m.(addressModes).
Proof.
  revert m. induction fs as [|f fs IH]; intros m; [done|].
  destruct (IH (cm_setMode f m)) as (H1 & H2 & H3). cbn in *. split; [|done].
  intros r. rewrite H1. destruct (decide (r ∈ fs)) as [Hr|Hr].
  - by rewrite decide_True by set_solver.
  - destruct (decide (r = f)) as [->|Hne].
    + by rewrite lookup_insert_eq, decide_True by set_solver.
    + by rewrite lookup_insert_ne, decide_False by set_solver.
Qed.

Lemma fold_unsetMode fs m :
  let m' := foldl run_op m (map OpUnsetMode fs) in
  (forall r, m'.(modes) !! r = if decide (r ∈ fs) then None else m.(modes) !! r) /\
  m'.(argModes) = m.(argModes) /\ m'.(addressModes) = m.(addressModes).
Proof.
  revert m. induction fs as [|f fs IH]; intros m; [done|].
  destruct (IH (cm_unsetMode f m)) as (H1 & H2 & H3). cbn in *. split; [|done].
  intros r. rewrite H1. destruct (decide (r ∈ fs)) as [Hr|Hr].
  - by rewrite decide_True by set_solver.
  - destruct (decide (r = f)) as [->|Hne].
    + by rewrite lookup_delete_eq, decide_True by set_solver.
    + by rewrite lookup_delete_ne, decide_False by set_solver.
Qed.

Lemma fold_setArg (l : list (Z * bytes)) m :
  NoDup l.*1 ->
  let m' := foldl run_op m (setArgs l) in
  (forall r, m'.(argModes) !! r =
     match (list_to_map l : gmap Z bytes) !! r with Some a => Some a | None => m.(argModes) !! r end) /\
  m'.(modes) = m.(modes) /\ m'.(addressModes) = m.(addressModes).
Proof.
  revert m. induction l as [|[k a] l IH]; intros m Hd; [done|].
  cbn [fmap list_fmap fst] in Hd. apply NoDup_cons in Hd as [Hk Hd].
  destruct (IH (cm_setArg k a m) Hd) as (H1 & H2 & H3). cbn in *. split; [|done].
  intros r. rewrite H1. destruct (decide (r = k)) as [->|Hne].
  - rewrite lookup_insert_eq. by rewrite (not_elem_of_list_to_map_1 _ _ Hk), lookup_insert_eq.
  - by rewrite !lookup_insert_ne by done.
Qed.

Lemma unsetArg_lookup k a m r :
  (cm_unsetArg k a m).(argModes) !! r =
  match m.(argModes) !! r with
  | Some c => if decide (r = k) then if arg_fits a c then None else Some c else Some c
  | None => None
  end.
Proof.
  unfold cm_unsetArg, isArgSet. destruct (decide (r = k)) as [->|Hne].
  - destruct (argModes m !! k) as [c|] eqn:E; [|by rewrite E].
    destruct (arg_fits a c); cbn; [by rewrite lookup_delete_eq|by rewrite E].
  - repeat case_match; cbn; rewrite ?lookup_delete_ne by done; congruence.
Qed.

Lemma unsetArg_frame k a m :
  (cm_unsetArg k a m).(modes) = m.(modes) /\
  (cm_unsetArg k a m).(addressModes) = m.(addressModes).
Proof. unfold cm_unsetArg. by case_match. Qed.

Lemma fold_unsetArg (l : list (Z * bytes)) m :
  NoDup l.*1 ->
  let m' := foldl run_op m (unsetArgs l) in
  (forall r, m'.(argModes) !! r =
     match (list_to_map l : gmap Z bytes) !! r, m.(argModes) !! r with
     | Some a, Some c => if arg_fits a c then None else Some c
     | _, o => o
     end) /\
  m'.(modes) = m.(modes) /\ m'.(addressModes) = m.(addressModes).
Proof.
  revert m. induction l as [|[k a] l IH]; intros m Hd.
  { cbn. split; [|done]. intros r. by rewrite lookup_empty. }
  cbn [fmap list_fmap fst] in Hd. apply NoDup_cons in Hd as [Hk Hd].
  destruct (IH (cm_unsetArg k a m) Hd) as (H1 & H2 & H3).
  destruct (unsetArg_frame k a m) as [F1 F2]. rewrite F1 in H2. rewrite F2 in H3.
  split; [|done]. intros r. cbn [map foldl run_op fst snd unsetArg moder_ChannelModes].
  rewrite H1, unsetArg_lookup. cbn [list_to_map foldr fst snd].
  destruct (decide (r = k)) as [->|Hne].
  - rewrite lookup_insert_eq, (not_elem_of_list_to_map_1 _ _ Hk).
    by destruct (argModes m !! k).
  - rewrite lookup_insert_ne by done. repeat case_match; congruence.
Qed.

Lemma setAddress_frame k a m :
  (cm_setAddress k a m).(modes) = m.(modes) /\ (cm_setAddress k a m).(argModes) = m.(argModes).
Proof. unfold cm_setAddress. by repeat case_match. Qed.

Lemma unsetAddress_frame k a m :
  (cm_unsetAddress k a m).(modes) = m.(modes) /\ (cm_unsetAddress k a m).(argModes) = m.(argModes).
Proof. unfold cm_unsetAddress. by repeat case_match. Qed.

Lemma fold_setAddress (l : list (Z * bytes)) m :
  cm_wf m ->
  let m' := foldl run_op m (setAddresses l) in
  (forall r a, a ∈ addrs m' r <-> a ∈ addrs m r \/ (r, a) ∈ l) /\
  m'.(modes) = m.(modes) /\ m'.(argModes) = m.(argModes).
Proof.
  revert m. induction l as [|[k b] l IH]; intros m Hwf.
  { cbn. split; [|done]. set_solver. }
  destruct (setAddress_spec k b m Hwf) as [Hwf' Hs].
  destruct (IH _ Hwf') as (H1 & H2 & H3).
  destruct (setAddress_frame k b m) as [F1 F2]. rewrite F1 in H2. rewrite F2 in H3.
  split; [|done]. intros r a. cbn [map foldl run_op fst snd setAddress moder_ChannelModes].
  rewrite H1, Hs, elem_of_cons. naive_solver.
Qed.

Lemma fold_unsetAddress (l : list (Z * bytes)) m :
  cm_wf m ->
  let m' := foldl run_op m (unsetAddresses l) in
  (forall r a, a ∈ addrs m' r <-> a ∈ addrs m r /\ (r, a) ∉ l) /\
  m'.(modes) = m.(modes) /\ m'.(argModes) = m.(argModes).
Proof.
  revert m. induction l as [|[k b] l IH]; intros m Hwf.
  { cbn. split; [|done]. set_solver. }
  destruct (unsetAddress_spec k b m Hwf) as [Hwf' Hs].
  destruct (IH _ Hwf') as (H1 & H2 & H3).
  destruct (unsetAddress_frame k b m) as [F1 F2]. rewrite F1 in H2. rewrite F2 in H3.
  split; [|done]. intros r a. cbn [map foldl run_op fst snd unsetAddress moder_ChannelModes].
  rewrite H1, Hs, not_elem_of_cons. naive_solver.
Qed.

Section range.
Context {RO : RangeOrder Z}.

Lemma elem_of_address_list m r a : (r, a) ∈ address_list m <-> a ∈ addrs m r.
Proof.
  unfold address_list, addrs. split.
  - intros (l & Hl & Hin)%list_elem_of_In%in_concat.
    apply list_elem_of_In in Hl. apply list_elem_of_fmap in Hl as ([r' l'] & -> & Hr).
    apply list_elem_of_In, list_elem_of_fmap in Hin as (a' & [= -> ->] & Ha).
    apply elem_of_range in Hr. by rewrite Hr.
  - intros Ha. destruct (addressModes m !! r) as [l|] eqn:E; [|by apply not_elem_of_nil in Ha].
    apply list_elem_of_In, in_concat. exists (map (pair r) l). split.
    + apply list_elem_of_In, list_elem_of_fmap. exists (r, l). by rewrite elem_of_range.
    + apply list_elem_of_In, list_elem_of_fmap. eauto.
Qed.

Lemma list_to_map_range {A} (m : gmap Z A) : list_to_map (range m) = m.
Proof.
  transitivity (list_to_map (map_to_list m) : gmap Z A); [|apply list_to_map_to_list].
  apply list_to_map_proper; [apply NoDup_range|apply range_perm].
Qed.

Lemma elem_of_range_fst {A} (m : gmap Z A) r : r ∈ (range m).*1 <-> is_Some (m !! r).
Proof.
  rewrite list_elem_of_fmap. split.
  - intros ([k x] & -> & Hk). apply elem_of_range in Hk. eauto.
  - intros [x Hx]. exists (r, x). by rewrite elem_of_range.
Qed.

Lemma length_address_list m : Z.of_nat (length (address_list m)) = total m.(addressModes).
Proof.
  unfold address_list. rewrite range_perm. unfold total.
  rewrite map_fold_foldr. induction (map_to_list (addressModes m)) as [|[r l] ls IH]; [done|].
  cbn. rewrite length_app, length_map. lia.
Qed.
End range.

Section roundtrip.
Context {RO : RangeOrder Z}.

(** What [String] writes: never past the ends of its slices, and all of
    them. *)
Lemma ChannelModes_String_eq m :
  cm_wf m ->
  let argful := range m.(argModes) ++ address_list m in
  ChannelModes_String m =
  Ret (string_of_runes (map fst (range m.(modes)) ++ map fst argful) ++
       (if decide (argful = []) then [] else bs " " ++ Join (map snd argful) (bs " "))).
Proof.
  intros [_ _ Ht] argful. unfold ChannelModes_String. fold argful.
  assert (Z.of_nat (length argful) = Z.of_nat (size (argModes m)) + addresses m)%Z as Hlen.
  { unfold argful. rewrite length_app, Nat2Z.inj_add, length_address_list, Ht.
    by rewrite range_perm, length_map_to_list. }
  rewrite decide_False by lia.
  replace (Z.to_nat _) with 0 by lia. cbn [replicate]. rewrite !app_nil_r.
  case_decide; [by rewrite app_nil_r|done].
Qed.

Lemma plain_of_flag K r : is_flag K r = true -> plain_rune r = true.
Proof. unfold is_flag. rewrite !andb_true_iff. naive_solver. Qed.
Lemma plain_of_arg K r : is_argmode K r = true -> plain_rune r = true.
Proof. unfold is_argmode. rewrite !andb_true_iff. naive_solver. Qed.
Lemma plain_of_addr K r : is_addrmode K r = true -> plain_rune r = true.
Proof. unfold is_addrmode. rewrite !andb_true_iff. naive_solver. Qed.
Lemma plain_valid r : plain_rune r = true -> valid_rune r = true /\ is_space r = false.
Proof. unfold plain_rune. rewrite !andb_true_iff, !negb_true_iff. naive_solver. Qed.

(** The words of a printed set. *)
Lemma print_words rs (args : list bytes) :
  Forall (fun r => plain_rune r = true) rs -> Forall (fun a => word a = true) args ->
  rs <> [] ->
  let s := string_of_runes rs ++ (if decide (args = []) then [] else bs " " ++ Join args (bs " ")) in
  SplitByte (TrimSpace s) " " = string_of_runes rs :: args.
Proof.
  intros Hrs Hargs Hne s.
  assert (Forall (fun zb => is_space zb.1 = false) (chunks (string_of_runes rs))) as Hcs.
  { rewrite chunks_string_of_runes by (eapply Forall_impl; [exact Hrs|]; by intros r []%plain_valid).
    apply Forall_fmap. eapply Forall_impl; [exact Hrs|]. by intros r []%plain_valid. }
  assert (" "%char ∉ string_of_runes rs) as Hsp by by apply no_space_byte.
  assert (SplitByte s " " = string_of_runes rs :: args) as Hsplit.
  { unfold s. destruct (decide (args = [])) as [->|Ha].
    - rewrite app_nil_r. by apply SplitByte_no_sep.
    - cbn [bs app]. change (bs " ") with [" "%char]. cbn [app].
      rewrite SplitByte_app_sep by done. rewrite SplitByte_Join; [done|done|].
      eapply Forall_impl; [exact Hargs|]. intros a [_ Hw]%word_spec. by apply no_space_byte. }
  rewrite <- Hsplit. f_equal.
  destruct rs as [|r rs]; [done|].
  assert (chunks (string_of_runes (r :: rs)) = (r, encode_rune r) ::
          map (fun r => (r, encode_rune r)) rs) as Hc.
  { apply (chunks_string_of_runes (r :: rs)).
    eapply Forall_impl; [exact Hrs|]. by intros r' []%plain_valid. }
  assert (is_space r = false) as Hr by by apply Forall_cons in Hrs as [[]%plain_valid _].
  assert (exists xs, chunks s = (r, encode_rune r) :: xs) as [xs Hhead].
  { unfold s. destruct (decide (args = [])); [rewrite app_nil_r; eauto|].
    change (bs " ") with [" "%char]. cbn [app]. rewrite chunks_app_ascii, Hc by done. by eexists. }
  assert (exists ys z b, chunks s = ys ++ [(z, b)] /\ is_space z = false)
    as (ys & z & b & Hlast & Hz).
  { unfold s. destruct (decide (args = [])) as [|Hn].
    - rewrite app_nil_r. destruct (chunks (string_of_runes (r :: rs))) as [|[z b] ys _] eqn:E
        using rev_ind; [done|].
      apply Forall_app in Hcs as [_ [Hz _]%Forall_cons]. exists ys, z, b. split; [done|exact Hz].
    - destruct (words_last args Hn Hargs) as (ys & z & b & E & Hz).
      change (bs " ") with [" "%char] in *. cbn [app]. rewrite chunks_app_ascii, E by done.
      exists (chunks (string_of_runes (r :: rs)) ++ (code " ", [" "%char]) :: ys), z, b.
      by rewrite <- app_assoc. }
  by apply (TrimSpace_id _ _ _ _ _ _ _ Hhead Hlast).
Qed.

Lemma apply_char_arg {M} `{moder M} K args (st : @apply_state M) r a :
  is_argmode K r = true -> st.(adding) = true -> args !! st.(used) = Some a ->
  apply_char K args st r = use (call (fun m => run_op m (OpSetArg r a)) st).
Proof.
  unfold is_argmode, plain_rune.
  rewrite !andb_true_iff, !negb_true_iff, !bool_decide_eq_false, bool_decide_eq_true.
  intros [[[_ Hp] Hm] Hk] Ha Hu. unfold apply_char.
  rewrite !(bool_decide_false (r = _)) by done. cbn [orb].
  replace (_ || _) with true; [by rewrite Ha, Hu|].
  symmetry. apply orb_true_iff. rewrite !bool_decide_eq_true. set_solver.
Qed.

Lemma apply_char_addr {M} `{moder M} K args (st : @apply_state M) r a :
  is_addrmode K r = true -> st.(adding) = true -> args !! st.(used) = Some a ->
  apply_char K args st r = use (call (fun m => run_op m (OpSetAddress r a)) st).
Proof.
  unfold is_addrmode, plain_rune.
  rewrite !andb_true_iff, !negb_true_iff, !bool_decide_eq_false, bool_decide_eq_true.
  intros [[[_ Hp] Hm] Hk] Ha Hu. unfold apply_char.
  rewrite !(bool_decide_false (r = _)) by done. cbn [orb]. rewrite Hk.
  by rewrite Ha, Hu.
Qed.

Section typed.
Variables (K : kinds) (m : ChannelModes).
Hypothesis Hty : cm_typed K m.
Let fl := map fst (range m.(modes)).
Let as_ := range m.(argModes).
Let ads := address_list m.

Lemma typed_flags : Forall (fun r => is_flag K r = true) fl.
Proof.
  apply Forall_forall. intros r ([r' b] & -> & Hr)%list_elem_of_fmap.
  apply elem_of_range in Hr. by eapply ty_flags.
Qed.

Lemma typed_args r a : (r, a) ∈ as_ -> is_argmode K r = true /\ word a = true.
Proof. intros Hr%elem_of_range. by eapply ty_args. Qed.

Lemma typed_addrs r a : (r, a) ∈ ads -> is_addrmode K r = true /\ word a = true.
Proof. intros Hr%elem_of_address_list. by eapply ty_addrs. Qed.

Lemma typed_plain : Forall (fun r => plain_rune r = true) (fl ++ map fst (as_ ++ ads)).
Proof.
  apply Forall_app. split.
  - eapply Forall_impl; [apply typed_flags|]. apply plain_of_flag.
  - apply Forall_forall. intros r ([r' a] & -> & [Hr|Hr]%elem_of_app)%list_elem_of_fmap.
    + by apply typed_args in Hr as [?%plain_of_arg _].
    + by apply typed_addrs in Hr as [?%plain_of_addr _].
Qed.

Lemma typed_words : Forall (fun a => word a = true) (map snd (as_ ++ ads)).
Proof.
  apply Forall_forall. intros a ([r a'] & -> & [Hr|Hr]%elem_of_app)%list_elem_of_fmap.
  - by apply typed_args in Hr as [_ ?].
  - by apply typed_addrs in Hr as [_ ?].
Qed.

(** Applying the words of the printed set makes the calls that build it. *)
Lemma apply_print {M} `{moder M} (n : M) :
  foldl (apply_char K (map snd (as_ ++ ads)))
    {| ap_m := n; adding := true; used := 0; pos := []; neg := [] |}
    (fl ++ map fst (as_ ++ ads))
  = {| ap_m := foldl run_op n (set_ops fl as_ ads); adding := true;
       used := length as_ + length ads; pos := []; neg := [] |}.
Proof.
  set (args := map snd (as_ ++ ads)).
  assert (args = map snd as_ ++ map snd ads) as Eargs by apply map_app.
  rewrite foldl_app, (apply_flags K args _ fl) by (done || apply typed_flags).
  rewrite map_app, foldl_app.
  rewrite (apply_argful K args _ as_ OpSetArg); [|done| |].
  - rewrite (apply_argful K args _ ads OpSetAddress); [|done| |].
    + cbn [ap_m used pos neg]. unfold set_ops. by rewrite !foldl_app.
    + intros r st a Hst ([r' a'] & -> & Hr)%list_elem_of_fmap Ha.
      apply apply_char_addr; [|done..]. by apply typed_addrs in Hr as [? _].
    + cbn [used]. intros i. left. rewrite Eargs, lookup_app_r by (rewrite length_map; lia).
      f_equal. rewrite length_map. lia.
  - intros r st a Hst ([r' a'] & -> & Hr)%list_elem_of_fmap Ha.
    apply apply_char_arg; [|done..]. by apply typed_args in Hr as [? _].
  - cbn [used]. intros i. destruct (decide (i < length as_)); [left|right; lia].
    by rewrite Eargs, lookup_app_l by (rewrite length_map; lia).
Qed.

(** The calls build the set. *)
Lemma set_ops_equiv : cm_wf m -> cm_equiv (foldl run_op NewChannelModes (set_ops fl as_ ads)) m.
Proof.
  intros Hwf. unfold set_ops. rewrite !foldl_app.
  destruct (fold_setMode fl NewChannelModes) as (A1 & A2 & A3).
  set (m1 := foldl run_op NewChannelModes (map OpSetMode fl)) in *.
  assert (cm_wf m1) as W1 by apply run_ops_wf, new_wf.
  destruct (fold_setArg as_ m1 (NoDup_range _)) as (B1 & B2 & B3).
  set (m2 := foldl run_op m1 (setArgs as_)) in *.
  assert (cm_wf m2) as W2 by by apply run_ops_wf.
  destruct (fold_setAddress ads m2 W2) as (C1 & C2 & C3).
  set (m3 := foldl run_op m2 (setAddresses ads)) in *.
  assert (cm_wf m3) as W3 by by apply run_ops_wf.
  apply cm_equiv_intro; [done..| | |].
  - intros r. rewrite C2, B2, A1. cbn [modes NewChannelModes].
    case_decide as Hr.
    + apply elem_of_range_fst in Hr as [b Hb]. by rewrite Hb, (wf_flags _ Hwf _ _ Hb).
    + rewrite lookup_empty. symmetry. apply eq_None_not_Some. by rewrite <- elem_of_range_fst.
  - intros r. rewrite C3, B1, A2. unfold as_. rewrite list_to_map_range.
    cbn. by destruct (argModes m !! r).
  - intros r a. rewrite C1. unfold ads. rewrite elem_of_address_list.
    unfold addrs at 1. rewrite B3, A3. cbn. rewrite lookup_empty. set_solver.
Qed.
End typed.

(** C14. A set of channel modes prints without a panic, whatever the order in
    which its maps are visited; applying the string to an empty set gives the
    set back, up to the order of the addresses, and no user modes: for a set
    whose modes are of the kind they are stored under and whose arguments are
    single words. *)
Theorem String_Apply K m :
  cm_wf m -> cm_typed K m ->
  exists s m', ChannelModes_String m = Ret s /\
    Apply K NewChannelModes s = (m', [], []) /\ cm_equiv m' m.
Proof.
  intros Hwf Hty. rewrite ChannelModes_String_eq by done. eexists _, _. split; [done|].
  set (fl := map fst (range (modes m))). set (argful := range (argModes m) ++ address_list m).
  split; [|by apply (set_ops_equiv K)].
  pose proof (typed_plain K m Hty) as Hpl. pose proof (typed_words K m Hty) as Hw.
  pose proof (apply_print K m Hty NewChannelModes) as Hap.
  fold fl argful in Hpl, Hw, Hap. unfold Apply, apply.
  assert (SplitByte (TrimSpace (string_of_runes (fl ++ map fst argful) ++
     (if decide (argful = []) then [] else bs " " ++ Join (map snd argful) (bs " ")))) " "
     = string_of_runes (fl ++ map fst argful) :: map snd argful) as ->.
  { destruct (decide (fl ++ map fst argful = [])) as [Hnil|Hne].
    - rewrite Hnil. apply app_eq_nil in Hnil as [_ Hnil%map_eq_nil]. by rewrite Hnil.
    - rewrite <- (print_words _ _ Hpl Hw Hne). f_equal. f_equal. f_equal.
      destruct argful; done. }
  cbn [head tail default]. unfold id.
  rewrite runes_string_of_runes.
  2:{ eapply Forall_impl; [exact Hpl|]. by intros r []%plain_valid. }
  by rewrite Hap.
Qed.
End roundtrip.

(** The tables and a set the witnesses use. *)
Definition demo_kinds : kinds :=
  {| chan_kinds := NewChannelModeKinds (bs "beI") (bs "k") (bs "l") (bs "imnt");
     user_kinds := Some {| modeInfo := [(code "o", code "@"); (code "v", code "+")] |} |}.
Definition demo_modes : ChannelModes :=
  (Apply demo_kinds NewChannelModes (bs "+ntbklb *!*@a key 5 *!*@b")).1.1.

Lemma demo_wf : cm_wf demo_modes.
Proof. exact (apply_keeps_wf _ _ _ new_wf). Qed.

Lemma cm_typed_intro K m :
  map_Forall (fun r (_ : bool) => is_flag K r = true) m.(modes) ->
  map_Forall (fun r a => is_argmode K r = true /\ word a = true) m.(argModes) ->
  map_Forall (fun r l => is_addrmode K r = true /\ Forall (fun a => word a = true) l)
    m.(addressModes) ->
  cm_typed K m.
Proof.
  intros H1 H2 H3. split; [exact H1|exact H2|]. intros r a Ha. unfold addrs in Ha.
  destruct (addressModes m !! r) as [l|] eqn:E; [|by apply not_elem_of_nil in Ha].
  destruct (H3 _ _ E) as [Hr Hl]. rewrite Forall_forall in Hl. auto.
Qed.

Lemma demo_typed : cm_typed demo_kinds demo_modes.
Proof. apply cm_typed_intro; decide_now. Qed.

Lemma String_Apply_witness :
  exists s m', ChannelModes_String demo_modes = Ret s /\
    Apply demo_kinds NewChannelModes s = (m', [], []) /\ cm_equiv m' demo_modes.
Proof. apply String_Apply; [exact demo_wf|exact demo_typed]. Defined.
