(* ===== verification/ModeDiff.v ===== *)
(** * Package data: differences of modes (data/channel_modes_diff.go,
    [ChannelModes.ApplyDiff] of data/channel_modes.go)

    A [ModeDiff] collects what a modestring sets and unsets without a mode set
    to work on.  It implements [moder] too; the theorem compares a set that
    received the diff with a set the modestring was applied to. *)

From S2P Require Import Prelude GoStrings Modes ChannelModes.

(** data/channel_modes_diff.go [ModeDiff] *)
Record ModeDiff := { d_pos : ChannelModes; d_neg : ChannelModes }.

(** data/channel_modes_diff.go [NewModeDiff] *)
Definition NewModeDiff : ModeDiff := {| d_pos := NewChannelModes; d_neg := NewChannelModes |}.

(** data/channel_modes_diff.go [ModeDiff.setMode] *)
Definition d_setMode (mode : Z) (d : ModeDiff) : ModeDiff :=
  {| d_pos := setMode mode d.(d_pos); d_neg := unsetMode mode d.(d_neg) |}.
(** data/channel_modes_diff.go [ModeDiff.unsetMode] *)
Definition d_unsetMode (mode : Z) (d : ModeDiff) : ModeDiff :=
  {| d_pos := unsetMode mode d.(d_pos); d_neg := setMode mode d.(d_neg) |}.
(** data/channel_modes_diff.go [ModeDiff.setArg] *)
Definition d_setArg (mode : Z) (arg : bytes) (d : ModeDiff) : ModeDiff :=
  {| d_pos := setArg mode arg d.(d_pos); d_neg := unsetArg mode arg d.(d_neg) |}.
(** data/channel_modes_diff.go [ModeDiff.unsetArg] *)
Definition d_unsetArg (mode : Z) (arg : bytes) (d : ModeDiff) : ModeDiff :=
  {| d_pos := unsetArg mode arg d.(d_pos); d_neg := setArg mode arg d.(d_neg) |}.
(** data/channel_modes_diff.go [ModeDiff.setAddress] *)
Definition d_setAddress (mode : Z) (address : bytes) (d : ModeDiff) : ModeDiff :=
  {| d_pos := setAddress mode address d.(d_pos); d_neg := unsetAddress mode address d.(d_neg) |}.
(** data/channel_modes_diff.go [ModeDiff.unsetAddress] *)
Definition d_unsetAddress (mode : Z) (address : bytes) (d : ModeDiff) : ModeDiff :=
  {| d_pos := unsetAddress mode address d.(d_pos); d_neg := setAddress mode address d.(d_neg) |}.

#[export] Instance moder_ModeDiff : moder ModeDiff := {|
  setMode := d_setMode; setArg := d_setArg; setAddress := d_setAddress;
  unsetMode := d_unsetMode; unsetArg := d_unsetArg; unsetAddress := d_unsetAddress;
|}.

(** data/channel_modes_diff.go [ModeDiff.isUserMode]: the same test as for a
    mode set *)
Definition d_isUserMode (K : kinds) (mode : Z) : bool := isUserMode K mode.

(** data/channel_modes_diff.go [ModeDiff.Apply] *)
Definition Diff_Apply (K : kinds) (d : ModeDiff) (modestring : bytes)
    : ModeDiff * list UserMode * list UserMode := apply K d modestring.

(** data/channel_modes_diff.go [ModeDiff.IsSet] *)
Definition Diff_IsSet (K : kinds) (d : ModeDiff) (modestrs : list bytes) : go bool :=
  IsSet K d.(d_pos) modestrs.
(** data/channel_modes_diff.go [ModeDiff.IsUnset] *)
Definition IsUnset (K : kinds) (d : ModeDiff) (modestrs : list bytes) : go bool :=
  IsSet K d.(d_neg) modestrs.

Section orders.
Context {RO : RangeOrder Z}.

(** The modes and the arguments of one side, with its sign. *)
Definition signed (sign : ascii) (s : bytes) : bytes * bytes :=
  match s with
  | [] => ([], [])
  | _ =>
    match IndexByte s " " with
    | None => (sign :: s, [])
    | Some space => (sign :: take space s, " "%char :: drop (S space) s)
    end
  end.

(** data/channel_modes_diff.go [ModeDiff.String] *)
Definition ModeDiff_String (d : ModeDiff) : go bytes :=
  p ← ChannelModes_String d.(d_pos); n ← ChannelModes_String d.(d_neg);
  let '(pm, pa) := signed "+" p in
  let '(nm, na) := signed "-" n in
  Ret (pm ++ nm ++ pa ++ na).

(** data/channel_modes.go [ChannelModes.ApplyDiff]: the calls it makes, over
    some order of the maps *)
Definition diff_calls (d : ModeDiff) : list mode_op :=
  map OpSetMode (map fst (range d.(d_pos).(modes))) ++
  setArgs (range d.(d_pos).(argModes)) ++ setAddresses (address_list d.(d_pos)) ++
  map OpUnsetMode (map fst (range d.(d_neg).(modes))) ++
  unsetArgs (range d.(d_neg).(argModes)) ++ unsetAddresses (address_list d.(d_neg)).

(** data/channel_modes.go [ChannelModes.ApplyDiff] *)
Definition ApplyDiff (m : ChannelModes) (d : ModeDiff) : ChannelModes :=
  foldl run_op m (diff_calls d).

(** What applying a diff does to each entry. *)
Definition unset_by (n : option bytes) (o : option bytes) : option bytes :=
  match n, o with
  | Some a, Some c => if arg_fits a c then None else Some c
  | _, o => o
  end.

Lemma ApplyDiff_spec m d :
  cm_wf m -> let m' := ApplyDiff m d in
  cm_wf m' /\
  (forall r, m'.(modes) !! r =
     if decide (is_Some (d.(d_neg).(modes) !! r)) then None
     else if decide (is_Some (d.(d_pos).(modes) !! r)) then Some true else m.(modes) !! r) /\
  (forall r, m'.(argModes) !! r =
     unset_by (d.(d_neg).(argModes) !! r)
       (match d.(d_pos).(argModes) !! r with Some a => Some a | None => m.(argModes) !! r end)) /\
  (forall r a, a ∈ addrs m' r <->
     (a ∈ addrs m r \/ a ∈ addrs d.(d_pos) r) /\ a ∉ addrs d.(d_neg) r).
Proof.
  intros Hwf. cbn zeta. split; [by apply run_ops_wf|].
  unfold ApplyDiff, diff_calls. rewrite !foldl_app.
  set (m0 := foldl run_op m _).
  destruct (fold_setMode (map fst (range (modes (d_pos d)))) m) as (A1 & A2 & A3). fold m0 in A1, A2, A3.
  assert (cm_wf m0) as W0 by by apply run_ops_wf. clearbody m0.
  set (m1 := foldl run_op m0 _).
  destruct (fold_setArg (range (argModes (d_pos d))) m0 (NoDup_range _)) as (B1 & B2 & B3).
  fold m1 in B1, B2, B3. assert (cm_wf m1) as W1 by by apply run_ops_wf. clearbody m1.
  set (m2 := foldl run_op m1 _).
  destruct (fold_setAddress (address_list (d_pos d)) m1 W1) as (C1 & C2 & C3).
  fold m2 in C1, C2, C3. assert (cm_wf m2) as W2 by by apply run_ops_wf. clearbody m2.
  set (m3 := foldl run_op m2 _).
  destruct (fold_unsetMode (map fst (range (modes (d_neg d)))) m2) as (D1 & D2 & D3).
  fold m3 in D1, D2, D3. assert (cm_wf m3) as W3 by by apply run_ops_wf. clearbody m3.
  set (m4 := foldl run_op m3 _).
  destruct (fold_unsetArg (range (argModes (d_neg d))) m3 (NoDup_range _)) as (E1 & E2 & E3).
  fold m4 in E1, E2, E3. assert (cm_wf m4) as W4 by by apply run_ops_wf. clearbody m4.
  destruct (fold_unsetAddress (address_list (d_neg d)) m4 W4) as (F1 & F2 & F3).
  assert (forall (x y : ChannelModes) r, x.(addressModes) = y.(addressModes) -> addrs x r = addrs y r)
    as Hext by (intros x y r Hxy; unfold addrs; by rewrite Hxy).
  split; [|split].
  - intros r. rewrite F2, E2, D1, C2, B2, A1.
    pose proof (elem_of_range_fst (modes (d_neg d)) r) as Hn.
    pose proof (elem_of_range_fst (modes (d_pos d)) r) as Hp.
    change (fst <$> ?l) with (map fst l) in Hn, Hp.
    destruct (decide (r ∈ map fst (range (modes (d_neg d))))) as [H1|H1].
    { by rewrite decide_True by (by apply Hn). }
    rewrite (decide_False (P := is_Some (modes (d_neg d) !! r))) by (by rewrite <- Hn).
    destruct (decide (r ∈ map fst (range (modes (d_pos d))))) as [H2|H2].
    + by rewrite decide_True by (by apply Hp).
    + by rewrite decide_False by (by rewrite <- Hp).
  - intros r. rewrite F3, E1, D2, C3, B1, A2, !list_to_map_range.
    unfold unset_by. by repeat case_match; simplify_eq.
  - intros r a. rewrite F1, (Hext _ _ r E3), (Hext _ _ r D3), C1, (Hext _ _ r B3), (Hext _ _ r A3).
    by rewrite !elem_of_address_list.
Qed.

(** *** Collecting a diff and applying at once *)

(** The argument mode a call is about. *)
Definition arg_key (o : mode_op) : list Z :=
  match o with OpSetArg r _ | OpUnsetArg r _ => [r] | _ => [] end.

(** After the same calls: the set [m'] that received them is the set [m] they
    started from with the diff [d] applied. *)
Record tracks (m m' : ChannelModes) (d : ModeDiff) : Prop := {
  tr_wf : cm_wf m'; tr_wf_pos : cm_wf d.(d_pos); tr_wf_neg : cm_wf d.(d_neg);
  tr_modes : forall r, m'.(modes) !! r =
     if decide (is_Some (d.(d_neg).(modes) !! r)) then None
     else if decide (is_Some (d.(d_pos).(modes) !! r)) then Some true else m.(modes) !! r;
  tr_args : forall r, m'.(argModes) !! r =
     unset_by (d.(d_neg).(argModes) !! r)
       (match d.(d_pos).(argModes) !! r with Some a => Some a | None => m.(argModes) !! r end);
  tr_addrs : forall r a, a ∈ addrs m' r <->
     (a ∈ addrs m r \/ a ∈ addrs d.(d_pos) r) /\ a ∉ addrs d.(d_neg) r;
}.

Definition untouched (m m' : ChannelModes) (d : ModeDiff) (r : Z) : Prop :=
  d.(d_pos).(argModes) !! r = None /\ d.(d_neg).(argModes) !! r = None /\
  m'.(argModes) !! r = m.(argModes) !! r.

Lemma untouched_frame m m' d r n n' e :
  n.(argModes) = m.(argModes) -> n'.(argModes) = m'.(argModes) ->
  e.(d_pos).(argModes) = d.(d_pos).(argModes) -> e.(d_neg).(argModes) = d.(d_neg).(argModes) ->
  untouched m m' d r -> untouched n n' e r.
Proof. unfold untouched. by intros -> -> -> ->. Qed.

Lemma tracks_setMode m m' d r : tracks m m' d -> tracks m (cm_setMode r m') (d_setMode r d).
Proof.
  intros []. split; [by apply (run_op_wf _ (OpSetMode r))|by apply (run_op_wf _ (OpSetMode r))|
    by apply (run_op_wf _ (OpUnsetMode r))| |done|done].
  intros k. cbn. destruct (decide (k = r)) as [->|Hne].
  - rewrite !lookup_insert_eq, lookup_delete_eq. rewrite decide_False by (by intros []).
    by rewrite decide_True by eauto.
  - rewrite !lookup_insert_ne, lookup_delete_ne by done. auto.
Qed.

Lemma tracks_unsetMode m m' d r : tracks m m' d -> tracks m (cm_unsetMode r m') (d_unsetMode r d).
Proof.
  intros []. split; [by apply (run_op_wf _ (OpUnsetMode r))|by apply (run_op_wf _ (OpUnsetMode r))|
    by apply (run_op_wf _ (OpSetMode r))| |done|done].
  intros k. cbn. destruct (decide (k = r)) as [->|Hne].
  - rewrite lookup_insert_eq, lookup_delete_eq. by rewrite decide_True by eauto.
  - rewrite lookup_insert_ne, !lookup_delete_ne by done. auto.
Qed.

Lemma unsetArg_none k a x : x.(argModes) !! k = None -> cm_unsetArg k a x = x.
Proof. intros H. unfold cm_unsetArg, isArgSet. by rewrite H. Qed.

Lemma tracks_setArg m m' d r a :
  tracks m m' d -> untouched m m' d r -> tracks m (cm_setArg r a m') (d_setArg r a d).
Proof.
  intros [] (Hp & Hn & Hm). unfold d_setArg. cbn. rewrite (unsetArg_none _ _ _ Hn).
  split; [by apply (run_op_wf _ (OpSetArg r a))|by apply (run_op_wf _ (OpSetArg r a))|
    done|done| |done].
  intros k. cbn. destruct (decide (k = r)) as [->|Hne].
  - by rewrite !lookup_insert_eq, Hn.
  - rewrite !lookup_insert_ne by done. auto.
Qed.

Lemma tracks_unsetArg m m' d r a :
  tracks m m' d -> untouched m m' d r -> tracks m (cm_unsetArg r a m') (d_unsetArg r a d).
Proof.
  intros [] (Hp & Hn & Hm). unfold d_unsetArg. cbn. rewrite (unsetArg_none _ _ _ Hp).
  destruct (unsetArg_frame r a m') as [F1 F2].
  split; cbn [d_pos d_neg].
  - by apply (run_op_wf _ (OpUnsetArg r a)).
  - done.
  - by apply (run_op_wf _ (OpSetArg r a)).
  - intros k. rewrite F1. apply tr_modes0.
  - intros k. rewrite unsetArg_lookup. cbn. destruct (decide (k = r)) as [->|Hne].
    + rewrite lookup_insert_eq, Hp, Hm. by destruct (argModes m !! r).
    + rewrite lookup_insert_ne by done. rewrite tr_args0. by destruct (unset_by _ _).
  - intros k b. unfold addrs at 1. rewrite F2. apply tr_addrs0.
Qed.

Lemma tracks_setAddress m m' d r a :
  tracks m m' d -> tracks m (cm_setAddress r a m') (d_setAddress r a d).
Proof.
  intros [W Wp Wn Hm Ha Hd].
  destruct (setAddress_spec r a m' W) as [W' S'], (setAddress_spec r a _ Wp) as [Wp' Sp],
    (unsetAddress_spec r a _ Wn) as [Wn' Sn].
  destruct (setAddress_frame r a m') as [F1 F2], (setAddress_frame r a (d_pos d)) as [G1 G2],
    (unsetAddress_frame r a (d_neg d)) as [K1 K2].
  split; cbn; [done..| | |].
  - intros k. by rewrite F1, G1, K1.
  - intros k. by rewrite F2, G2, K2.
  - intros k b. rewrite S', Sp, Sn, Hd. destruct (decide (k = r /\ b = a)); naive_solver.
Qed.

Lemma tracks_unsetAddress m m' d r a :
  tracks m m' d -> tracks m (cm_unsetAddress r a m') (d_unsetAddress r a d).
Proof.
  intros [W Wp Wn Hm Ha Hd].
  destruct (unsetAddress_spec r a m' W) as [W' S'], (unsetAddress_spec r a _ Wp) as [Wp' Sp],
    (setAddress_spec r a _ Wn) as [Wn' Sn].
  destruct (unsetAddress_frame r a m') as [F1 F2], (unsetAddress_frame r a (d_pos d)) as [G1 G2],
    (setAddress_frame r a (d_neg d)) as [K1 K2].
  split; cbn; [done..| | |].
  - intros k. by rewrite F1, G1, K1.
  - intros k. by rewrite F2, G2, K2.
  - intros k b. rewrite S', Sp, Sn, Hd. destruct (decide (k = r /\ b = a)); naive_solver.
Qed.

(** A call leaves the argument modes it is not about untouched. *)
Lemma run_op_untouched m m' d o r :
  r ∉ arg_key o -> untouched m m' d r -> untouched m (run_op m' o) (run_op d o) r.
Proof.
  intros Hr (Hp & Hn & Hm). unfold untouched.
  destruct o as [k|k a|k a|k|k a|k a]; cbn in *; auto.
  - rewrite !lookup_insert_ne by set_solver. rewrite unsetArg_lookup, Hn. auto.
  - destruct (setAddress_frame k a m') as [_ ->], (setAddress_frame k a (d_pos d)) as [_ ->],
      (unsetAddress_frame k a (d_neg d)) as [_ ->]. auto.
  - rewrite !unsetArg_lookup, Hp, lookup_insert_ne by set_solver.
    split; [done|]. split; [done|].
    rewrite Hm. destruct (argModes m !! r); [|done]. by rewrite decide_False by set_solver.
  - destruct (unsetAddress_frame k a m') as [_ ->], (unsetAddress_frame k a (d_pos d)) as [_ ->],
      (setAddress_frame k a (d_neg d)) as [_ ->]. auto.
Qed.

Lemma tracks_run m m' d ops :
  tracks m m' d -> NoDup (concat (map arg_key ops)) ->
  (forall r, r ∈ concat (map arg_key ops) -> untouched m m' d r) ->
  tracks m (foldl run_op m' ops) (foldl run_op d ops).
Proof.
  revert m' d. induction ops as [|o ops IH]; intros m' d Ht Hd Hu; [done|].
  cbn [map concat foldl] in *. apply NoDup_app in Hd as (_ & Hdisj & Hd).
  apply IH; [|done|].
  - destruct o as [r|r a|r a|r|r a|r a]; cbn [run_op].
    + by apply tracks_setMode.
    + apply tracks_setArg; [done|]. apply Hu. cbn. left.
    + by apply tracks_setAddress.
    + by apply tracks_unsetMode.
    + apply tracks_unsetArg; [done|]. apply Hu. cbn. left.
    + by apply tracks_unsetAddress.
  - intros r Hr. apply run_op_untouched; [|apply Hu; set_solver].
    intros Ho. by apply (Hdisj r Ho).
Qed.

(** C4. A diff stands for the modestring it was made from: applying the diff
    to a set gives the set that applying the modestring gives, up to the order
    of the addresses, as long as no argument mode occurs twice in the string;
    this holds for every order the maps of the diff are visited in. *)
Theorem ApplyDiff_equiv K m s :
  cm_wf m -> NoDup (concat (map arg_key (mode_ops K s).1.1)) ->
  cm_equiv (ApplyDiff m (Diff_Apply K NewModeDiff s).1.1) (Apply K m s).1.1 /\
  (Diff_Apply K NewModeDiff s).1.2 = (Apply K m s).1.2 /\
  (Diff_Apply K NewModeDiff s).2 = (Apply K m s).2.
Proof.
  intros Hwf Hd. unfold Diff_Apply, Apply. rewrite !apply_trace. cbn [fst snd].
  split; [|done].
  set (ops := (mode_ops K s).1.1) in *.
  destruct (tracks_run m m NewModeDiff ops) as [W Wp Wn Tm Ta Td]; [|done|done|].
  { split; [done|apply new_wf|apply new_wf| | |]; intros r.
    - cbn. by rewrite !lookup_empty.
    - cbn. by rewrite !lookup_empty.
    - intros a. cbn. unfold addrs at 2 3. cbn. rewrite !lookup_empty. set_solver. }
  destruct (ApplyDiff_spec m (foldl run_op NewModeDiff ops) Hwf) as (W' & A1 & A2 & A3).
  apply cm_equiv_intro; [done|done| | |].
  - intros r. by rewrite A1, Tm.
  - intros r. by rewrite A2, Ta.
  - intros r a. by rewrite A3, Td.
Qed.
End orders.

Lemma ApplyDiff_equiv_witness :
  let s := bs "+nbb-kto *!*@a *!*@b key nick" in
  cm_equiv (ApplyDiff demo_modes (Diff_Apply demo_kinds NewModeDiff s).1.1)
           (Apply demo_kinds demo_modes s).1.1.
Proof.
  cbn zeta. apply (ApplyDiff_equiv demo_kinds demo_modes (bs "+nbb-kto *!*@a *!*@b key nick"));
    [exact demo_wf|decide_now].
Defined.

(** Setting a mode whose argument is given only on setting, after unsetting
    it in the same string, is lost in the diff: the empty argument stays among
    the negative modes, and unsetting with it fits every argument. *)
Theorem ApplyDiff_loses_onset :
  let s := bs "-l+l 5" in
  isArgSet (Apply demo_kinds NewChannelModes s).1.1 (code "l") (bs "5") = true /\
  isArgSet (ApplyDiff NewChannelModes (Diff_Apply demo_kinds NewModeDiff s).1.1) (code "l") [] = false.
Proof. by vm_compute. Qed.
