(* ===== verification/UserModes.v ===== *)
(** * Package data: users, and the modes of a user on a channel
    (data/user_modes.go, data/user.go, data/channeluser_meta.go)

    The modes of a user on a channel are the bits of one byte, numbered by the
    table [UserModeKinds] that all of them share; the table is an argument of
    the operations. *)

From S2P Require Import Prelude GoStrings Hosts Modes.

(** data/user_modes.go [UserModes]: the byte *)
Record UserModes := { ubits : Z }.

(** data/user_modes.go [NewUserModes] *)
Definition NewUserModes : UserModes := {| ubits := 0 |}.

Section kinds.
Variable u : UserModeKinds.

(** data/user_modes.go [UserModes.SetMode] *)
Definition SetMode (m : UserModes) (mode : Z) : UserModes :=
  {| ubits := Z.lor m.(ubits) (GetModeBit u mode) |}.
(** data/user_modes.go [UserModes.HasMode] *)
Definition HasMode (m : UserModes) (mode : Z) : bool :=
  let bit := GetModeBit u mode in
  bool_decide (bit <> 0%Z) && bool_decide (bit = Z.land m.(ubits) bit).
(** data/user_modes.go [UserModes.UnsetMode]: [^b] is the byte's complement. *)
Definition UnsetMode (m : UserModes) (mode : Z) : UserModes :=
  {| ubits := Z.land m.(ubits) (Z.lxor (GetModeBit u mode) 255) |}.

(** data/user_modes.go [UserModes.String] *)
Definition UserModes_String (m : UserModes) : bytes :=
  concat (map (fun i => if HasMode m i.1 then encode_rune i.1 else []) u.(modeInfo)).
(** data/user_modes.go [UserModes.StringSymbols] *)
Definition StringSymbols (m : UserModes) : bytes :=
  concat (map (fun i => if HasMode m i.1 then encode_rune i.2 else []) u.(modeInfo)).

(** ** The bits *)

(** A byte, and a table of the size [parsePrefixString] allows. *)
Definition byte_ok (m : UserModes) : Prop := (0 <= m.(ubits) < 256)%Z.
Hypothesis H8 : length u.(modeInfo) <= BITS_IN_BYTE.

(** The number of a mode's bit. *)
Definition mode_index (mode : Z) : option nat :=
  fst <$> list_find (fun i => i.1 = mode) u.(modeInfo).

Lemma mode_index_lt mode i : mode_index mode = Some i -> i < 8.
Proof.
  unfold mode_index. rewrite fmap_Some. intros ([j p] & H & ->).
  apply list_find_Some in H as (H & _). apply lookup_lt_Some in H.
  unfold BITS_IN_BYTE in H8. cbn. lia.
Qed.

Lemma mode_index_inj a b i : mode_index a = Some i -> mode_index b = Some i -> a = b.
Proof.
  unfold mode_index. rewrite !fmap_Some. intros ([j p] & Ha & ->) ([k q] & Hb & E).
  cbn in E. subst k. apply list_find_Some in Ha as (Ha & <- & _), Hb as (Hb & <- & _).
  congruence.
Qed.

Lemma GetModeBit_index mode :
  GetModeBit u mode = match mode_index mode with Some i => (2 ^ Z.of_nat i)%Z | None => 0%Z end.
Proof.
  pose proof (mode_index_lt mode) as Hlt. unfold GetModeBit, mode_index in *.
  destruct (list_find _ _) as [[i p]|]; cbn in *; [|done].
  specialize (Hlt i eq_refl). rewrite Z.shiftl_1_l, Z.mod_small; [done|].
  split; [lia|]. change 256%Z with (2 ^ 8)%Z. apply Z.pow_lt_mono_r; lia.
Qed.

(** A mode is held exactly when it is in the table and its bit is set. *)
Lemma HasMode_bit m mode :
  HasMode m mode = match mode_index mode with
                   | Some i => Z.testbit m.(ubits) (Z.of_nat i) | None => false end.
Proof.
  unfold HasMode. rewrite GetModeBit_index. destruct (mode_index mode) as [i|]; [|done].
  rewrite land_pow2 by lia. pose proof (Z.pow_pos_nonneg 2 (Z.of_nat i)).
  rewrite bool_decide_true by lia. cbn [andb].
  destruct (Z.testbit _ _); [by rewrite bool_decide_true|by rewrite bool_decide_false by lia].
Qed.

Lemma SetMode_bit m mode i :
  Z.testbit (SetMode m mode).(ubits) (Z.of_nat i) =
  Z.testbit m.(ubits) (Z.of_nat i) || bool_decide (mode_index mode = Some i).
Proof.
  unfold SetMode. cbn [ubits]. rewrite Z.lor_spec, GetModeBit_index. f_equal.
  destruct (mode_index mode) as [j|]; [|by rewrite Z.bits_0].
  rewrite Z.pow2_bits_eqb by lia.
  destruct (Z.eqb_spec (Z.of_nat j) (Z.of_nat i)) as [E|E].
  - apply Nat2Z.inj in E as ->. by rewrite bool_decide_true.
  - rewrite bool_decide_false; [done|]. intros [= ->]. done.
Qed.

Lemma UnsetMode_bit m mode i :
  i < 8 ->
  Z.testbit (UnsetMode m mode).(ubits) (Z.of_nat i) =
  Z.testbit m.(ubits) (Z.of_nat i) && negb (bool_decide (mode_index mode = Some i)).
Proof.
  intros Hi. unfold UnsetMode. cbn [ubits]. rewrite Z.land_spec, Z.lxor_spec, GetModeBit_index.
  replace (Z.testbit 255 (Z.of_nat i)) with true.
  2:{ change 255%Z with (Z.ones 8). rewrite Z.ones_spec_low by lia. done. }
  f_equal. rewrite xorb_true_r. f_equal.
  destruct (mode_index mode) as [j|]; [|by rewrite Z.bits_0].
  rewrite Z.pow2_bits_eqb by lia.
  destruct (Z.eqb_spec (Z.of_nat j) (Z.of_nat i)) as [E|E].
  - apply Nat2Z.inj in E as ->. by rewrite bool_decide_true.
  - rewrite bool_decide_false; [done|]. intros [= ->]. done.
Qed.

(** Setting a mode makes the user hold it when the table knows it, and
    unsetting it takes it away; neither changes any other mode. *)
Theorem HasMode_set_unset m mode other :
  HasMode (SetMode m mode) other =
    (HasMode m other || (bool_decide (other = mode) && bool_decide (is_Some (mode_index mode)))) /\
  HasMode (UnsetMode m mode) other = HasMode m other && negb (bool_decide (other = mode)).
Proof.
  rewrite !HasMode_bit. destruct (mode_index other) as [i|] eqn:E.
  - pose proof (mode_index_lt _ _ E). rewrite SetMode_bit, UnsetMode_bit by done.
    assert (bool_decide (mode_index mode = Some i) = bool_decide (other = mode)) as ->.
    { apply bool_decide_ext. split; [|by intros <-]. intros Hm. by eapply mode_index_inj. }
    split; [|done]. f_equal. case_bool_decide; [|done]. subst.
    by rewrite E, bool_decide_true by done.
  - split; [|done]. case_bool_decide; [|done]. subst. by rewrite E.
Qed.

(** The byte stays a byte. *)
Lemma SetMode_byte m mode : byte_ok m -> byte_ok (SetMode m mode).
Proof.
  unfold byte_ok, SetMode. cbn. rewrite GetModeBit_index. intros Hm.
  assert (0 <= match mode_index mode with Some i => 2 ^ Z.of_nat i | None => 0 end < 2 ^ 8)%Z as Hb.
  { destruct (mode_index mode) as [i|] eqn:E; [|lia]. apply mode_index_lt in E.
    split; [lia|]. apply Z.pow_lt_mono_r; lia. }
  set (b := match _ with Some _ => _ | None => _ end) in *. clearbody b.
  split; [apply Z.lor_nonneg; lia|].
  change 256%Z with (2 ^ 8)%Z in *.
  destruct (decide (Z.lor (ubits m) b = 0%Z)) as [->|Hne]; [lia|].
  apply Z.log2_lt_pow2; [pose proof (Z.lor_nonneg (ubits m) b); lia|].
  rewrite Z.log2_lor by lia.
  destruct (decide (ubits m = 0%Z)) as [->|H1], (decide (b = 0%Z)) as [->|H2]; cbn [Z.log2 Z.max];
    try lia; apply Z.max_lub_lt; try (cbn; lia); apply Z.log2_lt_pow2; lia.
Qed.

(** The printed modes of a user are the letters of the modes held, in the
    order of the table. *)
Theorem UserModes_String_spec m :
  Forall (fun i => valid_rune i.1 = true) u.(modeInfo) ->
  runes (UserModes_String m) = map fst (filter (fun i => HasMode m i.1 = true) u.(modeInfo)).
Proof.
  unfold UserModes_String. clear H8. intros Hv.
  induction Hv as [|[a b] l Ha Hl IH]; [done|]. cbn [map concat fst].
  rewrite filter_cons. cbn [fst] in *. destruct (HasMode m a) eqn:E.
  - rewrite decide_True by done. cbn [map fst]. rewrite <- IH. by apply runes_encode.
  - rewrite decide_False by done. cbn [app]. apply IH.
Qed.
End kinds.

Lemma HasMode_set_unset_witness :
  let u := {| modeInfo := [(code "o", code "@"); (code "v", code "+")] |} in
  HasMode u (SetMode u NewUserModes (code "o")) (code "o") = true /\
  HasMode u (SetMode u NewUserModes (code "q")) (code "q") = false.
Proof.
  cbn zeta. set (u := {| modeInfo := _ |}).
  assert (length u.(modeInfo) <= BITS_IN_BYTE) as H8 by (cbn; unfold BITS_IN_BYTE; lia).
  split.
  - destruct (HasMode_set_unset u H8 NewUserModes (code "o") (code "o")) as [-> _]. reflexivity.
  - destruct (HasMode_set_unset u H8 NewUserModes (code "q") (code "q")) as [-> _]. reflexivity.
Defined.

Lemma UserModes_String_spec_witness :
  let u := {| modeInfo := [(code "o", code "@"); (code "v", code "+")] |} in
  runes (UserModes_String u (SetMode u NewUserModes (code "v"))) = [code "v"].
Proof.
  cbn zeta. set (u := {| modeInfo := _ |}).
  rewrite (UserModes_String_spec u); [reflexivity|]. decide_now.
Defined.

(** ** Users *)

(** data/user.go [User] *)
Record User := { host : bytes; realname : bytes }.

(** data/user.go [NewUser]: [None] is the nil pointer. *)
Definition NewUser (nickorhost : bytes) : option User :=
  if decide (nickorhost = []) then None else Some {| host := nickorhost; realname := [] |}.

(** data/user.go [User.Nick] *)
Definition User_Nick (u : User) : bytes := Nick u.(host).
(** data/user.go [User.Username] *)
Definition User_Username (u : User) : bytes := Username u.(host).
(** data/user.go [User.Hostname] *)
Definition User_Hostname (u : User) : bytes := Hostname u.(host).
(** data/user.go [User.Host] *)
Definition Host (u : User) : bytes := u.(host).
(** data/user.go [User.SetRealname] *)
Definition SetRealname (u : User) (name : bytes) : User := {| host := u.(host); realname := name |}.
(** data/user.go [User.Realname] *)
Definition Realname (u : User) : bytes := u.(realname).
(** data/user.go [User.String] *)
Definition User_String (u : User) : bytes :=
  let str := Nick u.(host) in
  let fh := u.(host) in
  let str := if decide (fh <> [] /\ str <> fh) then str ++ bs " " ++ fh else str in
  if decide (u.(realname) = []) then str else str ++ bs " " ++ u.(realname).
