(* ===== verification/Channel.v ===== *)
(** * Package data: channels (data/channel.go)

    A channel is a name, a topic and a mode set; its bans are the addresses of
    the mode [b]. *)

From S2P Require Import Prelude GoStrings Hosts Modes ChannelModes.

(** data/channel.go:11-11 [banMode] *)
Definition banMode : Z := code "b".

(** data/channel.go [Channel] *)
Record Channel := { cname : bytes; topic : bytes; cmodes : ChannelModes }.

(** data/channel.go [NewChannel]: [None] is the nil pointer. *)
Definition NewChannel (name : bytes) : option Channel :=
  if decide (name = []) then None
  else Some {| cname := name; topic := []; cmodes := NewChannelModes |}.

(** data/channel.go [Channel.Name] *)
Definition Channel_Name (c : Channel) : bytes := c.(cname).
(** data/channel.go [Channel.SetTopic] *)
Definition SetTopic (c : Channel) (t : bytes) : Channel :=
  {| cname := c.(cname); topic := t; cmodes := c.(cmodes) |}.
(** data/channel.go [Channel.Topic] *)
Definition Topic (c : Channel) : bytes := c.(topic).
(** data/channel.go [Channel.String] *)
Definition Channel_String (c : Channel) : bytes := c.(cname).

Definition with_modes (c : Channel) (m : ChannelModes) : Channel :=
  {| cname := c.(cname); topic := c.(topic); cmodes := m |}.

(** data/channel.go:52-54 [Channel.IsBanned]: a bare nick is completed;
    [DeleteBans] does the same with its mask. *)
Definition complete_host (h : bytes) : bytes :=
  if ContainsAny h (bs "!@") then h else h ++ bs "!@".

(** The bans, none when the mode is not set. *)
Definition bans_of (c : Channel) : list bytes := default [] (GetAddresses c.(cmodes) banMode).

(** data/channel.go [Channel.IsBanned] *)
Definition IsBanned (c : Channel) (host : bytes) : bool :=
  let host := complete_host host in
  existsb (fun ban => Mask_Match ban host) (bans_of c).

(** data/channel.go [Channel.AddBan] *)
Definition AddBan (c : Channel) (ban : bytes) : Channel :=
  with_modes c (cm_setAddress banMode ban c.(cmodes)).

(** data/channel.go [Channel.SetBans]: the deletion is of the flag [b]. *)
Definition SetBans (c : Channel) (bans : list bytes) : Channel :=
  let m := c.(cmodes) in
  let m := {| modes := delete banMode m.(modes); argModes := m.(argModes);
              addressModes := m.(addressModes); addresses := m.(addresses) |} in
  with_modes c (foldl (fun m ban => cm_setAddress banMode ban m) m bans).

(** data/channel.go [Channel.Bans]: a copy, nil when the mode is not set *)
Definition Bans (c : Channel) : option (list bytes) := GetAddresses c.(cmodes) banMode.
(** data/channel.go [Channel.HasBan] *)
Definition HasBan (c : Channel) (ban : bytes) : bool := isAddressSet c.(cmodes) banMode ban.
(** data/channel.go [Channel.DeleteBan] *)
Definition DeleteBan (c : Channel) (ban : bytes) : Channel :=
  with_modes c (cm_unsetAddress banMode ban c.(cmodes)).

(** data/channel.go [Channel.DeleteBans] *)
Definition DeleteBans (c : Channel) (mask : bytes) : Channel :=
  let bans := bans_of c in
  if decide (bans = []) then c else
  let mask := complete_host mask in
  let toRemove := List.filter (fun ban => Mask_Match ban mask) bans in
  with_modes c (foldl (fun m ban => cm_unsetAddress banMode ban m) c.(cmodes) toRemove).

(** ** Properties *)

Lemma foldl_run {B} (f : B -> mode_op) l (m : ChannelModes) :
  foldl (fun m b => run_op m (f b)) m l = foldl run_op m (map f l).
Proof. revert m. induction l as [|b l IH]; intros m; [done|]. apply IH. Qed.

Lemma addrs_bans c : addrs c.(cmodes) banMode = bans_of c.
Proof. done. Qed.

(** Deleting the bans that match a mask keeps the invariant of the mode
    set, leaves no ban that matches the mask, and keeps every other ban: the
    host it was called with is not banned afterwards. *)
Theorem DeleteBans_spec c mask :
  cm_wf c.(cmodes) ->
  cm_wf (DeleteBans c mask).(cmodes) /\
  (forall ban, ban ∈ bans_of (DeleteBans c mask) <->
     ban ∈ bans_of c /\ Mask_Match ban (complete_host mask) = false) /\
  IsBanned (DeleteBans c mask) mask = false.
Proof.
  intros Hwf.
  assert (cm_wf (DeleteBans c mask).(cmodes) /\
    forall ban, ban ∈ bans_of (DeleteBans c mask) <->
     ban ∈ bans_of c /\ Mask_Match ban (complete_host mask) = false) as [Hw Hb].
  { unfold DeleteBans. case_decide as H0.
    - split; [done|]. intros ban. rewrite H0. set_solver.
    - set (rm := List.filter _ _).
      assert (foldl (fun m ban => cm_unsetAddress banMode ban m) (cmodes c) rm
        = foldl run_op (cmodes c) (unsetAddresses (map (pair banMode) rm))) as Hf.
      { rewrite map_map. exact (foldl_run (OpUnsetAddress banMode) rm (cmodes c)). }
      cbn [cmodes with_modes]. rewrite Hf. split; [by apply run_ops_wf|]. intros ban.
      destruct (fold_unsetAddress (map (pair banMode) rm) (cmodes c) Hwf) as (H1 & _).
      rewrite <- addrs_bans. cbn [cmodes with_modes]. rewrite H1, addrs_bans.
      assert ((banMode, ban) ∈ map (pair banMode) rm <->
              ban ∈ bans_of c /\ Mask_Match ban (complete_host mask) = true) as Hin.
      { rewrite list_elem_of_In, in_map_iff. unfold rm. split.
        - intros (b & [= ->] & [Hb Hm]%filter_In). by rewrite list_elem_of_In.
        - intros [Hb Hm]. exists ban. split; [done|]. by rewrite filter_In, <- list_elem_of_In. }
      rewrite Hin. destruct (Mask_Match ban (complete_host mask)); naive_solver. }
  split; [done|]. split; [done|]. unfold IsBanned.
  apply not_true_iff_false. intros (ban & Hin & Hm)%existsb_exists.
  apply list_elem_of_In, Hb in Hin as [_ Hin]. congruence.
Qed.

Definition demo_channel : Channel :=
  {| cname := bs "#c"; topic := [];
     cmodes := foldl run_op NewChannelModes
       [OpSetAddress banMode (bs "*!*@spam"); OpSetAddress banMode (bs "bad!*@*")] |}.

Lemma DeleteBans_spec_witness :
  bans_of (DeleteBans demo_channel (bs "bad!u@h")) = [bs "*!*@spam"] /\
  IsBanned (DeleteBans demo_channel (bs "bad!u@h")) (bs "bad!u@h") = false.
Proof.
  destruct (DeleteBans_spec demo_channel (bs "bad!u@h")) as (_ & _ & H).
  - apply run_ops_wf, new_wf.
  - split; [reflexivity|exact H].
Defined.

(** Setting the bans of a channel adds to the bans it has: none of the old
    ones is removed. *)
Theorem SetBans_keeps c bans ban :
  cm_wf c.(cmodes) ->
  ban ∈ bans_of (SetBans c bans) <-> ban ∈ bans_of c \/ ban ∈ bans.
Proof.
  intros Hwf. unfold SetBans. set (m := Build_ChannelModes _ _ _ _).
  assert (cm_wf m) as Hm by exact (run_op_wf _ (OpUnsetMode banMode) Hwf).
  assert (foldl (fun m ban => cm_setAddress banMode ban m) m bans
    = foldl run_op m (setAddresses (map (pair banMode) bans))) as Hf.
  { rewrite map_map. exact (foldl_run (OpSetAddress banMode) bans m). }
  rewrite <- addrs_bans. cbn [cmodes with_modes]. rewrite Hf.
  destruct (fold_setAddress (map (pair banMode) bans) m Hm) as (H1 & _).
  assert ((banMode, ban) ∈ map (pair banMode) bans <-> ban ∈ bans) as Hin.
  { split; [|by intros ?; apply list_elem_of_fmap_2].
    by intros (b & [= ->] & Hb)%list_elem_of_fmap. }
  rewrite H1, Hin. change (addrs m banMode) with (bans_of c). done.
Qed.

Lemma SetBans_keeps_witness :
  bs "*!*@spam" ∈ bans_of (SetBans demo_channel [bs "new!*@*"]).
Proof.
  apply (SetBans_keeps demo_channel).
  - apply run_ops_wf, new_wf.
  - left. decide_now.
Defined.
