(* ===== verification/State.v ===== *)
(** * Package data: the state of a network (data/state.go)

    Who is where.  Users, channels and the modes a user has on a channel are
    shared through pointers: the client's own [User] is also in the table of
    users, a [ChannelUser] and a [UserChannel] share one [UserModes].  So they
    live in heaps, and the tables hold locations; a table entry can also be
    the nil pointer, which [NewUser] and [NewChannel] return for an empty
    name.  The mode kinds are read through pointers into the state and are
    fields of it. *)

From S2P Require Import Prelude GoStrings Hosts Fmt NetworkInfo Event Modes ChannelModes.
From S2P Require Import UserModes Channel.

Abbreviation ptr := (option nat).

(** data/channeluser_meta.go [ChannelUser] *)
Record ChannelUser := { cu_User : ptr; cu_modes : nat }.
(** data/channeluser_meta.go [UserChannel] *)
Record UserChannel := { uc_Channel : ptr; uc_modes : nat }.

(** data/channeluser_meta.go [NewChannelUser] *)
Definition NewChannelUser (u : ptr) (m : nat) : ChannelUser := {| cu_User := u; cu_modes := m |}.
(** data/channeluser_meta.go [NewUserChannel] *)
Definition NewUserChannel (c : ptr) (m : nat) : UserChannel := {| uc_Channel := c; uc_modes := m |}.

(** data/state.go:137-148 [State], and the heaps its pointers lead to.  The
    client's own modes have empty tables of kinds. *)
Record State := {
  uheap : gmap nat User;
  cheap : gmap nat Channel;
  mheap : gmap nat UserModes;
  self_user : ptr;
  self_modes : ChannelModes;
  channels : gmap bytes ptr;
  users : gmap bytes ptr;
  channelUsers : gmap bytes (gmap bytes ChannelUser);
  userChannels : gmap bytes (gmap bytes UserChannel);
  skinds : ChannelModeKinds;
  sumodes : UserModeKinds;
}.

(** Replacing parts of the record. *)
Definition set_uheap (s : State) h := {| uheap := h; cheap := s.(cheap); mheap := s.(mheap);
  self_user := s.(self_user); self_modes := s.(self_modes); channels := s.(channels);
  users := s.(users); channelUsers := s.(channelUsers); userChannels := s.(userChannels);
  skinds := s.(skinds); sumodes := s.(sumodes) |}.
Definition set_cheap (s : State) h := {| uheap := s.(uheap); cheap := h; mheap := s.(mheap);
  self_user := s.(self_user); self_modes := s.(self_modes); channels := s.(channels);
  users := s.(users); channelUsers := s.(channelUsers); userChannels := s.(userChannels);
  skinds := s.(skinds); sumodes := s.(sumodes) |}.
Definition set_mheap (s : State) h := {| uheap := s.(uheap); cheap := s.(cheap); mheap := h;
  self_user := s.(self_user); self_modes := s.(self_modes); channels := s.(channels);
  users := s.(users); channelUsers := s.(channelUsers); userChannels := s.(userChannels);
  skinds := s.(skinds); sumodes := s.(sumodes) |}.
Definition set_self (s : State) u m := {| uheap := s.(uheap); cheap := s.(cheap);
  mheap := s.(mheap); self_user := u; self_modes := m; channels := s.(channels);
  users := s.(users); channelUsers := s.(channelUsers); userChannels := s.(userChannels);
  skinds := s.(skinds); sumodes := s.(sumodes) |}.
Definition set_users (s : State) us := {| uheap := s.(uheap); cheap := s.(cheap);
  mheap := s.(mheap); self_user := s.(self_user); self_modes := s.(self_modes);
  channels := s.(channels); users := us; channelUsers := s.(channelUsers);
  userChannels := s.(userChannels); skinds := s.(skinds); sumodes := s.(sumodes) |}.
Definition set_channels (s : State) cs := {| uheap := s.(uheap); cheap := s.(cheap);
  mheap := s.(mheap); self_user := s.(self_user); self_modes := s.(self_modes);
  channels := cs; users := s.(users); channelUsers := s.(channelUsers);
  userChannels := s.(userChannels); skinds := s.(skinds); sumodes := s.(sumodes) |}.
Definition set_members (s : State) cus ucs := {| uheap := s.(uheap); cheap := s.(cheap);
  mheap := s.(mheap); self_user := s.(self_user); self_modes := s.(self_modes);
  channels := s.(channels); users := s.(users); channelUsers := cus; userChannels := ucs;
  skinds := s.(skinds); sumodes := s.(sumodes) |}.
Definition set_tables (s : State) k u := {| uheap := s.(uheap); cheap := s.(cheap);
  mheap := s.(mheap); self_user := s.(self_user); self_modes := s.(self_modes);
  channels := s.(channels); users := s.(users); channelUsers := s.(channelUsers);
  userChannels := s.(userChannels); skinds := k; sumodes := u |}.

(** data/state.go:124-124 [errProtoCapsMissing] *)
Definition errProtoCapsMissing : bytes := bs "data: Protocaps missing".

(** data/state.go [State.SetNetworkInfo]: the error, if any, and the state *)
Definition SetNetworkInfo (s : State) (ni : option NetworkInfo) : go (option bytes * State) :=
  match ni with
  | None => Ret (Some errProtoCapsMissing, s)
  | Some ni =>
    match NewChannelModeKindsCSV (Chanmodes ni) with
    | inl e => Ret (Some e, s)
    | inr k =>
      r ← NewUserModeKinds (Prefix ni);
      Ret match r with inl e => (Some e, s) | inr u => (None, set_tables s k u) end
    end
  end.

Definition empty_state : State := {|
  uheap := ∅; cheap := ∅; mheap := ∅; self_user := None; self_modes := NewChannelModes;
  channels := ∅; users := ∅; channelUsers := ∅; userChannels := ∅;
  skinds := {| ckinds := ∅ |}; sumodes := {| modeInfo := [] |} |}.

(** data/state.go [NewState] *)
Definition NewState (netInfo : option NetworkInfo) : go (bytes + State) :=
  '(err, s) ← SetNetworkInfo empty_state netInfo;
  Ret match err with Some e => inl e | None => inr s end.

Section CaseMapping.
Context {CT : CaseTables}.

(** The key of a user: [strings.ToLower(irc.Nick(nickorhost))] *)
Definition nick_key (nickorhost : bytes) : bytes := ToLower (Nick nickorhost).

(** ** Reading *)

(** data/state.go [State.GetUser]: a nil entry and no entry are both nil. *)
Definition GetUser (s : State) (nickorhost : bytes) : ptr :=
  default None (s.(users) !! nick_key nickorhost).
(** data/state.go [State.GetChannel] *)
Definition GetChannel (s : State) (channel : bytes) : ptr :=
  default None (s.(channels) !! ToLower channel).

(** [s.channelUsers[channel][nick]] *)
Definition channel_user (s : State) (channel nick : bytes) : option ChannelUser :=
  cus ← s.(channelUsers) !! channel; cus !! nick.
Definition user_channel (s : State) (nick channel : bytes) : option UserChannel :=
  ucs ← s.(userChannels) !! nick; ucs !! channel.

(** data/state.go [State.GetUsersChannelModes] *)
Definition GetUsersChannelModes (s : State) (nickorhost channel : bytes) : ptr :=
  cu_modes <$> channel_user s (ToLower channel) (nick_key nickorhost).

(** data/state.go [State.GetNUsers] *)
Definition GetNUsers (s : State) : nat := size s.(users).
(** data/state.go [State.GetNChannels] *)
Definition GetNChannels (s : State) : nat := size s.(channels).
(** data/state.go [State.GetNUserChans] *)
Definition GetNUserChans (s : State) (nickorhost : bytes) : nat :=
  match s.(userChannels) !! nick_key nickorhost with Some ucs => size ucs | None => 0 end.
(** data/state.go [State.GetNChanUsers] *)
Definition GetNChanUsers (s : State) (channel : bytes) : nat :=
  match s.(channelUsers) !! ToLower channel with Some cus => size cus | None => 0 end.

(** data/state.go [State.IsOn] *)
Definition IsOn (s : State) (nickorhost channel : bytes) : bool :=
  match s.(userChannels) !! nick_key nickorhost with
  | Some chans => bool_decide (is_Some (chans !! ToLower channel))
  | None => false
  end.

Definition user_at (s : State) (p : ptr) : go User := l ← deref p; deref (s.(uheap) !! l).
Definition channel_at (s : State) (p : ptr) : go Channel := l ← deref p; deref (s.(cheap) !! l).

Section orders.
Context {RO : RangeOrder bytes}.

(** What the callback of an iteration is given, in order. *)

(** data/state.go [State.EachUser] *)
Definition EachUser (s : State) : list ptr := map snd (range s.(users)).
(** data/state.go [State.EachChannel] *)
Definition EachChannel (s : State) : list ptr := map snd (range s.(channels)).
(** data/state.go [State.EachUserChan] *)
Definition EachUserChan (s : State) (nickorhost : bytes) : list UserChannel :=
  match s.(userChannels) !! nick_key nickorhost with
  | Some ucs => map snd (range ucs) | None => [] end.
(** data/state.go [State.EachChanUser] *)
Definition EachChanUser (s : State) (channel : bytes) : list ChannelUser :=
  match s.(channelUsers) !! ToLower channel with
  | Some cus => map snd (range cus) | None => [] end.

(** A loop that follows a pointer for every element. *)
Definition collect {A} (f : A -> go bytes) (l : list A) : go (list bytes) :=
  go_fold (fun ret a => x ← f a; Ret (ret ++ [x])) [] l.

(** data/state.go [State.GetUsers] *)
Definition GetUsers (s : State) : go (list bytes) :=
  collect (fun p => u ← user_at s p; Ret (Host u)) (EachUser s).
(** data/state.go [State.GetChannels] *)
Definition GetChannels (s : State) : go (list bytes) :=
  collect (fun p => c ← channel_at s p; Ret (Channel_Name c)) (EachChannel s).
(** data/state.go [State.GetUserChans]: [None] is the nil slice. *)
Definition GetUserChans (s : State) (nickorhost : bytes) : go (option (list bytes)) :=
  match s.(userChannels) !! nick_key nickorhost with
  | None => Ret None
  | Some ucs =>
    Some <$> collect (fun uc => c ← channel_at s uc.(uc_Channel); Ret (Channel_Name c))
               (map snd (range ucs))
  end.
(** data/state.go [State.GetChanUsers] *)
Definition GetChanUsers (s : State) (channel : bytes) : go (option (list bytes)) :=
  match s.(channelUsers) !! ToLower channel with
  | None => Ret None
  | Some cus =>
    Some <$> collect (fun cu => u ← user_at s cu.(cu_User); Ret (Host u))
               (map snd (range cus))
  end.
End orders.

(** ** The elementary updates *)

(** data/state.go [State.addUser]: the pointer it returns and the state *)
Definition addUser (s : State) (nickorhost : bytes) : go (ptr * State) :=
  let excl := bool_decide ("!"%char ∈ nickorhost) in
  let at_ := bool_decide ("@"%char ∈ nickorhost) in
  let per := bool_decide ("."%char ∈ nickorhost) in
  if per && negb (excl && at_) then Ret (None, s) else
  let nick := nick_key nickorhost in
  match s.(users) !! nick with
  | Some user =>
    if excl && at_ then
      l ← deref user; u ← deref (s.(uheap) !! l);
      Ret (user, if decide (Host u = nickorhost) then s
                 else set_uheap s (<[l := {| host := nickorhost; realname := u.(realname) |}]> s.(uheap)))
    else Ret (user, s)
  | None =>
    match NewUser nickorhost with
    | None => Ret (None, set_users s (<[nick := None]> s.(users)))
    | Some u =>
      let l := fresh (dom s.(uheap)) in
      let s := set_uheap s (<[l := u]> s.(uheap)) in
      Ret (Some l, set_users s (<[nick := Some l]> s.(users)))
    end
  end.

(** data/state.go [State.removeUser] *)
Definition removeUser (s : State) (nickorhost : bytes) : State :=
  let nick := nick_key nickorhost in
  let s := set_members s (delete nick <$> s.(channelUsers)) (delete nick s.(userChannels)) in
  set_users s (delete nick s.(users)).

(** data/state.go [State.addChannel] *)
Definition addChannel (s : State) (channel : bytes) : ptr * State :=
  let chankey := ToLower channel in
  match s.(channels) !! chankey with
  | Some ch => (ch, s)
  | None =>
    match NewChannel channel with
    | None => (None, set_channels s (<[chankey := None]> s.(channels)))
    | Some c =>
      let l := fresh (dom s.(cheap)) in
      let s := set_cheap s (<[l := c]> s.(cheap)) in
      (Some l, set_channels s (<[chankey := Some l]> s.(channels)))
    end
  end.

(** data/state.go [State.removeChannel] *)
Definition removeChannel (s : State) (channel : bytes) : State :=
  let channel := ToLower channel in
  let s := set_members s (delete channel s.(channelUsers)) (delete channel <$> s.(userChannels)) in
  set_channels s (delete channel s.(channels)).

(** data/state.go [State.addToChannel] *)
Definition addToChannel (s : State) (nickorhost channel : bytes) : State :=
  let nick := nick_key nickorhost in
  let channel := ToLower channel in
  match s.(users) !! nick, s.(channels) !! channel with
  | Some user, Some ch =>
    let cu := default ∅ (s.(channelUsers) !! channel) in
    let uc := default ∅ (s.(userChannels) !! nick) in
    if bool_decide (is_Some (cu !! nick)) || bool_decide (is_Some (uc !! channel)) then s else
    let modes := fresh (dom s.(mheap)) in
    let s := set_mheap s (<[modes := NewUserModes]> s.(mheap)) in
    set_members s
      (<[channel := <[nick := NewChannelUser user modes]> cu]> s.(channelUsers))
      (<[nick := <[channel := NewUserChannel ch modes]> uc]> s.(userChannels))
  | _, _ => s
  end.

(** data/state.go [State.removeFromChannel] *)
Definition removeFromChannel (s : State) (nickorhost channel : bytes) : State :=
  let nick := nick_key nickorhost in
  let channel := ToLower channel in
  set_members s
    (match s.(channelUsers) !! channel with
     | Some cu => <[channel := delete nick cu]> s.(channelUsers)
     | None => s.(channelUsers) end)
    (match s.(userChannels) !! nick with
     | Some uc => <[nick := delete channel uc]> s.(userChannels)
     | None => s.(userChannels) end).

(** [p.SetMode(mode)] and [p.UnsetMode(mode)] through a pointer to modes *)
Definition set_user_mode (s : State) (p : ptr) (mode : Z) (on : bool) : go State :=
  l ← deref p; m ← deref (s.(mheap) !! l);
  Ret (set_mheap s (<[l := if on then SetMode s.(sumodes) m mode
                           else UnsetMode s.(sumodes) m mode]> s.(mheap))).

(** The tables the channels of this state refer to. *)
Definition state_kinds (s : State) : kinds :=
  {| chan_kinds := s.(skinds); user_kinds := Some s.(sumodes) |}.

(** A change of a channel through a pointer to it *)
Definition update_channel (s : State) (p : ptr) (f : Channel -> Channel) : go State :=
  l ← deref p; c ← deref (s.(cheap) !! l);
  Ret (set_cheap s (<[l := f c]> s.(cheap))).

(** ** The handlers *)

(** [s.Self.Host()] and [s.Self.Nick()] *)
Definition Self_Host (s : State) : go bytes := u ← user_at s s.(self_user); Ret (Host u).
Definition Self_Nick (s : State) : go bytes := u ← user_at s s.(self_user); Ret (User_Nick u).

(** What a nick change does to the members of one channel. *)
Definition rename_member {A} (nick newnick : bytes) (cus : gmap bytes A) : gmap bytes A :=
  match cus !! nick with
  | Some cu => delete nick (<[newnick := cu]> cus)
  | None => cus
  end.

(** data/state.go [State.nick] *)
Definition nick (s : State) (ev : Event) : go State :=
  let '(nick, username, hostname) := SplitHost ev in
  newnick ← index ev.(Args) 0;
  let newuser := newnick ++ bs "!" ++ username ++ bs "@" ++ hostname in
  let nick := ToLower nick in
  let newnick := ToLower newnick in
  match s.(users) !! nick with
  | None => Ret s
  | Some user =>
    l ← deref user; u ← deref (s.(uheap) !! l);
    let s := set_uheap s (<[l := {| host := newuser; realname := u.(realname) |}]> s.(uheap)) in
    let s := set_members s (rename_member nick newnick <$> s.(channelUsers))
                           (rename_member nick newnick s.(userChannels)) in
    Ret (set_users s (delete nick (<[newnick := user]> s.(users))))
  end.

(** data/state.go [State.join] *)
Definition join (s : State) (ev : Event) : go State :=
  self ← Self_Host s;
  s ← (if decide (ev.(Sender) = self)
       then a ← index ev.(Args) 0; Ret (addChannel s a).2
       else Ret s);
  a ← index ev.(Args) 0;
  Ret (addToChannel s ev.(Sender) a).

(** data/state.go [State.part] *)
Definition part (s : State) (ev : Event) : go State :=
  self ← Self_Host s;
  a ← index ev.(Args) 0;
  Ret (if decide (ev.(Sender) = self) then removeChannel s a
       else removeFromChannel s ev.(Sender) a).

(** data/state.go [State.quit] *)
Definition quit (s : State) (ev : Event) : go State :=
  self ← Self_Host s;
  Ret (if decide (ev.(Sender) = self) then s else removeUser s ev.(Sender)).

(** data/state.go [State.kick] *)
Definition kick (s : State) (ev : Event) : go State :=
  who ← index ev.(Args) 1;
  self ← Self_Nick s;
  a ← index ev.(Args) 0;
  Ret (if decide (who = self) then removeChannel s a else removeFromChannel s who a).

(** data/state.go:561-568 [State.mode]: the user modes of the string; a nick
    that is not on the channel gives a nil pointer. *)
Definition apply_user_modes (target : bytes) (on : bool) (s : State) (ums : list UserMode)
    : go State :=
  go_fold (fun s um =>
    set_user_mode s (cu_modes <$> channel_user s target (ToLower um.(um_Arg))) um.(um_Mode) on) s ums.

(** data/state.go [State.mode] *)
Definition mode (s : State) (ev : Event) : go State :=
  a ← index ev.(Args) 0;
  let target := ToLower a in
  ischan ← IsTargetChan ev;
  if (ischan : bool) then
    match s.(channels) !! target with
    | None => Ret s
    | Some ch =>
      rest ← slice_from ev.(Args) 1;
      l ← deref ch; c ← deref (s.(cheap) !! l);
      let '(m, pos, neg) := Apply (state_kinds s) c.(cmodes) (Join rest (bs " ")) in
      let s := set_cheap s (<[l := with_modes c m]> s.(cheap)) in
      s ← apply_user_modes target true s pos;
      apply_user_modes target false s neg
    end
  else
    self ← Self_Nick s;
    if decide (target = self) then
      b ← index ev.(Args) 1;
      Ret (set_self s s.(self_user)
        (Apply {| chan_kinds := {| ckinds := ∅ |}; user_kinds := None |} s.(self_modes) b).1.1)
    else Ret s.

(** data/state.go [State.topic] *)
Definition topic_ (s : State) (ev : Event) : go State :=
  a ← index ev.(Args) 0;
  match s.(channels) !! ToLower a with
  | None => Ret s
  | Some ch => update_channel s ch (fun c => SetTopic c (default [] (ev.(Args) !! 1)))
  end.

(** data/state.go [State.rplTopic] *)
Definition rplTopic (s : State) (ev : Event) : go State :=
  a ← index ev.(Args) 1;
  match s.(channels) !! ToLower a with
  | None => Ret s
  | Some ch => t ← index ev.(Args) 2; update_channel s ch (fun c => SetTopic c t)
  end.

(** data/state.go [State.msg] *)
Definition msg (s : State) (ev : Event) : go State :=
  ischan ← IsTargetChan ev;
  if (ischan : bool) then a ← index ev.(Args) 0; Ret (addToChannel s ev.(Sender) a) else Ret s.

(** data/state.go [State.rplWelcome] *)
Definition rplWelcome (s : State) (ev : Event) : go State :=
  a1 ← index ev.(Args) 1;
  h ← deref (last (Fields a1));
  h ← (if ContainsRune h (code "!") && ContainsRune h (code "@") then Ret h
       else index ev.(Args) 0);
  u ← deref (NewUser h);
  let l := fresh (dom s.(uheap)) in
  let s := set_uheap s (<[l := u]> s.(uheap)) in
  let s := set_self s (Some l) s.(self_modes) in
  Ret (set_users s (<[ToLower (User_Nick u) := Some l]> s.(users))).

(** data/state.go:623-640 [State.rplNameReply]: one name of the list *)
Definition name_reply (channel : bytes) (s : State) (user : bytes) : go State :=
  c ← index user 0;
  match list_find (fun i => i.2 = code c) s.(sumodes).(modeInfo) with
  | Some (_, i) =>
    let nick := drop 1 user in
    '(_, s) ← addUser s nick;
    let s := addToChannel s nick channel in
    set_user_mode s (GetUsersChannelModes s nick channel) i.1 true
  | None =>
    '(_, s) ← addUser s user;
    Ret (addToChannel s user channel)
  end.

(** data/state.go [State.rplNameReply].  A field is never empty, so the index
    matters only for a state without symbols. *)
Definition rplNameReply (s : State) (ev : Event) : go State :=
  channel ← index ev.(Args) 2;
  names ← index ev.(Args) 3;
  go_fold (name_reply channel) s (Fields names).

(** data/state.go:655-661 [State.rplWhoReply]: one character of the modes *)
Definition who_mode (fullhost channel : bytes) (s : State) (modechar : Z) : go State :=
  let mode := GetMode s.(sumodes) modechar in
  if decide (mode = 0%Z) then Ret s else
  match GetUsersChannelModes s fullhost channel with
  | None => Ret s
  | Some l => set_user_mode s (Some l) mode true
  end.

(** data/state.go [State.rplWhoReply] *)
Definition rplWhoReply (s : State) (ev : Event) : go State :=
  channel ← index ev.(Args) 1;
  a5 ← index ev.(Args) 5; a2 ← index ev.(Args) 2; a3 ← index ev.(Args) 3;
  let fullhost := a5 ++ bs "!" ++ a2 ++ bs "@" ++ a3 in
  modes ← index ev.(Args) 6;
  a7 ← index ev.(Args) 7;
  rname ← deref (SplitN2 a7 " ").2;
  '(_, s) ← addUser s fullhost;
  let s := addToChannel s fullhost channel in
  l ← deref (GetUser s fullhost); u ← deref (s.(uheap) !! l);
  let s := set_uheap s (<[l := SetRealname u rname]> s.(uheap)) in
  go_fold (who_mode fullhost channel) s (runes modes).

(** data/state.go [State.rplChannelModeIs] *)
Definition rplChannelModeIs (s : State) (ev : Event) : go State :=
  channel ← index ev.(Args) 1;
  rest ← slice_from ev.(Args) 2;
  match GetChannel s channel with
  | None => Ret s
  | Some l =>
    update_channel s (Some l) (fun c =>
      with_modes c (Apply (state_kinds s) c.(cmodes) (Join rest (bs " "))).1.1)
  end.

(** data/state.go [State.rplBanList] *)
Definition rplBanList (s : State) (ev : Event) : go State :=
  channel ← index ev.(Args) 1;
  match GetChannel s channel with
  | None => Ret s
  | Some l => ban ← index ev.(Args) 2; update_channel s (Some l) (fun c => AddBan c ban)
  end.

(** data/state.go:462-493 [State.Update]: the switch on the event's name *)
Definition handle (s : State) (ev : Event) : go State :=
  let named n := bool_decide (ev.(Name) = n) in
  if named NICK then nick s ev else
  if named JOIN then join s ev else
  if named PART then part s ev else
  if named QUIT then quit s ev else
  if named KICK then kick s ev else
  if named MODE then mode s ev else
  if named TOPIC then topic_ s ev else
  if named RPL_TOPIC then rplTopic s ev else
  if named PRIVMSG || named NOTICE then msg s ev else
  if named RPL_WELCOME then rplWelcome s ev else
  if named RPL_NAMREPLY then rplNameReply s ev else
  if named RPL_WHOREPLY then rplWhoReply s ev else
  if named RPL_CHANNELMODEIS then rplChannelModeIs s ev else
  if named RPL_BANLIST then rplBanList s ev else Ret s.

(** data/state.go [State.Update] *)
Definition Update (s : State) (ev : Event) : go State :=
  s ← (if decide (ev.(Sender) = []) then Ret s else '(_, s) ← addUser s ev.(Sender); Ret s);
  handle s ev.
End CaseMapping.
