(* ===== verification/StateInv.v ===== *)
(** * The state of a network: invariant and abstract specification

    [state_wf] ties the tables of data/state.go together: every key is the
    folded name of what it leads to, the two tables of memberships mirror each
    other and share their modes.  [world] is what the state is about, who is
    known and who is where, and [world_step] what an event does to it; the
    handlers of State.v refine it. *)

From S2P Require Import Prelude GoStrings Hosts Fmt NetworkInfo Event Modes ChannelModes.
From S2P Require Import UserModes Channel State.

(** A location that was just allocated. *)
Lemma fresh_None {A} (h : gmap nat A) : h !! fresh (dom h) = None.
Proof. apply not_elem_of_dom, is_fresh. Qed.

(** ** Two-level tables *)

Section lookup2.
Context {A : Type}.
Implicit Types (m : gmap bytes (gmap bytes A)).

Definition lookup2 m (i j : bytes) : option A := r ← m !! i; r !! j.

Lemma lookup2_insert m i r i' j :
  lookup2 (<[i := r]> m) i' j = if decide (i' = i) then r !! j else lookup2 m i' j.
Proof.
  unfold lookup2. case_decide as H; [subst; by rewrite lookup_insert_eq|].
  by rewrite lookup_insert_ne.
Qed.

Lemma lookup2_delete m i i' j :
  lookup2 (delete i m) i' j = if decide (i' = i) then None else lookup2 m i' j.
Proof.
  unfold lookup2. case_decide as H; [subst; by rewrite lookup_delete_eq|].
  by rewrite lookup_delete_ne.
Qed.

Lemma lookup2_delete_inner m j i j' :
  lookup2 (delete j <$> m) i j' = if decide (j' = j) then None else lookup2 m i j'.
Proof.
  unfold lookup2. rewrite lookup_fmap. destruct (m !! i) as [r|]; cbn; [|by case_decide].
  case_decide as H; [subst; by rewrite lookup_delete_eq|]. by rewrite lookup_delete_ne.
Qed.

Lemma lookup2_default m i j : (default ∅ (m !! i) : gmap bytes A) !! j = lookup2 m i j.
Proof. unfold lookup2. by destruct (m !! i); cbn; rewrite ?lookup_empty. Qed.

Lemma lookup2_remove m i j i' j' :
  lookup2 (match m !! i with Some r => <[i := delete j r]> m | None => m end) i' j' =
  if decide (i' = i /\ j' = j) then None else lookup2 m i' j'.
Proof.
  destruct (m !! i) as [r|] eqn:E.
  - rewrite lookup2_insert. destruct (decide (i' = i)) as [->|Hi].
    + destruct (decide (j' = j)) as [->|Hj].
      * by rewrite lookup_delete_eq, decide_True.
      * rewrite lookup_delete_ne, decide_False by naive_solver. unfold lookup2. by rewrite E.
    + by rewrite decide_False by naive_solver.
  - case_decide as H; [|done]. destruct H as [-> ->]. unfold lookup2. by rewrite E.
Qed.
End lookup2.

Lemma rename_member_lookup {A} (a b : bytes) (r : gmap bytes A) (k : bytes) :
  a <> b ->
  rename_member a b r !! k =
  if decide (k = a) then None
  else if decide (k = b) then match r !! a with Some x => Some x | None => r !! b end
  else r !! k.
Proof.
  intros Hab. unfold rename_member. destruct (r !! a) as [x|] eqn:E.
  - destruct (decide (k = a)) as [->|Ha]; [by rewrite lookup_delete_eq|].
    rewrite lookup_delete_ne by done.
    destruct (decide (k = b)) as [->|Hb]; [by rewrite lookup_insert_eq|by rewrite lookup_insert_ne].
  - destruct (decide (k = a)) as [->|Ha]; [done|]. by case_decide; subst.
Qed.

(** Renaming to the same key deletes. *)
Lemma rename_member_same {A} (a : bytes) (r : gmap bytes A) : rename_member a a r = delete a r.
Proof.
  unfold rename_member. destruct (r !! a) eqn:E; [by rewrite delete_insert_eq|].
  by rewrite delete_id.
Qed.

(** ** The invariant *)

Section CaseMapping.
Context {CT : CaseTables}.

Record state_wf (s : State) : Prop := {
  wf_users : forall k p, s.(users) !! k = Some p ->
    match p with
    | Some l => exists u, s.(uheap) !! l = Some u /\ nick_key u.(host) = k
    | None => k = []
    end;
  wf_channels : forall k p, s.(channels) !! k = Some p ->
    match p with
    | Some l => exists c, s.(cheap) !! l = Some c /\ ToLower c.(cname) = k
    | None => k = []
    end;
  wf_chan_user : forall c n cu, channel_user s c n = Some cu ->
    s.(users) !! n = Some cu.(cu_User) /\ is_Some (s.(mheap) !! cu.(cu_modes)) /\
    exists q, s.(channels) !! c = Some q /\
      user_channel s n c = Some {| uc_Channel := q; uc_modes := cu.(cu_modes) |};
  wf_user_chan : forall n c uc, user_channel s n c = Some uc -> is_Some (channel_user s c n);
  wf_modes_inj : forall c n cu c' n' cu',
    channel_user s c n = Some cu -> channel_user s c' n' = Some cu' ->
    cu.(cu_modes) = cu'.(cu_modes) -> c = c' /\ n = n';
  wf_self : forall l, s.(self_user) = Some l -> is_Some (s.(uheap) !! l);
  wf_cmodes : forall l c, s.(cheap) !! l = Some c -> cm_wf c.(cmodes);
}.

(** A membership, and that the other table agrees. *)
Definition on (s : State) (n c : bytes) : Prop := is_Some (channel_user s c n).

Lemma on_user_channel s n c : state_wf s -> on s n c <-> is_Some (user_channel s n c).
Proof.
  intros Hwf. split.
  - intros [cu H]. destruct (wf_chan_user _ Hwf _ _ _ H) as (_ & _ & q & _ & ->). eauto.
  - intros [uc H]. by apply (wf_user_chan _ Hwf _ _ _ H).
Qed.

(** Asking whether a user is on a channel, and asking for the modes the
    user has there, agree: both are about the same membership, seen from the
    two tables. *)
Theorem IsOn_modes s nickorhost channel :
  state_wf s ->
  IsOn s nickorhost channel = true <-> is_Some (GetUsersChannelModes s nickorhost channel).
Proof.
  intros Hwf. unfold IsOn, GetUsersChannelModes.
  rewrite fmap_is_Some. fold (on s (nick_key nickorhost) (ToLower channel)).
  rewrite on_user_channel by done. unfold user_channel.
  destruct (userChannels s !! nick_key nickorhost) as [r|]; cbn.
  - by rewrite bool_decide_eq_true.
  - split; [done|]. by intros [].
Qed.

Lemma empty_state_wf k u : state_wf (set_tables empty_state k u).
Proof.
  split; cbn; unfold channel_user, user_channel; cbn; setoid_rewrite lookup_empty; done.
Qed.

(** *** Changes that leave the tables alone *)

(** The user table and the two tables of memberships are the same. *)
Definition same_tables (s s' : State) : Prop :=
  s'.(users) = s.(users) /\ s'.(channels) = s.(channels) /\
  s'.(channelUsers) = s.(channelUsers) /\ s'.(userChannels) = s.(userChannels) /\
  s'.(self_user) = s.(self_user) /\ s'.(skinds) = s.(skinds) /\ s'.(sumodes) = s.(sumodes).

Lemma same_tables_refl s : same_tables s s.
Proof. by repeat split. Qed.
Lemma same_tables_trans s1 s2 s3 : same_tables s1 s2 -> same_tables s2 s3 -> same_tables s1 s3.
Proof. unfold same_tables. intros (?&?&?&?&?&?&?) (?&?&?&?&?&?&?). repeat split; congruence. Qed.

Lemma wf_set_uheap s l u u' :
  state_wf s -> s.(uheap) !! l = Some u -> nick_key u'.(host) = nick_key u.(host) ->
  state_wf (set_uheap s (<[l := u']> s.(uheap))).
Proof.
  intros [] Hl Hk. split; cbn; eauto.
  - intros k p Hp. specialize (wf_users0 _ _ Hp). destruct p as [l'|]; [|done].
    destruct wf_users0 as (u0 & H0 & H1). destruct (decide (l' = l)) as [->|Hne].
    + exists u'. rewrite lookup_insert_eq. split; [done|]. rewrite Hl in H0. injection H0 as <-. congruence.
    + exists u0. by rewrite lookup_insert_ne.
  - intros l' Hs. destruct (decide (l' = l)) as [->|Hne].
    + rewrite lookup_insert_eq. eauto.
    + rewrite lookup_insert_ne by done. eauto.
Qed.

Lemma wf_set_cheap s l c c' :
  state_wf s -> s.(cheap) !! l = Some c -> c'.(cname) = c.(cname) -> cm_wf c'.(cmodes) ->
  state_wf (set_cheap s (<[l := c']> s.(cheap))).
Proof.
  intros [] Hl Hk Hm. split; cbn; eauto.
  - intros k p Hp. specialize (wf_channels0 _ _ Hp). destruct p as [l'|]; [|done].
    destruct wf_channels0 as (c0 & H0 & H1). destruct (decide (l' = l)) as [->|Hne].
    + exists c'. rewrite lookup_insert_eq. split; [done|]. rewrite Hl in H0. injection H0 as <-. congruence.
    + exists c0. by rewrite lookup_insert_ne.
  - intros l' c0 [[-> <-]|[Hne Hc]]%lookup_insert_Some; eauto.
Qed.

Lemma wf_set_mheap s l m :
  state_wf s -> state_wf (set_mheap s (<[l := m]> s.(mheap))).
Proof.
  intros []. split; cbn; eauto.
  intros c n cu H. destruct (wf_chan_user0 _ _ _ H) as (H1 & H2 & H3). split; [done|].
  split; [|done]. destruct (decide (cu_modes cu = l)) as [->|Hne].
  - rewrite lookup_insert_eq. eauto.
  - by rewrite lookup_insert_ne.
Qed.

Lemma set_user_mode_ok s p mode on_ s' :
  state_wf s -> set_user_mode s p mode on_ = Ret s' -> state_wf s' /\ same_tables s s'.
Proof.
  intros Hwf. unfold set_user_mode. intros H. go_inv. subst.
  split; [by apply wf_set_mheap|by repeat split].
Qed.

Lemma update_channel_ok s p f s' :
  state_wf s -> (forall c, cm_wf c.(cmodes) -> (f c).(cname) = c.(cname) /\ cm_wf (f c).(cmodes)) ->
  update_channel s p f = Ret s' -> state_wf s' /\ same_tables s s'.
Proof.
  intros Hwf Hf. unfold update_channel. intros H. go_inv. subst.
  match goal with Hc : cheap s !! ?l = Some ?c |- _ =>
    destruct (Hf c (wf_cmodes _ Hwf _ _ Hc)) as [H1 H2] end.
  split; [|by repeat split]. by eapply wf_set_cheap.
Qed.

(** ** The abstract specification *)

(** Who is known, which channels are known, and who is on which. *)
Record world := { w_users : gset bytes; w_chans : gset bytes; w_on : gset (bytes * bytes) }.

Definition represents (s : State) (w : world) : Prop :=
  dom s.(users) = w.(w_users) /\ dom s.(channels) = w.(w_chans) /\
  forall n c, (n, c) ∈ w.(w_on) <-> on s n c.

Definition w_add_user (k : bytes) (w : world) : world :=
  {| w_users := {[k]} ∪ w.(w_users); w_chans := w.(w_chans); w_on := w.(w_on) |}.
Definition w_remove_user (k : bytes) (w : world) : world :=
  {| w_users := w.(w_users) ∖ {[k]}; w_chans := w.(w_chans);
     w_on := filter (fun p => p.1 <> k) w.(w_on) |}.
Definition w_add_chan (c : bytes) (w : world) : world :=
  {| w_users := w.(w_users); w_chans := {[c]} ∪ w.(w_chans); w_on := w.(w_on) |}.
Definition w_remove_chan (c : bytes) (w : world) : world :=
  {| w_users := w.(w_users); w_chans := w.(w_chans) ∖ {[c]};
     w_on := filter (fun p => p.2 <> c) w.(w_on) |}.
Definition w_enter (n c : bytes) (w : world) : world :=
  if decide (n ∈ w.(w_users) /\ c ∈ w.(w_chans)) then
    {| w_users := w.(w_users); w_chans := w.(w_chans); w_on := {[(n, c)]} ∪ w.(w_on) |}
  else w.
Definition w_leave (n c : bytes) (w : world) : world :=
  {| w_users := w.(w_users); w_chans := w.(w_chans); w_on := w.(w_on) ∖ {[(n, c)]} |}.
(** A user takes another name; a user who takes the name the table already
    has is dropped. *)
Definition w_rename (a b : bytes) (w : world) : world :=
  if decide (a ∈ w.(w_users)) then
    if decide (a = b) then w_remove_user a w
    else {| w_users := {[b]} ∪ (w.(w_users) ∖ {[a]}); w_chans := w.(w_chans);
            w_on := set_map (fun p => (if decide (p.1 = a) then b else p.1, p.2)) w.(w_on) |}
  else w.

(** A concrete change that keeps the invariant and does what the abstract one
    says; it leaves the client itself and the tables of kinds alone. *)
Record refines (s s' : State) (f : world -> world) : Prop := {
  rf_wf : state_wf s';
  rf_world : forall w, represents s w -> represents s' (f w);
  rf_self : s'.(self_user) = s.(self_user);
  rf_kinds : s'.(sumodes) = s.(sumodes);
}.

Lemma refines_same s s' : state_wf s' -> same_tables s s' -> refines s s' id.
Proof.
  intros Hwf (H1 & H2 & H3 & H4 & H5 & H6 & H7). split; [done| |done|done].
  intros w (W1 & W2 & W3). unfold represents. rewrite H1, H2. split; [done|]. split; [done|].
  intros n c. rewrite W3. unfold on, channel_user. by rewrite H3.
Qed.

Lemma refines_id s : state_wf s -> refines s s id.
Proof. intros Hwf. apply refines_same; [done|apply same_tables_refl]. Qed.

Lemma refines_trans s1 s2 s3 f g :
  refines s1 s2 f -> refines s2 s3 g -> refines s1 s3 (fun w => g (f w)).
Proof.
  intros [] []. split; [done|auto|congruence|congruence].
Qed.

Lemma channel_user_lookup2 s c n : channel_user s c n = lookup2 s.(channelUsers) c n.
Proof. done. Qed.
Lemma user_channel_lookup2 s n c : user_channel s n c = lookup2 s.(userChannels) n c.
Proof. done. Qed.

(** *** Adding and removing users *)

(** A sender with a dot that is not a full host is a server. *)
Definition is_server (h : bytes) : bool :=
  bool_decide ("."%char ∈ h) && negb (bool_decide ("!"%char ∈ h) && bool_decide ("@"%char ∈ h)).

Definition w_see (h : bytes) (w : world) : world :=
  if is_server h then w else w_add_user (nick_key h) w.

Lemma nick_key_nil : nick_key [] = [].
Proof. unfold nick_key. by apply ToLower_nil. Qed.

Lemma on_known s n c : state_wf s -> on s n c -> is_Some (s.(users) !! n) /\ is_Some (s.(channels) !! c).
Proof.
  intros Hwf [cu H]. destruct (wf_chan_user _ Hwf _ _ _ H) as (H1 & _ & q & H2 & _). eauto.
Qed.

Lemma addUser_refines s h p s' :
  state_wf s -> addUser s h = Ret (p, s') -> refines s s' (w_see h).
Proof.
  intros Hwf. unfold addUser, w_see, is_server. cbn zeta.
  destruct (bool_decide ("."%char ∈ h) && _) eqn:Es.
  { intros [= <- <-]. by apply refines_id. }
  destruct (users s !! nick_key h) as [user|] eqn:Eu.
  - assert (forall w, represents s w -> w_add_user (nick_key h) w = w) as Hw.
    { intros [us cs onn] (W1 & _ & _). unfold w_add_user. cbn in *. f_equal.
      assert (nick_key h ∈ us) by (rewrite <- W1; by apply elem_of_dom). set_solver. }
    assert (forall s', state_wf s' -> same_tables s s' -> refines s s' (w_add_user (nick_key h))) as Hsame.
    { intros s2 H1 H2. destruct (refines_same _ _ H1 H2) as [A B C D]. split; [done| |done|done].
      intros w Hr. rewrite Hw by done. by apply B. }
    case_match; [|intros [= <- <-]; apply Hsame; [done|apply same_tables_refl]].
    intros H'. go_inv. subst.
    match goal with |- context [decide (Host ?u = h)] => destruct (decide (Host u = h)) end;
      [apply Hsame; [done|apply same_tables_refl]|].
    apply Hsame; [|by repeat split].
    pose proof (wf_users _ Hwf _ _ Eu) as Hu. cbn in Hu. destruct Hu as (u0 & Hu0 & Hk).
    match goal with Hx : uheap s !! _ = Some ?x |- _ => rewrite Hu0 in Hx; injection Hx as <- end.
    eapply wf_set_uheap; [done|exact Hu0|]. cbn. by rewrite Hk.
  - assert (forall c n, ~ (n = nick_key h /\ on s n c)) as Hnew.
    { intros c n [-> Hon]. apply on_known in Hon as [[? H] _]; [|done]. congruence. }
    unfold NewUser. destruct (decide (h = [])) as [->|Hne]; intros [= <- <-];
      (split; [|intros w (W1 & W2 & W3); split; [|split]|done|done]).
    2,6: cbn; rewrite dom_insert_L; set_solver.
    2,5: done.
    2,4: done.
    + destruct Hwf. split; cbn; eauto.
      * intros k p [[<- <-]|[Hk Hp]]%lookup_insert_Some; [by apply nick_key_nil|exact (wf_users0 _ _ Hp)].
      * intros c n cu H. destruct (wf_chan_user0 _ _ _ H) as (H1 & H2 & H3).
        split; [|done]. rewrite lookup_insert_ne; [done|]. intros <-.
        apply (Hnew c (nick_key [])). by split; [|eexists].
    + destruct Hwf. split; cbn; eauto.
      * intros k p [[<- <-]|[Hk Hp]]%lookup_insert_Some.
        -- eexists. rewrite lookup_insert_eq. by split.
        -- specialize (wf_users0 _ _ Hp). destruct p as [l|]; [|done].
           destruct wf_users0 as (u & Hu & Hk'). exists u. rewrite lookup_insert_ne; [done|].
           intros <-. by rewrite fresh_None in Hu.
      * intros c n cu H. destruct (wf_chan_user0 _ _ _ H) as (H1 & H2 & H3).
        split; [|done]. rewrite lookup_insert_ne; [done|]. intros <-.
        apply (Hnew c (nick_key h)). by split; [|eexists].
      * intros l Hl. apply wf_self0 in Hl as [u Hl].
        rewrite lookup_insert_ne; [eauto|]. intros <-.
        by rewrite fresh_None in Hl.
Qed.

(** An operation that touches only the tables: the heaps, the client and the
    kinds are the same. *)
Definition same_heaps (s s' : State) : Prop :=
  s'.(uheap) = s.(uheap) /\ s'.(cheap) = s.(cheap) /\ s'.(mheap) = s.(mheap) /\
  s'.(self_user) = s.(self_user) /\ s'.(sumodes) = s.(sumodes).

(** Taking memberships away: a smaller relation that both tables agree on, with
    the users and channels that are still in it kept. *)
Lemma wf_shrink s s' (keep : bytes -> bytes -> bool) :
  state_wf s -> same_heaps s s' ->
  (forall c n, channel_user s' c n = if keep n c then channel_user s c n else None) ->
  (forall n c, user_channel s' n c = if keep n c then user_channel s n c else None) ->
  (forall k p, s'.(users) !! k = Some p -> s.(users) !! k = Some p) ->
  (forall k p, s'.(channels) !! k = Some p -> s.(channels) !! k = Some p) ->
  (forall n c, keep n c = true -> on s n c ->
     s'.(users) !! n = s.(users) !! n /\ s'.(channels) !! c = s.(channels) !! c) ->
  state_wf s'.
Proof.
  intros Hwf (E1 & E2 & E3 & E4 & E5) Hcu Huc Hu Hc Hk.
  split; rewrite ?E1, ?E2, ?E3, ?E4.
  - intros k p Hp. by apply (wf_users _ Hwf), Hu.
  - intros k p Hp. by apply (wf_channels _ Hwf), Hc.
  - intros c n cu H. rewrite Hcu in H. destruct (keep n c) eqn:E; [|done].
    destruct (wf_chan_user _ Hwf _ _ _ H) as (H1 & H2 & q & H3 & H4).
    destruct (Hk n c E ltac:(by eexists)) as [-> ->]. split; [done|]. split; [done|].
    exists q. by rewrite Huc, E.
  - intros n c uc H. rewrite Huc in H. rewrite Hcu. destruct (keep n c); [|done].
    by apply (wf_user_chan _ Hwf _ _ _ H).
  - intros c n cu c' n' cu' H H'. rewrite Hcu in H, H'.
    destruct (keep n c), (keep n' c'); try done. by apply (wf_modes_inj _ Hwf).
  - apply (wf_self _ Hwf).
  - apply (wf_cmodes _ Hwf).
Qed.

Lemma removeUser_refines s h : state_wf s -> refines s (removeUser s h) (w_remove_user (nick_key h)).
Proof.
  intros Hwf.
  assert (forall c n, channel_user (removeUser s h) c n =
    if negb (bool_decide (n = nick_key h)) then channel_user s c n else None) as Hcu.
  { intros. rewrite !channel_user_lookup2. unfold removeUser. cbn.
    rewrite lookup2_delete_inner. by repeat case_decide || case_bool_decide. }
  assert (forall n c, user_channel (removeUser s h) n c =
    if negb (bool_decide (n = nick_key h)) then user_channel s n c else None) as Huc.
  { intros. rewrite !user_channel_lookup2. unfold removeUser. cbn.
    rewrite lookup2_delete. by repeat case_decide || case_bool_decide. }
  split; [|intros w (W1 & W2 & W3); split; [|split]|done|done].
  - apply (wf_shrink s _ (fun n _ => negb (bool_decide (n = nick_key h)))); try done.
    + intros k p Hp. cbn in Hp. by apply lookup_delete_Some in Hp as [_ Hp].
    + intros n c Hn%negb_true_iff%bool_decide_eq_false _. split; [|done].
      by apply lookup_delete_ne.
  - cbn. by rewrite dom_delete_L, W1.
  - done.
  - intros n c. cbn. unfold on. rewrite Hcu, elem_of_filter, W3. cbn. unfold on.
    case_bool_decide; cbn; [|naive_solver]. split; [naive_solver|by intros []].
Qed.

Lemma removeChannel_refines s c : state_wf s -> refines s (removeChannel s c) (w_remove_chan (ToLower c)).
Proof.
  intros Hwf.
  assert (forall c' n, channel_user (removeChannel s c) c' n =
    if negb (bool_decide (c' = ToLower c)) then channel_user s c' n else None) as Hcu.
  { intros. rewrite !channel_user_lookup2. unfold removeChannel. cbn.
    rewrite lookup2_delete. by repeat case_decide || case_bool_decide. }
  assert (forall n c', user_channel (removeChannel s c) n c' =
    if negb (bool_decide (c' = ToLower c)) then user_channel s n c' else None) as Huc.
  { intros. rewrite !user_channel_lookup2. unfold removeChannel. cbn.
    rewrite lookup2_delete_inner. by repeat case_decide || case_bool_decide. }
  split; [|intros w (W1 & W2 & W3); split; [|split]|done|done].
  - apply (wf_shrink s _ (fun _ c' => negb (bool_decide (c' = ToLower c)))); try done.
    + intros k p Hp. cbn in Hp. by apply lookup_delete_Some in Hp as [_ Hp].
    + intros n c' Hn%negb_true_iff%bool_decide_eq_false _. split; [done|].
      by apply lookup_delete_ne.
  - done.
  - cbn. by rewrite dom_delete_L, W2.
  - intros n c'. cbn. unfold on. rewrite Hcu, elem_of_filter, W3. cbn. unfold on.
    case_bool_decide; cbn; [|naive_solver]. split; [naive_solver|by intros []].
Qed.

Lemma removeFromChannel_refines s h c :
  state_wf s -> refines s (removeFromChannel s h c) (w_leave (nick_key h) (ToLower c)).
Proof.
  intros Hwf.
  assert (forall c' n, channel_user (removeFromChannel s h c) c' n =
    if negb (bool_decide (n = nick_key h /\ c' = ToLower c)) then channel_user s c' n else None) as Hcu.
  { intros. rewrite !channel_user_lookup2. unfold removeFromChannel. cbn.
    rewrite lookup2_remove. repeat case_decide || case_bool_decide; naive_solver. }
  assert (forall n c', user_channel (removeFromChannel s h c) n c' =
    if negb (bool_decide (n = nick_key h /\ c' = ToLower c)) then user_channel s n c' else None) as Huc.
  { intros. rewrite !user_channel_lookup2. unfold removeFromChannel. cbn.
    rewrite lookup2_remove. repeat case_decide || case_bool_decide; naive_solver. }
  split; [|intros w (W1 & W2 & W3); split; [|split]|done|done].
  - by apply (wf_shrink s _ (fun n c' => negb (bool_decide (n = nick_key h /\ c' = ToLower c)))).
  - done.
  - done.
  - intros n c'. cbn. unfold on. rewrite Hcu, elem_of_difference, W3, elem_of_singleton.
    unfold on. case_bool_decide as Hb; cbn.
    + split; [|by intros []]. intros [_ Hn]. destruct Hb as [-> ->]. done.
    + split; [naive_solver|]. intros Hon. split; [done|]. intros [= -> ->]. by apply Hb.
Qed.

Lemma addChannel_refines s c : state_wf s -> refines s (addChannel s c).2 (w_add_chan (ToLower c)).
Proof.
  intros Hwf. unfold addChannel. cbn zeta.
  destruct (channels s !! ToLower c) as [p|] eqn:E.
  { split; [done| |done|done]. intros w (W1 & W2 & W3). split; [done|]. split; [|done].
    cbn. assert (ToLower c ∈ dom (channels s)) by by apply elem_of_dom. set_solver. }
  assert (forall c' n, ~ (c' = ToLower c /\ on s n c')) as Hnew.
  { intros c' n [-> Hon]. apply on_known in Hon as [_ [? H]]; [|done]. congruence. }
  unfold NewChannel. destruct (decide (c = [])) as [->|Hne]; cbn [snd];
    (split; [|intros w (W1 & W2 & W3); split; [|split]|done|done]).
  2,6: done.
  2,5: cbn; rewrite dom_insert_L; set_solver.
  2,4: done.
  - destruct Hwf. split; cbn; eauto.
    + intros k p [[<- <-]|[Hk Hp]]%lookup_insert_Some; [by apply ToLower_nil|exact (wf_channels0 _ _ Hp)].
    + intros c' n cu H. destruct (wf_chan_user0 _ _ _ H) as (H1 & H2 & q & H3 & H4).
      split; [done|]. split; [done|]. exists q. split; [|done].
      rewrite lookup_insert_ne; [done|]. intros <-.
      apply (Hnew (ToLower []) n). by split; [|eexists].
  - destruct Hwf. split; cbn; eauto.
    + intros k p [[<- <-]|[Hk Hp]]%lookup_insert_Some.
      * eexists. rewrite lookup_insert_eq. by split.
      * specialize (wf_channels0 _ _ Hp). destruct p as [l|]; [|done].
        destruct wf_channels0 as (x & Hx & Hk'). exists x. rewrite lookup_insert_ne; [done|].
        intros <-. by rewrite fresh_None in Hx.
    + intros c' n cu H. destruct (wf_chan_user0 _ _ _ H) as (H1 & H2 & q & H3 & H4).
      split; [done|]. split; [done|]. exists q. split; [|done].
      rewrite lookup_insert_ne; [done|]. intros <-.
      apply (Hnew (ToLower c) n). by split; [|eexists].
    + intros l x [[<- <-]|[Hl Hx]]%lookup_insert_Some; [apply new_wf|eauto].
Qed.

Lemma addToChannel_refines s h c :
  state_wf s -> refines s (addToChannel s h c) (w_enter (nick_key h) (ToLower c)).
Proof.
  intros Hwf. unfold addToChannel. cbn zeta.
  set (k := nick_key h). set (cc := ToLower c).
  destruct (users s !! k) as [user|] eqn:Eu.
  2:{ split; [done| |done|done]. intros w (W1 & W2 & W3). unfold w_enter.
      rewrite decide_False; [by split|]. rewrite <- W1. intros [[? ?]%elem_of_dom _]. congruence. }
  destruct (channels s !! cc) as [ch|] eqn:Ec.
  2:{ split; [done| |done|done]. intros w (W1 & W2 & W3). unfold w_enter.
      rewrite decide_False; [by split|]. rewrite <- W2. intros [_ [? ?]%elem_of_dom]. congruence. }
  assert (forall w, represents s w -> k ∈ w_users w /\ cc ∈ w_chans w) as Hin.
  { intros w (<- & <- & _). by split; apply elem_of_dom. }
  rewrite !lookup2_default. change (lookup2 (channelUsers s) cc k) with (channel_user s cc k).
  change (lookup2 (userChannels s) k cc) with (user_channel s k cc).
  destruct (bool_decide (is_Some (channel_user s cc k)) || _) eqn:Eb.
  { assert (on s k cc) as Hon.
    { apply orb_true_iff in Eb. rewrite !bool_decide_eq_true in Eb. destruct Eb as [?|[uc ?]]; [done|].
      by eapply wf_user_chan. }
    split; [done| |done|done]. intros w Hr. destruct (Hin w Hr). unfold w_enter.
    rewrite decide_True by done. destruct Hr as (W1 & W2 & W3). split; [done|]. split; [done|].
    intros n c'. cbn. rewrite elem_of_union, elem_of_singleton, W3. naive_solver. }
  apply orb_false_iff in Eb as [Eb1%bool_decide_eq_false Eb2%bool_decide_eq_false].
  set (m := fresh (dom (mheap s))). set (s' := set_members _ _ _).
  assert (forall c' n, channel_user s' c' n =
    if decide (c' = cc /\ n = k) then Some (NewChannelUser user m) else channel_user s c' n) as Hcu.
  { intros. rewrite !channel_user_lookup2. unfold s'. cbn. rewrite lookup2_insert.
    destruct (decide (c' = cc)) as [->|Hc].
    - destruct (decide (n = k)) as [->|Hn].
      + by rewrite lookup_insert_eq, decide_True.
      + rewrite lookup_insert_ne, lookup2_default, decide_False by naive_solver. done.
    - by rewrite decide_False by naive_solver. }
  assert (forall n c', user_channel s' n c' =
    if decide (c' = cc /\ n = k) then Some (NewUserChannel ch m) else user_channel s n c') as Huc.
  { intros. rewrite !user_channel_lookup2. unfold s'. cbn. rewrite lookup2_insert.
    destruct (decide (n = k)) as [->|Hn].
    - destruct (decide (c' = cc)) as [->|Hc].
      + by rewrite lookup_insert_eq, decide_True.
      + rewrite lookup_insert_ne, lookup2_default, decide_False by naive_solver. done.
    - by rewrite decide_False by naive_solver. }
  assert (users s' = users s /\ channels s' = channels s /\ uheap s' = uheap s /\
          cheap s' = cheap s /\ self_user s' = self_user s /\
          mheap s' = <[m := NewUserModes]> (mheap s)) as (F1 & F2 & F3 & F4 & F5 & F6) by done.
  assert (mheap s !! m = None) as Hm by apply fresh_None.
  split; [|intros w Hr; destruct (Hin w Hr); unfold w_enter; rewrite decide_True by done;
           destruct Hr as (W1 & W2 & W3); split; [by rewrite F1|split; [by rewrite F2|]]|done|done].
  - clearbody s'. split; rewrite ?F1, ?F2, ?F3, ?F4, ?F5, ?F6.
    + apply (wf_users _ Hwf).
    + apply (wf_channels _ Hwf).
    + intros c' n cu H. rewrite Hcu in H. rewrite Huc. case_decide as Hd.
      * injection H as <-. destruct Hd as [-> ->]. cbn. rewrite lookup_insert_eq. eauto 8.
      * destruct (wf_chan_user _ Hwf _ _ _ H) as (H1 & [x H2] & H3). split; [done|].
        split; [|done]. rewrite lookup_insert_ne; [eauto|]. intros E. rewrite <- E in H2. congruence.
    + intros n c' uc H. rewrite Huc in H. rewrite Hcu. case_decide; [eauto|].
      by apply (wf_user_chan _ Hwf _ _ _ H).
    + intros c1 n1 cu1 c2 n2 cu2 H1 H2 E. rewrite Hcu in H1, H2.
      destruct (decide (c1 = cc /\ n1 = k)) as [D1|D1], (decide (c2 = cc /\ n2 = k)) as [D2|D2].
      * naive_solver.
      * injection H1 as <-. cbn in E. destruct (wf_chan_user _ Hwf _ _ _ H2) as (_ & [x Hx] & _).
        rewrite <- E in Hx. congruence.
      * injection H2 as <-. cbn in E. destruct (wf_chan_user _ Hwf _ _ _ H1) as (_ & [x Hx] & _).
        rewrite E in Hx. congruence.
      * by apply (wf_modes_inj _ Hwf _ _ _ _ _ _ H1 H2).
    + apply (wf_self _ Hwf).
    + apply (wf_cmodes _ Hwf).
  - intros n c'. cbn. rewrite elem_of_union, elem_of_singleton, W3. unfold on. rewrite Hcu.
    case_decide as Hd.
    + split; [by eexists|]. intros _. destruct Hd as [-> ->]. by left.
    + split; [|by right]. intros [[= -> ->]|?]; [|done]. by destruct Hd.
Qed.

(** *** A change of nick *)

(** Where the entries of a key come from after a change from [a] to [b]. *)
Definition source (a b n : bytes) : option bytes :=
  if decide (n = a) then None else if decide (n = b) then Some a else Some n.

Lemma source_inj a b n n' m : source a b n = Some m -> source a b n' = Some m -> n = n'.
Proof. unfold source. repeat case_decide; naive_solver. Qed.

Lemma rename_source {A} (a b : bytes) (r : gmap bytes A) n :
  (a <> b -> r !! b = None) ->
  rename_member a b r !! n = m ← source a b n; r !! m.
Proof.
  intros Hb. unfold source. destruct (decide (a = b)) as [<-|Hab].
  - rewrite rename_member_same. destruct (decide (n = a)) as [->|Hn]; cbn.
    + by rewrite lookup_delete_eq.
    + cbn. by rewrite lookup_delete_ne.
  - rewrite rename_member_lookup by done. destruct (decide (n = a)) as [->|Hn]; [done|].
    destruct (decide (n = b)) as [->|Hn']; [|done]. cbn. rewrite Hb by done. by destruct (r !! a).
Qed.

Definition nick_ok (nick newnick : bytes) (s : State) : Prop :=
  Forall (fun c => c ∉ bs "!@") newnick /\
  (ToLower nick = ToLower newnick \/ s.(users) !! ToLower newnick = None).

Lemma nick_key_app newnick t :
  Forall (fun c => c ∉ bs "!@") newnick -> nick_key (newnick ++ bs "!" ++ t) = ToLower newnick.
Proof.
  intros H. unfold nick_key. f_equal. apply (Nick_app newnick "!" t H). decide_now.
Qed.

Section rename.
Variables (s s' : State) (a b : bytes) (l : nat) (u : User).
Hypothesis Hwf : state_wf s.
Hypothesis Ha : s.(users) !! a = Some (Some l).
Hypothesis Hb : a = b \/ s.(users) !! b = None.
Hypothesis Hu : nick_key u.(host) = b.
Hypothesis Eu : s'.(uheap) = <[l := u]> s.(uheap).
Hypothesis Eus : s'.(users) = delete a (<[b := Some l]> s.(users)).
Hypothesis Ecu : s'.(channelUsers) = rename_member a b <$> s.(channelUsers).
Hypothesis Euc : s'.(userChannels) = rename_member a b s.(userChannels).
Hypothesis Erest : s'.(cheap) = s.(cheap) /\ s'.(mheap) = s.(mheap) /\
  s'.(self_user) = s.(self_user) /\ s'.(channels) = s.(channels) /\ s'.(sumodes) = s.(sumodes).

Lemma rename_not_on c : a <> b -> channel_user s c b = None /\ user_channel s b c = None.
Proof.
  intros Hab. assert (channel_user s c b = None) as H1.
  { destruct (channel_user s c b) as [cu|] eqn:E; [|done].
    destruct (wf_chan_user _ Hwf _ _ _ E) as (H1 & _). naive_solver. }
  split; [done|]. destruct (user_channel s b c) as [uc|] eqn:E; [|done].
  destruct (wf_user_chan _ Hwf _ _ _ E) as [? H]. congruence.
Qed.

Lemma rename_chan c n : channel_user s' c n = m ← source a b n; channel_user s c m.
Proof.
  rewrite !channel_user_lookup2. unfold lookup2. rewrite Ecu, lookup_fmap.
  destruct (channelUsers s !! c) as [r|] eqn:E; cbn.
  - rewrite rename_source; [|intros Hab].
    + destruct (source a b n); [|done]. cbn. unfold channel_user. by rewrite E.
    + destruct (rename_not_on c Hab) as [H _]. unfold channel_user in H. by rewrite E in H.
  - destruct (source a b n); [|done]. cbn. unfold channel_user. by rewrite E.
Qed.

Lemma rename_user n c : user_channel s' n c = m ← source a b n; user_channel s m c.
Proof.
  rewrite !user_channel_lookup2. unfold lookup2. rewrite Euc.
  unfold source. destruct (decide (a = b)) as [Hab|Hab].
  - rewrite <- Hab, rename_member_same. destruct (decide (n = a)) as [->|Hn].
    + by rewrite lookup_delete_eq.
    + by rewrite lookup_delete_ne by done.
  - rewrite rename_member_lookup by done.
    destruct (decide (n = a)) as [->|Hn]; [done|].
    destruct (decide (n = b)) as [->|Hn']; [|done].
    cbn. unfold user_channel. destruct (rename_not_on c Hab) as [_ H]. unfold user_channel in H.
    destruct (userChannels s !! a); [done|]. by rewrite H.
Qed.

Lemma rename_users n : s'.(users) !! n = m ← source a b n; s.(users) !! m.
Proof.
  rewrite Eus. unfold source. destruct (decide (n = a)) as [->|Hn]; [by rewrite lookup_delete_eq|].
  rewrite lookup_delete_ne by done. destruct (decide (n = b)) as [->|Hn'].
  - by rewrite lookup_insert_eq.
  - by rewrite lookup_insert_ne.
Qed.

Lemma rename_wf : state_wf s'.
Proof.
  destruct Erest as (E1 & E2 & E3 & E4 & E5).
  assert (forall k p, users s !! k = Some (Some p) -> k <> a -> p <> l) as Hl.
  { intros k p Hk Hne ->. destruct (wf_users _ Hwf _ _ Hk) as (x & Hx & Hkx).
    destruct (wf_users _ Hwf _ _ Ha) as (y & Hy & Hky). congruence. }
  assert (exists x, uheap s !! l = Some x) as [x Hx].
  { destruct (wf_users _ Hwf _ _ Ha) as (y & Hy & _). eauto. }
  split; rewrite ?E1, ?E2, ?E3, ?E4.
  - intros k p Hp. rewrite rename_users in Hp. unfold source in Hp.
    destruct (decide (k = a)) as [|Hka]; [done|].
    destruct (decide (k = b)) as [->|Hkb]; cbn in Hp.
    + rewrite Ha in Hp. injection Hp as <-. exists u. rewrite Eu, lookup_insert_eq. done.
    + pose proof (wf_users _ Hwf _ _ Hp) as H. destruct p as [p|]; [|done].
      destruct H as (y & Hy & Hky). exists y. rewrite Eu, lookup_insert_ne; [done|].
      intros <-. by apply (Hl k l).
  - apply (wf_channels _ Hwf).
  - intros c n cu H. rewrite rename_chan in H. rewrite rename_users, rename_user.
    destruct (source a b n) as [m|]; [|done]. cbn in *. apply (wf_chan_user _ Hwf _ _ _ H).
  - intros n c uc H. rewrite rename_user in H. rewrite rename_chan.
    destruct (source a b n) as [m|]; [|done]. cbn in *. apply (wf_user_chan _ Hwf _ _ _ H).
  - intros c n cu c' n' cu' H H' E. rewrite rename_chan in H, H'.
    destruct (source a b n) as [m|] eqn:S1, (source a b n') as [m'|] eqn:S2; try done.
    cbn in *. destruct (wf_modes_inj _ Hwf _ _ _ _ _ _ H H' E) as [-> ->].
    split; [done|]. by eapply source_inj.
  - intros k Hk. rewrite Eu. destruct (decide (k = l)) as [->|Hne].
    + rewrite lookup_insert_eq. eauto.
    + rewrite lookup_insert_ne by done. by apply (wf_self _ Hwf).
  - apply (wf_cmodes _ Hwf).
Qed.

Lemma rename_refines : refines s s' (w_rename a b).
Proof.
  pose proof Erest as (E1 & E2 & E3 & E4 & E5).
  split; [apply rename_wf| |done|done]. intros w (W1 & W2 & W3).
  unfold w_rename. rewrite decide_True by (rewrite <- W1; apply elem_of_dom; eauto).
  case_decide as Hab.
  - split; [|split]; cbn.
    + rewrite Eus, <- Hab, delete_insert_eq, dom_delete_L, W1. done.
    + by rewrite E4.
    + intros n c. rewrite elem_of_filter, W3. cbn. unfold on. rewrite rename_chan. unfold source.
      destruct (decide (n = a)) as [->|Hn]; cbn.
      * split; [naive_solver|by intros []].
      * rewrite decide_False by congruence. naive_solver.
  - split; [|split]; cbn.
    + rewrite Eus, dom_delete_L, dom_insert_L, W1. set_solver.
    + by rewrite E4.
    + intros n c. rewrite elem_of_map. unfold on. rewrite rename_chan. unfold source. split.
      * intros ([n0 c0] & [= -> ->] & Hin%W3). cbn. destruct (decide (n0 = a)) as [->|Hn0].
        -- rewrite decide_False by done. by rewrite decide_True.
        -- rewrite decide_False by done. destruct (decide (n0 = b)) as [->|]; [|done].
           destruct (rename_not_on c0 Hab) as [H _]. destruct Hin as [? Hin]. congruence.
      * destruct (decide (n = a)) as [|Hna]; [by intros []|].
        destruct (decide (n = b)) as [->|Hnb]; cbn; intros Hin.
        -- exists (a, c). cbn. rewrite decide_True by done. split; [done|]. by apply W3.
        -- exists (n, c). cbn. rewrite decide_False by done. split; [done|]. by apply W3.
Qed.
End rename.

(** ** The handlers refine the specification *)

(** The client's own user, when the server has welcomed it. *)
Definition self_of (s : State) : option User := l ← s.(self_user); s.(uheap) !! l.

Definition arg (ev : Event) (i : nat) : bytes := default [] (ev.(Args) !! i).

(** One name of a names reply: a symbol in front of it is taken off. *)
Definition listed_nick (s : State) (name : bytes) : bytes :=
  match name with
  | c :: rest => if decide (Exists (fun i => i.2 = code c) s.(sumodes).(modeInfo)) then rest else name
  | [] => name
  end.
Definition w_listed (u : UserModeKinds) (channel : bytes) (w : world) (name : bytes) : world :=
  let nick := match name with
              | c :: rest => if decide (Exists (fun i => i.2 = code c) u.(modeInfo)) then rest else name
              | [] => name end in
  w_enter (nick_key nick) (ToLower channel) (w_see nick w).

Definition who_host (ev : Event) : bytes := arg ev 5 ++ bs "!" ++ arg ev 2 ++ bs "@" ++ arg ev 3.

(** The host of a welcome: the last word of the greeting, or the nick the
    server addresses. *)
Definition welcome_host (ev : Event) : bytes :=
  let h := default [] (last (Fields (arg ev 1))) in
  if ContainsRune h (code "!") && ContainsRune h (code "@") then h else arg ev 0.

(** What an event does to the world, given the client's own user and the
    table of user modes. *)
Definition world_handle (self : option User) (um : UserModeKinds) (ev : Event) (w : world) : world :=
  let named n := bool_decide (ev.(Name) = n) in
  let from_self := bool_decide (Some ev.(Sender) = host <$> self) in
  let sender := nick_key ev.(Sender) in
  if named NICK then w_rename (ToLower (SplitHost ev).1.1) (ToLower (arg ev 0)) w else
  if named JOIN then
    w_enter sender (ToLower (arg ev 0)) (if from_self then w_add_chan (ToLower (arg ev 0)) w else w) else
  if named PART then
    if from_self then w_remove_chan (ToLower (arg ev 0)) w else w_leave sender (ToLower (arg ev 0)) w else
  if named QUIT then if from_self then w else w_remove_user sender w else
  if named KICK then
    if bool_decide (Some (arg ev 1) = User_Nick <$> self) then w_remove_chan (ToLower (arg ev 0)) w
    else w_leave (nick_key (arg ev 1)) (ToLower (arg ev 0)) w else
  if named MODE then w else
  if named TOPIC then w else
  if named RPL_TOPIC then w else
  if named PRIVMSG || named NOTICE then
    match IsTargetChan ev with
    | Ret true => w_enter sender (ToLower (arg ev 0)) w
    | _ => w
    end else
  if named RPL_WELCOME then w_add_user (nick_key (welcome_host ev)) w else
  if named RPL_NAMREPLY then foldl (w_listed um (arg ev 2)) w (Fields (arg ev 3)) else
  if named RPL_WHOREPLY then w_enter (nick_key (who_host ev)) (ToLower (arg ev 1)) (w_see (who_host ev) w)
  else w.

(** What the server's events have to respect: a new nick is a nick, nobody
    else has it, and a client that is welcomed is not on a channel yet. *)
Definition event_ok (s : State) (ev : Event) : Prop :=
  (ev.(Name) = NICK -> nick_ok (SplitHost ev).1.1 (arg ev 0) s) /\
  (ev.(Name) = RPL_WELCOME -> forall c, ~ on s (nick_key (welcome_host ev)) c).

Record handled (s s' : State) (f : world -> world) : Prop := {
  hd_wf : state_wf s';
  hd_world : forall w, represents s w -> represents s' (f w);
  hd_kinds : s'.(sumodes) = s.(sumodes);
}.

Lemma refines_handled s s' f : refines s s' f -> handled s s' f.
Proof. intros []. by split. Qed.

Lemma index_arg ev i x : index ev.(Args) i = Ret x -> arg ev i = x.
Proof. intros H%index_Ret. unfold arg. by rewrite H. Qed.

Lemma Self_Host_self s h : Self_Host s = Ret h -> host <$> self_of s = Some h.
Proof.
  unfold Self_Host, user_at, self_of. intros H. go_inv. subst.
  match goal with H : self_user s = Some _ |- _ => rewrite H end. cbn.
  by match goal with H : uheap s !! _ = Some _ |- _ => rewrite H end.
Qed.

Lemma Self_Nick_self s h : Self_Nick s = Ret h -> User_Nick <$> self_of s = Some h.
Proof.
  unfold Self_Nick, user_at, self_of. intros H. go_inv. subst.
  match goal with H : self_user s = Some _ |- _ => rewrite H end. cbn.
  by match goal with H : uheap s !! _ = Some _ |- _ => rewrite H end.
Qed.

Lemma from_self_eq (a h : bytes) : bool_decide (Some a = Some h) = bool_decide (a = h).
Proof. apply bool_decide_ext. naive_solver. Qed.

Lemma nick_refines s ev s' :
  state_wf s -> nick_ok (SplitHost ev).1.1 (arg ev 0) s -> nick s ev = Ret s' ->
  refines s s' (w_rename (ToLower (SplitHost ev).1.1) (ToLower (arg ev 0))).
Proof.
  intros Hwf [Hok1 Hok2]. unfold nick. destruct (SplitHost ev) as [[n0 un] hn]. cbn [fst] in *.
  intros (b0 & Hb0 & H)%bind_Ret_inv. rewrite (index_arg _ _ _ Hb0) in *.
  destruct (users s !! ToLower n0) as [p|] eqn:Ea.
  2:{ injection H as <-. split; [done| |done|done]. intros w (W1 & W2 & W3).
      unfold w_rename. rewrite decide_False; [by split|]. rewrite <- W1.
      intros [? ?]%elem_of_dom. congruence. }
  go_inv. subst. eapply (rename_refines s _ _ _ _ _ Hwf Ea); try done.
  cbn. by apply nick_key_app.
Qed.

Lemma join_refines s ev s' :
  state_wf s -> join s ev = Ret s' ->
  refines s s' (fun w => w_enter (nick_key ev.(Sender)) (ToLower (arg ev 0))
    (if bool_decide (Some ev.(Sender) = host <$> self_of s) then w_add_chan (ToLower (arg ev 0)) w else w)).
Proof.
  intros Hwf. unfold join. intros (h & Hh & H)%bind_Ret_inv.
  rewrite (Self_Host_self _ _ Hh), from_self_eq.
  apply bind_Ret_inv in H as (s1 & H1 & H2). go_inv. subst.
  match goal with H : Args ev !! 0 = Some ?x |- _ => rename H into Ha; rename x into a end.
  assert (arg ev 0 = a) as -> by (unfold arg; by rewrite Ha).
  case_bool_decide as Hs.
  - rewrite decide_True in H1 by done. apply bind_Ret_inv in H1 as (a' & Ha' & [= <-]).
    apply index_Ret in Ha'. rewrite Ha in Ha'. injection Ha' as <-.
    eapply (refines_trans _ _ _ (w_add_chan (ToLower a))); [by apply addChannel_refines|].
    apply addToChannel_refines. by eapply rf_wf, addChannel_refines.
  - rewrite decide_False in H1 by done. injection H1 as <-. by apply addToChannel_refines.
Qed.

Lemma part_refines s ev s' :
  state_wf s -> part s ev = Ret s' ->
  refines s s' (if bool_decide (Some ev.(Sender) = host <$> self_of s)
    then w_remove_chan (ToLower (arg ev 0)) else w_leave (nick_key ev.(Sender)) (ToLower (arg ev 0))).
Proof.
  intros Hwf. unfold part. intros (h & Hh & H)%bind_Ret_inv.
  rewrite (Self_Host_self _ _ Hh), from_self_eq.
  apply bind_Ret_inv in H as (a & Ha & [= <-]). rewrite (index_arg _ _ _ Ha).
  case_bool_decide; case_decide; try done; [by apply removeChannel_refines|
    by apply removeFromChannel_refines].
Qed.

Lemma quit_refines s ev s' :
  state_wf s -> quit s ev = Ret s' ->
  refines s s' (if bool_decide (Some ev.(Sender) = host <$> self_of s)
    then id else w_remove_user (nick_key ev.(Sender))).
Proof.
  intros Hwf. unfold quit. intros (h & Hh & [= <-])%bind_Ret_inv.
  rewrite (Self_Host_self _ _ Hh), from_self_eq.
  destruct (decide (Sender ev = h)).
  - rewrite bool_decide_true by done. by apply refines_id.
  - rewrite bool_decide_false by done. by apply removeUser_refines.
Qed.

Lemma kick_refines s ev s' :
  state_wf s -> kick s ev = Ret s' ->
  refines s s' (if bool_decide (Some (arg ev 1) = User_Nick <$> self_of s)
    then w_remove_chan (ToLower (arg ev 0)) else w_leave (nick_key (arg ev 1)) (ToLower (arg ev 0))).
Proof.
  intros Hwf. unfold kick. intros (who & Hw & H)%bind_Ret_inv.
  apply bind_Ret_inv in H as (h & Hh & H). rewrite (Self_Nick_self _ _ Hh), (index_arg _ _ _ Hw), from_self_eq.
  apply bind_Ret_inv in H as (a & Ha & [= <-]). rewrite (index_arg _ _ _ Ha).
  case_bool_decide; case_decide; try done; [by apply removeChannel_refines|
    by apply removeFromChannel_refines].
Qed.

Lemma apply_user_modes_ok target on_ s ums s' :
  state_wf s -> apply_user_modes target on_ s ums = Ret s' -> state_wf s' /\ same_tables s s'.
Proof.
  intros Hwf. unfold apply_user_modes. revert s Hwf.
  induction ums as [|um ums IH]; intros s Hwf; cbn.
  - intros [= <-]. split; [done|apply same_tables_refl].
  - intros (s1 & H1 & H2)%bind_Ret_inv. destruct (set_user_mode_ok _ _ _ _ _ Hwf H1) as [W1 T1].
    destruct (IH _ W1 H2) as [W2 T2]. split; [done|by eapply same_tables_trans].
Qed.

Lemma mode_refines s ev s' : state_wf s -> mode s ev = Ret s' -> refines s s' id.
Proof.
  intros Hwf. unfold mode. intros (a & Ha & H)%bind_Ret_inv.
  apply bind_Ret_inv in H as ([] & _ & H).
  - destruct (channels s !! ToLower a) as [ch|] eqn:Ec; [|injection H as <-; by apply refines_id].
    apply bind_Ret_inv in H as (rest & _ & H). apply bind_Ret_inv in H as (l & _ & H).
    apply bind_Ret_inv in H as (c & Hc & H). apply deref_Ret in Hc.
    destruct (Apply _ _ _) as [[m ps] ns] eqn:Eap.
    apply bind_Ret_inv in H as (s1 & H1 & H2).
    assert (cm_wf m) as Hm.
    { pose proof (apply_keeps_wf (state_kinds s) (cmodes c) (Join rest (bs " "))
        (wf_cmodes _ Hwf _ _ Hc)) as H. unfold Apply in Eap. by rewrite Eap in H. }
    assert (state_wf (set_cheap s (<[l := with_modes c m]> (cheap s)))) as W0
      by by eapply wf_set_cheap.
    destruct (apply_user_modes_ok _ _ _ _ _ W0 H1) as [W1 T1].
    destruct (apply_user_modes_ok _ _ _ _ _ W1 H2) as [W2 T2].
    apply refines_same; [done|]. exact (same_tables_trans _ _ _ T1 T2).
  - apply bind_Ret_inv in H as (h & _ & H). case_decide; go_inv; subst; [|by apply refines_id].
    apply refines_same; [|by repeat split]. by destruct Hwf.
Qed.

Lemma update_channel_refines s p f s' :
  state_wf s -> (forall c, cm_wf c.(cmodes) -> (f c).(cname) = c.(cname) /\ cm_wf (f c).(cmodes)) ->
  update_channel s p f = Ret s' -> refines s s' id.
Proof. intros Hwf Hf H. destruct (update_channel_ok _ _ _ _ Hwf Hf H). by apply refines_same. Qed.

Lemma topic_refines s ev s' : state_wf s -> topic_ s ev = Ret s' -> refines s s' id.
Proof.
  intros Hwf. unfold topic_. intros (a & _ & H)%bind_Ret_inv.
  destruct (channels s !! ToLower a); [|injection H as <-; by apply refines_id].
  eapply update_channel_refines; [done| |exact H]. done.
Qed.

Lemma rplTopic_refines s ev s' : state_wf s -> rplTopic s ev = Ret s' -> refines s s' id.
Proof.
  intros Hwf. unfold rplTopic. intros (a & _ & H)%bind_Ret_inv.
  destruct (channels s !! ToLower a); [|injection H as <-; by apply refines_id].
  apply bind_Ret_inv in H as (t & _ & H).
  eapply update_channel_refines; [done| |exact H]. done.
Qed.

Lemma rplChannelModeIs_refines s ev s' : state_wf s -> rplChannelModeIs s ev = Ret s' -> refines s s' id.
Proof.
  intros Hwf. unfold rplChannelModeIs. intros (a & _ & H)%bind_Ret_inv.
  apply bind_Ret_inv in H as (rest & _ & H).
  destruct (GetChannel s a); [|injection H as <-; by apply refines_id].
  eapply update_channel_refines; [done| |exact H]. intros c Hc. split; [done|].
  by apply apply_keeps_wf.
Qed.

Lemma rplBanList_refines s ev s' : state_wf s -> rplBanList s ev = Ret s' -> refines s s' id.
Proof.
  intros Hwf. unfold rplBanList. intros (a & _ & H)%bind_Ret_inv.
  destruct (GetChannel s a); [|injection H as <-; by apply refines_id].
  apply bind_Ret_inv in H as (ban & _ & H).
  eapply update_channel_refines; [done| |exact H]. intros c Hc. split; [done|].
  by apply setAddress_spec.
Qed.

Lemma msg_refines s ev s' :
  state_wf s -> msg s ev = Ret s' ->
  refines s s' (match IsTargetChan ev with
                | Ret true => w_enter (nick_key ev.(Sender)) (ToLower (arg ev 0)) | _ => id end).
Proof.
  intros Hwf. unfold msg. intros (b & -> & H)%bind_Ret_inv. destruct b.
  - apply bind_Ret_inv in H as (a & Ha & [= <-]). rewrite (index_arg _ _ _ Ha).
    by apply addToChannel_refines.
  - injection H as <-. by apply refines_id.
Qed.

Lemma name_reply_refines channel s name s' :
  state_wf s -> name_reply channel s name = Ret s' ->
  refines s s' (fun w => w_listed s.(sumodes) channel w name).
Proof.
  intros Hwf. unfold name_reply, w_listed. intros (c & Hc & H)%bind_Ret_inv.
  destruct name as [|c' rest]; [done|]. injection Hc as ->.
  destruct (list_find _ _) as [[j i]|] eqn:Ef.
  - rewrite decide_True.
    2:{ apply list_find_Some in Ef as (Hj & Hi & _). apply Exists_exists. exists i.
        split; [by eapply list_elem_of_lookup_2|done]. }
    apply bind_Ret_inv in H as ([p s1] & H1 & H2). cbn [drop] in *.
    pose proof (addUser_refines _ _ _ _ Hwf H1) as R1.
    pose proof (addToChannel_refines s1 rest channel (rf_wf _ _ _ R1)) as R2.
    destruct (set_user_mode_ok _ _ _ _ _ (rf_wf _ _ _ R2) H2) as [W3 T3].
    pose proof (refines_trans _ _ _ _ _ R1 R2) as R.
    exact (refines_trans _ _ _ _ _ R (refines_same _ _ W3 T3)).
  - rewrite decide_False.
    2:{ intros (i & Hi & E)%Exists_exists. apply list_find_None in Ef.
        rewrite Forall_forall in Ef. by apply (Ef i). }
    apply bind_Ret_inv in H as ([p s1] & H1 & [= <-]).
    pose proof (addUser_refines _ _ _ _ Hwf H1) as R1.
    exact (refines_trans _ _ _ _ _ R1 (addToChannel_refines s1 _ channel (rf_wf _ _ _ R1))).
Qed.

Lemma names_refines channel names s s' :
  state_wf s -> go_fold (name_reply channel) s names = Ret s' ->
  refines s s' (fun w => foldl (w_listed s.(sumodes) channel) w names).
Proof.
  revert s. induction names as [|name names IH]; intros s Hwf; cbn.
  - intros [= <-]. by apply refines_id.
  - intros (s1 & H1 & H2)%bind_Ret_inv. pose proof (name_reply_refines _ _ _ _ Hwf H1) as R1.
    pose proof (IH _ (rf_wf _ _ _ R1) H2) as R2. rewrite (rf_kinds _ _ _ R1) in R2.
    exact (refines_trans _ _ _ _ _ R1 R2).
Qed.

Lemma rplNameReply_refines s ev s' :
  state_wf s -> rplNameReply s ev = Ret s' ->
  refines s s' (fun w => foldl (w_listed s.(sumodes) (arg ev 2)) w (Fields (arg ev 3))).
Proof.
  intros Hwf. unfold rplNameReply. intros (c & Hc & H)%bind_Ret_inv.
  apply bind_Ret_inv in H as (names & Hn & H).
  rewrite (index_arg _ _ _ Hc), (index_arg _ _ _ Hn). by apply names_refines.
Qed.

Lemma who_modes_ok fullhost channel rs s s' :
  state_wf s -> go_fold (who_mode fullhost channel) s rs = Ret s' -> state_wf s' /\ same_tables s s'.
Proof.
  revert s. induction rs as [|r rs IH]; intros s Hwf; cbn.
  - intros [= <-]. split; [done|apply same_tables_refl].
  - intros (s1 & H1 & H2)%bind_Ret_inv.
    assert (state_wf s1 /\ same_tables s s1) as [W1 T1].
    { unfold who_mode in H1. case_decide; [injection H1 as <-; split; [done|apply same_tables_refl]|].
      destruct (GetUsersChannelModes s fullhost channel);
        [|injection H1 as <-; split; [done|apply same_tables_refl]].
      by eapply set_user_mode_ok. }
    destruct (IH _ W1 H2) as [W2 T2]. split; [done|by eapply same_tables_trans].
Qed.

Lemma rplWhoReply_refines s ev s' :
  state_wf s -> rplWhoReply s ev = Ret s' ->
  refines s s' (fun w => w_enter (nick_key (who_host ev)) (ToLower (arg ev 1)) (w_see (who_host ev) w)).
Proof.
  intros Hwf. unfold rplWhoReply, who_host.
  intros (c & Hc & H)%bind_Ret_inv. rewrite (index_arg _ _ _ Hc).
  apply bind_Ret_inv in H as (a5 & H5 & H). apply bind_Ret_inv in H as (a2 & H2 & H).
  apply bind_Ret_inv in H as (a3 & H3 & H).
  rewrite (index_arg _ _ _ H5), (index_arg _ _ _ H2), (index_arg _ _ _ H3).
  apply bind_Ret_inv in H as (ms & _ & H). apply bind_Ret_inv in H as (a7 & _ & H).
  apply bind_Ret_inv in H as (rn & _ & H). apply bind_Ret_inv in H as ([p s1] & H1 & H).
  apply bind_Ret_inv in H as (l & Hl & H). apply bind_Ret_inv in H as (u & Hu & H).
  set (fh := a5 ++ _) in *.
  pose proof (addUser_refines _ _ _ _ Hwf H1) as R1.
  pose proof (addToChannel_refines s1 fh c (rf_wf _ _ _ R1)) as R2.
  set (s2 := addToChannel s1 fh c) in *. apply deref_Ret in Hu.
  assert (state_wf (set_uheap s2 (<[l := SetRealname u rn]> (uheap s2)))) as W3.
  { eapply wf_set_uheap; [by eapply rf_wf|exact Hu|done]. }
  destruct (who_modes_ok _ _ _ _ _ W3 H) as [W4 T4].
  pose proof (refines_trans _ _ _ _ _ R1 R2) as R.
  exact (refines_trans _ _ _ _ _ R (refines_same s2 s' W4 T4)).
Qed.

Lemma rplWelcome_handled s ev s' :
  state_wf s -> (forall c, ~ on s (nick_key (welcome_host ev)) c) -> rplWelcome s ev = Ret s' ->
  handled s s' (w_add_user (nick_key (welcome_host ev))).
Proof.
  intros Hwf Hno. unfold rplWelcome.
  intros (a1 & H1 & H)%bind_Ret_inv. apply bind_Ret_inv in H as (h0 & Hh0 & H).
  apply bind_Ret_inv in H as (h & Hh & H).
  assert (welcome_host ev = h) as Ew.
  { unfold welcome_host. rewrite (index_arg _ _ _ H1). apply deref_Ret in Hh0. rewrite Hh0. cbn.
    destruct (ContainsRune h0 (code "!") && ContainsRune h0 (code "@")); [by injection Hh|].
    by apply index_arg. }
  rewrite Ew in *. unfold NewUser in H. case_decide as Hne; [done|]. cbn in H. injection H as <-.
  set (l := fresh (dom (uheap s))). unfold User_Nick. cbn [host]. fold (nick_key h).
  set (k := nick_key h) in *.
  assert (forall x, uheap s !! x = None -> x = l \/ x <> l) as _ by (intros; destruct (decide (x = l)); auto).
  assert (uheap s !! l = None) as Hl by apply fresh_None.
  split; [|intros w (W1 & W2 & W3); split; [|split]|done].
  - destruct Hwf. split; cbn; eauto.
    + intros k' p [[<- <-]|[Hk Hp]]%lookup_insert_Some.
      * eexists. rewrite lookup_insert_eq. by split.
      * specialize (wf_users0 _ _ Hp). destruct p as [l'|]; [|done].
        destruct wf_users0 as (u & Hu & Hk'). exists u. rewrite lookup_insert_ne; [done|].
        intros E. rewrite <- E in Hu. congruence.
    + intros c n cu H. destruct (wf_chan_user0 _ _ _ H) as (E1 & E2 & E3).
      split; [|done]. rewrite lookup_insert_ne; [done|]. intros <-.
      apply (Hno c). by eexists.
    + intros l' [= <-]. rewrite lookup_insert_eq. eauto.
  - cbn. rewrite dom_insert_L. set_solver.
  - done.
  - done.
Qed.

Lemma handle_refines s ev s' :
  state_wf s -> event_ok s ev -> handle s ev = Ret s' ->
  handled s s' (world_handle (self_of s) s.(sumodes) ev).
Proof.
  intros Hwf [Hnick Hwel]. unfold handle, world_handle. cbn zeta.
  case_bool_decide; [intros Hh; apply refines_handled; exact (nick_refines _ _ _ Hwf (Hnick ltac:(done)) Hh)|].
  case_bool_decide; [intros Hh; apply refines_handled; exact (join_refines _ _ _ Hwf Hh)|].
  case_bool_decide.
  { intros Hp. apply part_refines in Hp; [|done]. apply refines_handled.
    destruct (bool_decide _); exact Hp. }
  case_bool_decide.
  { intros Hp. apply quit_refines in Hp; [|done]. apply refines_handled.
    destruct (bool_decide _); exact Hp. }
  case_bool_decide.
  { intros Hp. apply kick_refines in Hp; [|done]. apply refines_handled.
    destruct (bool_decide _); exact Hp. }
  case_bool_decide; [intros Hh; apply refines_handled; exact (mode_refines _ _ _ Hwf Hh)|].
  case_bool_decide; [intros Hh; apply refines_handled; exact (topic_refines _ _ _ Hwf Hh)|].
  case_bool_decide; [intros Hh; apply refines_handled; exact (rplTopic_refines _ _ _ Hwf Hh)|].
  destruct (bool_decide (Name ev = PRIVMSG) || _).
  { intros Hp. apply msg_refines in Hp; [|done]. apply refines_handled.
    destruct (IsTargetChan ev) as [[]|]; exact Hp. }
  case_bool_decide; [intros Hh; exact (rplWelcome_handled _ _ _ Hwf (Hwel ltac:(done)) Hh)|].
  case_bool_decide; [intros Hh; apply refines_handled; exact (rplNameReply_refines _ _ _ Hwf Hh)|].
  case_bool_decide; [intros Hh; apply refines_handled; exact (rplWhoReply_refines _ _ _ Hwf Hh)|].
  case_bool_decide; [intros Hh; apply refines_handled; exact (rplChannelModeIs_refines _ _ _ Hwf Hh)|].
  case_bool_decide; [intros Hh; apply refines_handled; exact (rplBanList_refines _ _ _ Hwf Hh)|].
  intros [= <-]. by apply refines_handled, refines_id.
Qed.

(** The first thing an event does: its sender is noted. *)
Definition note_sender (s : State) (ev : Event) : go State :=
  if decide (ev.(Sender) = []) then Ret s else '(_, s) ← addUser s ev.(Sender); Ret s.

Definition w_note (ev : Event) (w : world) : world :=
  if decide (ev.(Sender) = []) then w else w_see ev.(Sender) w.

Lemma Update_note s ev : Update s ev = (note_sender s ev ≫= fun s => handle s ev).
Proof. done. Qed.

Lemma note_sender_refines s ev s1 :
  state_wf s -> note_sender s ev = Ret s1 -> refines s s1 (w_note ev).
Proof.
  intros Hwf. unfold note_sender, w_note. case_decide.
  - intros [= <-]. by apply refines_id.
  - intros ([p s2] & H1 & [= <-])%bind_Ret_inv. by eapply addUser_refines.
Qed.

Lemma Update_wf s ev s' :
  state_wf s -> (forall s1, note_sender s ev = Ret s1 -> event_ok s1 ev) -> Update s ev = Ret s' ->
  state_wf s'.
Proof.
  intros Hwf Hok. rewrite Update_note. intros (s1 & H1 & H2)%bind_Ret_inv.
  exact (hd_wf _ _ _ (handle_refines _ _ _ (rf_wf _ _ _ (note_sender_refines _ _ _ Hwf H1)) (Hok _ H1) H2)).
Qed.

End CaseMapping.

(** ** A demonstration network *)

Definition demo_info : NetworkInfo := NewNetworkInfo.

Definition demo_event (name sender : bytes) (args : list bytes) : Event :=
  NewEvent 0 (bs "net") (Some demo_info) name sender args.

Definition demo_start : State :=
  match NewState (Some demo_info) with Ret (inr s) => s | _ => empty_state end.

Definition demo_welcome : Event :=
  demo_event RPL_WELCOME (bs "irc.test.net") [bs "me"; bs "Welcome to IRC me!u@host"].

Lemma demo_start_wf : @state_wf ascii_tables demo_start.
Proof.
  assert (exists k u, demo_start = set_tables empty_state k u) as (k & u & ->).
  { unfold demo_start, NewState, SetNetworkInfo.
    destruct (NewChannelModeKindsCSV _) as [?|k] eqn:E1; [exfalso; by vm_compute in E1|].
    destruct (NewUserModeKinds _) as [[?|u]|] eqn:E2; [exfalso; by vm_compute in E2| |
      exfalso; by vm_compute in E2].
    by exists k, u. }
  apply empty_state_wf.
Qed.

Lemma IsOn_modes_witness :
  @IsOn ascii_tables demo_start (bs "me!u@host") (bs "#chan") = true <->
  is_Some (@GetUsersChannelModes ascii_tables demo_start (bs "me!u@host") (bs "#chan")).
Proof. apply IsOn_modes, demo_start_wf. Defined.

Lemma demo_welcome_ok s1 :
  @note_sender ascii_tables demo_start demo_welcome = Ret s1 -> @event_ok ascii_tables s1 demo_welcome.
Proof.
  intros H1. split; [done|]. intros _ c [cu H].
  assert (s1 = demo_start) as -> by (injection H1 as <-; done). done.
Qed.

