(* ===== verification/StateRun.v ===== *)
(** * The state of a network: when an update returns, and runs of it

    The theorem on returning gives conditions under which an event is handled to the
    end; the concrete runs that follow show what happens outside them, and
    what the handlers do in the corners of the protocol. *)

From S2P Require Import Prelude GoStrings Hosts Fmt NetworkInfo Event Modes ChannelModes.
From S2P Require Import UserModes Channel State StateInv.

Section CaseMapping.
Context {CT : CaseTables}.

(** No table has a nil entry. *)
Definition no_nil (s : State) : Prop :=
  s.(users) !! [] <> Some None /\ s.(channels) !! [] <> Some None.

(** How many arguments a handler reads. *)
Definition args_needed (name : bytes) : nat :=
  if decide (name = KICK) then 2
  else if decide (name = RPL_TOPIC) then 3
  else if decide (name = RPL_BANLIST) then 3
  else if decide (name = RPL_CHANNELMODEIS) then 2
  else 1.

(** The events whose handlers depend on nothing but the number of arguments. *)
Definition plain_name (name : bytes) : Prop :=
  name ∉ [MODE; RPL_WELCOME; RPL_NAMREPLY; RPL_WHOREPLY].

Lemma index_lt {A} (l : list A) i : i < length l -> exists x, index l i = Ret x.
Proof. intros [x Hx]%lookup_lt_is_Some. exists x. by apply index_Ret. Qed.

Lemma no_nil_users s k p :
  state_wf s -> no_nil s -> s.(users) !! k = Some p -> exists l u, p = Some l /\ s.(uheap) !! l = Some u.
Proof.
  intros Hwf [Hn _] H. pose proof (wf_users _ Hwf _ _ H) as Hk.
  destruct p as [l|]; [destruct Hk as (u & Hu & _); eauto|]. subst. by destruct Hn.
Qed.

Lemma no_nil_channels s k p :
  state_wf s -> no_nil s -> s.(channels) !! k = Some p ->
  exists l c, p = Some l /\ s.(cheap) !! l = Some c.
Proof.
  intros Hwf [_ Hn] H. pose proof (wf_channels _ Hwf _ _ H) as Hk.
  destruct p as [l|]; [destruct Hk as (u & Hu & _); eauto|]. subst. by destruct Hn.
Qed.

Lemma note_sender_returns s ev :
  state_wf s -> no_nil s -> exists s1, note_sender s ev = Ret s1 /\ no_nil s1.
Proof.
  intros Hwf Hn. unfold note_sender. case_decide as He; [by exists s|].
  unfold addUser. cbn zeta. destruct (bool_decide ("."%char ∈ Sender ev) && _); [by exists s|].
  destruct (users s !! nick_key (Sender ev)) as [p|] eqn:E.
  - destruct (no_nil_users _ _ _ Hwf Hn E) as (l & u & -> & Hu).
    destruct (_ && _); [|by exists s]. cbn. rewrite Hu. cbn.
    eexists. split; [done|]. by case_decide.
  - unfold NewUser. rewrite decide_False by done. cbn.
    eexists. split; [done|]. destruct Hn as [H1 H2]. split; [|done]. cbn.
    destruct (decide (nick_key (Sender ev) = [])) as [->|Hk].
    + by rewrite lookup_insert_eq.
    + by rewrite lookup_insert_ne.
Qed.

Lemma self_returns s :
  state_wf s -> is_Some s.(self_user) -> exists u, user_at s s.(self_user) = Ret u.
Proof.
  intros Hwf [l Hl]. destruct (wf_self _ Hwf _ Hl) as [u Hu]. exists u.
  unfold user_at. rewrite Hl. cbn. by rewrite Hu.
Qed.

Lemma update_channel_returns s k p f :
  state_wf s -> no_nil s -> s.(channels) !! k = Some p -> exists s', update_channel s p f = Ret s'.
Proof.
  intros Hwf Hn H. destruct (no_nil_channels _ _ _ Hwf Hn H) as (l & c & -> & Hc).
  unfold update_channel. cbn. rewrite Hc. by eexists.
Qed.

Lemma GetChannel_returns s ch l f :
  state_wf s -> GetChannel s ch = Some l -> exists s', update_channel s (Some l) f = Ret s'.
Proof.
  intros Hwf H. unfold GetChannel in H. destruct (channels s !! ToLower ch) as [p|] eqn:E; [|done].
  cbn in H. subst. destruct (wf_channels _ Hwf _ _ E) as (c & Hc & _).
  unfold update_channel. cbn. rewrite Hc. by eexists.
Qed.

Lemma IsTargetChan_returns ev :
  0 < length ev.(Args) -> is_Some ev.(NetInfo) -> exists b, IsTargetChan ev = Ret b.
Proof.
  intros [x Hx]%index_lt [ni Hni]. unfold IsTargetChan. rewrite Hx, Hni. cbn.
  destruct x; eauto.
Qed.

(** Rewrite with the argument that is read next. *)
Ltac arg_returns i :=
  match goal with
  | |- context [index (Args ?ev) i] =>
      let x := fresh "x" in let Hx := fresh "Hx" in
      destruct (index_lt (Args ev) i) as [x Hx]; [lia|rewrite !Hx; cbn]
  end.

Lemma membership_returns s ev :
  state_wf s -> is_Some s.(self_user) -> 0 < length ev.(Args) ->
  (exists s', join s ev = Ret s') /\ (exists s', part s ev = Ret s') /\ (exists s', quit s ev = Ret s').
Proof.
  intros Hwf Hs Ha. destruct (self_returns _ Hwf Hs) as [u Hu].
  unfold join, part, quit, Self_Host. rewrite Hu. cbn. arg_returns 0.
  split; [|split; by eexists]. case_decide; by eexists.
Qed.

Lemma kick_returns s ev :
  state_wf s -> is_Some s.(self_user) -> 1 < length ev.(Args) -> exists s', kick s ev = Ret s'.
Proof.
  intros Hwf Hs Ha. destruct (self_returns _ Hwf Hs) as [u Hu].
  unfold kick, Self_Nick. arg_returns 1. rewrite Hu. cbn. arg_returns 0. by eexists.
Qed.

Lemma nick_returns s ev :
  state_wf s -> no_nil s -> 0 < length ev.(Args) -> exists s', nick s ev = Ret s'.
Proof.
  intros Hwf Hn Ha. unfold nick. destruct (SplitHost ev) as [[n u] h]. arg_returns 0.
  destruct (users s !! ToLower n) as [p|] eqn:E; [|by eexists].
  destruct (no_nil_users _ _ _ Hwf Hn E) as (l & x0 & -> & Hx0). cbn. rewrite Hx0. by eexists.
Qed.

Lemma topics_return s ev :
  state_wf s -> no_nil s ->
  (0 < length ev.(Args) -> exists s', topic_ s ev = Ret s') /\
  (2 < length ev.(Args) -> exists s', rplTopic s ev = Ret s').
Proof.
  intros Hwf Hn. unfold topic_, rplTopic. split; intros Ha.
  - arg_returns 0. destruct (channels s !! _) eqn:E; [|by eexists]. by eapply update_channel_returns.
  - arg_returns 1. destruct (channels s !! _) eqn:E; [|by eexists]. arg_returns 2. by eapply update_channel_returns.
Qed.

Lemma replies_return s ev :
  state_wf s ->
  (1 < length ev.(Args) -> exists s', rplChannelModeIs s ev = Ret s') /\
  (2 < length ev.(Args) -> exists s', rplBanList s ev = Ret s').
Proof.
  intros Hwf. unfold rplChannelModeIs, rplBanList. split; intros Ha; arg_returns 1.
  - unfold slice_from. rewrite decide_True by lia. cbn.
    destruct (GetChannel s x) eqn:E; [|by eexists]. by eapply GetChannel_returns.
  - destruct (GetChannel s x) eqn:E; [|by eexists]. arg_returns 2. by eapply GetChannel_returns.
Qed.

Lemma msg_returns s ev :
  0 < length ev.(Args) -> is_Some ev.(NetInfo) -> exists s', msg s ev = Ret s'.
Proof.
  intros Ha Hi. unfold msg. destruct (IsTargetChan_returns _ Ha Hi) as [b ->]. cbn.
  destruct b; [arg_returns 0|]; by eexists.
Qed.

(** What a handler is given must be enough for it. *)
Definition handleable (s : State) (ev : Event) : Prop :=
  plain_name ev.(Name) /\ args_needed ev.(Name) <= length ev.(Args) /\
  is_Some ev.(NetInfo) /\ is_Some s.(self_user).

Lemma handle_returns s ev :
  state_wf s -> no_nil s -> handleable s ev -> exists s', handle s ev = Ret s'.
Proof.
  intros Hwf Hn (Hp & Ha & Hi & Hs). unfold handle. cbn zeta.
  unfold plain_name in Hp. rewrite !not_elem_of_cons in Hp. destruct Hp as (P1 & P2 & P3 & P4 & _).
  assert (0 < length (Args ev)) as H0.
  { unfold args_needed in Ha. repeat case_decide; lia. }
  destruct (membership_returns _ _ Hwf Hs H0) as (Hj & Hpa & Hq).
  destruct (topics_return s ev Hwf Hn) as [Ht Hrt]. destruct (replies_return s ev Hwf) as [Hm Hb].
  case_bool_decide as E1; [by apply nick_returns|].
  case_bool_decide as E2; [done|]. case_bool_decide as E3; [done|]. case_bool_decide as E4; [done|].
  case_bool_decide as E5; [rewrite E5 in Ha; by apply kick_returns|].
  rewrite (bool_decide_false _ P1).
  case_bool_decide as E6; [by apply Ht|].
  case_bool_decide as E7; [rewrite E7 in Ha; by apply Hrt|].
  destruct (bool_decide _ || _); [by apply msg_returns|].
  rewrite (bool_decide_false _ P2), (bool_decide_false _ P3), (bool_decide_false _ P4).
  case_bool_decide as E8; [rewrite E8 in Ha; by apply Hm|].
  case_bool_decide as E9; [rewrite E9 in Ha; by apply Hb|].
  by eexists.
Qed.

(** A user that changes the case of its nick is forgotten: the entry written
    under the new key is the one that is deleted next. *)
Theorem nick_case_forgets s ev s' :
  ToLower (SplitHost ev).1.1 = ToLower (arg ev 0) -> nick s ev = Ret s' ->
  s'.(users) !! ToLower (arg ev 0) = None.
Proof.
  intros Hk. unfold nick. destruct (SplitHost ev) as [[n u] h]. cbn in Hk.
  intros (a & Ha & H)%bind_Ret_inv. rewrite (index_arg _ _ _ Ha) in *. rewrite Hk in H.
  destruct (users s !! ToLower a) as [p|] eqn:E; [|by injection H as <-].
  apply bind_Ret_inv in H as (l & _ & H). apply bind_Ret_inv in H as (x & _ & H).
  injection H as <-. cbn. apply lookup_delete_eq.
Qed.

(** Before the client is welcomed there is no client to compare the sender
    with, and the first join, part, quit or kick panics. *)
Theorem unwelcomed_panics s ev :
  s.(self_user) = None ->
  join s ev = Panic /\ part s ev = Panic /\ quit s ev = Panic /\ kick s ev = Panic.
Proof.
  intros Hs. unfold join, part, quit, kick, Self_Host, Self_Nick, user_at. rewrite Hs. cbn.
  repeat split. by destruct (index _ _).
Qed.

(** A mode message for the client whose nick is written with a capital is
    ignored: the target is folded and the client's nick is not. *)
Theorem mode_capital_ignored s ev u a :
  IsTargetChan ev = Ret false -> user_at s s.(self_user) = Ret u ->
  index ev.(Args) 0 = Ret a -> ToLower (User_Nick u) <> User_Nick u ->
  mode s ev = Ret s.
Proof.
  intros Hc Hu Ha Hn. unfold mode. rewrite Ha, Hc. cbn. unfold Self_Nick. rewrite Hu. cbn.
  rewrite decide_False; [done|]. intros E. apply Hn. rewrite <- E. apply ToLower_idem.
Qed.

Lemma Update_runs s ev :
  state_wf s -> no_nil s -> handleable s ev -> exists s', Update s ev = Ret s'.
Proof.
  intros Hwf Hn Hh. destruct (note_sender_returns s ev Hwf Hn) as (s1 & H1 & Hn1).
  pose proof (note_sender_refines _ _ _ Hwf H1) as R1.
  destruct (handle_returns s1 ev (rf_wf _ _ _ R1) Hn1) as [s' Hs'].
  { destruct Hh as (P1 & P2 & P3 & P4). repeat split; [done..|]. by rewrite (rf_self _ _ _ R1). }
  exists s'. by rewrite Update_note, H1.
Qed.

(** An event returns, whatever it says, when the client has been welcomed,
    the event knows its network, it has the arguments its handler reads, the
    tables have no nil entries, and it is not one of the four events whose
    handlers follow pointers that the event's text chooses. *)
Theorem Update_returns s ev :
  state_wf s -> no_nil s -> handleable s ev -> exists s', Update s ev = Ret s'.
Proof. apply Update_runs. Qed.
End CaseMapping.

(** ** Runs *)

Definition demo_welcomed : State :=
  match @Update ascii_tables demo_start demo_welcome with Ret s => s | Panic => demo_start end.

Lemma demo_welcomed_wf : @state_wf ascii_tables demo_welcomed.
Proof.
  unfold demo_welcomed. destruct (@Update ascii_tables demo_start demo_welcome) as [s|] eqn:E.
  - exact (@Update_wf ascii_tables _ _ _ demo_start_wf demo_welcome_ok E).
  - apply demo_start_wf.
Qed.

Lemma Update_returns_witness :
  exists s', @Update ascii_tables demo_welcomed
    (demo_event PRIVMSG (bs "nick!user@host") [bs "#chan"; bs "hello"]) = Ret s'.
Proof.
  apply Update_returns; [apply demo_welcomed_wf|split; decide_now|].
  split; [decide_now|split; [decide_now|split; decide_now]].
Defined.

Definition run (s : State) (evs : list Event) : go State := go_fold (@Update ascii_tables) s evs.

(** The client is welcomed and joins a channel where another user is. *)
Definition demo_joined : list Event := [
  demo_welcome;
  demo_event JOIN (bs "me!u@host") [bs "#Chan"];
  demo_event JOIN (bs "Bob!b@home") [bs "#chan"];
  demo_event MODE (bs "me!u@host") [bs "#chan"; bs "+om"; bs "bob"] ].

Example demo_joined_state :
  option_map (fun s => (@GetNChanUsers ascii_tables s (bs "#CHAN"),
                        @IsOn ascii_tables s (bs "BOB") (bs "#chan"),
                        l ← @GetUsersChannelModes ascii_tables s (bs "bob") (bs "#chan");
                        UserModes_String s.(sumodes) <$> s.(mheap) !! l))
    (match run demo_start demo_joined with Ret s => Some s | Panic => None end)
  = Some (2, true, Some (bs "o")).
Proof. by vm_compute. Qed.

(** A message of a server that makes a handler panic, after others. *)
Definition panics_after (evs : list Event) (ev : Event) : bool :=
  match run demo_start evs with Ret s => is_panic (@Update ascii_tables s ev) | Panic => false end.

(** A mode for a nick that is not on the channel. *)
Theorem mode_unknown_nick_panics :
  panics_after demo_joined (demo_event MODE (bs "me!u@host") [bs "#chan"; bs "+o"; bs "ghost"]) = true.
Proof. by vm_compute. Qed.

(** A list of names with a symbol, for a channel the client is not on. *)
Theorem names_unknown_channel_panics :
  panics_after demo_joined
    (demo_event RPL_NAMREPLY (bs "irc.test.net") [bs "me"; bs "="; bs "#other"; bs "@bob"]) = true.
Proof. by vm_compute. Qed.

(** A reply to WHO without a space in its last argument. *)
Theorem who_no_hops_panics :
  panics_after demo_joined
    (demo_event RPL_WHOREPLY (bs "irc.test.net")
       [bs "me"; bs "#chan"; bs "b"; bs "home"; bs "irc.test.net"; bs "bob"; bs "H"; bs "0"]) = true.
Proof. by vm_compute. Qed.

(** A list of names with a symbol and no nick after it leaves a nil user in
    the table, which the next listing of the users follows. *)
Theorem bare_symbol_nil_user :
  match run demo_start (demo_joined ++
      [demo_event RPL_NAMREPLY (bs "irc.test.net") [bs "me"; bs "="; bs "#chan"; bs "@"]]) with
  | Ret s => s.(users) !! [] = Some None /\ is_panic (GetUsers s) = true
  | Panic => False
  end.
Proof. vm_compute. by split. Qed.
