(* ===== verification/StateCrash.v ===== *)
(** * The state of a network: exactly which messages make an update panic

    [StateRun.v] gives conditions under which an update returns.  Here they
    are exact, for every event: [crash] says, by looking at the tables only,
    whether handling an event comes to an index out of range or a nil
    pointer, and what keeps the tables free of nil entries. *)

From S2P Require Import Prelude GoStrings Hosts Fmt NetworkInfo Event Modes ChannelModes.
From S2P Require Import UserModes Channel State StateInv StateRun.

Section CaseMapping.
Context {CT : CaseTables}.

(** ** The condition *)

Definition few (ev : Event) (n : nat) : bool := bool_decide (length ev.(Args) < n).
Definition no_self (s : State) : bool := bool_decide (s.(self_user) = None).
Definition known_channel (s : State) (c : bytes) : bool := bool_decide (is_Some (s.(channels) !! ToLower c)).

(** The nick behind the symbol of a mode, when a listed name has one *)
Definition symbol_nick (u : UserModeKinds) (name : bytes) : option bytes :=
  c ← head name; _ ← list_find (fun i => i.2 = code c) u.(modeInfo); Some (drop 1 name).

(** The keys of the known users, with one more that is seen *)
Definition seen (h : bytes) (U : gset bytes) : gset bytes := if is_server h then U else {[nick_key h]} ∪ U.

(** A name with a symbol is given modes on the channel, which must be known,
    and so must the name be: what looks like a server's is not made known. *)
Fixpoint names_crash (u : UserModeKinds) (known : bool) (U : gset bytes) (names : list bytes) : bool :=
  match names with
  | [] => false
  | name :: names =>
    match symbol_nick u name with
    | Some nick =>
      let U := seen nick U in
      negb (known && bool_decide (nick_key nick ∈ U)) || names_crash u known U names
    | None => names_crash u known (seen name U) names
    end
  end.

(** Someone that a mode string names is not on the channel. *)
Definition strangers (s : State) (ev : Event) : bool :=
  let ops := mode_ops (state_kinds s) (Join (drop 1 ev.(Args)) (bs " ")) in
  existsb (fun um => bool_decide (channel_user s (ToLower (arg ev 0)) (ToLower um.(um_Arg)) = None)) (ops.1.2 ++ ops.2).

(** The greeting ends in no name, and neither does its address give one. *)
Definition no_name (ev : Event) : bool := few ev 2 || bool_decide (last (Fields (arg ev 1)) = None) || bool_decide (welcome_host ev = []).

(** Whether handling the event panics, when its sender is noted *)
Definition crash (s : State) (ev : Event) : bool :=
  let named n := bool_decide (ev.(Name) = n) in
  if named NICK then few ev 1 else
  if named JOIN then no_self s || few ev 1 else
  if named PART then no_self s || few ev 1 else
  if named QUIT then no_self s else
  if named KICK then no_self s || few ev 2 else
  if named MODE then
    match IsTargetChan ev with
    | Panic => true
    | Ret true => known_channel s (arg ev 0) && strangers s ev
    | Ret false => no_self s || (few ev 2 && bool_decide (Some (ToLower (arg ev 0)) = User_Nick <$> self_of s))
    end else
  if named TOPIC then few ev 1 else
  if named RPL_TOPIC then few ev 2 || (few ev 3 && known_channel s (arg ev 1)) else
  if named PRIVMSG || named NOTICE then is_panic (IsTargetChan ev) else
  if named RPL_WELCOME then no_name ev else
  if named RPL_NAMREPLY then
    few ev 4 || names_crash s.(sumodes) (known_channel s (arg ev 2)) (dom s.(users)) (Fields (arg ev 3)) else
  if named RPL_WHOREPLY then few ev 8 || bool_decide ((SplitN2 (arg ev 7) " ").2 = None) else
  if named RPL_CHANNELMODEIS then few ev 2 else
  if named RPL_BANLIST then few ev 2 || (few ev 3 && known_channel s (arg ev 1)) else false.

(** What would leave a nil entry behind: a symbol with no name, and a channel
    with none that the client joins *)
Definition clean (s : State) (ev : Event) : Prop :=
  (ev.(Name) = RPL_NAMREPLY -> forall name, name ∈ Fields (arg ev 3) -> symbol_nick s.(sumodes) name <> Some []) /\
  (ev.(Name) = JOIN -> arg ev 0 <> []).

(** ** Computations that panic under a condition *)

Definition fails {A} (m : go A) (b : bool) : Prop := is_panic m = b.

Lemma fails_bind {A B} (m : go A) (f : A -> go B) b c :
  fails m b -> (forall a, m = Ret a -> fails (f a) c) -> fails (m ≫= f) (b || c).
Proof. unfold fails. destruct m as [a|]; cbn; [|by intros <-]. intros <- H. by apply H. Qed.

Lemma fails_returns {A} (m : go A) b : fails m b -> b = false -> exists a, m = Ret a.
Proof. unfold fails. destruct m; cbn; [by eexists|]. by intros <-. Qed.

Lemma index_few ev i : fails (index ev.(Args) i) (few ev (S i)).
Proof.
  unfold fails, few. destruct (index (Args ev) i) as [x|] eqn:E; cbn; symmetry.
  - apply index_Ret in E. apply bool_decide_eq_false. apply lookup_lt_Some in E. lia.
  - apply bool_decide_eq_true. unfold index in E. destruct (Args ev !! i) eqn:E'; [done|].
    apply lookup_ge_None in E'. lia.
Qed.

Lemma few_S ev n : few ev n = true -> few ev (S n) = true.
Proof. unfold few. rewrite !bool_decide_eq_true. lia. Qed.

Lemma self_fails s : state_wf s -> fails (user_at s s.(self_user)) (no_self s).
Proof.
  intros Hwf. unfold fails, no_self. destruct (self_user s) as [l|] eqn:E.
  - destruct (self_returns s Hwf) as [u Hu]; [by rewrite E|]. rewrite E in Hu. rewrite Hu. done.
  - done.
Qed.

Lemma index_Panic ev i : few ev (S i) = true -> index (Args ev) i = Panic.
Proof. pose proof (index_few ev i) as H. intros E. rewrite E in H. unfold fails in H. by destruct (index _ _). Qed.

Lemma index_arg_Ret ev i : few ev (S i) = false -> index (Args ev) i = Ret (arg ev i).
Proof.
  pose proof (index_few ev i) as H. intros E. rewrite E in H. unfold fails in H.
  destruct (index (Args ev) i) eqn:Ei; [|done]. by rewrite (index_arg _ _ _ Ei).
Qed.

Lemma few_lt ev n : few ev n = false -> n <= length (Args ev).
Proof. unfold few. rewrite bool_decide_eq_false. lia. Qed.
Lemma few_mono ev m n : m <= n -> few ev n = false -> few ev m = false.
Proof. unfold few. rewrite !bool_decide_eq_false. lia. Qed.

Lemma index_args ev n i : few ev n = false -> i < n -> index (Args ev) i = Ret (arg ev i).
Proof. intros Hf Hi. apply index_arg_Ret. by apply (few_mono _ _ n). Qed.

(** ** The handlers *)

Section Handlers.
Context (s : State) (ev : Event) (Hwf : state_wf s) (Hn : no_nil s).

Lemma nick_fails : fails (nick s ev) (few ev 1).
Proof.
  unfold fails. destruct (few ev 1) eqn:E.
  - unfold nick. destruct (SplitHost ev) as [[? ?] ?]. by rewrite index_Panic.
  - apply few_lt in E. by destruct (nick_returns s ev Hwf Hn) as [s' ->].
Qed.

Lemma Self_Host_fails : fails (Self_Host s) (no_self s).
Proof. pose proof (self_fails s Hwf) as H. unfold Self_Host. unfold fails in *. by destruct (user_at _ _). Qed.
Lemma Self_Nick_fails : fails (Self_Nick s) (no_self s).
Proof. pose proof (self_fails s Hwf) as H. unfold Self_Nick. unfold fails in *. by destruct (user_at _ _). Qed.

Lemma membership_fails :
  fails (join s ev) (no_self s || few ev 1) /\ fails (part s ev) (no_self s || few ev 1) /\
  fails (quit s ev) (no_self s).
Proof.
  unfold join, part, quit. split; [|split].
  - apply fails_bind; [apply Self_Host_fails|]. intros h _. destruct (few ev 1) eqn:E.
    + rewrite (index_Panic ev 0) by done. by case_decide.
    + rewrite (index_arg_Ret ev 0) by done. by case_decide.
  - apply fails_bind; [apply Self_Host_fails|]. intros h _. unfold fails. pose proof (index_few ev 0) as Hi.
    unfold fails in Hi. by destruct (index _ _).
  - rewrite <- (orb_false_r (no_self s)). by apply fails_bind; [apply Self_Host_fails|].
Qed.

Lemma kick_fails : fails (kick s ev) (no_self s || few ev 2).
Proof.
  unfold kick. rewrite orb_comm. apply fails_bind; [apply (index_few ev 1)|]. intros who Hwho.
  rewrite <- (orb_false_r (no_self s)). apply fails_bind; [apply Self_Nick_fails|]. intros h _.
  rewrite index_arg_Ret; [done|]. apply (few_mono _ _ 2); [lia|].
  pose proof (index_few ev 1) as Hi. unfold fails in Hi. by rewrite Hwho in Hi.
Qed.

Lemma update_channel_fails k p f : s.(channels) !! k = Some p -> fails (update_channel s p f) false.
Proof. intros H. by destruct (update_channel_returns s k p f Hwf Hn H) as [s' ->]. Qed.

Lemma known_channel_Some c p : s.(channels) !! ToLower c = Some p -> known_channel s c = true.
Proof. intros H. apply bool_decide_eq_true. by rewrite H. Qed.
Lemma known_channel_None c : s.(channels) !! ToLower c = None -> known_channel s c = false.
Proof. intros H. apply bool_decide_eq_false. rewrite H. by intros []. Qed.

(** No entry of the table of channels is nil. *)
Lemma GetChannel_known c : known_channel s c = bool_decide (is_Some (GetChannel s c)).
Proof.
  unfold known_channel, GetChannel. destruct (channels s !! ToLower c) as [p|] eqn:E; [|done].
  destruct (no_nil_channels _ _ _ Hwf Hn E) as (l & ch & -> & _). done.
Qed.

Lemma topics_fail :
  fails (topic_ s ev) (few ev 1) /\
  fails (rplTopic s ev) (few ev 2 || (few ev 3 && known_channel s (arg ev 1))).
Proof.
  unfold topic_, rplTopic. split.
  - rewrite <- (orb_false_r (few ev 1)). apply fails_bind; [apply (index_few ev 0)|]. intros a _.
    destruct (channels s !! ToLower a) eqn:E; [|done]. by eapply update_channel_fails.
  - apply fails_bind; [apply (index_few ev 1)|]. intros a Ha. rewrite (index_arg _ _ _ Ha).
    destruct (channels s !! ToLower a) as [p|] eqn:E.
    + rewrite (known_channel_Some _ _ E), andb_true_r, <- (orb_false_r (few ev 3)).
      apply fails_bind; [apply (index_few ev 2)|]. intros t _. by eapply update_channel_fails.
    + by rewrite (known_channel_None _ E), andb_false_r.
Qed.

Lemma replies_fail :
  fails (rplChannelModeIs s ev) (few ev 2) /\
  fails (rplBanList s ev) (few ev 2 || (few ev 3 && known_channel s (arg ev 1))).
Proof.
  assert (forall c l f, GetChannel s c = Some l -> fails (update_channel s (Some l) f) false) as Hup.
  { intros c l f H. by destruct (GetChannel_returns s c l f Hwf H) as [s' ->]. }
  unfold rplChannelModeIs, rplBanList. split.
  - rewrite <- (orb_false_r (few ev 2)). apply fails_bind; [apply (index_few ev 1)|]. intros a Ha.
    unfold slice_from. rewrite decide_True.
    2:{ apply index_Ret, lookup_lt_Some in Ha. lia. }
    cbn. destruct (GetChannel s a) eqn:E; [by eapply Hup|done].
  - apply fails_bind; [apply (index_few ev 1)|]. intros a Ha. rewrite (index_arg _ _ _ Ha), GetChannel_known.
    destruct (GetChannel s a) eqn:E; [|by rewrite andb_false_r].
    rewrite bool_decide_true, andb_true_r, <- (orb_false_r (few ev 3)) by done.
    apply fails_bind; [apply (index_few ev 2)|]. intros t _. by eapply Hup.
Qed.

Lemma msg_fails : fails (msg s ev) (is_panic (IsTargetChan ev)).
Proof.
  unfold msg. rewrite <- (orb_false_r (is_panic _)). apply fails_bind; [done|]. intros b Hb.
  destruct b; [|done]. unfold IsTargetChan in Hb. destruct (index (Args ev) 0); [done|]. done.
Qed.

Lemma rplWelcome_fails : fails (rplWelcome s ev) (no_name ev).
Proof.
  unfold rplWelcome, no_name. rewrite <- orb_assoc. apply fails_bind; [apply (index_few ev 1)|].
  intros a Ha. rewrite (index_arg _ _ _ Ha). apply fails_bind; [by destruct (last (Fields a))|].
  intros h Hh. apply deref_Ret in Hh. unfold welcome_host. rewrite (index_arg _ _ _ Ha), Hh. cbn.
  assert (few ev 1 = false) as Hfew.
  { unfold few. apply bool_decide_eq_false. apply index_Ret, lookup_lt_Some in Ha. lia. }
  destruct (_ && _); cbn; rewrite ?(index_arg_Ret ev 0) by done; cbn; unfold NewUser.
  - destruct (decide (h = [])); [by rewrite bool_decide_true|by rewrite bool_decide_false].
  - destruct (decide (arg ev 0 = [])); [by rewrite bool_decide_true|by rewrite bool_decide_false].
Qed.
End Handlers.

(** ** Modes *)

Lemma user_mode_fails s target n mode on_ :
  state_wf s -> fails (set_user_mode s (cu_modes <$> channel_user s target n) mode on_)
    (bool_decide (channel_user s target n = None)).
Proof.
  intros Hwf. unfold fails, set_user_mode. destruct (channel_user s target n) as [cu|] eqn:E; cbn; [|done].
  by destruct (wf_chan_user _ Hwf _ _ _ E) as (_ & [m ->] & _).
Qed.

Lemma apply_user_modes_fails target on_ s ums :
  state_wf s -> fails (apply_user_modes target on_ s ums)
    (existsb (fun um => bool_decide (channel_user s target (ToLower um.(um_Arg)) = None)) ums).
Proof.
  intros Hwf. unfold apply_user_modes. revert s Hwf. induction ums as [|um ums IH]; intros s Hwf; cbn; [done|].
  apply fails_bind; [by apply user_mode_fails|]. intros s1 H1.
  destruct (set_user_mode_ok _ _ _ _ _ Hwf H1) as [W1 T1]. pose proof (IH s1 W1) as H.
  destruct T1 as (_ & _ & T & _). unfold channel_user in *. by rewrite T in H.
Qed.

Lemma mode_fails s ev :
  state_wf s -> no_nil s ->
  fails (mode s ev)
    (match IsTargetChan ev with
     | Panic => true
     | Ret true => known_channel s (arg ev 0) && strangers s ev
     | Ret false => no_self s || (few ev 2 && bool_decide (Some (ToLower (arg ev 0)) = User_Nick <$> self_of s))
     end).
Proof.
  intros Hwf Hn. unfold mode. destruct (index (Args ev) 0) as [a|] eqn:Ha; cbn [mbind go_bind].
  2:{ unfold IsTargetChan. by rewrite Ha. }
  rewrite (index_arg _ _ _ Ha). destruct (IsTargetChan ev) as [[]|]; cbn [mbind go_bind]; [| |done].
  - destruct (channels s !! ToLower a) as [p|] eqn:Ec; [|by rewrite (known_channel_None _ _ Ec)].
    rewrite (known_channel_Some _ _ _ Ec). cbn [andb].
    destruct (no_nil_channels _ _ _ Hwf Hn Ec) as (l & c & -> & Hc).
    unfold slice_from. rewrite decide_True by (apply index_Ret, lookup_lt_Some in Ha; lia).
    cbn [mbind go_bind deref]. rewrite Hc. cbn [mbind go_bind deref].
    set (ops := mode_ops (state_kinds s) (Join (drop 1 (Args ev)) (bs " "))).
    assert (Apply (state_kinds s) (cmodes c) (Join (drop 1 (Args ev)) (bs " ")) =
      (foldl run_op (cmodes c) ops.1.1, ops.1.2, ops.2)) as -> by apply apply_trace.
    set (s0 := set_cheap s _).
    assert (state_wf s0) as W0.
    { eapply wf_set_cheap; [done|done|done|]. apply run_ops_wf. by apply (wf_cmodes _ Hwf _ _ Hc). }
    unfold strangers. rewrite existsb_app, (index_arg _ _ _ Ha).
    apply fails_bind; [apply (apply_user_modes_fails _ true s0 ops.1.2 W0)|]. intros s1 H1.
    destruct (apply_user_modes_ok _ _ _ _ _ W0 H1) as [W1 T1].
    pose proof (apply_user_modes_fails (ToLower a) false s1 ops.2 W1) as H.
    destruct T1 as (_ & _ & T & _). unfold channel_user in *. by rewrite T in H.
  - apply fails_bind; [by apply Self_Nick_fails|]. intros h Hh%Self_Nick_self. rewrite Hh.
    destruct (decide (ToLower a = h)) as [->|Hne].
    + rewrite bool_decide_true, andb_true_r, <- (orb_false_r (few ev 2)) by done.
      by apply fails_bind; [apply (index_few ev 1)|].
    + rewrite bool_decide_false, andb_false_r by congruence. done.
Qed.

(** ** Names *)

(** The abstraction of a state *)
Definition memberships (s : State) : gmap (bytes * bytes) ChannelUser :=
  map_uncurry (M1 := gmap bytes) (M2 := gmap bytes) s.(channelUsers).
Definition world_of (s : State) : world := {|
  w_users := dom s.(users); w_chans := dom s.(channels);
  w_on := set_map (C := gset (bytes * bytes)) (fun p => (p.2, p.1)) (dom (memberships s));
|}.

Lemma world_of_represents s : represents s (world_of s).
Proof.
  split; [done|]. split; [done|]. intros n c. cbn. rewrite elem_of_map. unfold on, channel_user, memberships.
  split.
  - intros ([c' n'] & [= -> ->] & H%elem_of_dom). by rewrite lookup_map_uncurry in H.
  - intros H. exists (c, n). split; [done|]. apply elem_of_dom. by rewrite lookup_map_uncurry.
Qed.

Lemma addUser_returns s h :
  state_wf s -> no_nil s -> h <> [] ->
  exists p s', addUser s h = Ret (p, s') /\ no_nil s' /\ s'.(sumodes) = s.(sumodes) /\
    dom s'.(users) = seen h (dom s.(users)) /\ s'.(channels) = s.(channels) /\ s'.(channelUsers) = s.(channelUsers).
Proof.
  intros Hwf Hn He. unfold addUser, seen, is_server. cbn zeta.
  destruct (bool_decide ("."%char ∈ h) && _); [by eexists _, _|].
  destruct (users s !! nick_key h) as [p|] eqn:E.
  - assert (dom (users s) = {[nick_key h]} ∪ dom (users s)) as Hd by (apply elem_of_dom_2 in E; set_solver).
    destruct (no_nil_users _ _ _ Hwf Hn E) as (l & u & -> & Hu).
    destruct (_ && _); [|by eexists _, _]. cbn. rewrite Hu. cbn.
    eexists _, _. split; [done|]. by case_decide.
  - unfold NewUser. rewrite decide_False by done. cbn. eexists _, _. split; [done|]. split; [|split; [done|]].
    + destruct Hn as [H1 H2]. split; [|done]. cbn. rewrite lookup_insert_Some. naive_solver.
    + split; [|done]. cbn. by rewrite dom_insert_L.
Qed.

Lemma addToChannel_keeps s h c :
  (addToChannel s h c).(users) = s.(users) /\ (addToChannel s h c).(channels) = s.(channels) /\
  (addToChannel s h c).(sumodes) = s.(sumodes).
Proof. unfold addToChannel. repeat case_match; done. Qed.

(** Someone is on the channel it is entered to when both are known. *)
Lemma addToChannel_on s h c :
  state_wf s ->
  bool_decide (channel_user (addToChannel s h c) (ToLower c) (nick_key h) = None) =
  negb (known_channel s c && bool_decide (nick_key h ∈ dom s.(users))).
Proof.
  intros Hwf. pose proof (addToChannel_refines s h c Hwf) as [W R _ _].
  specialize (R _ (world_of_represents s)) as (_ & _ & R). specialize (R (nick_key h) (ToLower c)).
  destruct (world_of_represents s) as (_ & _ & R0). specialize (R0 (nick_key h) (ToLower c)).
  assert (on (addToChannel s h c) (nick_key h) (ToLower c) <->
          nick_key h ∈ dom s.(users) /\ ToLower c ∈ dom s.(channels)) as Hon.
  { rewrite <- R. unfold w_enter. cbn [w_users w_chans world_of]. case_decide as Hk; [split; [done|]; intros _; cbn; set_solver|].
    rewrite R0. split; [|done]. intros [H1 H2]%on_known; [|done]. by split; apply elem_of_dom. }
  rewrite elem_of_dom in Hon. unfold on in Hon. unfold known_channel. apply Bool.eq_iff_eq_true.
  rewrite negb_true_iff, andb_false_iff, !bool_decide_eq_true, !bool_decide_eq_false. rewrite elem_of_dom in Hon |- *.
  rewrite eq_None_not_Some, Hon. split; [|naive_solver]. intros H.
  destruct (channels s !! ToLower c) eqn:E; [right; intros ?; apply H; by split|left; by intros []].
Qed.

(** What is done with one name *)
Lemma name_reply_fails channel s name :
  state_wf s -> no_nil s -> name <> [] -> symbol_nick s.(sumodes) name <> Some [] ->
  fails (name_reply channel s name)
    (match symbol_nick s.(sumodes) name with
     | Some nick => negb (known_channel s channel && bool_decide (nick_key nick ∈ seen nick (dom s.(users))))
     | None => false
     end) /\
  forall s', name_reply channel s name = Ret s' ->
    no_nil s' /\ s'.(sumodes) = s.(sumodes) /\ s'.(channels) = s.(channels) /\
    dom s'.(users) = seen (default name (symbol_nick s.(sumodes) name)) (dom s.(users)).
Proof.
  intros Hwf Hn Hne. unfold name_reply, symbol_nick. destruct name as [|c rest]; [done|]. cbn [head mbind option_bind].
  change (index (c :: rest) 0) with (Ret c). cbn [mbind go_bind].
  destruct (list_find _ _) as [[j i]|]; cbn [mbind option_bind default]; intros Hsym; try change (drop 1 (c :: rest)) with rest in *.
  - assert (rest <> []) as Hrest by (intros ->; by apply Hsym).
    destruct (addUser_returns s rest Hwf Hn Hrest) as (p & s1 & E & Hn1 & K1 & D1 & C1 & _). rewrite E. cbn [mbind go_bind].
    pose proof (addUser_refines _ _ _ _ Hwf E) as R1. pose proof (rf_wf _ _ _ R1) as W1.
    destruct (addToChannel_keeps s1 rest channel) as (U2 & C2 & K2).
    pose proof (rf_wf _ _ _ (addToChannel_refines s1 rest channel W1)) as W2. split.
    + rewrite <- D1. assert (known_channel s channel = known_channel s1 channel) as -> by (unfold known_channel; by rewrite C1).
      rewrite <- addToChannel_on by done. by apply user_mode_fails.
    + intros s' H. destruct (set_user_mode_ok _ _ _ _ _ W2 H) as [W3 (T1 & T2 & _ & _ & _ & _ & T7)].
      split; [|by rewrite T7, K2, K1, T2, C2, C1, T1, U2, D1].
      destruct Hn1 as [N1 N2]. split; [by rewrite T1, U2|by rewrite T2, C2].
  - destruct (addUser_returns s (c :: rest) Hwf Hn Hne) as (p & s1 & E & Hn1 & K1 & D1 & C1 & _). rewrite E. cbn [mbind go_bind].
    destruct (addToChannel_keeps s1 (c :: rest) channel) as (U2 & C2 & K2). split; [done|].
    intros s' [= <-]. rewrite K2, C2, U2. split; [|done]. destruct Hn1. by split; [rewrite U2|rewrite C2].
Qed.

Lemma names_fail channel s names :
  state_wf s -> no_nil s -> Forall (fun n => n <> []) names ->
  (forall n, n ∈ names -> symbol_nick s.(sumodes) n <> Some []) ->
  fails (go_fold (name_reply channel) s names)
    (names_crash s.(sumodes) (known_channel s channel) (dom s.(users)) names) /\
  forall s', go_fold (name_reply channel) s names = Ret s' -> no_nil s'.
Proof.
  revert s. induction names as [|name names IH]; intros s Hwf Hn Hne Hsym; cbn [go_fold names_crash].
  { split; [done|]. by intros s' [= <-]. }
  apply Forall_cons in Hne as [Hname Hne].
  destruct (name_reply_fails channel s name Hwf Hn Hname (Hsym name ltac:(by left))) as [Hf Hnext].
  assert (forall s1, name_reply channel s name = Ret s1 ->
    fails (go_fold (name_reply channel) s1 names)
      (names_crash s.(sumodes) (known_channel s channel)
        (seen (default name (symbol_nick s.(sumodes) name)) (dom s.(users))) names) /\
    forall s', go_fold (name_reply channel) s1 names = Ret s' -> no_nil s') as Hrest.
  { intros s1 H1. destruct (Hnext s1 H1) as (N1 & K1 & C1 & D1).
    pose proof (rf_wf _ _ _ (name_reply_refines _ _ _ _ Hwf H1)) as W1.
    specialize (IH s1 W1 N1 Hne). rewrite K1, D1 in IH.
    assert (known_channel s1 channel = known_channel s channel) as E by (unfold known_channel; by rewrite C1).
    rewrite E in IH. apply IH. intros n Hin. apply Hsym. by right. }
  split.
  - destruct (symbol_nick (sumodes s) name) as [nick|]; cbn [default] in *.
    + apply fails_bind; [exact Hf|]. intros s1 H1. by apply Hrest.
    + rewrite <- (orb_false_l (names_crash _ _ _ _)). apply fails_bind; [exact Hf|]. intros s1 H1. by apply Hrest.
  - intros s' (s1 & H1 & H2)%bind_Ret_inv. by eapply Hrest.
Qed.

Lemma rplNameReply_fails s ev :
  state_wf s -> no_nil s -> (forall name, name ∈ Fields (arg ev 3) -> symbol_nick s.(sumodes) name <> Some []) ->
  fails (rplNameReply s ev)
    (few ev 4 || names_crash s.(sumodes) (known_channel s (arg ev 2)) (dom s.(users)) (Fields (arg ev 3))) /\
  forall s', rplNameReply s ev = Ret s' -> no_nil s'.
Proof.
  intros Hwf Hn Hsym. unfold rplNameReply.
  destruct (names_fail (arg ev 2) s (Fields (arg ev 3)) Hwf Hn (Fields_nonempty _) Hsym) as [Hf Hnext].
  destruct (few ev 4) eqn:E4.
  - cbn. destruct (index (Args ev) 2); cbn; [|done]. by rewrite (index_Panic ev 3).
  - rewrite (index_arg_Ret ev 2) by (by eapply few_mono; [|exact E4]; lia). rewrite (index_arg_Ret ev 3) by done.
    by split.
Qed.

(** ** Who *)

Lemma who_mode_fails fullhost channel s r : state_wf s -> fails (who_mode fullhost channel s r) false.
Proof.
  intros Hwf. unfold who_mode. case_decide; [done|]. unfold GetUsersChannelModes.
  pose proof (user_mode_fails s (ToLower channel) (nick_key fullhost) (GetMode (sumodes s) r) true Hwf) as Hf.
  destruct (channel_user s _ _); [exact Hf|done].
Qed.

Lemma who_modes_fail fullhost channel rs s : state_wf s -> fails (go_fold (who_mode fullhost channel) s rs) false.
Proof.
  revert s. induction rs as [|r rs IH]; intros s Hwf; cbn [go_fold]; [done|].
  change false with (false || false). apply fails_bind; [by apply who_mode_fails|]. intros s1 H1.
  apply IH. apply (who_modes_ok fullhost channel [r] s s1 Hwf). cbn [go_fold]. by rewrite H1.
Qed.

Lemma who_host_full ev : bool_decide ("!"%char ∈ who_host ev) && bool_decide ("@"%char ∈ who_host ev) = true.
Proof.
  unfold who_host. rewrite !bool_decide_true; [done|..]; rewrite !elem_of_app; [right; right; right; left|right; left]; by apply list_elem_of_singleton.
Qed.

Lemma rplWhoReply_fails s ev :
  state_wf s -> no_nil s ->
  fails (rplWhoReply s ev) (few ev 8 || bool_decide ((SplitN2 (arg ev 7) " ").2 = None)) /\
  forall s', rplWhoReply s ev = Ret s' -> no_nil s'.
Proof.
  intros Hwf Hn.
  assert (who_host ev <> []) as Hne by (unfold who_host; intros [_ [=]]%app_eq_nil).
  destruct (addUser_returns s (who_host ev) Hwf Hn Hne) as (p & s1 & E & Hn1 & _ & D1 & _ & _).
  pose proof (addUser_refines _ _ _ _ Hwf E) as R1. pose proof (rf_wf _ _ _ R1) as W1.
  pose proof (addToChannel_keeps s1 (who_host ev) (arg ev 1)) as (U2 & C2 & _).
  pose proof (rf_wf _ _ _ (addToChannel_refines s1 (who_host ev) (arg ev 1) W1)) as W2.
  set (s2 := addToChannel s1 (who_host ev) (arg ev 1)) in *.
  assert (exists l u, GetUser s2 (who_host ev) = Some l /\ s2.(uheap) !! l = Some u) as (l & u & Hl & Hu).
  { assert (nick_key (who_host ev) ∈ dom s2.(users)) as [q Hq]%elem_of_dom.
    { rewrite U2, D1. unfold seen, is_server. rewrite who_host_full, andb_false_r. set_solver. }
    assert (no_nil s2) as Hn2 by (destruct Hn1; by split; [rewrite U2|rewrite C2]).
    destruct (no_nil_users _ _ _ W2 Hn2 Hq) as (l & u & -> & Hu). exists l, u. unfold GetUser. by rewrite Hq. }
  destruct (few ev 8) eqn:E8.
  { unfold rplWhoReply. rewrite (index_Panic ev 7) by done.
    destruct (index (Args ev) 1); [|done]. destruct (index (Args ev) 5); [|done]. destruct (index (Args ev) 2); [|done].
    destruct (index (Args ev) 3); [|done]. by destruct (index (Args ev) 6). }
  unfold rplWhoReply.
  rewrite !(index_args ev 8) by (done || by repeat constructor). cbn [mbind go_bind]. fold (who_host ev).
  destruct (SplitN2 (arg ev 7) " ") as [z [rn|]]; [|done]. cbn [snd deref mbind go_bind].
  rewrite E. cbn [mbind go_bind]. fold s2. rewrite Hl. cbn [deref mbind go_bind]. rewrite Hu. cbn [deref mbind go_bind orb].
  assert (state_wf (set_uheap s2 (<[l := SetRealname u rn]> (uheap s2)))) as W3 by by eapply wf_set_uheap.
  split; [by apply who_modes_fail|]. intros s' H. destruct (who_modes_ok _ _ _ _ _ W3 H) as [_ (T1 & T2 & _)].
  destruct Hn1. split; [by rewrite T1; cbn; rewrite U2|by rewrite T2; cbn; rewrite C2].
Qed.

(** ** No nil entries *)

Lemma no_nil_same s s' : no_nil s -> s'.(users) = s.(users) -> s'.(channels) = s.(channels) -> no_nil s'.
Proof. intros [H1 H2] E1 E2. by split; rewrite ?E1, ?E2. Qed.

Lemma no_nil_tables s s' : no_nil s -> same_tables s s' -> no_nil s'.
Proof. intros Hn (T1 & T2 & _). by eapply no_nil_same. Qed.

Lemma update_channel_tables s p f s' : update_channel s p f = Ret s' -> s'.(users) = s.(users) /\ s'.(channels) = s.(channels).
Proof. unfold update_channel. intros H. by go_inv; subst. Qed.

Lemma nick_no_nil s ev s' : state_wf s -> no_nil s -> nick s ev = Ret s' -> no_nil s'.
Proof.
  intros Hwf Hn. unfold nick. destruct (SplitHost ev) as [[n un] h]. intros (a & _ & H)%bind_Ret_inv.
  destruct (users s !! ToLower n) as [p|] eqn:E; [|by injection H as <-].
  destruct (no_nil_users _ _ _ Hwf Hn E) as (l & u & -> & Hu). cbn in H. rewrite Hu in H. injection H as <-.
  destruct Hn as [H1 H2]. split; [|done]. cbn. intros [_ [[_ [=]]|[_ H]]%lookup_insert_Some]%lookup_delete_Some. done.
Qed.

Lemma leave_no_nil s c h :
  no_nil s -> no_nil (removeChannel s c) /\ no_nil (removeFromChannel s h c) /\ no_nil (removeUser s h).
Proof.
  intros [H1 H2]. split; [|split].
  - unfold removeChannel. split; cbn; [done|]. by intros [_ H]%lookup_delete_Some.
  - by unfold removeFromChannel.
  - unfold removeUser. split; cbn; [|done]. by intros [_ H]%lookup_delete_Some.
Qed.

Lemma join_no_nil s ev s' : no_nil s -> arg ev 0 <> [] -> join s ev = Ret s' -> no_nil s'.
Proof.
  intros Hn Ha. unfold join. intros (h & _ & H)%bind_Ret_inv. apply bind_Ret_inv in H as (s1 & H1 & H).
  apply bind_Ret_inv in H as (a & _ & [= <-]). destruct (addToChannel_keeps s1 ev.(Sender) a) as (U & C & _).
  apply (no_nil_same s1); [|done..]. case_decide; [|by injection H1 as <-].
  apply bind_Ret_inv in H1 as (b & Hb & [= <-]). rewrite (index_arg _ _ _ Hb) in Ha.
  unfold addChannel. cbn zeta. destruct (channels s !! ToLower b) eqn:E; [done|]. unfold NewChannel.
  rewrite decide_False by done. cbn. destruct Hn as [N1 N2]. split; [done|]. cbn. by intros [[_ [=]]|[_ H']]%lookup_insert_Some.
Qed.

Lemma kick_no_nil s ev s' : no_nil s -> kick s ev = Ret s' -> no_nil s'.
Proof.
  intros Hn. unfold kick. intros H. go_inv. subst. case_decide; by apply leave_no_nil.
Qed.

Lemma mode_no_nil s ev s' : state_wf s -> no_nil s -> mode s ev = Ret s' -> no_nil s'.
Proof.
  intros Hwf Hn. unfold mode. intros (a & _ & H)%bind_Ret_inv. apply bind_Ret_inv in H as ([] & _ & H).
  - destruct (channels s !! ToLower a) as [ch|] eqn:Ec; [|by injection H as <-].
    apply bind_Ret_inv in H as (rest & _ & H). apply bind_Ret_inv in H as (l & _ & H).
    apply bind_Ret_inv in H as (c & Hc & H). apply deref_Ret in Hc.
    destruct (Apply _ _ _) as [[m ps] ns] eqn:Eap. apply bind_Ret_inv in H as (s1 & H1 & H2).
    assert (cm_wf m) as Hm.
    { pose proof (apply_keeps_wf (state_kinds s) (cmodes c) (Join rest (bs " ")) (wf_cmodes _ Hwf _ _ Hc)) as Hk.
      unfold Apply in Eap. by rewrite Eap in Hk. }
    assert (state_wf (set_cheap s (<[l := with_modes c m]> (cheap s)))) as W0 by by eapply wf_set_cheap.
    destruct (apply_user_modes_ok _ _ _ _ _ W0 H1) as [W1 T1]. destruct (apply_user_modes_ok _ _ _ _ _ W1 H2) as [_ T2].
    by apply (no_nil_tables _ _ Hn), (same_tables_trans _ _ _ T1 T2).
  - apply bind_Ret_inv in H as (h & _ & H). case_decide; go_inv; subst; done.
Qed.

Lemma channel_no_nil s ev s' :
  no_nil s -> topic_ s ev = Ret s' \/ rplTopic s ev = Ret s' \/ rplChannelModeIs s ev = Ret s' \/ rplBanList s ev = Ret s' ->
  no_nil s'.
Proof.
  intros Hn H. assert (s'.(users) = s.(users) /\ s'.(channels) = s.(channels)) as [? ?]; [|by eapply no_nil_same].
  unfold topic_, rplTopic, rplChannelModeIs, rplBanList in H.
  destruct H as [H|[H|[H|H]]]; apply bind_Ret_inv in H as (a & _ & H).
  - destruct (channels s !! _); [by eapply update_channel_tables|by injection H as <-].
  - destruct (channels s !! _); [|by injection H as <-]. apply bind_Ret_inv in H as (t & _ & H). by eapply update_channel_tables.
  - apply bind_Ret_inv in H as (r & _ & H). destruct (GetChannel s a); [by eapply update_channel_tables|by injection H as <-].
  - destruct (GetChannel s a); [|by injection H as <-]. apply bind_Ret_inv in H as (t & _ & H). by eapply update_channel_tables.
Qed.

Lemma msg_no_nil s ev s' : no_nil s -> msg s ev = Ret s' -> no_nil s'.
Proof.
  intros Hn. unfold msg. intros ([] & _ & H)%bind_Ret_inv; [|by injection H as <-].
  apply bind_Ret_inv in H as (a & _ & [= <-]). destruct (addToChannel_keeps s ev.(Sender) a) as (? & ? & _).
  by eapply no_nil_same.
Qed.

Lemma rplWelcome_no_nil s ev s' : no_nil s -> rplWelcome s ev = Ret s' -> no_nil s'.
Proof.
  intros [N1 N2]. unfold rplWelcome. intros (a & _ & H)%bind_Ret_inv. apply bind_Ret_inv in H as (h0 & _ & H).
  apply bind_Ret_inv in H as (h & _ & H). apply bind_Ret_inv in H as (u & _ & [= <-]).
  split; [|done]. cbn. by intros [[_ [=]]|[_ H]]%lookup_insert_Some.
Qed.

Lemma handle_no_nil s ev s' : state_wf s -> no_nil s -> clean s ev -> handle s ev = Ret s' -> no_nil s'.
Proof.
  intros Hwf Hn [Hnames Hjoin]. unfold handle. cbn zeta.
  case_bool_decide; [by apply nick_no_nil|].
  case_bool_decide; [by apply join_no_nil, Hjoin|].
  case_bool_decide. { unfold part. intros Hp. go_inv. subst. case_decide; by apply leave_no_nil. }
  case_bool_decide. { unfold quit. intros Hp. go_inv. subst. case_decide; [done|by apply (leave_no_nil s [])]. }
  case_bool_decide; [by apply kick_no_nil|].
  case_bool_decide; [by apply mode_no_nil|].
  case_bool_decide; [intros; eapply channel_no_nil; eauto|].
  case_bool_decide; [intros; eapply channel_no_nil; eauto|].
  destruct (bool_decide (Name ev = PRIVMSG) || _); [by apply msg_no_nil|].
  case_bool_decide; [by apply rplWelcome_no_nil|].
  case_bool_decide; [by apply rplNameReply_fails; [..|apply Hnames]|].
  case_bool_decide; [by apply rplWhoReply_fails|].
  case_bool_decide; [intros; eapply channel_no_nil; eauto|].
  case_bool_decide; [intros; eapply channel_no_nil; eauto|by intros [= <-]].
Qed.

(** ** The theorem *)

Lemma handle_fails s ev : state_wf s -> no_nil s -> clean s ev -> fails (handle s ev) (crash s ev).
Proof.
  intros Hwf Hn [Hnames _]. unfold handle, crash. cbn zeta.
  destruct (membership_fails s ev Hwf) as (Hj & Hp & Hq). destruct (topics_fail s ev Hwf Hn) as [Ht Hrt].
  destruct (replies_fail s ev Hwf Hn) as [Hm Hb].
  case_bool_decide; [by apply nick_fails|].
  case_bool_decide; [done|]. case_bool_decide; [done|]. case_bool_decide; [done|].
  case_bool_decide; [by apply kick_fails|].
  case_bool_decide; [by apply mode_fails|].
  case_bool_decide; [done|]. case_bool_decide; [done|].
  destruct (bool_decide (Name ev = PRIVMSG) || _); [by apply msg_fails|].
  case_bool_decide; [by apply rplWelcome_fails|].
  case_bool_decide; [by apply rplNameReply_fails; [..|apply Hnames]|].
  case_bool_decide; [by apply rplWhoReply_fails|].
  case_bool_decide; [done|]. by case_bool_decide.
Qed.

Lemma note_sender_keeps s ev : state_wf s -> no_nil s -> exists s1, note_sender s ev = Ret s1 /\ no_nil s1 /\ state_wf s1 /\ s1.(sumodes) = s.(sumodes).
Proof.
  intros Hwf Hn. destruct (note_sender_returns s ev Hwf Hn) as (s1 & H1 & Hn1). exists s1.
  pose proof (note_sender_refines _ _ _ Hwf H1) as R1. split; [done|]. split; [done|].
  split; [by eapply rf_wf|by eapply rf_kinds].
Qed.

Lemma Update_crash s ev :
  state_wf s -> no_nil s -> clean s ev ->
  exists s1, note_sender s ev = Ret s1 /\ is_panic (Update s ev) = crash s1 ev /\
    forall s', Update s ev = Ret s' -> no_nil s'.
Proof.
  intros Hwf Hn Hc. destruct (note_sender_keeps s ev Hwf Hn) as (s1 & H1 & Hn1 & W1 & K1).
  assert (clean s1 ev) as Hc1 by (unfold clean; rewrite K1; exact Hc).
  exists s1. split; [done|]. rewrite Update_note, H1. split; [by apply handle_fails|].
  intros s'. by apply handle_no_nil.
Qed.


(** ** What a state accepts *)

(** The conditions under which an event is handled as the specification says,
    to be computed: it does not panic, it leaves no nil entry, a new nick is
    free, and a client that is welcomed is on no channel. *)
Definition clean_check (s : State) (ev : Event) : bool :=
  (bool_decide (ev.(Name) <> RPL_NAMREPLY) ||
     forallb (fun name => bool_decide (symbol_nick s.(sumodes) name <> Some [])) (Fields (arg ev 3))) &&
  (bool_decide (ev.(Name) <> JOIN) || bool_decide (arg ev 0 <> [])).

Definition nick_check (s : State) (ev : Event) : bool :=
  bool_decide (ev.(Name) <> NICK) ||
  (forallb (fun c => bool_decide (c ∉ bs "!@")) (arg ev 0) &&
   (bool_decide (ToLower (SplitHost ev).1.1 = ToLower (arg ev 0)) ||
    bool_decide (s.(users) !! ToLower (arg ev 0) = None))).

Definition welcome_check (s : State) (ev : Event) : bool :=
  bool_decide (ev.(Name) <> RPL_WELCOME) ||
  bool_decide (default ∅ (s.(userChannels) !! nick_key (welcome_host ev)) = ∅).

Definition accepts (s : State) (ev : Event) : bool :=
  match note_sender s ev with
  | Ret s1 => negb (crash s1 ev) && clean_check s ev && nick_check s1 ev && welcome_check s1 ev
  | Panic => false
  end.

Lemma clean_check_ok s ev : clean_check s ev = true -> clean s ev.
Proof.
  unfold clean_check. intros [H1 H2]%andb_prop. split; intros E.
  - rewrite bool_decide_false in H1 by (by intros ?). cbn in H1. rewrite forallb_forall in H1.
    intros name Hin. specialize (H1 name). apply list_elem_of_In in Hin. by apply bool_decide_eq_true in H1.
  - rewrite bool_decide_false in H2 by (by intros ?). by apply bool_decide_eq_true in H2.
Qed.

Lemma event_check_ok s ev : state_wf s -> nick_check s ev = true -> welcome_check s ev = true -> event_ok s ev.
Proof.
  intros Hwf H1 H2. split; intros E.
  - unfold nick_check in H1. rewrite bool_decide_false in H1 by (by intros ?). cbn in H1.
    apply andb_prop in H1 as [Hf Ho]. split.
    + rewrite forallb_forall in Hf. apply Forall_forall. intros c Hc. apply list_elem_of_In in Hc.
      specialize (Hf c Hc). by apply bool_decide_eq_true in Hf.
    + apply orb_prop in Ho as [Ho|Ho]; apply bool_decide_eq_true in Ho; [by left|by right].
  - unfold welcome_check in H2. rewrite bool_decide_false in H2 by (by intros ?). cbn in H2.
    apply bool_decide_eq_true in H2. intros c Hon. apply on_user_channel in Hon as [uc Huc]; [|done].
    unfold user_channel in Huc. destruct (userChannels s !! _); cbn in *; [|done]. subst. by rewrite lookup_empty in Huc.
Qed.

(** An event that is accepted is handled, and leaves all in order. *)
Lemma Update_accepts s ev :
  state_wf s -> no_nil s -> accepts s ev = true ->
  exists s', Update s ev = Ret s' /\ state_wf s' /\ no_nil s'.
Proof.
  intros Hwf Hn Ha. unfold accepts in Ha. destruct (note_sender s ev) as [s1|] eqn:H1; [|done].
  apply andb_prop in Ha as [[[Hcr Hcl]%andb_prop Hni]%andb_prop Hwe]. apply negb_true_iff in Hcr.
  destruct (Update_crash s ev Hwf Hn (clean_check_ok _ _ Hcl)) as (s2 & H2 & Hp & Hk).
  rewrite H1 in H2. injection H2 as <-. rewrite Hcr in Hp.
  destruct (Update s ev) as [s'|] eqn:E; [|done]. exists s'. split; [done|]. split; [|by apply Hk].
  eapply Update_wf; [done| |exact E]. intros s2 H2. rewrite H1 in H2. injection H2 as <-.
  apply event_check_ok; [|done..]. exact (rf_wf _ _ _ (note_sender_refines _ _ _ Hwf H1)).
Qed.
End CaseMapping.

(** ** Runs *)

(** What the server sends after the messages of [demo_joined], with what
    becomes of it: the events that panic, and what keeps them from it *)
Definition demo_later : list Event := [
  demo_event MODE (bs "me!u@host") [bs "#chan"; bs "+o"; bs "ghost"];
  demo_event MODE (bs "me!u@host") [bs "#other"; bs "+o"; bs "ghost"];
  demo_event MODE (bs "me!u@host") [bs "#chan"; bs "-o+v"; bs "bob"; bs "me"];
  demo_event RPL_NAMREPLY (bs "irc.test.net") [bs "me"; bs "="; bs "#other"; bs "@bob"];
  demo_event RPL_NAMREPLY (bs "irc.test.net") [bs "me"; bs "="; bs "#other"; bs "bob"];
  demo_event RPL_NAMREPLY (bs "irc.test.net") [bs "me"; bs "="; bs "#chan"; bs "@bob +new"];
  demo_event RPL_NAMREPLY (bs "irc.test.net") [bs "me"; bs "="; bs "#chan"; bs "@a.b"];
  demo_event RPL_NAMREPLY (bs "irc.test.net") [bs "me"; bs "="; bs "#chan"; bs "a.b!u@h @a.b"];
  demo_event KICK (bs "bob!b@home") [bs "#chan"];
  demo_event RPL_WELCOME (bs "irc.test.net") [bs "me"; bs "  "] ].

Example crash_cases :
  match run demo_start demo_joined with
  | Ret s =>
    map (@crash ascii_tables s) demo_later = map (fun ev => is_panic (@Update ascii_tables s ev)) demo_later /\
    map (@crash ascii_tables s) demo_later =
      [true; false; false; true; false; false; true; false; true; true]
  | Panic => False
  end.
Proof. vm_compute. by split. Qed.

Definition demo_mode : Event := demo_event MODE (bs "me!u@host") [bs "#chan"; bs "+o"; bs "ghost"].

