(* ===== verification/Access.v ===== *)
(** * Package data: access levels and flags (data/access.go)

    An access is a level, a [uint8], and a set of letters kept as the bits of
    a [uint64]: the capitals first, then the small letters. *)

From S2P Require Import Prelude GoStrings.

#[local] Open Scope Z_scope.

(** data/access.go:8-8 [ascA] *)
Definition ascA : Z := 65.
(** data/access.go:9-9 [ascZ] *)
Definition ascZ : Z := 90.
(** data/access.go:10-10 [asca] *)
Definition asca : Z := 97.
(** data/access.go:11-11 [ascz] *)
Definition ascz : Z := 122.
(** data/access.go:12-12 [nAlphabet] *)
Definition nAlphabet : nat := 26.
(** data/access.go:13-13 [none] *)
Definition none : bytes := bs "none".
(** data/access.go:14-14 [allFlags] *)
Definition allFlags : bytes := bs "-ALL-".
(** data/access.go:15-15 [allFlagsNum] *)
Definition allFlagsNum : Z := 0xFFFFFFFFFFFFF.

(** Arithmetic on [uint64] *)
Definition u64 (z : Z) : Z := z mod 2 ^ 64.
Definition u64_not (z : Z) : Z := Z.lxor z (2 ^ 64 - 1).

(** data/access.go [Access] *)
Record Access := { Level : Z; Flags : Z }.

(** data/access.go [getFlagBit] *)
Definition getFlagBit (flag : Z) : Z :=
  let asc := u64 flag in
  if bool_decide (ascA <= asc <= ascZ) then u64 (Z.shiftl 1 (asc - ascA))
  else if bool_decide (asca <= asc <= ascz) then
    u64 (Z.shiftl 1 (asc - (ascA + (asca - ascZ - 1))))
  else 0.

(** data/access.go [getFlagBits] *)
Definition getFlagBits (flags : list bytes) : Z :=
  foldl (fun bits f => foldl (fun bits r => Z.lor bits (getFlagBit r)) bits (runes f)) 0 flags.

(** data/access.go:151-161 [getFlagString]: the loop over the letters *)
Fixpoint flag_loop (n : nat) (i bit bits : Z) : bytes :=
  match n with
  | O => []
  | S n =>
    (if bool_decide (Z.land bit bits = bit) then
       if bool_decide (i < Z.of_nat nAlphabet) then encode_rune (i + ascA)
       else encode_rune (i - Z.of_nat nAlphabet + asca)
     else [])
    ++ flag_loop n (i + 1) (u64 (Z.shiftl bit 1)) bits
  end.

(** data/access.go [getFlagString] *)
Definition getFlagString (bits : Z) : bytes :=
  if bool_decide (Z.land bits allFlagsNum = allFlagsNum) then allFlags
  else flag_loop (nAlphabet * 2) 0 1 bits.

(** data/access.go [Access.SetFlags] *)
Definition SetFlags (a : Access) (flags : list bytes) : Access :=
  {| Level := a.(Level); Flags := Z.lor a.(Flags) (getFlagBits flags) |}.
(** data/access.go [Access.SetAccess] *)
Definition SetAccess (a : Access) (level : Z) (flags : list bytes) : Access :=
  SetFlags {| Level := level; Flags := a.(Flags) |} flags.
(** data/access.go [NewAccess] *)
Definition NewAccess (level : Z) (flags : list bytes) : Access :=
  SetAccess {| Level := 0; Flags := 0 |} level flags.
(** data/access.go [Access.SetFlag] *)
Definition SetFlag (a : Access) (flag : Z) : Access :=
  {| Level := a.(Level); Flags := Z.lor a.(Flags) (getFlagBit flag) |}.
(** data/access.go [Access.ClearFlag] *)
Definition ClearFlag (a : Access) (flag : Z) : Access :=
  {| Level := a.(Level); Flags := Z.land a.(Flags) (u64_not (getFlagBit flag)) |}.
(** data/access.go [Access.ClearFlags] *)
Definition ClearFlags (a : Access) (flags : list bytes) : Access :=
  foldl (fun a f => foldl ClearFlag a (runes f)) a flags.
(** data/access.go [Access.ClearAllFlags] *)
Definition ClearAllFlags (a : Access) : Access := {| Level := a.(Level); Flags := 0 |}.
(** data/access.go [Access.HasLevel] *)
Definition Access_HasLevel (a : Access) (level : Z) : bool := bool_decide (level <= a.(Level)).
(** data/access.go [Access.HasFlag] *)
Definition Access_HasFlag (a : Access) (flag : Z) : bool :=
  let bit := getFlagBit flag in
  bool_decide (bit <> 0) && bool_decide (bit = Z.land a.(Flags) bit).
(** data/access.go [Access.HasFlags] *)
Definition Access_HasFlags (a : Access) (flags : list bytes) : bool :=
  existsb (fun f => existsb (Access_HasFlag a) (runes f)) flags.
(** data/access.go [Access.IsZero] *)
Definition IsZero (a : Access) : bool :=
  bool_decide (a.(Flags) = 0) && bool_decide (a.(Level) = 0).
(** data/access.go [Access.String]: [None] is the nil pointer. *)
Definition Access_String (a : option Access) : bytes :=
  match a with
  | None => none
  | Some a =>
    let hasLevel := bool_decide (a.(Level) <> 0) in
    let hasFlags := bool_decide (a.(Flags) <> 0) in
    if negb hasLevel && negb hasFlags then none else
    (if hasLevel then Itoa a.(Level) else [])
    ++ (if hasFlags then (if hasLevel then bs " " else []) ++ getFlagString a.(Flags) else [])
  end.

(** ** Letters and their bits *)

(** The bit of a letter. *)
Definition flag_index (r : Z) : option Z :=
  if bool_decide (65 <= r <= 90) then Some (r - 65)
  else if bool_decide (97 <= r <= 122) then Some (r - 71) else None.

(** The letter of a bit. *)
Definition flag_letter (i : Z) : Z := if bool_decide (i < 26) then i + 65 else i + 71.

(** A rune is an [int32]. *)
Definition is_rune (r : Z) : Prop := - 2 ^ 31 <= r < 2 ^ 31.

Lemma flag_index_letter i : 0 <= i < 52 -> flag_index (flag_letter i) = Some i.
Proof.
  intros Hi. unfold flag_index, flag_letter.
  repeat case_bool_decide; first [lia | f_equal; lia].
Qed.

Lemma flag_letter_index r i : flag_index r = Some i -> 0 <= i < 52 /\ flag_letter i = r.
Proof.
  unfold flag_index, flag_letter.
  repeat case_bool_decide; intros [= <-]; lia.
Qed.

Lemma getFlagBit_index r :
  is_rune r -> getFlagBit r = match flag_index r with Some i => 2 ^ i | None => 0 end.
Proof.
  unfold is_rune. intros Hr. unfold getFlagBit, flag_index.
  assert (ascA = 65 /\ ascZ = 90 /\ asca = 97 /\ ascz = 122) as (E1 & E2 & E3 & E4) by done.
  rewrite E1, E2, E3, E4.
  assert (forall i, 0 <= i < 64 -> u64 (Z.shiftl 1 i) = 2 ^ i) as Hs.
  { intros i Hi. rewrite Z.shiftl_1_l. apply Z.mod_small. split; [lia|].
    apply Z.pow_lt_mono_r; lia. }
  destruct (Z.lt_ge_cases r 0) as [Hn|Hn].
  - assert (u64 r = r + 2 ^ 64) as -> by (unfold u64; Z.div_mod_to_equations; lia).
    rewrite !bool_decide_false by lia. done.
  - assert (u64 r = r) as -> by (unfold u64; apply Z.mod_small; lia).
    case_bool_decide; [by rewrite Hs by lia|]. case_bool_decide; [|done].
    rewrite Hs by lia. f_equal; lia.
Qed.

Lemma getFlagBit_testbit r i :
  is_rune r -> 0 <= i -> Z.testbit (getFlagBit r) i = bool_decide (flag_index r = Some i).
Proof.
  intros Hr Hi. rewrite getFlagBit_index by done. destruct (flag_index r) as [j|] eqn:E.
  - apply flag_letter_index in E as [? _]. rewrite Z.pow2_bits_eqb by lia.
    destruct (Z.eqb_spec j i) as [->|]; symmetry; [by apply bool_decide_true|].
    apply bool_decide_false. congruence.
  - by rewrite Z.bits_0.
Qed.

Lemma HasFlag_index a r :
  is_rune r ->
  Access_HasFlag a r = match flag_index r with Some i => Z.testbit a.(Flags) i | None => false end.
Proof.
  intros Hr. unfold Access_HasFlag. cbn zeta. rewrite getFlagBit_index by done.
  destruct (flag_index r) as [i|] eqn:E; [|done]. apply flag_letter_index in E as [Hi _].
  rewrite bool_decide_true.
  2:{ pose proof (Z.pow_pos_nonneg 2 i). lia. }
  cbn [andb]. rewrite <- land_pow2_eqb, Z.land_comm by lia.
  apply bool_decide_ext. split; congruence.
Qed.

(** Every rune of a string is one. *)
Lemma decode_rune_range s r w : decode_rune s = Some (r, w) -> 0 <= r < 0x110000.
Proof.
  destruct s as [|c0 s1]; [done|]. unfold decode_rune, is_cont, rune_error. intros [= H].
  pose proof (code_range c0).
  repeat (case_match; simplify_eq/=;
    rewrite ?andb_true_iff, ?negb_true_iff, ?andb_false_iff,
            ?bool_decide_eq_true, ?bool_decide_eq_false in * ); lia.
Qed.

Lemma runes_are_runes s : Forall is_rune (runes s).
Proof.
  unfold runes. induction s as [|s r w E IH] using chunks_ind; [constructor|].
  rewrite (chunks_step _ _ _ E). cbn. constructor; [|done].
  apply decode_rune_range in E. unfold is_rune. lia.
Qed.

(** All the runes of the flags given. *)
Definition flag_runes (flags : list bytes) : list Z := concat (map runes flags).

Lemma flag_runes_are_runes flags : Forall is_rune (flag_runes flags).
Proof.
  unfold flag_runes. induction flags as [|f flags IH]; cbn; [constructor|].
  apply Forall_app. split; [apply runes_are_runes|done].
Qed.

Lemma foldl_concat {A B} (f : A -> B -> A) (a : A) (ls : list (list B)) :
  foldl (fun a l => foldl f a l) a ls = foldl f a (concat ls).
Proof. revert a. induction ls as [|l ls IH]; intros a; cbn; [done|]. by rewrite foldl_app, IH. Qed.

Lemma foldl_map {A B C} (f : A -> C -> A) (g : B -> C) (a : A) l :
  foldl (fun a x => f a (g x)) a l = foldl f a (map g l).
Proof. revert a. induction l as [|x l IH]; intros a; cbn; [done|apply IH]. Qed.

Lemma getFlagBits_runes flags :
  getFlagBits flags = foldl (fun bits r => Z.lor bits (getFlagBit r)) 0 (flag_runes flags).
Proof.
  unfold getFlagBits, flag_runes.
  rewrite (foldl_map (fun bits rs => foldl (fun bits r => Z.lor bits (getFlagBit r)) bits rs)).
  apply foldl_concat.
Qed.

Lemma lor_testbit rs b i :
  Forall is_rune rs -> 0 <= i ->
  Z.testbit (foldl (fun bits r => Z.lor bits (getFlagBit r)) b rs) i =
  Z.testbit b i || existsb (fun r => bool_decide (flag_index r = Some i)) rs.
Proof.
  intros Hrs Hi. revert b. induction Hrs as [|r rs Hr _ IH]; intros b; cbn; [by rewrite orb_false_r|].
  rewrite IH, Z.lor_spec, getFlagBit_testbit by done. by rewrite orb_assoc.
Qed.

(** A bit is set exactly when its letter is among the flags. *)
Lemma getFlagBits_testbit flags i :
  0 <= i ->
  Z.testbit (getFlagBits flags) i =
  existsb (fun r => bool_decide (flag_index r = Some i)) (flag_runes flags).
Proof.
  intros Hi. rewrite getFlagBits_runes, lor_testbit; [|apply flag_runes_are_runes|done].
  by rewrite Z.bits_0.
Qed.

(** The flags that have the bit of a letter are that letter. *)
Lemma existsb_flag flag i rs :
  flag_index flag = Some i ->
  existsb (fun r => bool_decide (flag_index r = Some i)) rs = bool_decide (flag ∈ rs).
Proof.
  intros Hf. apply eq_bool_prop_intro. rewrite !Is_true_true, existsb_exists, bool_decide_eq_true.
  split.
  - intros (r & Hr & E%bool_decide_eq_true). apply list_elem_of_In in Hr.
    apply flag_letter_index in E as [_ <-], Hf as [_ <-]. done.
  - intros Hr. exists flag. split; [by apply list_elem_of_In|]. by apply bool_decide_eq_true.
Qed.

Lemma clear_testbit rs a i :
  Forall is_rune rs -> 0 <= i < 64 ->
  Z.testbit (foldl ClearFlag a rs).(Flags) i =
  Z.testbit a.(Flags) i && negb (existsb (fun r => bool_decide (flag_index r = Some i)) rs).
Proof.
  intros Hrs Hi. revert a. induction Hrs as [|r rs Hr _ IH]; intros a; cbn; [by rewrite andb_true_r|].
  rewrite IH. cbn. unfold u64_not. change (2 ^ 64 - 1) with (Z.ones 64).
  rewrite Z.land_spec, Z.lxor_spec, Z.ones_spec_low, getFlagBit_testbit by (done || lia).
  destruct (Z.testbit (Flags a) i), (bool_decide _); done.
Qed.

Lemma clear_level rs a : (foldl ClearFlag a rs).(Level) = a.(Level).
Proof. revert a. induction rs as [|r rs IH]; intros a; cbn; [done|by rewrite IH]. Qed.

Lemma ClearFlags_runes a flags : ClearFlags a flags = foldl ClearFlag a (flag_runes flags).
Proof. unfold ClearFlags, flag_runes. rewrite (foldl_map (foldl ClearFlag)). apply foldl_concat. Qed.

(** ** Properties *)

(** The flags are a set of letters: granting adds exactly the letters
    given, clearing takes exactly those away, and neither changes the level. *)
Theorem flags_set a flags flag :
  is_rune flag ->
  Access_HasFlag (SetFlags a flags) flag =
    Access_HasFlag a flag ||
    bool_decide (is_Some (flag_index flag)) && bool_decide (flag ∈ flag_runes flags) /\
  Access_HasFlag (ClearFlags a flags) flag =
    Access_HasFlag a flag && bool_decide (flag ∉ flag_runes flags) /\
  (SetFlags a flags).(Level) = a.(Level) /\ (ClearFlags a flags).(Level) = a.(Level).
Proof.
  intros Hr. rewrite ClearFlags_runes, clear_level. split; [|split; [|done]].
  - rewrite !HasFlag_index by done. destruct (flag_index flag) as [i|] eqn:E; [|done].
    pose proof (proj1 (flag_letter_index _ _ E)). cbn.
    by rewrite Z.lor_spec, getFlagBits_testbit, (existsb_flag flag) by (done || lia).
  - rewrite !HasFlag_index by done. destruct (flag_index flag) as [i|] eqn:E; [|done].
    pose proof (proj1 (flag_letter_index _ _ E)).
    rewrite clear_testbit, (existsb_flag flag) by (apply flag_runes_are_runes || done || lia).
    by rewrite bool_decide_not.
Qed.

(** The letters of a set of bits, as the loop writes them. *)
Lemma flag_loop_runes n i bits :
  0 <= i -> i + Z.of_nat n <= 52 ->
  runes (flag_loop n i (2 ^ i) bits) =
  map flag_letter (filter (fun j => Z.testbit bits j = true) (seqZ i (Z.of_nat n))).
Proof.
  revert i. induction n as [|n IH]; intros i H0 Hn; [done|].
  rewrite seqZ_cons by lia. cbn [flag_loop]. rewrite land_pow2_eqb by done.
  assert (u64 (Z.shiftl (2 ^ i) 1) = 2 ^ (i + 1)) as ->.
  { unfold u64. rewrite Z.shiftl_mul_pow2, <- Z.pow_add_r by lia. apply Z.mod_small.
    split; [lia|]. apply Z.pow_lt_mono_r; lia. }
  replace (Z.pred (Z.of_nat (S n))) with (Z.of_nat n) by lia.
  rewrite filter_cons. destruct (Z.testbit bits i) eqn:Eb.
  - rewrite decide_True by done. cbn [map].
    assert ((if bool_decide (i < Z.of_nat nAlphabet) then encode_rune (i + ascA)
       else encode_rune (i - Z.of_nat nAlphabet + asca)) = encode_rune (flag_letter i)) as ->.
    { unfold flag_letter, nAlphabet, ascA, asca. repeat case_bool_decide; try lia; f_equal; lia. }
    rewrite runes_encode.
    2:{ unfold valid_rune, flag_letter. rewrite orb_true_iff, !bool_decide_eq_true.
        case_bool_decide; lia. }
    f_equal. apply IH; lia.
  - rewrite decide_False by done. cbn [app]. apply IH; lia.
Qed.

Lemma flag_string_runes bits :
  runes (flag_loop (nAlphabet * 2) 0 1 bits) =
  map flag_letter (filter (fun j => Z.testbit bits j = true) (seqZ 0 52)).
Proof. exact (flag_loop_runes 52 0 bits ltac:(lia) ltac:(lia)). Qed.

(** Printing flags and reading them back gives the same flags, except for
    the full set, which is printed as a word of its own. *)
Theorem flags_roundtrip bits :
  0 <= bits < allFlagsNum ->
  getFlagBits [getFlagString bits] = bits.
Proof.
  intros Hb. assert (allFlagsNum = Z.ones 52) as Ha by done.
  unfold getFlagString. rewrite Ha in *. rewrite bool_decide_false.
  2:{ rewrite Z.land_ones by lia. rewrite Z.ones_equiv in *. rewrite Z.mod_small; lia. }
  rewrite Z.ones_equiv in Hb.
  assert (forall i, 0 <= i -> Z.testbit (getFlagBits [flag_loop (nAlphabet * 2) 0 1 bits]) i =
    Z.testbit bits i && bool_decide (i < 52)) as Ht.
  { intros i Hi. rewrite getFlagBits_testbit by done. unfold flag_runes. cbn [map concat].
    rewrite app_nil_r, flag_string_runes. apply eq_bool_prop_intro.
    rewrite !Is_true_true, existsb_exists, andb_true_iff, bool_decide_eq_true. split.
    - intros (r & Hr & E%bool_decide_eq_true). apply list_elem_of_In in Hr.
      apply list_elem_of_fmap in Hr as (j & -> & Hj). apply list_elem_of_filter in Hj as [Hj Hr].
      apply elem_of_seqZ in Hr. rewrite flag_index_letter in E by lia. injection E as ->.
      split; [done|lia].
    - intros [Hbit Hlt]. exists (flag_letter i). rewrite flag_index_letter by lia.
      split; [|by apply bool_decide_eq_true]. apply list_elem_of_In, list_elem_of_fmap_2.
      apply list_elem_of_filter. split; [done|]. apply elem_of_seqZ. lia. }
  apply Z.bits_inj'. intros i Hi. rewrite Ht by done.
  case_bool_decide as Hlt; [by rewrite andb_true_r|]. rewrite andb_false_r. symmetry.
  destruct (decide (bits = 0)) as [->|Hne]; [apply Z.bits_0|].
  apply Z.bits_above_log2; [lia|]. assert (Z.log2 bits < 52); [|lia].
  apply Z.log2_lt_pow2; lia.
Qed.

Lemma flags_roundtrip_witness : getFlagBits [getFlagString 0x8000000000005] = 0x8000000000005.
Proof. apply flags_roundtrip. decide_now. Defined.

Lemma flags_set_witness :
  Access_HasFlag (SetFlags (NewAccess 5 []) [bs "ab"; bs "C"]) 97 =
  Access_HasFlag (NewAccess 5 []) 97 || bool_decide (is_Some (flag_index 97)) &&
    bool_decide (97 ∈ flag_runes [bs "ab"; bs "C"]).
Proof. apply (flags_set (NewAccess 5 []) [bs "ab"; bs "C"] 97). by vm_compute. Defined.

(** The full set does not read back: its word names two letters. *)
Example all_flags_string :
  getFlagString allFlagsNum = allFlags /\
  getFlagBits [getFlagString allFlagsNum] = getFlagBits [bs "AL"].
Proof. by vm_compute. Qed.
