(* ===== verification/JSONStorer.v ===== *)
(** * Package data: attribute storage (data/json_storer.go, data/stored_channel.go)

    A [JSONStorer] is a map of strings, nil until it is made.  Package
    [encoding/json] is the class [JSON]. *)

From S2P Require Import Prelude GoStrings Fmt.

(** [json.Marshal] and [json.Unmarshal], an error being on the left. *)
Class JSON (V : Type) := {
  Marshal : V -> bytes + bytes;
  Unmarshal : bytes -> bytes + V;
}.

(** data/json_storer.go [JSONStorer]: [None] is the nil map. *)
Definition JSONStorer : Type := option (gmap bytes bytes).

Definition make_storer : JSONStorer := Some ∅.

(** data/json_storer.go [JSONStorer.Put] *)
Definition Put (js : JSONStorer) (key value : bytes) : go JSONStorer :=
  m ← deref js; Ret (Some (<[key := value]> m)).

(** data/json_storer.go [JSONStorer.Get] *)
Definition Get (js : JSONStorer) (key : bytes) : bytes * bool :=
  match m ← js; m !! key with Some v => (v, true) | None => ([], false) end.

Section json.
Context {V : Type} {J : JSON V}.

(** data/json_storer.go [JSONStorer.PutJSON]: the error, if any *)
Definition PutJSON (js : JSONStorer) (key : bytes) (value : V) : go (option bytes * JSONStorer) :=
  match Marshal value with
  | inl err => Ret (Some err, js)
  | inr jsMarsh => js ← Put js key jsMarsh; Ret (None, js)
  end.

(** data/json_storer.go [JSONStorer.GetJSON]: whether the key was there, and
    the error or the value *)
Definition GetJSON (js : JSONStorer) (key : bytes) : bool * option (bytes + V) :=
  let '(ret, ok) := Get js key in
  if ok then (true, Some (Unmarshal ret)) else (false, None).

Lemma Put_Get js key value js' k :
  Put js key value = Ret js' ->
  Get js' k = if decide (k = key) then (value, true) else Get js k.
Proof.
  unfold Put, Get. destruct js as [m|]; [|done]. cbn. intros [= <-]. cbn.
  case_decide as H; [subst; by rewrite lookup_insert_eq|]. by rewrite lookup_insert_ne.
Qed.

(** A value that was stored is found again under its key, and what other
    keys hold is unchanged, when the encoder's output decodes to the value. *)
Theorem PutJSON_GetJSON m key value :
  (forall s, Marshal value = inr s -> Unmarshal s = inr value) ->
  (exists err, Marshal value = inl err /\ PutJSON (Some m) key value = Ret (Some err, Some m)) \/
  (exists js', PutJSON (Some m) key value = Ret (None, js') /\
     forall k, GetJSON js' k = if decide (k = key) then (true, Some (inr value)) else GetJSON (Some m) k).
Proof.
  intros HU. unfold PutJSON. destruct (Marshal value) as [err|s] eqn:E; [left; eauto|right].
  cbn. eexists. split; [done|]. intros k. unfold GetJSON.
  rewrite (Put_Get (Some m) key s _ k eq_refl). case_decide; [|done]. by rewrite HU.
Qed.
End json.

(** An encoder of texts that are their own encoding, for the witness. *)
#[local] Instance text_json : JSON bytes := {| Marshal := inr; Unmarshal := inr |}.

Lemma PutJSON_GetJSON_witness :
  (exists err, Marshal (bs "v") = inl err /\ PutJSON (Some ∅) (bs "k") (bs "v") = Ret (Some err, Some ∅)) \/
  (exists js', PutJSON (Some ∅) (bs "k") (bs "v") = Ret (None, js') /\
     forall k, GetJSON js' k =
       if decide (k = bs "k") then (true, Some (inr (bs "v"))) else GetJSON (Some ∅) k).
Proof. apply PutJSON_GetJSON. intros s [= <-]. reflexivity. Defined.

(** ** Channels *)

(** data/stored_channel.go [StoredChannel] *)
Record StoredChannel := { sc_NetID : bytes; sc_Name : bytes; sc_json : JSONStorer }.

(** data/stored_channel.go [NewStoredChannel] *)
Definition NewStoredChannel (netID name : bytes) : StoredChannel :=
  {| sc_NetID := netID; sc_Name := name; sc_json := make_storer |}.

(** data/stored_channel.go [StoredChannel.makeID] *)
Definition makeID {CT : CaseTables} (s : StoredChannel) : bytes :=
  ToLower (Sprintf (bs "%s.%s") [VString s.(sc_Name); VString s.(sc_NetID)]).

(** The key of a channel is its name and its network with a dot between. *)
Lemma makeID_dot {CT : CaseTables} s : makeID s = ToLower (s.(sc_Name) ++ bs "." ++ s.(sc_NetID)).
Proof.
  unfold makeID. f_equal. rewrite Sprintf_args. change (bs "%s.%s") with ("%"%char :: "s"%char :: bs ".%s").
  rewrite format_s. f_equal. change (bs ".%s") with (bs "." ++ ["%"; "s"]%char).
  rewrite format_text by decide_now.
  rewrite format_s. cbn. by rewrite app_nil_r.
Qed.

(** Two channels can have one key: the dot does not tell where the name ends. *)
Theorem makeID_ambiguous {CT : CaseTables} :
  makeID (NewStoredChannel (bs "net") (bs "#a.b")) = makeID (NewStoredChannel (bs "b.net") (bs "#a")).
Proof. by rewrite !makeID_dot. Qed.
