(* ===== verification/StoredUser.v ===== *)
(** * Package data: registered users (data/stored_user.go)

    A stored user has a password, masks, and access for every network and
    channel besides the global one.  The maps of accesses are made when they
    are first written, so a nil map and an empty one behave the same and both
    are the empty map here; an access is part of the user that holds it.
    Package [bcrypt] is the class [Bcrypt], and the draws of [rand.Intn] are
    an argument. *)

From S2P Require Import Prelude GoStrings Hosts Access JSONStorer.

(** A hash takes a salt from the system's random source; [Hash_ok] is what the
    package documents of the two functions. *)
Class Bcrypt := {
  Salt : Type;
  GenerateFromPassword : Salt -> bytes -> bytes + bytes;
  (** [true] when the error is nil *)
  CompareHashAndPassword : bytes -> bytes -> bool;
  Hash_ok : forall salt pw h,
    GenerateFromPassword salt pw = inr h -> CompareHashAndPassword h pw = true;
}.

(** data/stored_user.go:22-22 [errMissingUnameOrPwd] *)
Definition errMissingUnameOrPwd : bytes := bs "data: Missing username or password".
(** data/stored_user.go:25-25 [errDuplicateMask] *)
Definition errDuplicateMask : bytes := bs "data: Duplicate mask in user creation".
(** data/stored_user.go:29-29 [nNewPasswordLen] *)
Definition nNewPasswordLen : nat := 10.
(** data/stored_user.go:30-30 [newPasswordStart] *)
Definition newPasswordStart : Z := 48.
(** data/stored_user.go:31-31 [newPasswordEnd] *)
Definition newPasswordEnd : Z := 122.
(** data/stored_user.go:32-32 [digitSpecialCharsStart] *)
Definition digitSpecialCharsStart : Z := 58.
(** data/stored_user.go:33-33 [digitSpecialCharsEnd] *)
Definition digitSpecialCharsEnd : Z := 64.
(** data/stored_user.go:34-34 [lettersSpecialCharsStart] *)
Definition lettersSpecialCharsStart : Z := 91.
(** data/stored_user.go:35-35 [lettersSpecialCharsEnd] *)
Definition lettersSpecialCharsEnd : Z := 96.

(** data/stored_user.go [StoredUser] *)
Record StoredUser := {
  su_Username : bytes;
  su_Password : bytes;
  su_Masks : list bytes;
  su_Global : option Access;
  su_Network : gmap bytes Access;
  su_Channel : gmap bytes (gmap bytes Access);
  su_json : JSONStorer;
}.

Definition set_password (a : StoredUser) (p : bytes) : StoredUser := {|
  su_Username := a.(su_Username); su_Password := p; su_Masks := a.(su_Masks);
  su_Global := a.(su_Global); su_Network := a.(su_Network); su_Channel := a.(su_Channel);
  su_json := a.(su_json) |}.
Definition set_masks (a : StoredUser) (m : list bytes) : StoredUser := {|
  su_Username := a.(su_Username); su_Password := a.(su_Password); su_Masks := m;
  su_Global := a.(su_Global); su_Network := a.(su_Network); su_Channel := a.(su_Channel);
  su_json := a.(su_json) |}.
Definition set_global (a : StoredUser) (g : option Access) : StoredUser := {|
  su_Username := a.(su_Username); su_Password := a.(su_Password); su_Masks := a.(su_Masks);
  su_Global := g; su_Network := a.(su_Network); su_Channel := a.(su_Channel);
  su_json := a.(su_json) |}.
Definition set_network (a : StoredUser) (n : gmap bytes Access) : StoredUser := {|
  su_Username := a.(su_Username); su_Password := a.(su_Password); su_Masks := a.(su_Masks);
  su_Global := a.(su_Global); su_Network := n; su_Channel := a.(su_Channel);
  su_json := a.(su_json) |}.
Definition set_channel (a : StoredUser) (c : gmap bytes (gmap bytes Access)) : StoredUser := {|
  su_Username := a.(su_Username); su_Password := a.(su_Password); su_Masks := a.(su_Masks);
  su_Global := a.(su_Global); su_Network := a.(su_Network); su_Channel := c;
  su_json := a.(su_json) |}.

Section StoredUser.
Context {CT : CaseTables} {BC : Bcrypt}.

(** ** Passwords *)

(** data/stored_user.go [StoredUser.SetPassword]: the error, if any, and the
    user *)
Definition SetPassword (salt : Salt) (a : StoredUser) (password : bytes) : option bytes * StoredUser :=
  match GenerateFromPassword salt password with
  | inl err => (Some err, a)
  | inr pwd => (None, set_password a pwd)
  end.

(** data/stored_user.go [StoredUser.VerifyPassword] *)
Definition VerifyPassword (a : StoredUser) (password : bytes) : bool :=
  CompareHashAndPassword a.(su_Password) password.

(** data/stored_user.go:163-171 [StoredUser.ResetPassword]: the character for
    a draw of [rand.Intn(newPasswordEnd - newPasswordStart)] *)
Definition password_char (draw : Z) : ascii :=
  let r := (newPasswordStart + draw)%Z in
  byte_of (if bool_decide (digitSpecialCharsStart <= r <= digitSpecialCharsEnd)%Z
           then r - (digitSpecialCharsEnd - digitSpecialCharsStart + 1)
           else if bool_decide (lettersSpecialCharsStart <= r <= lettersSpecialCharsEnd)%Z
           then r - (lettersSpecialCharsEnd - lettersSpecialCharsStart + 1)
           else r)%Z.

(** data/stored_user.go [StoredUser.ResetPassword], given the draws *)
Definition ResetPassword (salt : Salt) (draws : list Z) (a : StoredUser)
    : (bytes * option bytes) * StoredUser :=
  let newpasswd := map password_char (take nNewPasswordLen draws) in
  let '(err, a) := SetPassword salt a newpasswd in ((newpasswd, err), a).

(** ** Masks *)

(** data/stored_user.go [StoredUser.AddMask] *)
Definition AddMask (a : StoredUser) (mask : bytes) : bool * StoredUser :=
  let mask := ToLower mask in
  if decide (mask ∈ a.(su_Masks)) then (false, a)
  else (true, set_masks a (a.(su_Masks) ++ [mask])).

(** The loop of [DelMask]: the first entry that is the mask trades places with
    the last one, which is cut off. *)
Definition swap_remove (l : list bytes) (i : nat) : list bytes :=
  match last l with
  | Some x => take (length l - 1) (<[i := x]> l)
  | None => l
  end.

(** data/stored_user.go [StoredUser.DelMask] *)
Definition DelMask (a : StoredUser) (mask : bytes) : bool * StoredUser :=
  let mask := ToLower mask in
  match list_find (fun m => mask = m) a.(su_Masks) with
  | Some (i, _) => (true, set_masks a (swap_remove a.(su_Masks) i))
  | None => (false, a)
  end.

(** data/stored_user.go [StoredUser.ValidateMask] *)
Definition ValidateMask (a : StoredUser) (mask : bytes) : bool :=
  match a.(su_Masks) with
  | [] => true
  | masks => let mask := ToLower mask in existsb (fun ourMask => Host_Match mask ourMask) masks
  end.

(** The loop of [NewStoredUser] and [createStoredUser] over the masks *)
Fixpoint add_masks (a : StoredUser) (masks : list bytes) : option StoredUser :=
  match masks with
  | [] => Some a
  | m :: masks => let '(ok, a) := AddMask a m in if ok : bool then add_masks a masks else None
  end.

Definition empty_user (username : bytes) (js : JSONStorer) : StoredUser := {|
  su_Username := username; su_Password := []; su_Masks := []; su_Global := None;
  su_Network := ∅; su_Channel := ∅; su_json := js |}.

(** data/stored_user.go [NewStoredUser] *)
Definition NewStoredUser (salt : Salt) (un pw : bytes) (masks : list bytes) : bytes + StoredUser :=
  match un, pw with
  | [], _ | _, [] => inl errMissingUnameOrPwd
  | _, _ =>
    match SetPassword salt (empty_user (ToLower un) make_storer) pw with
    | (Some err, _) => inl err
    | (None, a) =>
      match add_masks a masks with Some a => inr a | None => inl errDuplicateMask end
    end
  end.

(** data/stored_user.go [createStoredUser] *)
Definition createStoredUser (masks : list bytes) : option StoredUser :=
  add_masks (empty_user [] None) masks.

(** ** Access *)

(** data/stored_user.go [StoredUser.GetGlobal] *)
Definition GetGlobal (a : StoredUser) : option Access := a.(su_Global).
(** data/stored_user.go [StoredUser.GetNetwork] *)
Definition GetNetwork (a : StoredUser) (network : bytes) : option Access :=
  a.(su_Network) !! ToLower network.
(** data/stored_user.go [StoredUser.GetChannel] *)
Definition GetChannel (a : StoredUser) (network channel : bytes) : option Access :=
  chans ← a.(su_Channel) !! ToLower network; chans !! ToLower channel.

(** The change [f] of an access that the callback given to [doNetwork] or
    [doChannel] makes, when there is one to change.  *)

(** data/stored_user.go [StoredUser.doNetwork] *)
Definition doNetwork (a : StoredUser) (network : bytes) (f : Access -> option Access) : StoredUser :=
  let network := ToLower network in
  match a.(su_Network) !! network with
  | Some access => set_network a (partial_alter (fun _ => f access) network a.(su_Network))
  | None => a
  end.

(** data/stored_user.go [StoredUser.doChannel] *)
Definition doChannel (a : StoredUser) (network channel : bytes) (f : Access -> option Access)
    : StoredUser :=
  let network := ToLower network in
  let channel := ToLower channel in
  match a.(su_Channel) !! network with
  | Some chanMap =>
    match chanMap !! channel with
    | Some access =>
      set_channel a (<[network := partial_alter (fun _ => f access) channel chanMap]> a.(su_Channel))
    | None => a
    end
  | None => a
  end.

(** data/stored_user.go [StoredUser.ensureNetwork], and what the caller does
    with the access it returns *)
Definition ensureNetwork (a : StoredUser) (network : bytes) (f : Access -> Access) : StoredUser :=
  let network := ToLower network in
  let access := default (NewAccess 0 []) (a.(su_Network) !! network) in
  set_network a (<[network := f access]> a.(su_Network)).

(** data/stored_user.go [StoredUser.ensureChannel], and what the caller does
    with the access it returns *)
Definition ensureChannel (a : StoredUser) (network channel : bytes) (f : Access -> Access)
    : StoredUser :=
  let network := ToLower network in
  let channel := ToLower channel in
  let chans := default ∅ (a.(su_Channel) !! network) in
  let access := default (NewAccess 0 []) (chans !! channel) in
  set_channel a (<[network := <[channel := f access]> chans]> a.(su_Channel)).

Definition with_level (level : Z) (a : Access) : Access :=
  {| Level := level; Flags := a.(Flags) |}.

(** [if a.Global == nil { a.Global = &Access{} }] and a change *)
Definition ensureGlobal (a : StoredUser) (f : Access -> Access) : StoredUser :=
  set_global a (Some (f (default (NewAccess 0 []) a.(su_Global)))).

(** data/stored_user.go [StoredUser.GrantGlobalFlags] *)
Definition GrantGlobalFlags (a : StoredUser) (flags : list bytes) : StoredUser :=
  ensureGlobal a (fun x => SetFlags x flags).
(** data/stored_user.go [StoredUser.GrantGlobalLevel] *)
Definition GrantGlobalLevel (a : StoredUser) (level : Z) : StoredUser :=
  ensureGlobal a (with_level level).
(** data/stored_user.go [StoredUser.GrantGlobal] *)
Definition GrantGlobal (a : StoredUser) (level : Z) (flags : list bytes) : StoredUser :=
  GrantGlobalFlags (GrantGlobalLevel a level) flags.
(** data/stored_user.go [StoredUser.RevokeGlobal] *)
Definition RevokeGlobal (a : StoredUser) : StoredUser := set_global a None.
(** data/stored_user.go [StoredUser.RevokeGlobalLevel] *)
Definition RevokeGlobalLevel (a : StoredUser) : StoredUser :=
  set_global a (with_level 0 <$> a.(su_Global)).
(** data/stored_user.go [StoredUser.RevokeGlobalFlags] *)
Definition RevokeGlobalFlags (a : StoredUser) (flags : list bytes) : StoredUser :=
  set_global a ((fun x => ClearFlags x flags) <$> a.(su_Global)).

(** data/stored_user.go [StoredUser.GrantNetwork] *)
Definition GrantNetwork (a : StoredUser) (network : bytes) (level : Z) (flags : list bytes) : StoredUser :=
  ensureNetwork a network (fun x => SetAccess x level flags).
(** data/stored_user.go [StoredUser.GrantNetworkFlags] *)
Definition GrantNetworkFlags (a : StoredUser) (network : bytes) (flags : list bytes) : StoredUser :=
  ensureNetwork a network (fun x => SetFlags x flags).
(** data/stored_user.go [StoredUser.GrantNetworkLevel] *)
Definition GrantNetworkLevel (a : StoredUser) (network : bytes) (level : Z) : StoredUser :=
  ensureNetwork a network (with_level level).
(** data/stored_user.go [StoredUser.RevokeNetwork] *)
Definition RevokeNetwork (a : StoredUser) (network : bytes) : StoredUser :=
  doNetwork a network (fun _ => None).
(** data/stored_user.go [StoredUser.RevokeNetworkLevel] *)
Definition RevokeNetworkLevel (a : StoredUser) (network : bytes) : StoredUser :=
  doNetwork a network (fun x => Some (with_level 0 x)).
(** data/stored_user.go [StoredUser.RevokeNetworkFlags] *)
Definition RevokeNetworkFlags (a : StoredUser) (network : bytes) (flags : list bytes) : StoredUser :=
  doNetwork a network (fun x => Some (ClearFlags x flags)).

(** data/stored_user.go [StoredUser.GrantChannel] *)
Definition GrantChannel (a : StoredUser) (network channel : bytes) (level : Z) (flags : list bytes)
    : StoredUser := ensureChannel a network channel (fun x => SetAccess x level flags).
(** data/stored_user.go [StoredUser.GrantChannelFlags] *)
Definition GrantChannelFlags (a : StoredUser) (network channel : bytes) (flags : list bytes)
    : StoredUser := ensureChannel a network channel (fun x => SetFlags x flags).
(** data/stored_user.go [StoredUser.GrantChannelLevel] *)
Definition GrantChannelLevel (a : StoredUser) (network channel : bytes) (level : Z) : StoredUser :=
  ensureChannel a network channel (with_level level).
(** data/stored_user.go [StoredUser.RevokeChannel] *)
Definition RevokeChannel (a : StoredUser) (network channel : bytes) : StoredUser :=
  doChannel a network channel (fun _ => None).
(** data/stored_user.go [StoredUser.RevokeChannelLevel] *)
Definition RevokeChannelLevel (a : StoredUser) (network channel : bytes) : StoredUser :=
  doChannel a network channel (fun x => Some (with_level 0 x)).
(** data/stored_user.go [StoredUser.RevokeChannelFlags] *)
Definition RevokeChannelFlags (a : StoredUser) (network channel : bytes) (flags : list bytes)
    : StoredUser := doChannel a network channel (fun x => Some (ClearFlags x flags)).

(** ** Checks *)

(** What a check finds through a pointer that may be nil *)
Definition on_access (o : option Access) (f : Access -> bool) : bool :=
  match o with Some access => f access | None => false end.

(** data/stored_user.go [StoredUser.HasGlobalLevel] *)
Definition HasGlobalLevel (a : StoredUser) (level : Z) : bool :=
  on_access a.(su_Global) (fun x => Access_HasLevel x level).
(** data/stored_user.go [StoredUser.HasGlobalFlags] *)
Definition HasGlobalFlags (a : StoredUser) (flags : list bytes) : bool :=
  on_access a.(su_Global) (fun x => Access_HasFlags x flags).
(** data/stored_user.go [StoredUser.HasGlobalFlag] *)
Definition HasGlobalFlag (a : StoredUser) (flag : Z) : bool :=
  on_access a.(su_Global) (fun x => Access_HasFlag x flag).
(** data/stored_user.go [StoredUser.HasNetworkLevel] *)
Definition HasNetworkLevel (a : StoredUser) (network : bytes) (level : Z) : bool :=
  on_access (GetNetwork a network) (fun x => Access_HasLevel x level).
(** data/stored_user.go [StoredUser.HasNetworkFlags] *)
Definition HasNetworkFlags (a : StoredUser) (network : bytes) (flags : list bytes) : bool :=
  on_access (GetNetwork a network) (fun x => Access_HasFlags x flags).
(** data/stored_user.go [StoredUser.HasNetworkFlag] *)
Definition HasNetworkFlag (a : StoredUser) (network : bytes) (flag : Z) : bool :=
  on_access (GetNetwork a network) (fun x => Access_HasFlag x flag).
(** data/stored_user.go [StoredUser.HasChannelLevel] *)
Definition HasChannelLevel (a : StoredUser) (network channel : bytes) (level : Z) : bool :=
  on_access (GetChannel a network channel) (fun x => Access_HasLevel x level).
(** data/stored_user.go [StoredUser.HasChannelFlags] *)
Definition HasChannelFlags (a : StoredUser) (network channel : bytes) (flags : list bytes) : bool :=
  on_access (GetChannel a network channel) (fun x => Access_HasFlags x flags).
(** data/stored_user.go [StoredUser.HasChannelFlag] *)
Definition HasChannelFlag (a : StoredUser) (network channel : bytes) (flag : Z) : bool :=
  on_access (GetChannel a network channel) (fun x => Access_HasFlag x flag).

(** data/stored_user.go:263-269 [StoredUser.Has]: the closure [check], which
    keeps the two answers *)
Definition check (searchBits level : Z) (st : bool * bool) (access : option Access) : bool * bool :=
  match access with
  | Some x => (st.1 || Access_HasLevel x level,
               st.2 || bool_decide (Z.land searchBits x.(Flags) <> 0%Z))
  | None => st
  end.

(** data/stored_user.go [StoredUser.Has] *)
Definition Has (a : StoredUser) (network channel : bytes) (level : Z) (flags : list bytes) : bool :=
  let network := ToLower network in
  let channel := ToLower channel in
  let check := check (getFlagBits flags) level in
  let st := check (false, false) a.(su_Global) in
  if st.1 && st.2 then true else
  let st := check st (a.(su_Network) !! network) in
  if st.1 && st.2 then true else
  match a.(su_Channel) !! network with
  | Some chans => let st := check st (chans !! channel) in st.1 && st.2
  | None => false
  end.

(** data/stored_user.go [StoredUser.HasLevel] *)
Definition HasLevel (a : StoredUser) (network channel : bytes) (level : Z) : bool :=
  if HasGlobalLevel a level then true else
  if HasNetworkLevel a network level then true else
  if HasChannelLevel a network channel level then true else false.

(** data/stored_user.go [StoredUser.HasFlags] *)
Definition HasFlags (a : StoredUser) (network channel : bytes) (flags : list bytes) : bool :=
  let searchBits := getFlagBits flags in
  let network := ToLower network in
  let channel := ToLower channel in
  let check o := on_access o (fun x => bool_decide (Z.land searchBits x.(Flags) <> 0%Z)) in
  if check a.(su_Global) then true else
  if check (a.(su_Network) !! network) then true else
  match a.(su_Channel) !! network with
  | Some chans => check (chans !! channel)
  | None => false
  end.

(** data/stored_user.go [StoredUser.HasFlag] *)
Definition HasFlag (a : StoredUser) (network channel : bytes) (flag : Z) : bool :=
  if HasGlobalFlag a flag then true else
  if HasNetworkFlag a network flag then true else
  if HasChannelFlag a network channel flag then true else false.

(** ** Printing *)

(** One piece of the text: a space before it when something was written. *)
Definition piece (st : bytes * bool) (name : bytes) (x : Access) : bytes * bool :=
  (st.1 ++ (if st.2 then bs " " else []) ++ name ++ bs "(" ++ Access_String (Some x) ++ bs ")", true).

Definition has_any (x : Access) : bool :=
  bool_decide (0 < x.(Level))%Z || bool_decide (0 < x.(Flags))%Z.

(** data/stored_user.go [StoredUser.String] *)
Definition StoredUser_String {RO : RangeOrder bytes} (a : StoredUser) (network channel : bytes) : bytes :=
  let st := ([], false) in
  let st := match a.(su_Global) with
            | Some x => if has_any x then (bs "G(" ++ Access_String (Some x) ++ bs ")", true) else st
            | None => st end in
  let st := match GetNetwork a network with Some srv => piece st (bs "S") srv | None => st end in
  let network := ToLower network in
  let channel := ToLower channel in
  let st :=
    match a.(su_Channel) !! network with
    | Some chsrv =>
      match channel with
      | [] => foldl (fun st (p : bytes * Access) =>
                if bool_decide (Level p.2 = 0%Z) && bool_decide (Flags p.2 = 0%Z) then st
                else piece st p.1 p.2) st (range chsrv)
      | _ => match chsrv !! channel with
             | Some ch => if has_any ch then piece st channel ch else st
             | None => st end
      end
    | None => st
    end in
  if st.2 then st.1 else none.

(** ** Lemmas *)

Lemma existsb_orb_ext {A} (f g h : A -> bool) l :
  (forall x, f x = g x || h x) -> existsb f l = existsb g l || existsb h l.
Proof.
  intros H. induction l as [|x l IH]; cbn; [done|]. rewrite H, IH. by destruct (g x), (h x), (existsb g l).
Qed.

Lemma existsb_concat {A} (f : A -> bool) ls : existsb (existsb f) ls = existsb f (concat ls).
Proof. induction ls as [|l ls IH]; cbn; [done|]. by rewrite existsb_app, IH. Qed.

Lemma existsb_compose {A B} (f : B -> bool) (g : A -> B) l : existsb (fun x => f (g x)) l = existsb f (map g l).
Proof. induction l as [|x l IH]; cbn; [done|]. by rewrite IH. Qed.

(** The mask the code tests with and the loop over the letters agree. *)
Lemma flag_mask x flags :
  bool_decide (Z.land (getFlagBits flags) x.(Flags) <> 0%Z) = Access_HasFlags x flags.
Proof.
  unfold Access_HasFlags. rewrite (existsb_compose (existsb (Access_HasFlag x)) runes), existsb_concat.
  fold (flag_runes flags). apply eq_bool_prop_intro.
  rewrite !Is_true_true, bool_decide_eq_true, existsb_exists. split.
  - intros Hne. destruct (decide (Exists (fun r => Access_HasFlag x r = true) (flag_runes flags))) as [H|H].
    + apply Exists_exists in H as (r & Hr & H). exists r. by rewrite <- list_elem_of_In.
    + exfalso. apply Hne, Z.bits_inj'. intros i Hi. rewrite Z.land_spec, Z.bits_0.
      rewrite getFlagBits_testbit by done. apply not_true_iff_false. intros [H1 H2]%andb_true_iff.
      apply existsb_exists in H1 as (r & Hr & E%bool_decide_eq_true). apply list_elem_of_In in Hr.
      apply H, Exists_exists. exists r. split; [done|]. rewrite HasFlag_index, E; [done|].
      pose proof (flag_runes_are_runes flags) as HF. rewrite Forall_forall in HF. by apply HF.
  - intros (r & Hr & H). apply list_elem_of_In in Hr.
    pose proof (flag_runes_are_runes flags) as HF. rewrite Forall_forall in HF.
    rewrite HasFlag_index in H by by apply HF. destruct (flag_index r) as [i|] eqn:E; [|done].
    pose proof (proj1 (flag_letter_index _ _ E)) as Hi. intros H0.
    assert (Z.testbit (Z.land (getFlagBits flags) (Flags x)) i = true) as Ht.
    { rewrite Z.land_spec, H, andb_true_r, getFlagBits_testbit by lia.
      rewrite (existsb_flag r i) by done. by apply bool_decide_eq_true. }
    by rewrite H0, Z.bits_0 in Ht.
Qed.

Lemma HasFlags_or a n c fs :
  HasFlags a n c fs = HasGlobalFlags a fs || HasNetworkFlags a n fs || HasChannelFlags a n c fs.
Proof.
  unfold HasFlags, HasGlobalFlags, HasNetworkFlags, HasChannelFlags, GetNetwork, GetChannel, on_access.
  destruct (su_Global a), (su_Network a !! ToLower n), (su_Channel a !! ToLower n) as [ch|]; cbn;
    try (destruct (ch !! ToLower c)); rewrite ?flag_mask; cbn;
    repeat match goal with |- context [Access_HasFlags ?x fs] => destruct (Access_HasFlags x fs) end; done.
Qed.

Lemma HasLevel_or a n c l :
  HasLevel a n c l = HasGlobalLevel a l || HasNetworkLevel a n l || HasChannelLevel a n c l.
Proof.
  unfold HasLevel. by destruct (HasGlobalLevel a l), (HasNetworkLevel a n l), (HasChannelLevel a n c l).
Qed.

(** The combined check is the conjunction of the two single ones: a level
    and flags that are held at different places, globally, on the network or
    on the channel, add up. *)
Theorem Has_split a network channel level flags :
  Has a network channel level flags =
    HasLevel a network channel level && HasFlags a network channel flags.
Proof.
  rewrite HasLevel_or, HasFlags_or.
  unfold Has, HasGlobalLevel, HasNetworkLevel, HasChannelLevel,
    HasGlobalFlags, HasNetworkFlags, HasChannelFlags, GetNetwork, GetChannel, on_access, check.
  destruct (su_Global a) as [g|], (su_Network a !! ToLower network) as [n|],
    (su_Channel a !! ToLower network) as [ch|]; cbn;
    try (destruct (ch !! ToLower channel)); rewrite ?flag_mask; cbn;
    repeat match goal with
      | |- context [Access_HasFlags ?x flags] => destruct (Access_HasFlags x flags)
      | |- context [Access_HasLevel ?x level] => destruct (Access_HasLevel x level) end; done.
Qed.

(** *** The tables of access *)

Lemma ensureNetwork_get a n f n' :
  GetNetwork (ensureNetwork a n f) n' =
    if decide (ToLower n' = ToLower n) then Some (f (default (NewAccess 0 []) (GetNetwork a n)))
    else GetNetwork a n'.
Proof.
  unfold GetNetwork, ensureNetwork. cbn. case_decide as H; [by rewrite H, lookup_insert_eq|].
  by rewrite lookup_insert_ne.
Qed.

Lemma doNetwork_get a n f n' :
  GetNetwork (doNetwork a n f) n' =
    if decide (ToLower n' = ToLower n) then GetNetwork a n ≫= f else GetNetwork a n'.
Proof.
  unfold GetNetwork, doNetwork. destruct (su_Network a !! ToLower n) eqn:E; cbn.
  - case_decide as H; [by rewrite H, lookup_partial_alter_eq|]. by rewrite lookup_partial_alter_ne.
  - case_decide as H; [by rewrite H|done].
Qed.

Lemma ensureChannel_get a n c f n' c' :
  GetChannel (ensureChannel a n c f) n' c' =
    if decide (ToLower n' = ToLower n /\ ToLower c' = ToLower c)
    then Some (f (default (NewAccess 0 []) (GetChannel a n c))) else GetChannel a n' c'.
Proof.
  unfold GetChannel, ensureChannel. cbn. destruct (decide (ToLower n' = ToLower n)) as [->|Hn].
  - rewrite lookup_insert_eq. cbn. destruct (decide (ToLower c' = ToLower c)) as [->|Hc].
    + rewrite lookup_insert_eq, decide_True by done. do 2 f_equal.
      by destruct (su_Channel a !! ToLower n); cbn; rewrite ?lookup_empty.
    + rewrite lookup_insert_ne, decide_False by naive_solver.
      by destruct (su_Channel a !! ToLower n); cbn; rewrite ?lookup_empty.
  - by rewrite lookup_insert_ne, decide_False by naive_solver.
Qed.

Lemma doChannel_get a n c f n' c' :
  GetChannel (doChannel a n c f) n' c' =
    if decide (ToLower n' = ToLower n /\ ToLower c' = ToLower c)
    then GetChannel a n c ≫= f else GetChannel a n' c'.
Proof.
  unfold GetChannel, doChannel. destruct (su_Channel a !! ToLower n) as [r|] eqn:E; cbn.
  2:{ case_decide as H; [|done]. destruct H as [-> ->]. by rewrite E. }
  destruct (r !! ToLower c) as [x|] eqn:Ex; cbn.
  2:{ case_decide as H; [|done]. destruct H as [-> ->]. rewrite E. cbn. by rewrite Ex. }
  destruct (decide (ToLower n' = ToLower n)) as [->|Hn].
  - rewrite lookup_insert_eq. cbn. destruct (decide (ToLower c' = ToLower c)) as [->|Hc].
    + by rewrite lookup_partial_alter_eq, decide_True.
    + by rewrite lookup_partial_alter_ne, decide_False, E by naive_solver.
  - by rewrite lookup_insert_ne, decide_False by naive_solver.
Qed.

(** Granting on a network or a channel changes the access there and
    nowhere else, whatever the case of the names; revoking takes away exactly
    that entry, and so what the user had elsewhere stays. *)
Theorem access_tables a n c level flags n' c' :
  (let a1 := GrantNetwork a n level flags in
   GetNetwork a1 n' =
     (if decide (ToLower n' = ToLower n)
      then Some (SetAccess (default (NewAccess 0 []) (GetNetwork a n)) level flags)
      else GetNetwork a n') /\
   GetChannel a1 n' c' = GetChannel a n' c' /\ GetGlobal a1 = GetGlobal a) /\
  (let a2 := GrantChannel a n c level flags in
   GetChannel a2 n' c' =
     (if decide (ToLower n' = ToLower n /\ ToLower c' = ToLower c)
      then Some (SetAccess (default (NewAccess 0 []) (GetChannel a n c)) level flags)
      else GetChannel a n' c') /\
   GetNetwork a2 n' = GetNetwork a n' /\ GetGlobal a2 = GetGlobal a) /\
  (let a3 := RevokeNetwork a n in
   GetNetwork a3 n' = (if decide (ToLower n' = ToLower n) then None else GetNetwork a n') /\
   GetChannel a3 n' c' = GetChannel a n' c' /\ GetGlobal a3 = GetGlobal a) /\
  (let a4 := RevokeChannel a n c in
   GetChannel a4 n' c' =
     (if decide (ToLower n' = ToLower n /\ ToLower c' = ToLower c) then None
      else GetChannel a n' c') /\
   GetNetwork a4 n' = GetNetwork a n' /\ GetGlobal a4 = GetGlobal a).
Proof.
  cbn zeta. split; [|split; [|split]].
  - split; [apply ensureNetwork_get|done].
  - split; [apply ensureChannel_get|done].
  - split; [|by unfold RevokeNetwork, doNetwork; cbn; case_match].
    unfold RevokeNetwork. rewrite doNetwork_get. case_decide; [|done]. by destruct (GetNetwork a n).
  - split; [|by unfold RevokeChannel, doChannel; cbn; repeat case_match].
    unfold RevokeChannel. rewrite doChannel_get. case_decide; [|done]. by destruct (GetChannel a n c).
Qed.

(** *** Masks *)

Lemma swap_remove_perm l i x : l !! i = Some x -> swap_remove l i ++ [x] ≡ₚ l.
Proof.
  intros Hx. unfold swap_remove. destruct l as [|y l _] using rev_ind; [done|].
  rewrite last_snoc, length_app. cbn [length]. replace (length l + 1 - 1) with (length l) by lia.
  destruct (decide (i = length l)) as [->|Hne].
  - rewrite list_lookup_middle in Hx by done. injection Hx as ->.
    rewrite insert_app_r_alt by done. rewrite Nat.sub_diag. cbn. by rewrite take_app_length.
  - assert (i < length l) as Hi.
    { apply lookup_lt_Some in Hx. rewrite length_app in Hx. cbn in Hx. lia. }
    rewrite lookup_app_l in Hx by done. rewrite insert_app_l by done.
    rewrite take_app_length' by by rewrite length_insert.
    rewrite insert_take_drop by done. rewrite <- (take_drop_middle l i x Hx) at 3.
    rewrite <- !app_assoc. cbn. solve_Permutation.
Qed.

(** The masks of a user: folded and without repetition. *)
Definition masks_ok (a : StoredUser) : Prop :=
  NoDup a.(su_Masks) /\ Forall (fun m => ToLower m = m) a.(su_Masks).

(** A user's masks are a set of folded masks: adding reports whether the
    mask is new and adds it, deleting reports whether it was there and takes
    away that one only. *)
Theorem masks_spec a mask :
  masks_ok a ->
  (let '(added, a1) := AddMask a mask in
   masks_ok a1 /\ added = bool_decide (ToLower mask ∉ a.(su_Masks)) /\
   forall m, m ∈ a1.(su_Masks) <-> m = ToLower mask \/ m ∈ a.(su_Masks)) /\
  (let '(deleted, a2) := DelMask a mask in
   masks_ok a2 /\ deleted = bool_decide (ToLower mask ∈ a.(su_Masks)) /\
   forall m, m ∈ a2.(su_Masks) <-> m <> ToLower mask /\ m ∈ a.(su_Masks)).
Proof.
  intros [Hnd Hlow]. split.
  - unfold AddMask. cbn zeta. destruct (decide (ToLower mask ∈ su_Masks a)) as [Hin|Hin].
    + split; [done|]. split; [by rewrite bool_decide_false by tauto|]. naive_solver.
    + split; [|split; [by rewrite bool_decide_true|]].
      * split; cbn.
        -- apply NoDup_app. split; [done|]. split; [set_solver|apply NoDup_singleton].
        -- apply Forall_app. split; [done|]. constructor; [apply ToLower_idem|constructor].
      * intros m. cbn. rewrite elem_of_app, list_elem_of_singleton. tauto.
  - unfold DelMask. cbn zeta. destruct (list_find _ _) as [[i y]|] eqn:E.
    + apply list_find_Some in E as (Hi & <- & _).
      pose proof (swap_remove_perm _ _ _ Hi) as Hp.
      assert (ToLower mask ∈ su_Masks a) as Hin by by eapply list_elem_of_lookup_2.
      rewrite <- Hp in Hnd. apply NoDup_app in Hnd as (Hnd & Hdis & _).
      rewrite bool_decide_true by done. split; [|split; [done|]].
      * split; cbn; [done|]. rewrite <- Hp in Hlow. by apply Forall_app in Hlow as [? _].
      * intros m. cbn.
        assert (m ∈ su_Masks a <-> m ∈ swap_remove (su_Masks a) i \/ m = ToLower mask) as ->.
        { by rewrite <- (list_elem_of_singleton m), <- elem_of_app, Hp. }
        specialize (Hdis m). rewrite list_elem_of_singleton in Hdis. naive_solver.
    + apply list_find_None in E. rewrite Forall_forall in E.
      assert (ToLower mask ∉ su_Masks a) as Hnin by (intros H; by apply (E _ H)).
      rewrite bool_decide_false by done. split; [done|]. split; [done|].
      intros m. split; [|tauto]. intros Hm. split; [|done]. by intros ->.
Qed.

(** *** Passwords *)

Definition is_alnum (c : ascii) : bool :=
  bool_decide (48 <= code c <= 57)%Z || bool_decide (65 <= code c <= 90)%Z
  || bool_decide (97 <= code c <= 122)%Z.

Lemma password_char_alnum d : (0 <= d < 74)%Z -> is_alnum (password_char d) = true.
Proof.
  intros Hd. unfold password_char, is_alnum, newPasswordStart, digitSpecialCharsStart,
    digitSpecialCharsEnd, lettersSpecialCharsStart, lettersSpecialCharsEnd. cbn zeta.
  repeat case_bool_decide; rewrite code_byte_of in * by lia; try done; exfalso; lia.
Qed.

(** A generated password has ten characters, all of them digits or ASCII
    letters whatever the random source draws, and it is the one the user then
    logs in with. *)
Theorem ResetPassword_spec salt draws a :
  length draws = nNewPasswordLen ->
  Forall (fun d => 0 <= d < newPasswordEnd - newPasswordStart)%Z draws ->
  let '((pw, err), a') := ResetPassword salt draws a in
  length pw = 10 /\ forallb is_alnum pw = true /\
  match err with None => VerifyPassword a' pw = true | Some _ => a' = a end.
Proof.
  intros Hl Hd. unfold ResetPassword, SetPassword.
  rewrite (firstn_all2 draws) by (rewrite Hl; done).
  assert (length (map password_char draws) = 10 /\ forallb is_alnum (map password_char draws) = true)
    as [H1 H2].
  { split; [by rewrite length_map, Hl|]. apply forallb_forall. intros c Hc%list_elem_of_In.
    apply list_elem_of_fmap in Hc as (d & -> & Hc). rewrite Forall_forall in Hd.
    apply password_char_alnum. exact (Hd _ Hc). }
  destruct (GenerateFromPassword salt _) as [err|pwd] eqn:E; cbn; (split; [done|split; [done|]]).
  - done.
  - unfold VerifyPassword. cbn. by eapply Hash_ok.
Qed.
End StoredUser.

(** ** Witnesses *)

(** A hash function that keeps the salt before the password. *)
Definition salted : Bcrypt.
Proof.
  refine {| Salt := ascii; GenerateFromPassword := fun s pw => inr (s :: pw);
            CompareHashAndPassword := fun h pw => bool_decide (drop 1 h = pw) |}.
  intros salt pw h [= <-]. by apply bool_decide_eq_true.
Defined.

Lemma ResetPassword_spec_witness :
  let '((pw, err), a') := @ResetPassword salted "x"%char [0;9;10;17;42;43;44;50;60;73]%Z (empty_user (bs "u") None) in
  length pw = 10 /\ forallb is_alnum pw = true /\
  match err with None => @VerifyPassword salted a' pw = true | Some _ => a' = empty_user (bs "u") None end.
Proof. apply (@ResetPassword_spec salted); [reflexivity|decide_now]. Defined.

Lemma masks_spec_witness :
  masks_ok (CT := ascii_tables) (set_masks (empty_user (bs "u") None) [bs "*!*@a"; bs "*!*@b"]) /\
  let '(deleted, a2) := DelMask (CT := ascii_tables)
       (set_masks (empty_user (bs "u") None) [bs "*!*@a"; bs "*!*@b"]) (bs "*!*@A") in
  masks_ok (CT := ascii_tables) a2.
Proof.
  assert (masks_ok (CT := ascii_tables) (set_masks (empty_user (bs "u") None) [bs "*!*@a"; bs "*!*@b"])) as H
    by (split; decide_now).
  split; [exact H|]. pose proof (proj2 (masks_spec (CT := ascii_tables) _ (bs "*!*@A") H)) as HD.
  exact (proj1 HD).
Defined.
