(* ===== verification/Store.v ===== *)
(** * Package data: the store of users and channels (data/store.go)

    The store keeps serialized users and channels in a key-value database,
    caches the users it has read, and remembers which hosts are logged in.
    The database (package [kv]) and the encoder (package [gob]) are the
    classes [KV] and [Gob]; users are shared by pointer between the cache, the
    table of logged-in hosts and the callers, so they live in a heap. *)

From S2P Require Import Prelude GoStrings Fmt Access JSONStorer StoredUser.

Abbreviation ptr := (option nat).

(** What the database documents: [view] is its content, an operation that
    reports no error has its effect, and the enumeration visits every value.
    [kv_Put] updates one key with a function of the old value; the result says
    whether it wrote. *)
Class KV := {
  DB : Type;
  view : DB -> gmap bytes bytes;
  kv_Get : DB -> bytes -> bytes + option bytes;
  kv_Set : DB -> bytes -> bytes -> option bytes * DB;
  kv_Delete : DB -> bytes -> option bytes * DB;
  kv_Put : DB -> bytes -> (option bytes -> option bytes) -> (bytes + bool) * DB;
  kv_Scan : DB -> bytes + list bytes;
  Get_ok : forall db k o, kv_Get db k = inr o -> o = view db !! k;
  Set_ok : forall db k v db', kv_Set db k v = (None, db') -> view db' = <[k := v]> (view db);
  Delete_ok : forall db k db', kv_Delete db k = (None, db') -> view db' = delete k (view db);
  Delete_err : forall db k e db', kv_Delete db k = (Some e, db') -> view db' = view db;
  Put_ok : forall db k f w db', kv_Put db k f = (inr w, db') ->
    match f (view db !! k) with
    | Some v => w = true /\ view db' = <[k := v]> (view db)
    | None => w = false /\ view db' = view db
    end;
  Scan_ok : forall db vs, kv_Scan db = inr vs -> vs ≡ₚ (map_to_list (view db)).*2;
}.

(** What the encoder documents: decoding undoes encoding, and there is nothing
    to decode in an empty input.  A decoder returns the object it filled, even
    with an error. *)
Class Gob := {
  enc_user : StoredUser -> bytes + bytes;
  dec_user : bytes -> StoredUser * option bytes;
  enc_chan : StoredChannel -> bytes + bytes;
  dec_chan : bytes -> StoredChannel * option bytes;
  user_ok : forall u s, enc_user u = inr s -> dec_user s = (u, None);
  chan_ok : forall c s, enc_chan c = inr s -> dec_chan s = (c, None);
  user_eof : (dec_user []).2 <> None;
  chan_eof : (dec_chan []).2 <> None;
}.

(** data/store.go:15-15 [AuthErrBadPassword] *)
Definition AuthErrBadPassword : Z := 1.
(** data/store.go:16-16 [AuthErrHostNotFound] *)
Definition AuthErrHostNotFound : Z := 2.
(** data/store.go:17-17 [AuthErrUserNotFound] *)
Definition AuthErrUserNotFound : Z := 3.
(** data/store.go:24-24 [errFmtUserNotFound] *)
Definition errFmtUserNotFound : bytes := bs "User [%v] not found.".
(** data/store.go:27-27 [errFmtBadPassword] *)
Definition errFmtBadPassword : bytes := bs "Password does not match for user [%v].".
(** data/store.go:30-30 [errFmtBadHost] *)
Definition errFmtBadHost : bytes := bs "Host [%v] does not match stored hosts for user [%v].".
(** data/store.go:51-51 [nMaxCache] *)
Definition nMaxCache : nat := 1000.
(** data/store.go:54-54 [isInitialized] *)
Definition isInitialized : bytes := [byte_of 0].

(** data/store.go [AuthError] *)
Record AuthError := { ae_str : bytes; ae_fmtArgs : list value; FailureType : Z }.

(** data/store.go [AuthError.Error] *)
Definition AuthError_Error (a : AuthError) : bytes :=
  match a.(ae_fmtArgs) with [] => a.(ae_str) | args => Sprintf a.(ae_str) args end.

(** An error the store returns: one of its own, or one that was handed on. *)
Inductive store_error :=
  | Auth (e : AuthError)
  | Other (e : bytes).

Section Store.
Context {CT : CaseTables} {BC : Bcrypt} {K : KV} {G : Gob}.

(** data/store.go [Store], and the heap of users *)
Record Store := {
  db : DB;
  cache : gmap bytes ptr;
  authed : gmap bytes nat;
  checkedFirst : bool;
  suheap : gmap nat StoredUser;
}.

Definition set_db (s : Store) (d : DB) : Store := {| db := d; cache := s.(cache);
  authed := s.(authed); checkedFirst := s.(checkedFirst); suheap := s.(suheap) |}.
Definition set_cache (s : Store) (c : gmap bytes ptr) : Store := {| db := s.(db); cache := c;
  authed := s.(authed); checkedFirst := s.(checkedFirst); suheap := s.(suheap) |}.
Definition set_authed (s : Store) (a : gmap bytes nat) : Store := {| db := s.(db);
  cache := s.(cache); authed := a; checkedFirst := s.(checkedFirst); suheap := s.(suheap) |}.
Definition set_suheap (s : Store) (h : gmap nat StoredUser) : Store := {| db := s.(db);
  cache := s.(cache); authed := s.(authed); checkedFirst := s.(checkedFirst); suheap := h |}.

(** data/store.go [NewStore]: [prov] is what the provider returned. *)
Definition NewStore (prov : bytes + DB) : bytes + Store :=
  match prov with
  | inl err => inl err
  | inr d => inr {| db := d; cache := ∅; authed := ∅; checkedFirst := false; suheap := ∅ |}
  end.

(** data/store.go [iterate].  The loop tests [val] before the first [Next],
    when it is nil.  [None] is the nil slice of an empty database. *)
Definition iterate (d : DB) (filter : StoredUser -> bool) : bytes + list StoredUser :=
  match kv_Scan d with
  | inl err => inl err
  | inr [] => inr []
  | inr vals =>
    inr (omap (fun val => let '(ua, err) := dec_user val in
                          match err with
                          | None => if filter ua then Some ua else None
                          | Some _ => None end) ([] :: vals))
  end.

Definition has_access (a : option Access) : bool :=
  match a with Some a => negb (IsZero a) | None => false end.

(** data/store.go [Store.GlobalUsers] *)
Definition GlobalUsers (s : Store) : bytes + list StoredUser :=
  iterate s.(db) (fun ua => has_access (GetGlobal ua)).
(** data/store.go [Store.NetworkUsers] *)
Definition NetworkUsers (s : Store) (network : bytes) : bytes + list StoredUser :=
  iterate s.(db) (fun ua => has_access (GetNetwork ua network)).
(** data/store.go [Store.ChanUsers] *)
Definition ChanUsers (s : Store) (network channel : bytes) : bytes + list StoredUser :=
  iterate s.(db) (fun ua => has_access (GetChannel ua network channel)).

(** data/store.go [Store.checkCacheLimits] *)
Definition checkCacheLimits (s : Store) : Store :=
  if bool_decide (nMaxCache < size s.(cache) + 1) then set_cache s ∅ else s.

(** data/store.go [Store.SaveUser]: the error, if any.  What [db.Set] returns
    is not looked at. *)
Definition SaveUser (s : Store) (ua : nat) : go (option bytes * Store) :=
  u ← deref (s.(suheap) !! ua);
  match enc_user u with
  | inl err => Ret (Some err, s)
  | inr serialized =>
    let '(_, d) := kv_Set s.(db) u.(su_Username) serialized in
    let s := checkCacheLimits (set_db s d) in
    Ret (None, set_cache s (<[u.(su_Username) := Some ua]> s.(cache)))
  end.

(** data/store.go [Store.fetchUser] *)
Definition fetchUser (s : Store) (username : bytes) : (ptr * option bytes) * Store :=
  let username := ToLower username in
  match kv_Get s.(db) username with
  | inl err => ((None, Some err), s)
  | inr None => ((None, None), s)
  | inr (Some serialized) =>
    let '(u, err) := dec_user serialized in
    let l := fresh (dom s.(suheap)) in
    ((Some l, err), set_suheap s (<[l := u]> s.(suheap)))
  end.

(** data/store.go [Store.FindUser] *)
Definition FindUser (s : Store) (username : bytes) : (ptr * option bytes) * Store :=
  let username := ToLower username in
  match s.(cache) !! username with
  | Some cached => ((cached, None), s)
  | None =>
    let '((user, err), s) := fetchUser s username in
    match err with
    | Some _ => ((user, err), s)
    | None =>
      let s := checkCacheLimits s in
      ((user, None), set_cache s (<[username := user]> s.(cache)))
    end
  end.

(** data/store.go [Store.RemoveUser] *)
Definition RemoveUser (s : Store) (username : bytes) : (bool * option bytes) * Store :=
  let username := ToLower username in
  let '((exists_, err), s) := FindUser s username in
  match exists_, err with
  | Some _, None =>
    let s := set_cache s (delete username s.(cache)) in
    let '(err, d) := kv_Delete s.(db) username in
    (match err with Some _ => (false, err) | None => (true, None) end, set_db s d)
  | _, _ => ((false, err), s)
  end.

(** data/store.go [Store.AuthUser] *)
Definition AuthUser (s : Store) (network host username password : bytes)
    : go ((store_error + nat) * Store) :=
  let username := ToLower username in
  match s.(authed) !! (network ++ host) with
  | Some user => Ret (inr user, s)
  | None =>
    let '((user, err), s) := FindUser s username in
    match err, user with
    | Some err, _ => Ret (inl (Other err), s)
    | None, None =>
      Ret (inl (Auth {| ae_str := errFmtUserNotFound; ae_fmtArgs := [VString username];
                        FailureType := AuthErrUserNotFound |}), s)
    | None, Some l =>
      u ← deref (s.(suheap) !! l);
      Ret (if negb (ValidateMask u host) then
        (inl (Auth {| ae_str := errFmtBadHost; ae_fmtArgs := [VString host; VString username];
                      FailureType := AuthErrHostNotFound |}), s)
      else if negb (VerifyPassword u password) then
        (inl (Auth {| ae_str := errFmtBadPassword; ae_fmtArgs := [VString username];
                      FailureType := AuthErrBadPassword |}), s)
      else (inr l, set_authed s (<[network ++ host := l]> s.(authed))))
    end
  end.

(** data/store.go [Store.GetAuthedUser] *)
Definition GetAuthedUser (s : Store) (network host : bytes) : ptr := s.(authed) !! (network ++ host).

(** data/store.go [Store.Logout] *)
Definition Logout (s : Store) (network host : bytes) : Store :=
  set_authed s (delete (network ++ host) s.(authed)).

(** data/store.go [Store.LogoutByUsername] *)
Definition LogoutByUsername {RO : RangeOrder bytes} (s : Store) (username : bytes) : go Store :=
  let username := ToLower username in
  hosts ← go_fold (fun hosts (p : bytes * nat) =>
            u ← deref (s.(suheap) !! p.2);
            Ret (if decide (u.(su_Username) = username) then hosts ++ [p.1] else hosts))
          [] (range s.(authed));
  Ret (set_authed s (foldl (fun m h => delete h m) s.(authed) hosts)).

(** data/store.go [Store.SaveChannel]: what [db.Set] returns is not looked at. *)
Definition SaveChannel (s : Store) (sc : StoredChannel) : option bytes * Store :=
  match enc_chan sc with
  | inl err => (Some err, s)
  | inr serialized => let '(_, d) := kv_Set s.(db) (makeID sc) serialized in (None, set_db s d)
  end.

(** The key that [FindChannel] and [RemoveChannel] build. *)
Definition channel_key (netID name : bytes) : bytes :=
  makeID {| sc_NetID := netID; sc_Name := name; sc_json := None |}.

(** data/store.go [Store.FindChannel] *)
Definition FindChannel (s : Store) (netID name : bytes) : option StoredChannel * option bytes :=
  match kv_Get s.(db) (channel_key netID name) with
  | inl err => (None, Some err)
  | inr None => (None, None)
  | inr (Some serialized) => let '(c, err) := dec_chan serialized in (Some c, err)
  end.

(** data/store.go [Store.RemoveChannel] *)
Definition RemoveChannel (s : Store) (netID name : bytes) : (bool * option bytes) * Store :=
  match FindChannel s netID name with
  | (Some _, None) =>
    let '(err, d) := kv_Delete s.(db) (channel_key netID name) in
    (match err with Some _ => (false, err) | None => (true, None) end, set_db s d)
  | (_, err) => ((false, err), s)
  end.

(** data/store.go [Store.Channels] *)
Definition Channels (s : Store) : bytes + list StoredChannel :=
  match kv_Scan s.(db) with
  | inl err => inl err
  | inr [] => inr []
  | inr vals =>
    inr (omap (fun val => let '(c, err) := dec_chan val in
                          match err with None => Some c | Some _ => None end) ([] :: vals))
  end.

(** data/store.go [Store.IsFirst] *)
Definition IsFirst (s : Store) : (bool * option bytes) * Store :=
  if s.(checkedFirst) then ((false, None), s) else
  let '(r, d) := kv_Put s.(db) isInitialized
                   (fun old => match old with None => Some isInitialized | Some _ => None end) in
  (match r with inl err => (false, Some err) | inr written => (written, None) end,
   {| db := d; cache := s.(cache); authed := s.(authed); checkedFirst := true;
      suheap := s.(suheap) |}).

(** ** The cache agrees with the database *)

(** What a cache entry promises: the database holds this user, or no user. *)
Definition backed (s : Store) (k : bytes) (p : ptr) : Prop :=
  match p with
  | None => view s.(db) !! k = None
  | Some l => exists u v, s.(suheap) !! l = Some u /\ view s.(db) !! k = Some v /\ dec_user v = (u, None)
  end.

Record store_wf (s : Store) : Prop := {
  sw_cache : forall k p, s.(cache) !! k = Some p -> backed s k p;
  sw_authed : forall k l, s.(authed) !! k = Some l -> is_Some (s.(suheap) !! l);
  sw_size : size s.(cache) <= nMaxCache;
}.

Lemma backed_heap s k p s' :
  backed s k p -> s'.(db) = s.(db) ->
  (forall l u, s.(suheap) !! l = Some u -> s'.(suheap) !! l = Some u) -> backed s' k p.
Proof.
  intros H Hdb Hh. unfold backed in *. rewrite Hdb. destruct p as [l|]; [|done].
  destruct H as (u & v & H1 & H2 & H3). eauto 8.
Qed.

(** Making room drops the whole cache or nothing, and leaves room for one. *)
Lemma checkCacheLimits_spec s :
  let s' := checkCacheLimits s in
  (forall k p, s'.(cache) !! k = Some p -> s.(cache) !! k = Some p) /\
  size s'.(cache) + 1 <= nMaxCache /\
  s'.(db) = s.(db) /\ s'.(authed) = s.(authed) /\ s'.(suheap) = s.(suheap).
Proof.
  unfold checkCacheLimits. case_bool_decide; cbn.
  - split; [by intros k p Hk|]. rewrite map_size_empty. split; [|done]. apply Nat.leb_le. by vm_compute.
  - split; [done|]. by split; [lia|].
Qed.

Lemma size_insert_le (m : gmap bytes ptr) k p : size (<[k := p]> m) <= size m + 1.
Proof. rewrite map_size_insert. destruct (m !! k); cbn; lia. Qed.

(** Adding a backed entry keeps the invariant. *)
Lemma wf_cached s k p :
  store_wf s -> backed s k p ->
  let s' := checkCacheLimits s in store_wf (set_cache s' (<[k := p]> s'.(cache))).
Proof.
  intros Hwf Hp. cbn zeta. destruct (checkCacheLimits_spec s) as (H1 & H2 & H3 & H4 & H5).
  set (s' := checkCacheLimits s) in *.
  assert (forall k' p', backed s k' p' -> backed (set_cache s' (<[k := p]> (cache s'))) k' p') as Hb.
  { intros k' p' Hb. eapply backed_heap; [exact Hb|done|]. cbn. by rewrite H5. }
  split; cbn.
  - intros k' p' [[<- <-]|[_ Hk]]%lookup_insert_Some; apply Hb; [done|]. by apply (sw_cache _ Hwf), H1.
  - rewrite H4, H5. apply (sw_authed _ Hwf).
  - pose proof (size_insert_le (cache s') k p). lia.
Qed.

Lemma heap_extend {A} (h : gmap nat A) (x : A) l u :
  h !! l = Some u -> <[fresh (dom h) := x]> h !! l = Some u.
Proof.
  intros H. rewrite lookup_insert_ne; [done|]. intros <-.
  apply (is_fresh (dom h)). by apply elem_of_dom_2 in H.
Qed.

Lemma wf_alloc s u : store_wf s -> store_wf (set_suheap s (<[fresh (dom s.(suheap)) := u]> s.(suheap))).
Proof.
  intros []. split; cbn; [| |done].
  - intros k p Hk. eapply backed_heap; [by apply sw_cache0|done|]. intros. by apply heap_extend.
  - intros k l Hk. destruct (sw_authed0 _ _ Hk) as [x Hx]. eexists. by apply heap_extend.
Qed.

Lemma fetchUser_ok s name user err s' :
  store_wf s -> fetchUser s name = ((user, err), s') ->
  store_wf s' /\ s'.(db) = s.(db) /\ s'.(authed) = s.(authed) /\
  (forall l u, s.(suheap) !! l = Some u -> s'.(suheap) !! l = Some u) /\
  (err = None -> backed s' (ToLower name) user).
Proof.
  intros Hwf. unfold fetchUser. cbn zeta.
  destruct (kv_Get (db s) (ToLower name)) as [e|[v|]] eqn:E.
  - by intros [= <- <- <-].
  - apply Get_ok in E. destruct (dec_user v) as [u err'] eqn:Ed. intros [= <- <- <-].
    split; [by apply wf_alloc|]. split; [done|]. split; [done|].
    split; [cbn; intros; by apply heap_extend|]. intros ->. exists u, v. cbn. by rewrite lookup_insert_eq.
  - apply Get_ok in E. intros [= <- <- <-]. split; [done|]. repeat (split; [done|]). by intros _.
Qed.

Lemma FindUser_ok s name user err s' :
  store_wf s -> FindUser s name = ((user, err), s') ->
  store_wf s' /\ s'.(db) = s.(db) /\ s'.(authed) = s.(authed) /\
  (err = None -> backed s' (ToLower name) user).
Proof.
  intros Hwf. unfold FindUser. cbn zeta.
  destruct (cache s !! ToLower name) as [p|] eqn:Ec.
  { intros [= <- <- <-]. split; [done|]. split; [done|]. split; [done|].
    intros _. by apply (sw_cache _ Hwf). }
  destruct (fetchUser s (ToLower name)) as [[u e] s1] eqn:Ef.
  destruct (fetchUser_ok _ _ _ _ _ Hwf Ef) as (W1 & D1 & A1 & Hh & Hb). rewrite ToLower_idem in Hb.
  destruct e; intros [= <- <- <-]; [done|]. specialize (Hb eq_refl).
  destruct (checkCacheLimits_spec s1) as (_ & _ & H3 & H4 & H5).
  split; [by apply wf_cached|]. cbn. rewrite H3, H4. split; [done|]. split; [done|].
  intros _. eapply backed_heap; [exact Hb|done|]. cbn. by rewrite H5.
Qed.

(** C16. The cache is transparent: looking a user up, through the cache or from
    the database, gives the user the database holds under the folded name, or
    none when it holds none; it changes neither the database nor the logins. *)
Theorem FindUser_transparent s name user err s' :
  store_wf s -> FindUser s name = ((user, err), s') ->
  store_wf s' /\ s'.(db) = s.(db) /\ s'.(authed) = s.(authed) /\
  (err = None -> (l ← user; s'.(suheap) !! l) = (fst ∘ dec_user) <$> view s.(db) !! ToLower name).
Proof.
  intros Hwf Hf. destruct (FindUser_ok _ _ _ _ _ Hwf Hf) as (W & D & A & Hb).
  split; [done|]. split; [done|]. split; [done|]. intros He. specialize (Hb He).
  unfold backed in Hb. rewrite D in Hb. destruct user as [l|]; cbn; [|by rewrite Hb].
  destruct Hb as (u & v & -> & -> & Hd). cbn. by rewrite Hd.
Qed.

(** A user that was saved under a folded name is found again, and is the
    very object that was saved, when the database reported no error. *)
Theorem SaveUser_FindUser s ua u serialized d :
  store_wf s -> s.(suheap) !! ua = Some u -> enc_user u = inr serialized ->
  kv_Set s.(db) u.(su_Username) serialized = (None, d) -> ToLower u.(su_Username) = u.(su_Username) ->
  exists s', SaveUser s ua = Ret (None, s') /\ store_wf s' /\
    FindUser s' u.(su_Username) = ((Some ua, None), s').
Proof.
  intros Hwf Hu He Hs Hl. unfold SaveUser. rewrite Hu. cbn. rewrite He, Hs.
  pose proof (Set_ok _ _ _ _ Hs) as Hv. set (k := su_Username u) in *.
  destruct (checkCacheLimits_spec (set_db s d)) as (H1 & H2 & H3 & H4 & H5). cbn in *.
  set (s1 := checkCacheLimits (set_db s d)) in *.
  eexists. split; [done|]. split.
  - assert (forall k' p, k' <> k -> cache s !! k' = Some p -> backed (set_db s d) k' p) as Hb.
    { intros k' p Hk Hp. apply (sw_cache _ Hwf) in Hp. unfold backed in *. cbn.
      rewrite Hv, lookup_insert_ne; done. }
    split; cbn; [| |pose proof (size_insert_le (cache s1) k (Some ua)); lia].
    + intros k' p [[<- <-]|[Hk Hp]]%lookup_insert_Some.
      * exists u, serialized. cbn. rewrite H3, H5, Hv, lookup_insert_eq.
        split; [done|]. split; [done|]. by apply user_ok.
      * eapply backed_heap; [eapply Hb; [done|by apply H1]|done|]. cbn. by rewrite H5.
    + rewrite H4, H5. apply (sw_authed _ Hwf).
  - unfold FindUser. cbn. by rewrite Hl, lookup_insert_eq.
Qed.

(** A user that was removed is not found any more, under the name in any
    case. *)
Theorem RemoveUser_FindUser s name name' s1 user s2 :
  store_wf s -> RemoveUser s name = ((true, None), s1) -> ToLower name' = ToLower name ->
  FindUser s1 name' = ((user, None), s2) -> store_wf s1 /\ user = None.
Proof.
  intros Hwf. unfold RemoveUser. cbn zeta.
  destruct (FindUser s (ToLower name)) as [[p e] s0] eqn:Ef.
  destruct (FindUser_ok _ _ _ _ _ Hwf Ef) as (W0 & D0 & A0 & _).
  destruct p as [l|]; [|done]. destruct e; [done|].
  destruct (kv_Delete _ _) as [[]  d] eqn:Ed; [done|]. apply Delete_ok in Ed. cbn in Ed.
  intros [= <-] Hn Hf.
  assert (store_wf (set_db (set_cache s0 (delete (ToLower name) (cache s0))) d)) as W1.
  { split; cbn.
    - intros k q [Hk Hq]%lookup_delete_Some. apply (sw_cache _ W0) in Hq. unfold backed in *. cbn.
      by rewrite Ed, lookup_delete_ne.
    - apply (sw_authed _ W0).
    - rewrite map_size_delete. pose proof (sw_size _ W0). destruct (_ !! _); cbn; lia. }
  split; [done|]. destruct (FindUser_ok _ _ _ _ _ W1 Hf) as (_ & D2 & _ & Hb).
  specialize (Hb eq_refl). unfold backed in Hb. destruct user as [l'|]; [|done].
  destruct Hb as (u & v & _ & Hv & _). rewrite D2, Hn in Hv. cbn in Hv.
  by rewrite Ed, lookup_delete_eq in Hv.
Qed.


(** A host that is logged in gets the user it is logged in as, whatever name
    and password it sends. *)
Theorem AuthUser_logged_in s network host l username password :
  GetAuthedUser s network host = Some l ->
  AuthUser s network host username password = Ret (inr l, s).
Proof. unfold GetAuthedUser, AuthUser. by intros ->. Qed.

(** Logins are kept under the network and the host run together, so a login
    is one on every other pair that reads the same. *)
Theorem AuthUser_ambiguous s n m h :
  GetAuthedUser s (n ++ m) h = GetAuthedUser s n (m ++ h).
Proof. unfold GetAuthedUser. by rewrite app_assoc. Qed.

(** Removing a user leaves its logins. *)
Theorem RemoveUser_authed s name r s' network host :
  store_wf s -> RemoveUser s name = (r, s') -> GetAuthedUser s' network host = GetAuthedUser s network host.
Proof.
  intros Hwf. unfold RemoveUser, GetAuthedUser. cbn zeta.
  destruct (FindUser s (ToLower name)) as [[p e] s0] eqn:Ef.
  destruct (FindUser_ok _ _ _ _ _ Hwf Ef) as (_ & _ & A0 & _).
  destruct p, e; intros H; try (injection H as <- <-; by rewrite A0).
  destruct (kv_Delete _ _) as [[] d]; injection H as <- <-; cbn; by rewrite A0.
Qed.

(** A failure of the database is not reported when a user is saved. *)
Theorem SaveUser_ignores_error s ua u serialized e d :
  s.(suheap) !! ua = Some u -> enc_user u = inr serialized ->
  kv_Set s.(db) u.(su_Username) serialized = (Some e, d) ->
  exists s', SaveUser s ua = Ret (None, s').
Proof. intros Hu He Hs. unfold SaveUser. rewrite Hu. cbn. rewrite He, Hs. by eexists. Qed.

(** ** Listing *)

Lemma iterate_ok d f l u :
  iterate d f = inr l ->
  u ∈ l <-> exists k v, view d !! k = Some v /\ dec_user v = (u, None) /\ f u = true.
Proof.
  unfold iterate. destruct (kv_Scan d) as [e|vals] eqn:E; [done|]. apply Scan_ok in E.
  assert (forall v, v ∈ vals <-> exists k, view d !! k = Some v) as Hv.
  { intros v. rewrite E, list_elem_of_fmap. split.
    - intros ([k v'] & -> & H). apply elem_of_map_to_list in H. eauto.
    - intros [k H]. exists (k, v). split; [done|]. by apply elem_of_map_to_list. }
  intros H. assert (l = omap (fun val => let '(ua, err) := dec_user val in
    match err with None => if f ua then Some ua else None | Some _ => None end) vals) as ->.
  { destruct vals as [|v vals]; [by injection H as <-|]. injection H as <-.
    cbn. destruct (dec_user []) as [u0 [e|]] eqn:E0; [done|]. by destruct (user_eof); rewrite E0. }
  rewrite list_elem_of_omap. split.
  - intros (v & Hin & Hd). apply Hv in Hin as [k Hk]. exists k, v. split; [done|].
    destruct (dec_user v) as [u' []]; [done|]. destruct (f u') eqn:Ef; [|done]. by injection Hd as <-.
  - intros (k & v & Hk & Hd & Hf). exists v. split; [apply Hv; eauto|]. by rewrite Hd, Hf.
Qed.

(** The users with global access, with access on a network and with access
    on a channel are listed: exactly those the database holds whose access
    there has a level or a flag. *)
Theorem users_listed s network channel l :
  (GlobalUsers s = inr l -> forall u, u ∈ l <->
     exists k v, view s.(db) !! k = Some v /\ dec_user v = (u, None) /\ has_access (GetGlobal u) = true) /\
  (NetworkUsers s network = inr l -> forall u, u ∈ l <->
     exists k v, view s.(db) !! k = Some v /\ dec_user v = (u, None) /\
       has_access (GetNetwork u network) = true) /\
  (ChanUsers s network channel = inr l -> forall u, u ∈ l <->
     exists k v, view s.(db) !! k = Some v /\ dec_user v = (u, None) /\
       has_access (GetChannel u network channel) = true).
Proof. split; [|split]; intros H u; exact (iterate_ok _ _ _ u H). Qed.

(** ** Logging out by name *)

Lemma foldl_delete_lookup {A} (hs : list bytes) (m : gmap bytes A) k :
  foldl (fun m h => delete h m) m hs !! k = if decide (k ∈ hs) then None else m !! k.
Proof.
  revert m. induction hs as [|h hs IH]; intros m; cbn; [done|]. rewrite IH.
  destruct (decide (k ∈ hs)) as [Hk|Hk].
  - by rewrite decide_True by by right.
  - destruct (decide (k = h)) as [->|Hne].
    + by rewrite lookup_delete_eq, decide_True by left.
    + by rewrite lookup_delete_ne, decide_False by set_solver.
Qed.

(** A loop that collects the elements that pass a test. *)
Lemma go_fold_collect {A B} (step : list B -> A -> go (list B)) (g : A -> bool) (h : A -> B) l acc :
  (forall acc x, x ∈ l -> step acc x = Ret (if g x then acc ++ [h x] else acc)) ->
  go_fold step acc l = Ret (acc ++ map h (List.filter g l)).
Proof.
  revert acc. induction l as [|x l IH]; intros acc Hf; cbn; [by rewrite app_nil_r|].
  rewrite Hf by left. cbn. rewrite IH by (intros; apply Hf; by right).
  destruct (g x); cbn; [|done]. by rewrite <- app_assoc.
Qed.

Lemma LogoutByUsername_ok {RO : RangeOrder bytes} s username :
  (forall k l, s.(authed) !! k = Some l -> is_Some (s.(suheap) !! l)) ->
  exists a, LogoutByUsername s username = Ret (set_authed s a) /\
    forall k, a !! k =
      (l ← s.(authed) !! k; u ← s.(suheap) !! l;
       if decide (u.(su_Username) = ToLower username) then None else Some l).
Proof.
  intros Hwf. unfold LogoutByUsername. cbn zeta.
  set (g := fun p : bytes * nat => match s.(suheap) !! p.2 with
              | Some u => bool_decide (su_Username u = ToLower username) | None => false end).
  assert (forall p, p ∈ range s.(authed) -> exists u, s.(suheap) !! p.2 = Some u) as Hr.
  { intros [k l] Hp%elem_of_range. exact (Hwf _ _ Hp). }
  rewrite (go_fold_collect _ g fst).
  2:{ intros acc p Hp. unfold g. destruct (Hr p Hp) as [u ->]. cbn. by repeat case_decide || case_bool_decide. }
  cbn. eexists. split; [done|]. intros k. cbn. rewrite foldl_delete_lookup.
  destruct (authed s !! k) as [l|] eqn:Ek; cbn; [|by case_decide].
  destruct (Hwf _ _ Ek) as [u Hu]. rewrite Hu. cbn.
  assert (k ∈ map fst (List.filter g (range (authed s))) <-> su_Username u = ToLower username) as Hin.
  { rewrite list_elem_of_fmap. split.
    - intros ([k' l'] & -> & H). apply list_elem_of_In, List.filter_In in H as [H1 H2].
      apply list_elem_of_In, elem_of_range in H1. cbn in *. rewrite Ek in H1. injection H1 as <-.
      unfold g in H2. cbn in H2. rewrite Hu in H2. by apply bool_decide_eq_true in H2.
    - intros H. exists (k, l). split; [done|]. apply list_elem_of_In, List.filter_In. split.
      + by apply list_elem_of_In, elem_of_range.
      + unfold g. cbn. rewrite Hu. by apply bool_decide_eq_true. }
  repeat case_decide; tauto.
Qed.

(** Logging a user out by name ends exactly the logins of users with that
    name, and it returns. *)
Theorem LogoutByUsername_spec {RO : RangeOrder bytes} s username :
  store_wf s ->
  exists s', LogoutByUsername s username = Ret s' /\
    forall k, s'.(authed) !! k =
      (l ← s.(authed) !! k; u ← s.(suheap) !! l;
       if decide (u.(su_Username) = ToLower username) then None else Some l).
Proof.
  intros Hwf. destruct (LogoutByUsername_ok s username (sw_authed _ Hwf)) as (a & H1 & H2).
  by exists (set_authed s a).
Qed.

(** ** Channels and the first user *)

(** A channel that was saved is found again under its network and name in
    any case, and is gone after it is removed, when the database reports no
    error. *)
Theorem SaveChannel_FindChannel s sc serialized d :
  enc_chan sc = inr serialized -> kv_Set s.(db) (makeID sc) serialized = (None, d) ->
  exists s', SaveChannel s sc = (None, s') /\
    (forall c err, FindChannel s' sc.(sc_NetID) sc.(sc_Name) = (c, err) -> err = None -> c = Some sc) /\
    (forall s2 c, RemoveChannel s' sc.(sc_NetID) sc.(sc_Name) = ((true, None), s2) ->
       FindChannel s2 sc.(sc_NetID) sc.(sc_Name) = (c, None) -> c = None).
Proof.
  intros He Hs. unfold SaveChannel. rewrite He, Hs. eexists. split; [done|].
  assert (channel_key (sc_NetID sc) (sc_Name sc) = makeID sc) as Hk by (unfold channel_key; by rewrite !makeID_dot).
  split.
  - intros c err. unfold FindChannel. rewrite Hk. cbn.
    destruct (kv_Get d (makeID sc)) as [e|o] eqn:Eg; [by intros [= <- <-]|].
    apply Get_ok in Eg. rewrite (Set_ok _ _ _ _ Hs), lookup_insert_eq in Eg. subst o.
    rewrite (chan_ok _ _ He). by intros [= <- <-].
  - intros s2 c. unfold RemoveChannel. destruct (FindChannel _ _ _) as [[c0|] [e|]]; try done.
    rewrite Hk. cbn. destruct (kv_Delete d (makeID sc)) as [[e|] d'] eqn:Ed; [done|].
    intros [= <-]. apply Delete_ok in Ed. unfold FindChannel. rewrite Hk. cbn.
    destruct (kv_Get d' (makeID sc)) as [e|o] eqn:Eg; [done|].
    apply Get_ok in Eg. rewrite Ed, lookup_delete_eq in Eg. subst o. by intros [= <-].
Qed.

(** Only one call ever reports the first user: the one that finds the
    mark missing from the database and sets it. *)
Theorem IsFirst_once s b s1 :
  IsFirst s = ((b, None), s1) ->
  (b = true -> s.(checkedFirst) = false /\ view s.(db) !! isInitialized = None /\
     is_Some (view s1.(db) !! isInitialized)) /\
  (b = false -> s.(checkedFirst) = false -> is_Some (view s.(db) !! isInitialized)) /\
  IsFirst s1 = ((false, None), s1).
Proof.
  unfold IsFirst. destruct (checkedFirst s) eqn:Ec.
  - intros [= <- <-]. rewrite Ec. done.
  - destruct (kv_Put _ _ _) as [[e|w] d] eqn:Ep; [done|]. apply Put_ok in Ep. intros [= <- <-]. cbn.
    destruct (view (db s) !! isInitialized) as [v|] eqn:Ev.
    + destruct Ep as [-> Ep]. split; [done|]. by split.
    + destruct Ep as [-> Ep]. rewrite Ep, lookup_insert_eq. split; [done|]. by split.
Qed.
End Store.

(** ** Witnesses: a database in memory *)

#[local] Instance Access_eq_dec : EqDecision Access.
Proof. solve_decision. Defined.
#[local] Instance StoredUser_eq_dec : EqDecision StoredUser.
Proof. solve_decision. Defined.
#[local] Instance StoredChannel_eq_dec : EqDecision StoredChannel.
Proof. solve_decision. Defined.

#[local] Program Instance mem_kv : KV := {|
  DB := gmap bytes bytes;
  view := id;
  kv_Get := fun d k => inr (d !! k);
  kv_Set := fun d k v => (None, <[k := v]> d);
  kv_Delete := fun d k => (None, delete k d);
  kv_Put := fun d k f => match f (d !! k) with Some v => (inr true, <[k := v]> d) | None => (inr false, d) end;
  kv_Scan := fun d => inr (map_to_list d).*2;
|}.
Next Obligation. by intros ? ? ? [= <-]. Qed.
Next Obligation. by intros ? ? ? ? [= <-]. Qed.
Next Obligation. by intros ? ? ? [= <-]. Qed.
Next Obligation. done. Qed.
Next Obligation.
  intros d k f w d' H. unfold id. cbn in H. destruct (f (d !! k)); injection H as <- <-; done.
Qed.
Next Obligation. by intros ? ? [= <-]. Qed.

(** An encoder for users and channels that are only a name; it refuses the
    others. *)
#[local] Program Instance name_gob : Gob := {|
  enc_user := fun u => if decide (u = empty_user (su_Username u) None)
                       then inr ("u"%char :: su_Username u) else inl (bs "gob: unsupported");
  dec_user := fun s => match s with
                       | c :: n => if decide (c = "u"%char) then (empty_user n None, None)
                                   else (empty_user [] None, Some (bs "gob: type"))
                       | [] => (empty_user [] None, Some (bs "EOF")) end;
  enc_chan := fun c => if decide (c = {| sc_NetID := bs "net"; sc_Name := sc_Name c; sc_json := None |})
                       then inr ("c"%char :: sc_Name c) else inl (bs "gob: unsupported");
  dec_chan := fun s => match s with
                       | c :: n => ({| sc_NetID := bs "net"; sc_Name := n; sc_json := None |},
                                    if decide (c = "c"%char) then None else Some (bs "gob: type"))
                       | [] => ({| sc_NetID := []; sc_Name := []; sc_json := None |}, Some (bs "EOF")) end;
|}.
Next Obligation.
  intros u s. cbn. destruct (decide _) as [E|E]; [|done]. intros [= <-].
  rewrite decide_True by done. by rewrite <- E.
Qed.
Next Obligation.
  intros c s. cbn. destruct (decide _) as [E|E]; [|done]. intros [= <-].
  rewrite decide_True by done. by rewrite <- E.
Qed.
Next Obligation. done. Qed.
Next Obligation. done. Qed.

#[local] Existing Instance ascii_tables.
#[local] Existing Instance salted.

(** A store whose database holds a user, and a heap with that user in it. *)
Definition demo_user : StoredUser := empty_user (bs "bob") None.
Definition demo_store (d : gmap bytes bytes) : Store :=
  {| db := d; cache := ∅; authed := ∅; checkedFirst := false; suheap := {[0 := demo_user]} |}.
Definition demo_db : gmap bytes bytes := {[bs "bob" := "u"%char :: bs "bob"]}.

Lemma demo_store_wf d : store_wf (demo_store d).
Proof. split; cbn; [by intros k p ?|by intros k l ?|]. rewrite map_size_empty. lia. Qed.

Lemma FindUser_transparent_witness :
  let r := FindUser (demo_store demo_db) (bs "Bob") in
  store_wf r.2 /\ (l ← r.1.1; r.2.(suheap) !! l) = Some demo_user.
Proof.
  destruct (FindUser (demo_store demo_db) (bs "Bob")) as [[p e] s'] eqn:E.
  destruct (FindUser_transparent _ _ _ _ _ (demo_store_wf _) E) as (H1 & _ & _ & H2).
  split; [exact H1|]. cbn [fst snd]. rewrite H2; [reflexivity|].
  assert (snd (fst (FindUser (demo_store demo_db) (bs "Bob"))) = None) as H by (vm_compute; reflexivity).
  rewrite E in H. exact H.
Defined.

Lemma SaveUser_FindUser_witness :
  exists s', SaveUser (demo_store ∅) 0 = Ret (None, s') /\ store_wf s' /\
    FindUser s' (bs "bob") = ((Some 0, None), s').
Proof.
  apply (SaveUser_FindUser (demo_store ∅) 0 demo_user ("u"%char :: bs "bob") demo_db);
    [apply demo_store_wf|reflexivity|by vm_compute|reflexivity|reflexivity].
Defined.

Lemma RemoveUser_FindUser_witness :
  (FindUser (RemoveUser (demo_store demo_db) (bs "BOB")).2 (bs "bob")).1 = (None, None).
Proof.
  destruct (RemoveUser (demo_store demo_db) (bs "BOB")) as [[b e] s1] eqn:E1. cbn [snd].
  assert ((RemoveUser (demo_store demo_db) (bs "BOB")).1 = (true, None)) as H1 by (vm_compute; reflexivity).
  rewrite E1 in H1. injection H1 as -> ->.
  destruct (FindUser s1 (bs "bob")) as [[u e] s2] eqn:E2. cbn [fst].
  assert ((FindUser (RemoveUser (demo_store demo_db) (bs "BOB")).2 (bs "bob")).1.2 = None) as H2
    by (vm_compute; reflexivity).
  rewrite E1 in H2. cbn [snd] in H2. rewrite E2 in H2. cbn in H2. subst e.
  by destruct (RemoveUser_FindUser _ _ _ _ _ _ (demo_store_wf _) E1 (eq_refl : ToLower (bs "bob") = _) E2) as [_ ->].
Defined.


Lemma users_listed_witness :
  match GlobalUsers (demo_store demo_db) with inr l => demo_user ∉ l | inl _ => False end.
Proof.
  assert (match GlobalUsers (demo_store demo_db) with inl _ => False | inr _ => True end) as H0
    by (vm_compute; exact I).
  destruct (GlobalUsers (demo_store demo_db)) as [e|l] eqn:H; [destruct H0|].
  intros Hin. apply (proj1 (users_listed _ [] [] _) H) in Hin as (k & v & _ & _ & Hf).
  unfold has_access, GetGlobal, demo_user in Hf. cbn in Hf. discriminate Hf.
Defined.

Lemma LogoutByUsername_spec_witness :
  exists s', LogoutByUsername (demo_store demo_db) (bs "bob") = Ret s' /\
    forall k, s'.(authed) !! k =
      (l ← authed (demo_store demo_db) !! k; u ← suheap (demo_store demo_db) !! l;
       if decide (u.(su_Username) = ToLower (bs "bob")) then None else Some l).
Proof. apply LogoutByUsername_spec, demo_store_wf. Defined.

Definition demo_channel : StoredChannel :=
  {| sc_NetID := bs "net"; sc_Name := bs "#chan"; sc_json := None |}.

Lemma SaveChannel_FindChannel_witness :
  exists s', SaveChannel (demo_store ∅) demo_channel = (None, s') /\
    forall c err, FindChannel s' (bs "net") (bs "#chan") = (c, err) -> err = None -> c = Some demo_channel.
Proof.
  assert (enc_chan demo_channel = inr ("c"%char :: bs "#chan")) as He by (vm_compute; reflexivity).
  destruct (SaveChannel_FindChannel (demo_store ∅) demo_channel ("c"%char :: bs "#chan")
    (<[makeID demo_channel := "c"%char :: bs "#chan"]> ∅) He eq_refl) as (s' & H1 & H2 & _).
  exists s'. split; [exact H1|exact H2].
Defined.

Lemma IsFirst_once_witness :
  let s1 := (IsFirst (demo_store ∅)).2 in IsFirst s1 = ((false, None), s1).
Proof.
  destruct (IsFirst (demo_store ∅)) as [[b e] s1] eqn:E.
  assert ((IsFirst (demo_store ∅)).1.2 = None) as H by (vm_compute; reflexivity).
  rewrite E in H. cbn in H. subst e. exact (proj2 (proj2 (IsFirst_once _ _ _ E))).
Defined.
