(* ===== verification/StoreInv.v ===== *)
(** * Package data: the store as a table of users

    What the store holds, seen from outside: for every name the user that the
    database has under it.  [store_inv] says that the cache agrees with that
    and that users are kept under their own folded names; every operation
    keeps it, and what each does to the table and to the logins is stated
    here once, for the components that use the store.  Unlike [store_wf] it
    allows a name under which the database holds something that is not a
    user. *)

From S2P Require Import Prelude GoStrings Fmt Access JSONStorer StoredUser Store.

(** What else the store relies on: no failure when users are written, and
    the mark of an initialized database is not an encoded user. *)
Class Working {K : KV} {G : Gob} := {
  Set_works : forall d k v, (kv_Set d k v).1 = None;
  Put_err : forall d k f e d', kv_Put d k f = (inl e, d') -> view d' = view d;
  enc_works : forall u, exists s, enc_user u = inr s;
  mark_not_user : (dec_user isInitialized).2 <> None;
}.

Section StoreInv.
Context {CT : CaseTables} {BC : Bcrypt} {K : KV} {G : Gob}.
Implicit Types (s : Store) (u : StoredUser).

Definition decoded (v : bytes) : option StoredUser :=
  match dec_user v with (u, None) => Some u | (_, Some _) => None end.

(** The user under a name *)
Definition record s (k : bytes) : option StoredUser := view s.(db) !! k ≫= decoded.

(** What a pointer leads to *)
Definition user_at s (p : ptr) : option StoredUser := l ← p; s.(suheap) !! l.

Record store_inv s : Prop := {
  si_cache : forall k p, s.(cache) !! k = Some p -> user_at s p = record s k /\ (is_Some p -> is_Some (user_at s p));
  si_named : forall k u, record s k = Some u -> u.(su_Username) = k /\ ToLower k = k;
  si_authed : forall h l, s.(authed) !! h = Some l -> is_Some (s.(suheap) !! l);
  si_size : size s.(cache) <= nMaxCache;
}.

(** One store continues another: the same table, and the pointers into the
    heap still lead to the same users. *)
Definition same_users s s' : Prop :=
  (forall k, record s' k = record s k) /\
  (forall l u, s.(suheap) !! l = Some u -> s'.(suheap) !! l = Some u).

Lemma same_users_refl s : same_users s s.
Proof. by split. Qed.
Lemma same_users_trans s1 s2 s3 : same_users s1 s2 -> same_users s2 s3 -> same_users s1 s3.
Proof. intros [H1 H2] [H3 H4]. split; [intros k; by rewrite H3|auto]. Qed.

(** A smaller table of logins is as good. *)
Lemma inv_authed s a :
  store_inv s -> (forall h l, a !! h = Some l -> is_Some (s.(suheap) !! l)) ->
  store_inv (set_authed s a) /\ same_users s (set_authed s a).
Proof. intros [] Ha. split; [by split|by split]. Qed.

(** A new user in the heap is not seen by anyone. *)
Lemma inv_alloc s u :
  let l := fresh (dom s.(suheap)) in
  let s' := set_suheap s (<[l := u]> s.(suheap)) in
  store_inv s -> store_inv s' /\ same_users s s' /\ s'.(suheap) !! l = Some u.
Proof.
  cbn zeta. intros []. split; [|split; [|apply lookup_insert_eq]].
  - split; cbn; [| done | | done].
    + intros k p Hk. destruct (si_cache0 k p Hk) as [H1 H2]. destruct p as [l|]; [|done].
      destruct (H2 ltac:(by eexists)) as [u' Hu]. cbn in *. rewrite (heap_extend _ _ _ _ Hu).
      change (record (set_suheap s _) k) with (record s k). rewrite <- H1, Hu. split; [done|by eexists].
    + intros h l Hl. destruct (si_authed0 _ _ Hl) as [x Hx]. eexists. by apply heap_extend.
  - split; [done|]. cbn. intros l' u' Hl. by apply heap_extend.
Qed.

(** Dropping the cache when it is full *)
Lemma inv_limits s :
  store_inv s ->
  let s' := checkCacheLimits s in
  store_inv s' /\ same_users s s' /\ s'.(authed) = s.(authed) /\ size s'.(cache) + 1 <= nMaxCache.
Proof.
  cbn zeta. intros Hi. destruct (checkCacheLimits_spec s) as (H1 & H2 & H3 & H4 & H5).
  assert (forall k, record (checkCacheLimits s) k = record s k) as Hr
    by (intros k; unfold record; by rewrite H3).
  split; [|by repeat split; [|rewrite H5|..]]. destruct Hi as [Hc Hn Ha Hs]. split.
  - intros k p Hk%H1. rewrite Hr. unfold user_at. rewrite H5. by apply Hc.
  - intros k u. rewrite Hr. apply Hn.
  - intros h l. rewrite H4, H5. apply Ha.
  - lia.
Qed.

(** Caching what a name leads to *)
Lemma inv_cached s k p :
  store_inv s -> size s.(cache) + 1 <= nMaxCache ->
  user_at s p = record s k -> (is_Some p -> is_Some (user_at s p)) ->
  store_inv (set_cache s (<[k := p]> s.(cache))).
Proof.
  intros [Hc Hn Ha Hs] Hsz Hp Hq. split; cbn; [|done|done|].
  - intros k' p' [[<- <-]|[_ Hk]]%lookup_insert_Some; [by split|by apply Hc].
  - pose proof (size_insert_le (cache s) k p). lia.
Qed.

(** Looking a user up gives the user of the table. *)
Lemma FindUser_record s name p err s' :
  store_inv s -> FindUser s name = ((p, err), s') ->
  store_inv s' /\ same_users s s' /\ s'.(authed) = s.(authed) /\
  (err = None -> user_at s' p = record s (ToLower name) /\ (is_Some p -> is_Some (user_at s' p))).
Proof.
  intros Hi. unfold FindUser. cbn zeta.
  destruct (cache s !! ToLower name) as [q|] eqn:Ec.
  { intros [= <- <- <-]. split; [done|]. split; [apply same_users_refl|]. split; [done|].
    intros _. by apply (si_cache _ Hi). }
  assert (forall s0, store_inv s0 -> same_users s s0 -> s0.(authed) = s.(authed) ->
    forall q, user_at s0 q = record s (ToLower name) -> (is_Some q -> is_Some (user_at s0 q)) ->
    let s1 := checkCacheLimits s0 in let s2 := set_cache s1 (<[ToLower name := q]> s1.(cache)) in
    store_inv s2 /\ same_users s s2 /\ s2.(authed) = s.(authed) /\
    user_at s2 q = record s (ToLower name) /\ (is_Some q -> is_Some (user_at s2 q))) as Hstep.
  { cbn zeta. intros s0 H0 Hs0 Ha q Hq Hq'. destruct (inv_limits s0 H0) as (L1 & L2 & L3 & L4).
    destruct (checkCacheLimits_spec s0) as (_ & _ & D3 & _ & D5).
    assert (user_at (checkCacheLimits s0) q = user_at s0 q) as Hu by (unfold user_at; by rewrite D5).
    split; [apply inv_cached; [done|done| |by rewrite Hu]|].
    { rewrite Hu, Hq. destruct L2 as [L2 _], Hs0 as [Hs0 _]. by rewrite L2, Hs0. }
    split; [by eapply same_users_trans; [exact Hs0|]|].
    unfold user_at in *. cbn [set_cache authed suheap]. by rewrite L3, D5. }
  unfold fetchUser. rewrite ToLower_idem.
  destruct (kv_Get (db s) (ToLower name)) as [e|[v|]] eqn:Eg.
  - intros [= <- <- <-]. by split; [|split; [apply same_users_refl|]].
  - apply Get_ok in Eg. symmetry in Eg. destruct (dec_user v) as [u err'] eqn:Ed.
    destruct (inv_alloc s u Hi) as (A1 & A2 & A3).
    destruct err' as [e|]; intros [= <- <- <-]; [done|].
    destruct (Hstep _ A1 A2 eq_refl (Some (fresh (dom (suheap s))))) as (B1 & B2 & B3 & B4).
    + cbn [user_at mbind option_bind]. rewrite A3. unfold record. rewrite Eg. cbn. unfold decoded. by rewrite Ed.
    + intros _. cbn [user_at mbind option_bind]. rewrite A3. by eexists.
    + done.
  - apply Get_ok in Eg. symmetry in Eg. intros [= <- <- <-].
    destruct (Hstep s Hi (same_users_refl s) eq_refl None) as (B1 & B2 & B3 & B4); [|by intros []|done].
    unfold record. by rewrite Eg.
Qed.

(** Looking a user up leaves the database and the mark of the first user. *)
Lemma FindUser_db s name r s' :
  FindUser s name = (r, s') -> s'.(db) = s.(db) /\ s'.(checkedFirst) = s.(checkedFirst).
Proof.
  unfold FindUser, fetchUser, checkCacheLimits. cbn zeta.
  destruct (cache s !! _); [by intros [= <- <-]|].
  destruct (kv_Get _ _) as [e|[v|]]; [by intros [= <- <-]| |by case_bool_decide; intros [= <- <-]].
  destruct (dec_user v) as [u [e|]]; [by intros [= <- <-]|]. by case_bool_decide; intros [= <- <-].
Qed.

(** Saving a user that was changed in place, or is new: the table has it under
    its name, and nothing else changes. *)
Lemma SaveUser_record {WK : Working} s l u u' :
  store_inv s -> s.(suheap) !! l = Some u -> u'.(su_Username) = u.(su_Username) ->
  ToLower u.(su_Username) = u.(su_Username) ->
  exists s', SaveUser (set_suheap s (<[l := u']> s.(suheap))) l = Ret (None, s') /\
    store_inv s' /\ s'.(authed) = s.(authed) /\ s'.(suheap) = <[l := u']> s.(suheap) /\
    (forall k, record s' k = if decide (k = u.(su_Username)) then Some u' else record s k).
Proof.
  intros Hi Hl Hn Hlow. unfold SaveUser. cbn [suheap set_suheap]. rewrite lookup_insert_eq. cbn.
  destruct (enc_works u') as [v Hv]. rewrite Hv. rewrite Hn. set (k0 := su_Username u) in *.
  pose proof (Set_works (db s) k0 v) as Hw. destruct (kv_Set (db s) k0 v) as [e d] eqn:Es.
  cbn in Hw. subst e. pose proof (Set_ok _ _ _ _ Es) as Hd.
  set (s1 := set_db (set_suheap s (<[l := u']> (suheap s))) d).
  assert (forall k, record s1 k = if decide (k = k0) then Some u' else record s k) as Hr.
  { intros k. unfold record. cbn. rewrite Hd. case_decide; subst.
    - rewrite lookup_insert_eq. cbn. unfold decoded. by rewrite (user_ok _ _ Hv).
    - by rewrite lookup_insert_ne. }
  assert (forall h l', authed s !! h = Some l' -> is_Some (suheap s1 !! l')) as Ha.
  { intros h l' Hh. cbn. destruct (decide (l = l')) as [<-|]; [rewrite lookup_insert_eq; by eexists|].
    rewrite lookup_insert_ne by done. by apply (si_authed _ Hi h). }
  assert (forall k p, k <> k0 -> cache s !! k = Some p ->
    user_at s1 p = record s1 k /\ (is_Some p -> is_Some (user_at s1 p))) as Hc.
  { intros k p Hk Hp. destruct (si_cache _ Hi k p Hp) as [C1 C2]. rewrite Hr, decide_False by done.
    destruct p as [l'|]; [|split; [done|by intros []]]. destruct (C2 ltac:(by eexists)) as [x Hx].
    cbn in Hx, C1 |- *. rewrite Hx in C1. rewrite lookup_insert_ne; [by rewrite Hx|].
    intros <-. rewrite Hl in Hx. injection Hx as <-.
    destruct (si_named _ Hi k u (eq_sym C1)) as [Hk' _]. by apply Hk. }
  destruct (checkCacheLimits_spec s1) as (H1 & H2 & H3 & H4 & H5).
  eexists. split; [done|]. cbn. split; [|split; [by rewrite H4|split; [by rewrite H5|]]].
  - split; cbn.
    + intros k p. unfold user_at, record. cbn. rewrite H3, H5. fold (record s1 k).
      intros [[<- <-]|[Hk Hp%H1]]%lookup_insert_Some.
      * cbn. rewrite lookup_insert_eq, Hr, decide_True by done. split; [done|by eexists].
      * by apply Hc.
    + intros k x. unfold record. cbn. rewrite H3. fold (record s1 k). rewrite Hr. case_decide; subst.
      * intros [= <-]. by rewrite Hn.
      * apply (si_named _ Hi).
    + intros h l'. rewrite H4, H5. apply Ha.
    + pose proof (size_insert_le (cache (checkCacheLimits s1)) k0 (Some l)). lia.
  - intros k. unfold record. cbn. rewrite H3. fold (record s1 k). apply Hr.
Qed.

(** Removing a user takes it out of the table; when nothing was removed, or
    the database failed, the table is as before. *)
Lemma RemoveUser_record s name removed err s' :
  store_inv s -> RemoveUser s name = ((removed, err), s') ->
  store_inv s' /\ s'.(authed) = s.(authed) /\
  (forall l u, s.(suheap) !! l = Some u -> s'.(suheap) !! l = Some u) /\
  (forall k, record s' k = if decide (removed = true /\ k = ToLower name) then None else record s k).
Proof.
  intros Hi. unfold RemoveUser. cbn zeta.
  destruct (FindUser s (ToLower name)) as [[p e] s1] eqn:Ef.
  destruct (FindUser_record _ _ _ _ _ Hi Ef) as (I1 & [R1 P1] & A1 & _).
  assert (store_inv s1 /\ authed s1 = authed s /\
    (forall l u, suheap s !! l = Some u -> suheap s1 !! l = Some u) /\
    (forall k, record s1 k = if decide (false = true /\ k = ToLower name) then None else record s k)) as Hno.
  { split; [done|]. split; [done|]. split; [done|]. intros k. by rewrite decide_False by naive_solver. }
  destruct p as [l|]; [|by intros [= <- <- <-]]. destruct e; [by intros [= <- <- <-]|].
  assert (store_inv (set_cache s1 (delete (ToLower name) (cache s1)))) as I2.
  { destruct I1. split; cbn; [|done|done|].
    - intros k p [_ Hk]%lookup_delete_Some. by apply si_cache0.
    - rewrite map_size_delete. destruct (_ !! _); cbn; lia. }
  destruct (kv_Delete _ _) as [e d] eqn:Ed. cbn in Ed.
  assert (forall s2 (f : bytes -> bool), store_inv (set_cache s1 (delete (ToLower name) (cache s1))) ->
    s2 = set_db (set_cache s1 (delete (ToLower name) (cache s1))) d ->
    (forall k, record s2 k = if f k then None else record s1 k) ->
    (forall k, f k = true -> k = ToLower name) -> store_inv s2) as Hdel.
  { intros s2 f [] -> Hr Hf. split; cbn; [|intros k u; rewrite Hr; destruct (f k); [done|apply si_named0]|done|done].
    intros k p Hk. rewrite Hr. destruct (f k) eqn:E; [|by apply si_cache0].
    apply Hf in E as ->. cbn in Hk. by rewrite lookup_delete_eq in Hk. }
  destruct e as [e|]; intros [= <- <- <-]; cbn.
  - apply Delete_err in Ed. split; [|split; [done|split; [done|]]].
    + apply (Hdel _ (fun _ => false)); [done|done| |done]. intros k. unfold record. cbn. by rewrite Ed.
    + intros k. rewrite decide_False by naive_solver. rewrite <- R1. unfold record. cbn. by rewrite Ed.
  - apply Delete_ok in Ed.
    assert (forall k, record (set_db (set_cache s1 (delete (ToLower name) (cache s1))) d) k
      = if bool_decide (k = ToLower name) then None else record s1 k) as Hr.
    { intros k. unfold record. cbn. rewrite Ed. case_bool_decide; subst; [by rewrite lookup_delete_eq|].
      by rewrite lookup_delete_ne. }
    split; [|split; [done|split; [done|]]].
    + apply (Hdel _ (fun k => bool_decide (k = ToLower name))); [done|done|done|].
      intros k. apply bool_decide_eq_true_1.
    + intros k. rewrite Hr, R1. by repeat case_decide || case_bool_decide; naive_solver.
Qed.

(** Logging in changes the logins only, and only for a user of the table. *)
Lemma AuthUser_record s network host username password :
  store_inv s -> exists r s', AuthUser s network host username password = Ret (r, s') /\
  store_inv s' /\ same_users s s' /\
  match r with
  | inr l => s'.(authed) = <[network ++ host := l]> s.(authed) \/ s'.(authed) = s.(authed)
  | inl _ => s'.(authed) = s.(authed)
  end.
Proof.
  intros Hi. unfold AuthUser. cbn zeta.
  destruct (authed s !! (network ++ host)) as [l|] eqn:Ea.
  { eexists _, _. split; [done|]. split; [done|]. split; [apply same_users_refl|by right]. }
  destruct (FindUser s (ToLower username)) as [[p e] s1] eqn:Ef.
  destruct (FindUser_record _ _ _ _ _ Hi Ef) as (I1 & R1 & A1 & U1).
  destruct e as [e|]; [by eexists _, _|]. destruct p as [l|]; [|by eexists _, _].
  destruct (U1 eq_refl) as [_ H1]. destruct (H1 ltac:(by eexists)) as [u Hu]. cbn in Hu. rewrite Hu. cbn.
  destruct (ValidateMask u host); cbn; [|by eexists _, _].
  destruct (VerifyPassword u password); cbn; [|by eexists _, _]. eexists _, _. split; [done|].
  destruct (inv_authed s1 (<[network ++ host := l]> (authed s1)) I1) as [I2 R2].
  { intros h l' [[<- <-]|[_ Hh]]%lookup_insert_Some; [by eexists|by apply (si_authed _ I1 h)]. }
  split; [done|]. split; [by eapply same_users_trans|]. left. by rewrite A1.
Qed.

(** The mark of an initialized database is not a user. *)
Lemma IsFirst_record {WK : Working} s r s' :
  store_inv s -> IsFirst s = (r, s') ->
  store_inv s' /\ same_users s s' /\ s'.(authed) = s.(authed).
Proof.
  intros Hi. unfold IsFirst. destruct (checkedFirst s).
  { intros [= <- <-]. split; [done|]. by split; [apply same_users_refl|]. }
  destruct (kv_Put _ _ _) as [w d] eqn:Ep. intros [= <- <-].
  assert (forall k, view d !! k ≫= decoded = record s k) as Hr.
  { intros k. unfold record. destruct w as [e|w]; [by rewrite (Put_err _ _ _ _ _ Ep)|].
    apply Put_ok in Ep. destruct (view (db s) !! isInitialized) eqn:Ev; destruct Ep as [_ ->]; [done|].
    destruct (decide (k = isInitialized)) as [->|]; [|by rewrite lookup_insert_ne].
    rewrite lookup_insert_eq, Ev. cbn. unfold decoded. pose proof mark_not_user.
    by destruct (dec_user isInitialized) as [u []]. }
  split; [|by split]. destruct Hi as [Hc Hn Ha Hs].
  split; [|intros k u; unfold record; cbn; rewrite Hr; apply Hn|exact Ha|exact Hs].
  intros k p Hk. unfold record. cbn. rewrite Hr. by apply Hc.
Qed.

Lemma Logout_record s network host :
  store_inv s -> store_inv (Logout s network host) /\ same_users s (Logout s network host).
Proof.
  intros Hi. apply inv_authed; [done|]. intros h l [_ Hl]%lookup_delete_Some. by apply (si_authed _ Hi h).
Qed.

(** Logging out by name ends the logins of the users that have it. *)
Lemma LogoutByUsername_record {RO : RangeOrder bytes} s username :
  store_inv s -> exists s', LogoutByUsername s username = Ret s' /\
  store_inv s' /\ same_users s s' /\
  forall h, s'.(authed) !! h =
      (l ← s.(authed) !! h; u ← s.(suheap) !! l;
       if decide (u.(su_Username) = ToLower username) then None else Some l).
Proof.
  intros Hi. destruct (LogoutByUsername_ok s username (si_authed _ Hi)) as (a & H1 & H2).
  destruct (inv_authed s a Hi) as [I2 R2]; [|by eauto 6].
  intros h l. rewrite H2. destruct (authed s !! h) as [l'|] eqn:E; [|done]. cbn.
  destruct (suheap s !! l') as [u|] eqn:Eu; [|done]. cbn. case_decide; [done|]. intros [= <-]. by eexists.
Qed.
End StoreInv.
