(* ===== verification/DispatchCore.v ===== *)
(** * Package dispatch: the core (dispatch/dispatch_core.go)

    The core holds the channels a dispatcher is active on: a nil list stands
    for all of them.  Locks are not modelled, each method runs with the state
    to itself; the counter of unfinished handlers is part of the state. *)

From S2P Require Import Prelude GoStrings NetworkInfo Event.

(** dispatch/dispatch_core.go [DispatchCore] *)
Record DispatchCore := { chans : option (list bytes); waiter : nat }.

Definition with_chans (d : DispatchCore) (c : option (list bytes)) : DispatchCore :=
  {| chans := c; waiter := d.(waiter) |}.

Section DispatchCore.
Context {CT : CaseTables}.

(** dispatch/dispatch_core.go [DispatchCore.channels] *)
Definition channels_ (d : DispatchCore) (cs : list bytes) : DispatchCore :=
  with_chans d (match cs with [] => None | _ => Some (map ToLower cs) end).

(** dispatch/dispatch_core.go [NewDispatchCore] *)
Definition NewDispatchCore (cs : list bytes) : DispatchCore :=
  channels_ {| chans := None; waiter := 0 |} cs.

(** dispatch/dispatch_core.go [DispatchCore.SetChannels] *)
Definition SetChannels (d : DispatchCore) (cs : list bytes) : DispatchCore := channels_ d cs.

(** dispatch/dispatch_core.go [DispatchCore.Channels]: a copy *)
Definition Channels (d : DispatchCore) : option (list bytes) := d.(chans).

(** dispatch/dispatch_core.go:67-79 [DispatchCore.AddChannels]: the loop *)
Definition add_loop (l : list bytes) (cs : list bytes) : list bytes :=
  foldl (fun l c => let addchan := ToLower c in
                    if decide (addchan ∈ l) then l else l ++ [addchan]) l cs.

(** dispatch/dispatch_core.go [DispatchCore.AddChannels] *)
Definition AddChannels (d : DispatchCore) (cs : list bytes) : DispatchCore :=
  match cs with
  | [] => d
  | _ => with_chans d (Some (add_loop (default [] d.(chans)) cs))
  end.

(** dispatch/dispatch_core.go:96-109 [DispatchCore.RemoveChannels]: the inner
    loop from index [j], [n] being [length - j].  [None] is the nil list that
    ends both loops. *)
Fixpoint remove_loop (n : nat) (l : list bytes) (j : nat) (removechan : bytes) : option (list bytes) :=
  match n with
  | 0 => Some l
  | S n =>
    if decide (l !! j = Some removechan) then
      if decide (length l = 1) then None else
      let swapped :=
        if decide (j < length l - 1) then
          match l !! j, last l with
          | Some x, Some y => <[j := y]> (<[length l - 1 := x]> l)
          | _, _ => l
          end
        else l in
      remove_loop (n - 1) (take (length l - 1) swapped) (S j) removechan
    else remove_loop n l (S j) removechan
  end.

(** dispatch/dispatch_core.go:94-110 [DispatchCore.RemoveChannels]: the outer
    loop *)
Fixpoint remove_chans (l : list bytes) (cs : list bytes) : option (list bytes) :=
  match cs with
  | [] => Some l
  | c :: cs => l ← remove_loop (length l) l 0 (ToLower c); remove_chans l cs
  end.

(** dispatch/dispatch_core.go [DispatchCore.RemoveChannels] *)
Definition RemoveChannels (d : DispatchCore) (cs : list bytes) : DispatchCore :=
  match cs, d.(chans) with
  | [], _ | _, None | _, Some [] => d
  | _, Some l => with_chans d (remove_chans l cs)
  end.

(** dispatch/dispatch_core.go [DispatchCore.HandlerStarted] *)
Definition HandlerStarted (d : DispatchCore) : DispatchCore :=
  {| chans := d.(chans); waiter := S d.(waiter) |}.
(** dispatch/dispatch_core.go [DispatchCore.HandlerFinished]: a counter below
    zero panics. *)
Definition HandlerFinished (d : DispatchCore) : go DispatchCore :=
  match d.(waiter) with
  | 0 => Panic
  | S n => Ret {| chans := d.(chans); waiter := n |}
  end.

(** dispatch/dispatch_core.go [DispatchCore.hasChannel] *)
Definition hasChannel (d : DispatchCore) (channel : bytes) : bool :=
  match d.(chans) with
  | None => true
  | Some l => let targ := ToLower channel in existsb (fun c => bool_decide (targ = c)) l
  end.

(** dispatch/dispatch_core.go [DispatchCore.CheckTarget] *)
Definition CheckTarget (d : DispatchCore) (ev : Event) : go (bool * bool) :=
  isChan ← IsTargetChan ev;
  if (isChan : bool) then target ← Target ev; Ret (true, hasChannel d (ToLower target))
  else Ret (false, false).

(** dispatch/dispatcher.go [DispatchCore.shouldDispatch] *)
Definition shouldDispatch (d : DispatchCore) (channelMsg : bool) (ev : Event) : go bool :=
  '(isChan, hasChan) ← CheckTarget d ev;
  Ret (bool_decide (channelMsg = isChan) && (negb channelMsg || hasChan)).

(** ** The set of active channels *)

(** What the list stands for: every channel, or a set of folded names. *)
Definition active (d : DispatchCore) : option (gset bytes) := list_to_set <$> d.(chans).

(** A list without repetition, never empty. *)
Definition core_wf (d : DispatchCore) : Prop :=
  match d.(chans) with None => True | Some l => NoDup l /\ l <> [] end.

Lemma add_loop_elem l cs c : c ∈ add_loop l cs <-> c ∈ l \/ c ∈ map ToLower cs.
Proof.
  unfold add_loop. revert l. induction cs as [|x cs IH]; intros l; cbn.
  - rewrite elem_of_nil. tauto.
  - rewrite IH, elem_of_cons. case_decide as H; [naive_solver|].
    rewrite elem_of_app, list_elem_of_singleton. tauto.
Qed.

Lemma add_loop_NoDup l cs : NoDup l -> NoDup (add_loop l cs).
Proof.
  unfold add_loop. revert l. induction cs as [|x cs IH]; intros l Hl; cbn; [done|].
  apply IH. case_decide as H; [done|]. apply NoDup_app. split; [done|].
  split; [set_solver|apply NoDup_singleton].
Qed.

Lemma elem_of_drop (l : list bytes) j c : c ∈ drop j l -> c ∈ l.
Proof. intros H. rewrite <- (take_drop j l). apply elem_of_app. by right. Qed.

(** In a list without repetition one swap takes the name out. *)
Lemma remove_loop_absent n (l : list bytes) j r : r ∉ drop j l -> remove_loop n l j r = Some l.
Proof.
  revert j. induction n as [|n IH]; intros j Hr; cbn; [done|].
  rewrite decide_False.
  - apply IH. intros H. apply Hr. rewrite <- Nat.add_1_r, <- drop_drop in H.
    set (l' := drop j l) in *. destruct l'; set_solver.
  - intros H. apply Hr. rewrite (drop_S _ _ _ H). left.
Qed.

Lemma swap_out (l : list bytes) j x y :
  l !! j = Some x -> last l = Some y -> j < length l - 1 ->
  take (length l - 1) (<[j := y]> (<[length l - 1 := x]> l)) ++ [x] ≡ₚ l.
Proof.
  intros Hj Hy Hlt. destruct l as [|z l _] using rev_ind; [done|].
  rewrite last_snoc in Hy. injection Hy as ->. rewrite length_app in *. cbn [length] in *.
  replace (length l + 1 - 1) with (length l) in * by lia.
  rewrite lookup_app_l in Hj by done.
  rewrite insert_app_r_alt, Nat.sub_diag by done. cbn [insert list_insert].
  rewrite insert_app_l by done. rewrite take_app_length' by by rewrite length_insert.
  rewrite insert_take_drop by done. rewrite <- (take_drop_middle l j x Hj) at 3.
  rewrite <- !app_assoc. cbn. solve_Permutation.
Qed.

Lemma remove_loop_spec (l : list bytes) j r :
  NoDup l -> r ∉ take j l -> l <> [] ->
  match remove_loop (length l - j) l j r with
  | Some l' => l' <> [] /\ NoDup l' /\ forall c, c ∈ l' <-> c ∈ l /\ c <> r
  | None => l = [r]
  end.
Proof.
  intros Hnd Hr Hne. remember (length l - j) as n eqn:Hn. revert j Hr Hn.
  induction n as [|n IH]; intros j Hr Hn; cbn.
  - rewrite take_ge in Hr by lia. split; [done|]. split; [done|]. naive_solver.
  - destruct (decide (l !! j = Some r)) as [Hj|Hj].
    2:{ apply IH; [|lia]. assert (exists x, l !! j = Some x) as [x Hx].
        { apply lookup_lt_is_Some. lia. }
        rewrite (take_S_r _ _ _ Hx), elem_of_app, list_elem_of_singleton. naive_solver. }
    destruct (decide (length l = 1)) as [H1|H1].
    { destruct l as [|x [|]]; try done. destruct j; [|done]. by injection Hj as ->. }
    set (l2 := take _ _). assert (l2 ++ [r] ≡ₚ l) as Hp.
    { unfold l2. destruct (last l) as [y|] eqn:Hy; [|by apply last_None in Hy].
      rewrite Hj. case_decide as Hlt; [by apply swap_out|].
      assert (j = length l - 1) as -> by (apply lookup_lt_Some in Hj; lia).
      rewrite <- (take_drop_middle l _ _ Hj) at 3.
      rewrite (drop_ge l) by lia. done. }
    rewrite <- Hp in Hnd. apply NoDup_app in Hnd as (Hnd & Hdis & _).
    assert (r ∉ l2) as Hr2 by (intros H; by apply (Hdis r H); left).
    rewrite remove_loop_absent by (intros H%elem_of_drop; done).
    split; [|split; [done|]].
    + intros E. rewrite E in Hp. apply Permutation_length in Hp. cbn in Hp. lia.
    + intros c. assert (c ∈ l <-> c ∈ l2 \/ c = r) as ->
        by by rewrite <- (list_elem_of_singleton c), <- elem_of_app, Hp.
      naive_solver.
Qed.

Lemma remove_chans_spec (l cs : list bytes) :
  NoDup l -> l <> [] ->
  match remove_chans l cs with
  | Some l' => l' <> [] /\ NoDup l' /\ forall c, c ∈ l' <-> c ∈ l /\ c ∉ map ToLower cs
  | None => forall c, c ∈ l -> c ∈ map ToLower cs
  end.
Proof.
  revert l. induction cs as [|x cs IH]; intros l Hnd Hne; cbn.
  { split; [done|]. split; [done|]. intros c. rewrite elem_of_nil. tauto. }
  pose proof (remove_loop_spec l 0 (ToLower x) Hnd (not_elem_of_nil _) Hne) as H.
  rewrite Nat.sub_0_r in H. destruct (remove_loop _ l 0 _) as [l1|]; cbn; [|set_solver].
  destruct H as (Hne1 & Hnd1 & H1). specialize (IH l1 Hnd1 Hne1).
  destruct (remove_chans l1 cs) as [l2|].
  - destruct IH as (Hne2 & Hnd2 & H2). split; [done|]. split; [done|].
    intros c. rewrite H2, H1, elem_of_cons. tauto.
  - intros c Hc. rewrite elem_of_cons. destruct (decide (c = ToLower x)) as [|Hx]; [by left|].
    right. apply IH, H1. done.
Qed.

(** C37. The list of active channels implements a set of folded names, no list
    standing for every channel: adding is union, and makes a core that was
    active everywhere active only on what is added; removing is difference,
    and a core that loses its last channel is active everywhere. *)
Theorem active_channels d cs c :
  core_wf d ->
  hasChannel d c = match active d with None => true | Some X => bool_decide (ToLower c ∈ X) end /\
  core_wf (AddChannels d cs) /\
  active (AddChannels d cs) =
    (if decide (cs = []) then active d
     else Some (default ∅ (active d) ∪ list_to_set (map ToLower cs))) /\
  core_wf (RemoveChannels d cs) /\
  active (RemoveChannels d cs) =
    (X ← active d; let Y := X ∖ list_to_set (map ToLower cs) in if decide (Y = ∅) then None else Some Y).
Proof.
  unfold core_wf, active, hasChannel. intros Hwf. split.
  { destruct (chans d) as [l|]; cbn; [|done]. apply eq_bool_prop_intro.
    rewrite !Is_true_true, existsb_exists, bool_decide_eq_true, elem_of_list_to_set. split.
    - intros (x & Hx & ->%bool_decide_eq_true). by apply list_elem_of_In.
    - intros H. eexists. split; [by apply list_elem_of_In|]. by apply bool_decide_eq_true. }
  split; [|split].
  - destruct cs as [|x cs]; cbn [AddChannels]; [done|]. cbn [chans with_chans]. split.
    + apply add_loop_NoDup. destruct (chans d); cbn; [tauto|constructor].
    + intros E. assert (ToLower x ∈ add_loop (default [] (chans d)) (x :: cs)) as H
        by (apply add_loop_elem; right; left). rewrite E in H. by apply not_elem_of_nil in H.
  - destruct cs as [|x cs]; [done|]. rewrite decide_False by done. cbn [AddChannels with_chans chans].
    cbn [fmap option_fmap option_map]. f_equal. apply leibniz_equiv. intros y.
    rewrite elem_of_union, !elem_of_list_to_set, add_loop_elem.
    destruct (chans d); cbn; [by rewrite elem_of_list_to_set|]. set_solver.
  - destruct (chans d) as [l|] eqn:El; cbn [fmap option_fmap option_map mbind option_bind].
    2:{ unfold RemoveChannels. rewrite El. by destruct cs; rewrite El. }
    destruct Hwf as [Hnd Hne].
    assert (chans (RemoveChannels d cs) = remove_chans l cs) as ->.
    { unfold RemoveChannels. rewrite El. destruct cs as [|x cs]; [done|]. by destruct l. }
    pose proof (remove_chans_spec l cs Hnd Hne) as H. destruct (remove_chans l cs) as [l'|]; cbn.
    + destruct H as (Hne' & Hnd' & H). split; [done|].
      assert (list_to_set l' = (list_to_set l ∖ list_to_set (map ToLower cs) : gset bytes)) as ->
        by set_solver.
      rewrite decide_False; [done|]. intros E. destruct l' as [|x l']; [done|].
      specialize (H x). set_solver.
    + split; [done|]. rewrite decide_True; [done|]. set_solver.
Qed.
End DispatchCore.

Lemma active_channels_witness :
  let d := AddChannels (CT := ascii_tables) (NewDispatchCore (CT := ascii_tables) [bs "#A"]) [bs "#b"; bs "#a"] in
  core_wf d /\ active (RemoveChannels (CT := ascii_tables) d [bs "#B"; bs "#A"]) = None.
Proof.
  assert (core_wf (NewDispatchCore (CT := ascii_tables) [bs "#A"])) as H0 by (split; decide_now).
  destruct (active_channels (CT := ascii_tables) _ [bs "#b"; bs "#a"] [] H0) as (_ & H1 & _ & _ & _).
  split; [exact H1|].
  rewrite (proj2 (proj2 (proj2 (proj2 (active_channels (CT := ascii_tables) _ [bs "#B"; bs "#A"] [] H1))))).
  by vm_compute.
Defined.

(** Setting the channels keeps repetitions, and removing takes out one. *)
Theorem RemoveChannels_duplicates :
  let d := SetChannels (CT := ascii_tables) (NewDispatchCore (CT := ascii_tables) []) [bs "#a"; bs "#A"] in
  hasChannel (CT := ascii_tables) (RemoveChannels (CT := ascii_tables) d [bs "#a"]) (bs "#a") = true /\
  chans (RemoveChannels (CT := ascii_tables) d [bs "#a"]) = Some [bs "#a"].
Proof. by vm_compute. Qed.
