(* ===== verification/Dispatcher.v ===== *)
(** * Package dispatch: the dispatcher (dispatch/dispatcher.go, dispatch/handlers.go)

    Handlers are registered for the name of an event under a random number,
    and every event is given to the handlers of its name and to those of all
    events.  A handler is known by the interfaces it implements; a call made
    to it is a value.  Each handler runs in a goroutine of its own whose
    panics are caught, so the outcome of one is modelled alone. *)

From S2P Require Import Prelude GoStrings Ctcp NetworkInfo Event DispatchCore.

(** irc/proto.go:170-170 [RAW] *)
Definition RAW : bytes := bs "RAW".

(** dispatch/handlers.go:6-51 [PrivmsgHandler]: the interfaces of handlers *)
Inductive interface :=
  | EventHandler
  | PrivmsgHandler | PrivmsgUserHandler | PrivmsgChannelHandler
  | NoticeHandler | NoticeUserHandler | NoticeChannelHandler
  | CTCPHandler | CTCPChannelHandler | CTCPReplyHandler.

#[export] Instance interface_eq_dec : EqDecision interface.
Proof. solve_decision. Defined.

(** A handler: an identity and the interfaces it implements. *)
Record Handler := { hid : nat; implements : interface -> bool }.

(** A call of a method; those of the three CTCP interfaces have the tag and
    the data besides. *)
Record call := { callee : Handler; method : interface; ctcp : option (bytes * bytes) }.

(** dispatch/dispatcher.go [Dispatcher] *)
Record Dispatcher := { core : DispatchCore; events : gmap bytes (gmap Z Handler) }.

(** dispatch/dispatcher.go [NewDispatcher] *)
Definition NewDispatcher (c : DispatchCore) : Dispatcher := {| core := c; events := ∅ |}.

(** dispatch/dispatcher.go:54-55 [Dispatcher.Register]: the loop on an
    identifier that is taken.  [has] is set once, before the loop; [draws] are
    the numbers [rand.Int] gives, and [None] is fuel that ran out. *)
Fixpoint redraw (fuel : nat) (has : bool) (id : Z) (draws : nat -> Z) : option Z :=
  if has then
    match fuel with
    | 0 => None
    | S fuel => redraw fuel has (draws 0) (fun n => draws (S n))
    end
  else Some id.

Section Dispatcher.
Context {CT : CaseTables}.

(** dispatch/dispatcher.go [Dispatcher.Register] *)
Definition Register (fuel : nat) (draws : nat -> Z) (d : Dispatcher) (event : bytes) (handler : Handler)
    : option (Z * Dispatcher) :=
  let event := ToUpper event in
  let id := draws 0 in
  let put id table := (id, {| core := d.(core); events := <[event := <[id := handler]> table]> d.(events) |}) in
  match d.(events) !! event with
  | None => Some (put id ∅)
  | Some ev =>
    id ← redraw fuel (bool_decide (is_Some (ev !! id))) id (fun n => draws (S n));
    Some (put id ev)
  end.

(** dispatch/dispatcher.go [Dispatcher.Unregister] *)
Definition Unregister (d : Dispatcher) (event : bytes) (id : Z) : bool * Dispatcher :=
  let event := ToUpper event in
  match d.(events) !! event with
  | Some ev =>
    match ev !! id with
    | Some _ => (true, {| core := d.(core); events := <[event := delete id ev]> d.(events) |})
    | None => (false, d)
    end
  | None => (false, d)
  end.

(** dispatch/dispatcher.go [Dispatcher.dispatchHelper]: the handlers that are
    started, with the core that counts them, and whether there is a table *)
Definition dispatchHelper {RO : RangeOrder Z} (d : Dispatcher) (event : bytes)
    : bool * list Handler * Dispatcher :=
  match d.(events) !! event with
  | Some evtable =>
    let hs := map snd (range evtable) in
    (true, hs, {| core := foldl (fun c _ => HandlerStarted c) d.(core) hs; events := d.(events) |})
  | None => (false, [], d)
  end.

(** dispatch/dispatcher.go [Dispatcher.Dispatch] *)
Definition Dispatch {RO : RangeOrder Z} (d : Dispatcher) (ev : Event) : bool * list Handler * Dispatcher :=
  let event := ToUpper ev.(Name) in
  let '(handled, started, d) := dispatchHelper d event in
  let '(_, raw, d) := dispatchHelper d RAW in
  (handled, started ++ raw, d).

(** [if h, ok := handler.(I); ok && guard { h.I(...) } else ...] *)
Definition try_call (h : Handler) (i : interface) (guard : go bool) (data : option (bytes * bytes))
    (otherwise : go (option call)) : go (option call) :=
  if h.(implements) i then
    b ← guard;
    if (b : bool) then Ret (Some {| callee := h; method := i; ctcp := data |}) else otherwise
  else otherwise.

(** dispatch/dispatcher.go [Dispatcher.dispatchPrivmsg] *)
Definition dispatchPrivmsg (c : DispatchCore) (h : Handler) (ev : Event) : go (option call) :=
  try_call h PrivmsgChannelHandler (shouldDispatch c true ev) None
  (try_call h PrivmsgUserHandler (shouldDispatch c false ev) None
  (try_call h PrivmsgHandler (Ret true) None (Ret None))).

(** dispatch/dispatcher.go [Dispatcher.dispatchNotice] *)
Definition dispatchNotice (c : DispatchCore) (h : Handler) (ev : Event) : go (option call) :=
  try_call h NoticeChannelHandler (shouldDispatch c true ev) None
  (try_call h NoticeUserHandler (shouldDispatch c false ev) None
  (try_call h NoticeHandler (Ret true) None (Ret None))).

(** dispatch/dispatcher.go [Dispatcher.dispatchCTCP] *)
Definition dispatchCTCP (c : DispatchCore) (h : Handler) (ev : Event) : go (option call) :=
  msg ← Message ev; td ← CTCPunpackString msg;
  try_call h CTCPChannelHandler (shouldDispatch c true ev) (Some td)
  (try_call h CTCPHandler (Ret true) (Some td) (Ret None)).

(** dispatch/dispatcher.go [Dispatcher.dispatchCTCPReply] *)
Definition dispatchCTCPReply (c : DispatchCore) (h : Handler) (ev : Event) : go (option call) :=
  msg ← Message ev; td ← CTCPunpackString msg;
  try_call h CTCPReplyHandler (Ret true) (Some td) (Ret None).

(** dispatch/dispatcher.go [Dispatcher.resolveHandler]: the call it makes, if
    any *)
Definition resolveHandler (c : DispatchCore) (h : Handler) (ev : Event) : go (option call) :=
  handled ←
    (if bool_decide (ev.(Name) = PRIVMSG) || bool_decide (ev.(Name) = NOTICE) then
       isctcp ← (if decide (2 <= length ev.(Args)) then msg ← Message ev; IsCTCPString msg
                 else Ret false);
       if (isctcp : bool) then
         if decide (ev.(Name) = PRIVMSG) then dispatchCTCP c h ev else dispatchCTCPReply c h ev
       else
         if decide (ev.(Name) = PRIVMSG) then dispatchPrivmsg c h ev else dispatchNotice c h ev
     else Ret None);
  match handled with
  | Some _ => Ret handled
  | None => try_call h EventHandler (Ret true) None (Ret None)
  end.

(** ** Registration *)

(** The handlers registered for an event, by identifier. *)
Definition registered (d : Dispatcher) (event : bytes) (id : Z) : option Handler :=
  ev ← d.(events) !! event; ev !! id.

Lemma registered_put d ev table id h e i :
  default ∅ (d.(events) !! ev) = table ->
  registered {| core := d.(core); events := <[ev := <[id := h]> table]> d.(events) |} e i =
  if decide (e = ev /\ i = id) then Some h else registered d e i.
Proof.
  intros <-. unfold registered. cbn [events]. destruct (decide (e = ev)) as [->|He].
  - rewrite lookup_insert_eq. cbn. destruct (decide (i = id)) as [->|Hi].
    + by rewrite lookup_insert_eq, decide_True.
    + rewrite lookup_insert_ne, decide_False by naive_solver.
      by destruct (events d !! ev); cbn; rewrite ?lookup_empty.
  - by rewrite lookup_insert_ne, decide_False by naive_solver.
Qed.

Lemma redraw_false fuel id draws : redraw fuel false id draws = Some id.
Proof. by destruct fuel. Qed.

(** The loop on a taken identifier never ends. *)
Lemma redraw_true fuel id draws : redraw fuel true id draws = None.
Proof. revert id draws. induction fuel as [|fuel IH]; intros; cbn; [done|apply IH]. Qed.

(** Registering returns, with a number that was free, exactly when the first
    number drawn is free: one that is taken is drawn again for ever. *)
Theorem Register_taken fuel draws d event handler :
  is_Some (registered d (ToUpper event) (draws 0)) <-> Register fuel draws d event handler = None.
Proof.
  unfold Register, registered. cbn zeta. destruct (events d !! ToUpper event) as [ev|]; cbn.
  - case_bool_decide as H; [by rewrite redraw_true|]. rewrite redraw_false. cbn. by split.
  - split; [by intros []|done].
Qed.

(** Registering adds the handler for the event, in any case of its name
    that folds alike, under a number that was free, and leaves every other
    registration; giving the number back takes out that handler and no other,
    and doing it twice finds nothing. *)
Theorem Register_Unregister fuel draws d event handler id d1 :
  Register fuel draws d event handler = Some (id, d1) ->
  registered d (ToUpper event) id = None /\
  (forall e i, registered d1 e i =
     if decide (e = ToUpper event /\ i = id) then Some handler else registered d e i) /\
  exists d2, Unregister d1 event id = (true, d2) /\
    (forall e i, registered d2 e i = registered d e i) /\
    Unregister d2 event id = (false, d2).
Proof.
  intros H. assert (registered d (ToUpper event) id = None /\ d1 =
    {| core := d.(core);
       events := <[ToUpper event := <[id := handler]> (default ∅ (events d !! ToUpper event))]> d.(events) |})
    as [Hfree ->].
  { unfold Register, registered in *. cbn zeta in H.
    destruct (events d !! ToUpper event) as [ev|] eqn:E; cbn in *.
    - case_bool_decide as Hd; [by rewrite redraw_true in H|].
      rewrite redraw_false in H. cbn in H. injection H as <- <-.
      split; [by apply eq_None_not_Some|]. done.
    - injection H as <- <-. done. }
  split; [done|]. split; [intros; by apply registered_put|].
  unfold Unregister at 1. cbn. rewrite lookup_insert_eq, lookup_insert_eq.
  eexists. split; [done|].
  assert (forall e i, registered {| core := d.(core); events :=
     <[ToUpper event := delete id (<[id := handler]> (default ∅ (events d !! ToUpper event)))]>
       (<[ToUpper event := <[id := handler]> (default ∅ (events d !! ToUpper event))]> d.(events)) |} e i
     = registered d e i) as Hsame.
  { intros e i. unfold registered in *. cbn. rewrite insert_insert_eq.
    destruct (decide (e = ToUpper event)) as [->|He]; [|by rewrite lookup_insert_ne].
    rewrite lookup_insert_eq. cbn.
    destruct (decide (i = id)) as [->|Hi]; [by rewrite lookup_delete_eq|].
    rewrite lookup_delete_ne, lookup_insert_ne by done.
    by destruct (events d !! ToUpper event); cbn; rewrite ?lookup_empty. }
  split; [exact Hsame|].
  unfold Unregister. cbn. by rewrite lookup_insert_eq, lookup_delete_eq.
Qed.

(** ** Dispatch *)

Lemma started_count (c : DispatchCore) (hs : list Handler) :
  waiter (foldl (fun c _ => HandlerStarted c) c hs) = waiter c + length hs /\
  chans (foldl (fun c _ => HandlerStarted c) c hs) = chans c.
Proof.
  revert c. induction hs as [|h hs IH]; intros c; cbn; [split; [lia|done]|].
  destruct (IH (HandlerStarted c)) as [-> ->]. cbn. split; [lia|done].
Qed.

Lemma dispatchHelper_spec {RO : RangeOrder Z} d event ok hs d' :
  dispatchHelper d event = (ok, hs, d') ->
  hs ≡ₚ (map_to_list (default ∅ (d.(events) !! event))).*2 /\
  ok = bool_decide (is_Some (d.(events) !! event)) /\
  d'.(events) = d.(events) /\ chans d'.(core) = chans d.(core) /\
  waiter d'.(core) = waiter d.(core) + length hs.
Proof.
  unfold dispatchHelper. destruct (events d !! event) as [t|] eqn:E; intros [= <- <- <-]; cbn.
  - destruct (started_count (core d) (map snd (range t))) as [-> ->].
    split; [|done]. by rewrite (range_perm t).
  - split; [done|]. by split; [|split; [|split; [|lia]]].
Qed.

(** Dispatching an event starts every handler registered for its name, in
    any case, and every handler registered for all events, each once and no
    other, and counts every one it starts; it reports whether the name has a
    table, and changes no registration. *)
Theorem Dispatch_starts {RO : RangeOrder Z} d ev :
  let '(ok, hs, d') := Dispatch d ev in
  hs ≡ₚ (map_to_list (default ∅ (d.(events) !! ToUpper ev.(Name)))).*2 ++
        (map_to_list (default ∅ (d.(events) !! RAW))).*2 /\
  ok = bool_decide (is_Some (d.(events) !! ToUpper ev.(Name))) /\
  d'.(events) = d.(events) /\ waiter d'.(core) = waiter d.(core) + length hs.
Proof.
  unfold Dispatch. destruct (dispatchHelper d (ToUpper (Name ev))) as [[ok1 hs1] d1] eqn:E1.
  destruct (dispatchHelper d1 RAW) as [[ok2 hs2] d2] eqn:E2.
  apply dispatchHelper_spec in E1 as (P1 & O1 & S1 & _ & W1), E2 as (P2 & _ & S2 & _ & W2).
  rewrite S1 in P2. split; [by rewrite P1, P2|]. split; [done|].
  split; [congruence|]. rewrite length_app. lia.
Qed.

(** ** Calls *)

Lemma shouldDispatch_true c (b : bool) ev :
  shouldDispatch c b ev = Ret true ->
  IsTargetChan ev = Ret b /\
  (b = true -> exists target, Target ev = Ret target /\ hasChannel c (ToLower target) = true).
Proof.
  unfold shouldDispatch, CheckTarget. destruct (IsTargetChan ev) as [[]|]; cbn; [|by destruct b|done].
  destruct (Target ev) as [t|]; cbn; [|done].
  destruct b; cbn; [|done]. intros [= H]. eauto.
Qed.

Lemma try_call_inv h i guard data otherwise k :
  try_call h i guard data otherwise = Ret (Some k) ->
  (k = {| callee := h; method := i; ctcp := data |} /\ h.(implements) i = true /\ guard = Ret true)
  \/ otherwise = Ret (Some k).
Proof.
  unfold try_call. destruct (implements h i); [|by right].
  destruct guard as [[]|]; cbn; [|by right|done]. intros [= <-]. by left.
Qed.

(** What a call promises to the method it is made to. *)
Definition call_ok (c : DispatchCore) (h : Handler) (ev : Event) (k : call) : Prop :=
  k.(callee) = h /\ h.(implements) k.(method) = true /\
  match k.(method) with
  | EventHandler => k.(ctcp) = None
  | PrivmsgHandler => ev.(Name) = PRIVMSG
  | PrivmsgUserHandler => ev.(Name) = PRIVMSG /\ IsTargetChan ev = Ret false
  | PrivmsgChannelHandler => ev.(Name) = PRIVMSG /\ shouldDispatch c true ev = Ret true
  | NoticeHandler => ev.(Name) = NOTICE
  | NoticeUserHandler => ev.(Name) = NOTICE /\ IsTargetChan ev = Ret false
  | NoticeChannelHandler => ev.(Name) = NOTICE /\ shouldDispatch c true ev = Ret true
  | CTCPHandler => ev.(Name) = PRIVMSG /\ UnpackCTCP ev = Ret (default ([], []) k.(ctcp))
  | CTCPChannelHandler => ev.(Name) = PRIVMSG /\ shouldDispatch c true ev = Ret true /\
      UnpackCTCP ev = Ret (default ([], []) k.(ctcp))
  | CTCPReplyHandler => ev.(Name) = NOTICE /\ UnpackCTCP ev = Ret (default ([], []) k.(ctcp))
  end.

Lemma UnpackCTCP_Message ev msg td :
  Message ev = Ret msg -> CTCPunpackString msg = Ret td -> UnpackCTCP ev = Ret td.
Proof. unfold Message, UnpackCTCP. intros ->. by rewrite bind_Ret. Qed.

Ltac calls :=
  repeat match goal with
  | H : try_call _ _ _ _ _ = Ret (Some _) |- _ => apply try_call_inv in H as [(-> & ? & ?)|H]
  | H : Ret None = Ret (Some _) |- _ => discriminate H
  end; try done; cbn; repeat split; try done;
  repeat match goal with
  | H : shouldDispatch _ false _ = Ret true |- _ => apply shouldDispatch_true in H as [? _]
  end; eauto using UnpackCTCP_Message.

Lemma dispatchPrivmsg_ok c h ev k :
  ev.(Name) = PRIVMSG -> dispatchPrivmsg c h ev = Ret (Some k) -> call_ok c h ev k.
Proof. intros Hn H. unfold dispatchPrivmsg in H. unfold call_ok. calls. Qed.

Lemma dispatchNotice_ok c h ev k :
  ev.(Name) = NOTICE -> dispatchNotice c h ev = Ret (Some k) -> call_ok c h ev k.
Proof. intros Hn H. unfold dispatchNotice in H. unfold call_ok. calls. Qed.

Lemma dispatchCTCP_ok c h ev k :
  ev.(Name) = PRIVMSG -> dispatchCTCP c h ev = Ret (Some k) -> call_ok c h ev k.
Proof.
  intros Hn H. unfold dispatchCTCP in H. apply bind_Ret_inv in H as (msg & Hm & H).
  apply bind_Ret_inv in H as (td & Ht & H). unfold call_ok. calls.
Qed.

Lemma dispatchCTCPReply_ok c h ev k :
  ev.(Name) = NOTICE -> dispatchCTCPReply c h ev = Ret (Some k) -> call_ok c h ev k.
Proof.
  intros Hn H. unfold dispatchCTCPReply in H. apply bind_Ret_inv in H as (msg & Hm & H).
  apply bind_Ret_inv in H as (td & Ht & H). unfold call_ok. calls.
Qed.

Lemma resolveHandler_ok c h ev k :
  resolveHandler c h ev = Ret (Some k) -> call_ok c h ev k.
Proof.
  unfold resolveHandler. intros (handled & Hh & H)%bind_Ret_inv. destruct handled as [k'|].
  - injection H as ->. destruct (bool_decide (Name ev = PRIVMSG) || bool_decide (Name ev = NOTICE)) eqn:En;
      [|done].
    rewrite orb_true_iff, !bool_decide_eq_true in En.
    apply bind_Ret_inv in Hh as (isctcp & _ & Hh).
    destruct isctcp; destruct (decide (Name ev = PRIVMSG)); destruct En; try done;
      eauto using dispatchCTCP_ok, dispatchCTCPReply_ok, dispatchPrivmsg_ok, dispatchNotice_ok.
  - apply try_call_inv in H as [(-> & Hi & _)|H]; [|done]. done.
Qed.

(** A message a handler can be given: it has a target, its network is known,
    and its text is not empty and not a lone delimiter. *)
Definition deliverable (ev : Event) : Prop :=
  0 < length ev.(Args) /\ is_Some ev.(NetInfo) /\
  forall msg, ev.(Args) !! 1 = Some msg -> msg <> [] /\ msg <> [ctcpDelim].

Lemma shouldDispatch_returns c (b : bool) ev :
  0 < length ev.(Args) -> is_Some ev.(NetInfo) -> exists r, shouldDispatch c b ev = Ret r.
Proof.
  intros Ha [ni Hni]. unfold shouldDispatch, CheckTarget, IsTargetChan, Target.
  destruct (ev.(Args)) as [|t l]; cbn in *; [lia|]. rewrite Hni.
  destruct t as [|a t]; [cbn; eauto|]. cbn -[IsChannel]. destruct (IsChannel ni (a :: t)); cbn; eauto.
Qed.

Lemma try_call_returns h i guard data otherwise :
  (exists r, guard = Ret r) -> (exists k, otherwise = Ret k) ->
  exists k, try_call h i guard data otherwise = Ret k.
Proof.
  intros [r ->] [k ->]. unfold try_call. destruct (implements h i); [|eauto]. cbn. destruct r; eauto.
Qed.

Lemma IsCTCPString_returns msg : msg <> [] -> exists b, IsCTCPString msg = Ret b.
Proof.
  intros H. unfold IsCTCPString, IsCTCP. destruct msg as [|x msg]; [done|]. cbn -[index].
  change (index (x :: msg) 0) with (Ret x). cbn -[index]. case_bool_decide; [|eauto].
  destruct (lookup_lt_is_Some_2 (x :: msg) (length (x :: msg) - 1) ltac:(cbn; lia)) as [y Hy].
  assert (index (x :: msg) (length (x :: msg) - 1) = Ret y) as E by by apply index_Ret.
  cbn -[index] in E. rewrite E. cbn. eauto.
Qed.

Lemma CTCPunpackString_returns msg : 2 <= length msg -> exists td, CTCPunpackString msg = Ret td.
Proof.
  intros H. unfold CTCPunpackString, CTCPunpack. rewrite decide_False by lia.
  destruct (ctcpUnpack _). cbn. eauto.
Qed.

(** A handler of every event gets a call for every message that can be
    delivered, one and no more. *)
Lemma resolve_returns c h ev :
  deliverable ev -> exists k, resolveHandler c h ev = Ret k /\
    (h.(implements) EventHandler = true -> is_Some k).
Proof.
  intros (Ha & Hi & Hm). unfold resolveHandler.
  assert (forall (m : go (option call)), (exists k, m = Ret k) ->
    exists k, (handled ← m; match handled with Some _ => Ret handled
      | None => try_call h EventHandler (Ret true) None (Ret None) end) = Ret k /\
      (implements h EventHandler = true -> is_Some k)) as Hfin.
  { intros m [k ->]. cbn. destruct k as [k|]; [by eexists|].
    unfold try_call. destruct (implements h EventHandler); cbn; by eexists. }
  apply Hfin. clear Hfin.
  pose proof (fun b => shouldDispatch_returns c b ev Ha Hi) as Hs.
  destruct (_ || _); [|by eexists].
  destruct (decide (2 <= length (Args ev))) as [H2|H2]; cbn.
  - destruct (lookup_lt_is_Some_2 (Args ev) 1 ltac:(lia)) as [msg Hmsg].
    assert (Message ev = Ret msg) as E by by apply index_Ret.
    destruct (Hm _ Hmsg) as [Hne Hlone]. rewrite E. cbn.
    destruct (IsCTCPString_returns msg Hne) as [b Hb]. rewrite Hb. cbn.
    assert (b = true -> exists td, CTCPunpackString msg = Ret td) as Ht.
    { intros ->. apply CTCPunpackString_returns. destruct msg as [|x [|y msg]]; [done| |cbn; lia].
      exfalso. apply Hlone. unfold IsCTCPString, IsCTCP in Hb. cbn in Hb.
      case_bool_decide; [by subst|done]. }
    destruct b; case_decide; unfold dispatchCTCP, dispatchCTCPReply, dispatchPrivmsg, dispatchNotice;
      rewrite ?E, ?bind_Ret; try (destruct (Ht eq_refl) as [td ->]; rewrite bind_Ret);
      repeat (apply try_call_returns; [eauto|]); eauto.
  - case_decide; unfold dispatchPrivmsg, dispatchNotice;
      repeat (apply try_call_returns; [eauto|]); eauto.
Qed.

(** Whatever a handler implements and whatever the event says, a call it
    gets is of a method it has and keeps that method's promise: a user method
    only for a target that is not a channel, a channel method only for a
    channel the core is active on, a message or notice method only for its
    kind, and a CTCP method with the tag and data the message holds.  A
    handler of raw events misses no event that can be delivered. *)
Theorem resolveHandler_targets c h ev :
  (forall k, resolveHandler c h ev = Ret (Some k) -> call_ok c h ev k) /\
  (deliverable ev -> exists r, resolveHandler c h ev = Ret r /\
     (h.(implements) EventHandler = true -> is_Some r)).
Proof. split; [apply resolveHandler_ok|apply resolve_returns]. Qed.

(** A message that is the CTCP delimiter alone is taken for a CTCP message and
    then cannot be unpacked: every handler, of raw events too, panics. *)
Theorem lone_delimiter_dropped c h target ni :
  resolveHandler c h (NewEvent 0 [] ni PRIVMSG [] [target; [ctcpDelim]]) = Panic.
Proof. by vm_compute. Qed.
End Dispatcher.

Definition demo_handler : Handler :=
  {| hid := 0; implements := fun i => bool_decide (i ∈ [EventHandler; PrivmsgChannelHandler]) |}.

Lemma Register_Unregister_witness :
  let d := NewDispatcher {| chans := None; waiter := 0 |} in
  match Register (CT := ascii_tables) 0 (fun _ => 7%Z) d (bs "privmsg") demo_handler with
  | Some (id, d1) => exists d2, Unregister (CT := ascii_tables) d1 (bs "privmsg") id = (true, d2)
  | None => False
  end.
Proof.
  cbn zeta. destruct (Register (CT := ascii_tables) _ _ _ _ _) as [[id d1]|] eqn:E.
  - destruct (Register_Unregister (CT := ascii_tables) _ _ _ _ _ _ _ E) as (_ & _ & d2 & H & _).
    exists d2. exact H.
  - discriminate E.
Defined.

(** A message on an active channel goes to the channel method, one to the
    client to the raw method. *)
Example demo_calls :
  let c := NewDispatchCore (CT := ascii_tables) [bs "#a"] in
  let msg target := NewEvent 0 [] (Some NewNetworkInfo) PRIVMSG (bs "n!u@h") [target; bs "hi"] in
  let called target := match resolveHandler (CT := ascii_tables) c demo_handler (msg target) with
                       | Ret (Some k) => Some k.(method) | _ => None end in
  map called [bs "#A"; bs "#b"; bs "me"] =
  [Some PrivmsgChannelHandler; Some EventHandler; Some EventHandler].
Proof. by vm_compute. Qed.
