(* ===== verification/Cmd.v ===== *)
(** * Package cmd: commands and their arguments (dispatch/cmd/cmd.go)

    A command describes its arguments by strings, which are parsed when the
    command is registered.  The parser fills the command in place, so it
    returns the command it leaves behind with every error. *)

From S2P Require Import Prelude GoStrings Regex Fmt.

(** dispatch/cmd/cmd.go:21-21 [REQUIRED] *)
Definition REQUIRED : Z := 1.
(** dispatch/cmd/cmd.go:22-22 [OPTIONAL] *)
Definition OPTIONAL : Z := 2.
(** dispatch/cmd/cmd.go:23-23 [VARIADIC] *)
Definition VARIADIC : Z := 4.
(** dispatch/cmd/cmd.go:24-24 [CHANNEL] *)
Definition CHANNEL : Z := 8.
(** dispatch/cmd/cmd.go:25-25 [NICK] *)
Definition NICK : Z := 16.
(** dispatch/cmd/cmd.go:26-26 [USER] *)
Definition USER : Z := 32.
(** dispatch/cmd/cmd.go:29-29 [USERMASK] *)
Definition USERMASK : Z := Z.lor NICK USER.
(** dispatch/cmd/cmd.go:31-31 [argStripChars] *)
Definition argStripChars : bytes := bs "#~*[].".

(** dispatch/cmd/cmds.go:81-82 [errFmtArgumentForm] *)
Definition errFmtArgumentForm : bytes :=
  bs "cmd: Arguments must look like: #name OR [~|*]name OR [[~|*]name] OR [~|*]name... (given: %v)".
(** dispatch/cmd/cmds.go:83-84 [errFmtArgumentOrderReq] *)
Definition errFmtArgumentOrderReq : bytes :=
  bs "cmd: Required arguments must come before all [optional] and varargs... arguments. (given: %v)".
(** dispatch/cmd/cmds.go:85-86 [errFmtArgumentOrderOpt] *)
Definition errFmtArgumentOrderOpt : bytes :=
  bs "cmd: Optional arguments must come before varargs... arguments. (given: %v)".
(** dispatch/cmd/cmds.go:87-88 [errFmtArgumentDupName] *)
Definition errFmtArgumentDupName : bytes := bs "cmd: Argument names must be unique (given: %v)".
(** dispatch/cmd/cmds.go:89-90 [errFmtArgumentDupVargs] *)
Definition errFmtArgumentDupVargs : bytes :=
  bs "cmd: Only one varargs... argument is allowed (given: %v)".
(** dispatch/cmd/cmds.go:91-92 [errFmtArgumentOrderChan] *)
Definition errFmtArgumentOrderChan : bytes :=
  bs "cmd: The channel argument must come first. (given: %v)".
(** dispatch/cmd/cmds.go:93-94 [errFmtArgumentDupChan] *)
Definition errFmtArgumentDupChan : bytes :=
  bs "cmd: Only one #channel argument is allowed (given: %v)".

(** A letter or a digit in any case; two letters outside ASCII fold to one
    inside it. *)
Definition alnum_rune (r : Z) : bool :=
  bool_decide (97 <= r <= 122)%Z || bool_decide (65 <= r <= 90)%Z || bool_decide (48 <= r <= 57)%Z
  || bool_decide (r = 0x17F)%Z || bool_decide (r = 0x212A)%Z.

Definition flag_rune : regex := ROpt (RClass (fun r => bool_decide (r = code "~") || bool_decide (r = code "*"))).
Definition arg_word : regex := RPlus (RClass alnum_rune).

(** dispatch/cmd/cmd.go:12-13 [rgxArgs] *)
Definition rgxArgs : regex :=
  RSeq (RGroup 1
    (RAlt (RSeqs [RByte "["; flag_rune; arg_word; RByte "]"])
    (RAlt (RSeqs [flag_rune; arg_word; ROpt (RGroup 2 (RSeqs [RByte "."; RByte "."; RByte "."]))])
          (RSeqs [RByte "#"; arg_word])))) REnd.

(** dispatch/cmd/cmd.go [argument] *)
Record argument := { Original : bytes; arg_Name : bytes; arg_Type : Z }.

(** dispatch/cmd/cmd.go [Cmd]: the handler is a pointer. *)
Record Cmd := {
  cmd_Cmd : bytes; Extension : bytes; Description : bytes;
  Msgtype : Z; Msgscope : Z;
  cmd_Args : list bytes;
  RequireAuth : bool; ReqLevel : Z; ReqFlags : bytes;
  cmd_Handler : option nat;
  args : list argument; reqArgs : nat; optArgs : nat;
}.

(** dispatch/cmd/cmd.go [MkCmd] *)
Definition MkCmd (ext desc cmd : bytes) (handler : option nat) (msgtype msgscope : Z) (args : list bytes)
    : Cmd :=
  {| cmd_Cmd := cmd; Extension := ext; Description := desc; Msgtype := msgtype; Msgscope := msgscope;
     cmd_Args := args; RequireAuth := false; ReqLevel := 0; ReqFlags := []; cmd_Handler := handler;
     args := []; reqArgs := 0; optArgs := 0 |}.

(** dispatch/cmd/cmd.go [MkAuthCmd] *)
Definition MkAuthCmd (ext desc cmd : bytes) (handler : option nat) (msgtype msgscope : Z)
    (reqLevel : Z) (reqFlags : bytes) (args : list bytes) : Cmd :=
  {| cmd_Cmd := cmd; Extension := ext; Description := desc; Msgtype := msgtype; Msgscope := msgscope;
     cmd_Args := args; RequireAuth := true; ReqLevel := reqLevel; ReqFlags := reqFlags;
     cmd_Handler := handler; Cmd.args := []; reqArgs := 0; optArgs := 0 |}.

(** The variables of the loop of [parseArgs]: the flags, the arguments parsed
    so far, and the command's two counters. *)
Record parse_state := {
  chanArg : bool; required : bool; optional : bool; variadic : bool;
  parsed : list argument; n_req : nat; n_opt : nat;
}.

Section parse.
Context {CT : CaseTables}.

Definition arg_error (fmt arg : bytes) : bytes := Sprintf fmt [VString arg].

(** An error, with the argument's entry as it is when it occurs. *)
Definition arg_failure : Type := bytes * argument.

(** dispatch/cmd/cmd.go:155-172 [Cmd.parseArgs]: the modifier of an argument,
    with its type so far.  An argument that matched is not empty. *)
Definition parse_modifier (st : parse_state) (arg name : bytes) : arg_failure + Z :=
  let fail fmt := inl (arg_error fmt arg, {| Original := arg; arg_Name := name; arg_Type := 0 |}) in
  let modifier := match arg with
                  | c :: c' :: _ => if decide (c = "["%char) then c' else c
                  | c :: [] => c
                  | [] => "["%char
                  end in
  if decide (modifier = "#"%char) then
    if st.(chanArg) then fail errFmtArgumentDupChan
    else if st.(required) || st.(optional) || st.(variadic)
    then fail errFmtArgumentOrderChan
    else inr CHANNEL
  else if decide (modifier = "~"%char) then inr NICK
  else if decide (modifier = "*"%char) then inr USER
  else inr 0%Z.

(** dispatch/cmd/cmd.go:174-195 [Cmd.parseArgs]: the ending of an argument,
    and the state with the argument stored *)
Definition parse_ending (st : parse_state) (arg name : bytes) (t : Z) : arg_failure + parse_state :=
  let fail fmt := inl (arg_error fmt arg, {| Original := arg; arg_Name := name; arg_Type := t |}) in
  let is_chan := bool_decide (t = CHANNEL) in
  let store st' typ := {| chanArg := st.(chanArg) || is_chan; required := required st';
       optional := optional st'; variadic := variadic st';
       parsed := st.(parsed) ++ [{| Original := arg; arg_Name := name; arg_Type := Z.lor t typ |}];
       n_req := n_req st'; n_opt := n_opt st' |} in
  if decide (last arg = Some "]"%char) then
    if st.(variadic) then fail errFmtArgumentOrderOpt
    else inr (store {| chanArg := false; required := st.(required); optional := true;
                       variadic := st.(variadic); parsed := []; n_req := st.(n_req);
                       n_opt := S st.(n_opt) |} OPTIONAL)
  else if decide (last arg = Some "."%char) then
    if st.(variadic) then fail errFmtArgumentDupVargs
    else inr (store {| chanArg := false; required := st.(required); optional := st.(optional);
                       variadic := true; parsed := []; n_req := st.(n_req);
                       n_opt := st.(n_opt) |} VARIADIC)
  else
    if st.(optional) then fail errFmtArgumentOrderReq
    else inr (store {| chanArg := false; required := true; optional := st.(optional);
                       variadic := st.(variadic); parsed := []; n_req := S st.(n_req);
                       n_opt := st.(n_opt) |} REQUIRED).

(** An entry of the freshly made slice that was not reached. *)
Definition no_argument : argument := {| Original := []; arg_Name := []; arg_Type := 0 |}.

(** dispatch/cmd/cmd.go:141-195 [Cmd.parseArgs]: one argument *)
Definition parse_arg (st : parse_state) (given : bytes) : arg_failure + parse_state :=
  let arg := ToLower given in
  if negb (MatchString rgxArgs arg) then inl (arg_error errFmtArgumentForm arg, no_argument) else
  let name := Trim given argStripChars in
  if decide (name ∈ map arg_Name st.(parsed)) then
    inl (arg_error errFmtArgumentDupName name, {| Original := arg; arg_Name := name; arg_Type := 0 |})
  else
  match parse_modifier st arg name with
  | inl e => inl e
  | inr t => parse_ending st arg name t
  end.

(** The loop: the failure, if any, and the state it leaves. *)
Fixpoint parse_loop (st : parse_state) (given : list bytes) : option arg_failure * parse_state :=
  match given with
  | [] => (None, st)
  | g :: given =>
    match parse_arg st g with
    | inl e => (Some e, st)
    | inr st => parse_loop st given
    end
  end.

Definition parse_start (c : Cmd) : parse_state :=
  {| chanArg := false; required := false; optional := false; variadic := false;
     parsed := []; n_req := c.(reqArgs); n_opt := c.(optArgs) |}.

Definition with_args (c : Cmd) (a : list argument) (req opt : nat) : Cmd :=
  {| cmd_Cmd := c.(cmd_Cmd); Extension := c.(Extension); Description := c.(Description);
     Msgtype := c.(Msgtype); Msgscope := c.(Msgscope); cmd_Args := c.(cmd_Args);
     RequireAuth := c.(RequireAuth); ReqLevel := c.(ReqLevel); ReqFlags := c.(ReqFlags);
     cmd_Handler := c.(cmd_Handler); args := a; reqArgs := req; optArgs := opt |}.

(** dispatch/cmd/cmd.go [Cmd.parseArgs]: the error, if any, and the command.
    After an error the slice keeps what was parsed up to the argument it is
    about, and zero values after it. *)
Definition parseArgs (c : Cmd) : option bytes * Cmd :=
  match c.(cmd_Args) with
  | [] => (None, c)
  | given =>
    let '(e, st) := parse_loop (parse_start c) given in
    let done := st.(parsed) ++ match e with Some (_, a) => [a] | None => [] end in
    (fst <$> e, with_args c (done ++ replicate (length given - length done) no_argument)
                  st.(n_req) st.(n_opt))
  end.

(** ** The grammar of arguments *)

Definition has_bit (b t : Z) : bool := bool_decide (Z.land b t <> 0%Z).

(** The type an argument's text stands for. *)
Definition text_modifier (arg : bytes) : Z :=
  let modifier := match arg with
                  | c :: c' :: _ => if decide (c = "["%char) then c' else c
                  | c :: [] => c
                  | [] => "["%char
                  end in
  if decide (modifier = "#"%char) then CHANNEL
  else if decide (modifier = "~"%char) then NICK
  else if decide (modifier = "*"%char) then USER else 0%Z.

Definition text_ending (arg : bytes) : Z :=
  if decide (last arg = Some "]"%char) then OPTIONAL
  else if decide (last arg = Some "."%char) then VARIADIC else REQUIRED.

Definition text_argument (given : bytes) : argument :=
  let arg := ToLower given in
  {| Original := arg; arg_Name := Trim given argStripChars;
     arg_Type := Z.lor (text_modifier arg) (text_ending arg) |}.

(** Whether an argument of type [b] may come somewhere after one of type [a]:
    nothing required after an optional one, nothing optional or variadic after
    a variadic one, and no channel after anything. *)
Definition may_follow (a b : Z) : bool :=
  negb (has_bit OPTIONAL a && has_bit REQUIRED b)
  && negb (has_bit VARIADIC a && (has_bit OPTIONAL b || has_bit VARIADIC b))
  && negb (has_bit CHANNEL b).

(** A description of arguments that makes sense. *)
Definition args_ok (given : list bytes) : Prop :=
  Forall (fun g => MatchString rgxArgs (ToLower g) = true) given /\
  NoDup (map (fun g => Trim g argStripChars) given) /\
  ForallOrdPairs (fun a b => may_follow a b = true) (map (fun g => arg_Type (text_argument g)) given).

Lemma FOP_snoc {A} (R : A -> A -> Prop) l x :
  ForallOrdPairs R (l ++ [x]) <-> ForallOrdPairs R l /\ Forall (fun a => R a x) l.
Proof.
  induction l as [|y l IH]; cbn.
  - split; [by repeat constructor|]. intros _. by repeat constructor.
  - split.
    + intros H. inversion H as [|? ? H1 H2]; subst. apply IH in H2 as [H2 H3].
      apply Forall_app in H1 as [H1 H1']. rewrite Forall_singleton in H1'.
      split; by constructor.
    + intros [H1 H2]. inversion H1 as [|? ? H3 H4]; subst. apply Forall_cons in H2 as [H2 H5].
      constructor; [|by apply IH]. apply Forall_app. split; [done|]. by apply Forall_singleton.
Qed.

Lemma FOP_app_l {A} (R : A -> A -> Prop) l k : ForallOrdPairs R (l ++ k) -> ForallOrdPairs R l.
Proof.
  induction l as [|x l IH]; cbn; [constructor|]. intros H. inversion H as [|? ? H1 H2]; subst.
  constructor; [by apply Forall_app in H1 as [? _]|by apply IH].
Qed.

(** The flags of the loop say what the types so far hold. *)
Record parse_inv (req0 opt0 : nat) (st : parse_state) : Prop := {
  pi_opt : optional st = existsb (has_bit OPTIONAL) (map arg_Type (parsed st));
  pi_var : variadic st = existsb (has_bit VARIADIC) (map arg_Type (parsed st));
  pi_some : chanArg st || (required st || optional st || variadic st)
            = bool_decide (parsed st <> []);
  pi_req : n_req st = req0 + length (List.filter (has_bit REQUIRED) (map arg_Type (parsed st)));
  pi_nopt : n_opt st = opt0 + length (List.filter (has_bit OPTIONAL) (map arg_Type (parsed st)));
}.

Lemma text_type_cases arg :
  text_modifier arg ∈ [CHANNEL; NICK; USER; 0%Z] /\ text_ending arg ∈ [OPTIONAL; VARIADIC; REQUIRED].
Proof. unfold text_modifier, text_ending. split; repeat case_decide; set_solver. Qed.

Lemma parse_modifier_text req0 opt0 st arg name :
  parse_inv req0 opt0 st ->
  match parse_modifier st arg name with
  | inl _ => text_modifier arg = CHANNEL /\ parsed st <> []
  | inr t => t = text_modifier arg /\ (t = CHANNEL -> parsed st = [])
  end.
Proof.
  intros Hi. pose proof (pi_some _ _ _ Hi) as Hs. unfold parse_modifier, text_modifier.
  destruct (decide (_ = "#"%char)).
  - destruct (chanArg st), (required st || optional st || variadic st); cbn in *;
      symmetry in Hs; first [apply bool_decide_eq_true in Hs|apply bool_decide_eq_false in Hs]; try done.
    split; [done|]. intros _. by apply dec_stable.
  - repeat case_decide; done.
Qed.

Lemma existsb_false_forall {A} (f : A -> bool) l : existsb f l = false <-> Forall (fun x => f x = false) l.
Proof.
  induction l as [|x l IH]; cbn; [by split; [constructor|]|].
  rewrite orb_false_iff, IH, Forall_cons. done.
Qed.

(** Whether an argument may come after all those parsed, from the flags. *)
Lemma may_follow_all T m e :
  m ∈ [CHANNEL; NICK; USER; 0%Z] -> e ∈ [OPTIONAL; VARIADIC; REQUIRED] ->
  Forall (fun a => may_follow a (Z.lor m e) = true) T <->
  (m = CHANNEL -> T = []) /\
  (e = REQUIRED -> existsb (has_bit OPTIONAL) T = false) /\
  (e <> REQUIRED -> existsb (has_bit VARIADIC) T = false).
Proof.
  intros Hm He. rewrite !elem_of_cons in Hm, He. rewrite list_elem_of_singleton in Hm.
  assert (Hb : has_bit CHANNEL (Z.lor m e) = bool_decide (m = CHANNEL) /\
    has_bit REQUIRED (Z.lor m e) = bool_decide (e = REQUIRED) /\
    has_bit OPTIONAL (Z.lor m e) || has_bit VARIADIC (Z.lor m e) = bool_decide (e <> REQUIRED)).
  { destruct Hm as [->|[->|[->| ->]]], He as [->|[->|[->|He]]];
      first [by apply not_elem_of_nil in He|by vm_compute]. }
  destruct Hb as (B1 & B2 & B3). unfold may_follow. rewrite B1, B2, B3.
  rewrite !existsb_false_forall. induction T as [|a T IH]; [by split|].
  rewrite Forall_cons, IH, !Forall_cons.
  rewrite bool_decide_not.
  destruct (bool_decide_reflect (m = CHANNEL)), (bool_decide_reflect (e = REQUIRED)),
    (has_bit OPTIONAL a), (has_bit VARIADIC a); cbn; naive_solver.
Qed.

Lemma ending_bits m e :
  m ∈ [CHANNEL; NICK; USER; 0%Z] -> e ∈ [OPTIONAL; VARIADIC; REQUIRED] ->
  has_bit OPTIONAL (Z.lor m e) = bool_decide (e = OPTIONAL) /\
  has_bit VARIADIC (Z.lor m e) = bool_decide (e = VARIADIC) /\
  has_bit REQUIRED (Z.lor m e) = bool_decide (e = REQUIRED).
Proof.
  intros Hm He. rewrite !elem_of_cons in Hm, He. rewrite list_elem_of_singleton in Hm.
  destruct Hm as [->|[->|[->| ->]]], He as [->|[->|[->|He]]];
    first [by apply not_elem_of_nil in He|by vm_compute].
Qed.

(** Storing an argument of type [Z.lor t e] keeps the invariant, when the
    flags are raised as the ending says. *)
Lemma parse_inv_store req0 opt0 st arg name t e st' :
  parse_inv req0 opt0 st -> t ∈ [CHANNEL; NICK; USER; 0%Z] -> e ∈ [OPTIONAL; VARIADIC; REQUIRED] ->
  parsed st' = parsed st ++ [{| Original := arg; arg_Name := name; arg_Type := Z.lor t e |}] ->
  optional st' = optional st || bool_decide (e = OPTIONAL) ->
  variadic st' = variadic st || bool_decide (e = VARIADIC) ->
  required st' || optional st' || variadic st' = true ->
  n_req st' = (if decide (e = REQUIRED) then S (n_req st) else n_req st) ->
  n_opt st' = (if decide (e = OPTIONAL) then S (n_opt st) else n_opt st) ->
  parse_inv req0 opt0 st'.
Proof.
  intros [I1 I2 I3 I4 I5] Ht He Hp Ho Hv Hs Hr Hn. destruct (ending_bits t e Ht He) as (B1 & B2 & B3).
  split; rewrite Hp, ?map_app; cbn [map arg_Type].
  - rewrite existsb_app, Ho, I1. cbn. by rewrite B1, orb_false_r.
  - rewrite existsb_app, Hv, I2. cbn. by rewrite B2, orb_false_r.
  - rewrite Hs, orb_true_r. symmetry. apply bool_decide_eq_true. by destruct (parsed st).
  - rewrite Hr, I4, List.filter_app, length_app. cbn. rewrite B3.
    destruct (decide (e = REQUIRED)) as [E|E];
      [rewrite ?(bool_decide_true _ E)|rewrite ?(bool_decide_false _ E)]; cbn; lia.
  - rewrite Hn, I5, List.filter_app, length_app. cbn. rewrite B1.
    destruct (decide (e = OPTIONAL)) as [E|E];
      [rewrite ?(bool_decide_true _ E)|rewrite ?(bool_decide_false _ E)]; cbn; lia.
Qed.

Lemma parse_ending_text req0 opt0 st arg name t :
  parse_inv req0 opt0 st -> t = text_modifier arg -> (t = CHANNEL -> parsed st = []) ->
  let T := map arg_Type (parsed st) in
  match parse_ending st arg name t with
  | inl _ => ~ Forall (fun a => may_follow a (Z.lor t (text_ending arg)) = true) T
  | inr st' => Forall (fun a => may_follow a (Z.lor t (text_ending arg)) = true) T /\
      parsed st' = parsed st ++ [{| Original := arg; arg_Name := name;
                                    arg_Type := Z.lor t (text_ending arg) |}] /\
      parse_inv req0 opt0 st'
  end.
Proof.
  intros Hi -> Hc. cbn zeta. destruct (text_type_cases arg) as [Hm He].
  pose proof (may_follow_all (map arg_Type (parsed st)) _ _ Hm He) as Hall.
  rewrite <- (pi_opt _ _ _ Hi), <- (pi_var _ _ _ Hi) in Hall.
  assert (text_modifier arg = CHANNEL -> map arg_Type (parsed st) = []) as Hc'
    by (intros E; by rewrite (Hc E)).
  unfold parse_ending, text_ending in *. cbn zeta.
  destruct (decide (last arg = Some "]"%char)); [|destruct (decide (last arg = Some "."%char))].
  - destruct (variadic st) eqn:Ev; [naive_solver|]. split; [by apply Hall|]. split; [done|].
    eapply (parse_inv_store _ _ st arg name _ OPTIONAL); cbn; try done;
      rewrite ?Ev, ?orb_true_r, ?orb_false_r; done.
  - destruct (variadic st) eqn:Ev; [naive_solver|]. split; [by apply Hall|]. split; [done|].
    eapply (parse_inv_store _ _ st arg name _ VARIADIC); cbn; try done;
      rewrite ?Ev, ?orb_true_r, ?orb_false_r; done.
  - destruct (optional st) eqn:Eo; [naive_solver|]. split; [by apply Hall|]. split; [done|].
    eapply (parse_inv_store _ _ st arg name _ REQUIRED); cbn; try done;
      rewrite ?Eo, ?orb_true_r, ?orb_false_r; done.
Qed.

Lemma parse_arg_text req0 opt0 st g :
  parse_inv req0 opt0 st ->
  let fits := MatchString rgxArgs (ToLower g) = true /\ arg_Name (text_argument g) ∉ map arg_Name (parsed st) /\
     Forall (fun a => may_follow a (arg_Type (text_argument g)) = true) (map arg_Type (parsed st)) in
  match parse_arg st g with
  | inl _ => ~ fits
  | inr st' => fits /\ parsed st' = parsed st ++ [text_argument g] /\ parse_inv req0 opt0 st'
  end.
Proof.
  intros Hi. cbn zeta. unfold parse_arg. cbn zeta.
  destruct (MatchString rgxArgs (ToLower g)); cbn [negb]; [|naive_solver].
  case_decide as Hn; [naive_solver|].
  pose proof (parse_modifier_text _ _ _ (ToLower g) (Trim g argStripChars) Hi) as Hm.
  destruct (parse_modifier _ _ _) as [e|t].
  - destruct Hm as [Hm Hp]. intros (_ & _ & Hf). destruct (text_type_cases (ToLower g)) as [H1 H2].
    cbn in Hf. apply (may_follow_all _ _ _ H1 H2) in Hf as (Hf & _). specialize (Hf Hm).
    by destruct (parsed st).
  - destruct Hm as [-> Hp].
    pose proof (parse_ending_text _ _ _ (ToLower g) (Trim g argStripChars) _ Hi eq_refl Hp) as He.
    destruct (parse_ending _ _ _ _) as [e|st'].
    + intros (_ & _ & Hf). by apply He.
    + destruct He as (H1 & H2 & H3). done.
Qed.

Lemma parse_loop_text req0 opt0 given st :
  parse_inv req0 opt0 st -> NoDup (map arg_Name (parsed st)) ->
  ForallOrdPairs (fun a b => may_follow a b = true) (map arg_Type (parsed st)) ->
  let all := parsed st ++ map text_argument given in
  let ok := Forall (fun g => MatchString rgxArgs (ToLower g) = true) given /\ NoDup (map arg_Name all) /\
            ForallOrdPairs (fun a b => may_follow a b = true) (map arg_Type all) in
  match parse_loop st given with
  | (None, st') => ok /\ parsed st' = all /\ parse_inv req0 opt0 st'
  | (Some _, _) => ~ ok
  end.
Proof.
  revert st. induction given as [|g given IH]; intros st Hi Hn Hf; cbn zeta; cbn [map parse_loop].
  { rewrite app_nil_r. split; [|done]. by split; [constructor|]. }
  pose proof (parse_arg_text _ _ _ g Hi) as Hg. cbn zeta in Hg.
  replace (parsed st ++ text_argument g :: map text_argument given)
    with ((parsed st ++ [text_argument g]) ++ map text_argument given) by by rewrite <- app_assoc.
  destruct (parse_arg st g) as [e|st1].
  - intros (H1 & H2 & H3). apply Hg. apply Forall_cons in H1 as [H1 _].
    rewrite !map_app in H2, H3. apply FOP_app_l, FOP_snoc in H3 as [_ H3].
    apply NoDup_app in H2 as (H2 & _). apply NoDup_app in H2 as (_ & H2 & _).
    split; [done|]. split; [|done]. intros H. apply (H2 _ H). cbn. left.
  - destruct Hg as ((G1 & G2 & G3) & Hp & Hi1).
    specialize (IH st1 Hi1). rewrite Hp in IH. cbn zeta in IH.
    assert (NoDup (map arg_Name (parsed st ++ [text_argument g]))) as N1.
    { rewrite map_app. apply NoDup_app. split; [done|]. split; [|apply NoDup_singleton].
      intros x Hx ->%list_elem_of_singleton. done. }
    assert (ForallOrdPairs (fun a b => may_follow a b = true)
              (map arg_Type (parsed st ++ [text_argument g]))) as F1.
    { rewrite map_app. by apply FOP_snoc. }
    specialize (IH N1 F1). destruct (parse_loop st1 given) as [[e|] st']; rewrite Forall_cons; tauto.
Qed.

(** What parsing does, in terms of the texts. *)
Lemma parseArgs_texts c :
  let '(err, c') := parseArgs c in
  (err = None <-> args_ok c.(cmd_Args)) /\
  (err = None -> c.(cmd_Args) <> [] ->
     c'.(args) = map text_argument c.(cmd_Args) /\
     c'.(reqArgs) = c.(reqArgs) + length (List.filter (has_bit REQUIRED) (map arg_Type c'.(args))) /\
     c'.(optArgs) = c.(optArgs) + length (List.filter (has_bit OPTIONAL) (map arg_Type c'.(args)))).
Proof.
  unfold parseArgs, args_ok. destruct (cmd_Args c) as [|g0 given0] eqn:Eg.
  { split; [|done]. split; [|done]. intros _. by repeat constructor. }
  rewrite <- Eg. set (given := cmd_Args c) in *.
  assert (parse_inv (reqArgs c) (optArgs c) (parse_start c)) as Hi by (split; cbn; by rewrite ?Nat.add_0_r).
  pose proof (parse_loop_text _ _ given _ Hi (NoDup_nil_2) ltac:(constructor)) as H. cbn zeta in H.
  cbn [parse_start parsed app] in H. rewrite !map_map in H. cbn in H.
  destruct (parse_loop (parse_start c) given) as [[[e a]|] st]; cbn [fmap option_fmap option_map fst].
  - split; [|done]. split; [done|]. intros Hok. by destruct H.
  - destruct H as (Hok & Hp & [_ _ _ Hr Ho]). split; [by split|]. intros _ _.
    rewrite app_nil_r, Hp, length_map, Nat.sub_diag, app_nil_r. cbn. by rewrite Hr, Ho, Hp.
Qed.

(** C36. A command's arguments are accepted exactly when each has one of the
    documented forms, their names differ, the channel comes first, nothing
    required comes after an optional argument and nothing optional or variadic
    after a variadic one; the parsed arguments are then those of the texts, in
    order, and the counters grow by the numbers of required and optional ones. *)
Theorem parseArgs_grammar c :
  let '(err, c') := parseArgs c in
  (err = None <-> args_ok c.(cmd_Args)) /\
  (err = None -> c.(cmd_Args) <> [] ->
     c'.(args) = map text_argument c.(cmd_Args) /\
     c'.(reqArgs) = c.(reqArgs) + length (List.filter (has_bit REQUIRED) (map arg_Type c'.(args))) /\
     c'.(optArgs) = c.(optArgs) + length (List.filter (has_bit OPTIONAL) (map arg_Type c'.(args)))).
Proof. exact (parseArgs_texts c). Qed.

(** A required argument is accepted after a variadic one, though the message
    for the error says it must not be. *)
Theorem required_after_varargs c :
  c.(cmd_Args) = [bs "rest..."; bs "name"] -> (parseArgs c).1 = None.
Proof. intros H. unfold parseArgs. rewrite H. by vm_compute. Qed.

(** Parsing again counts the arguments again. *)
Theorem parseArgs_again c :
  c.(cmd_Args) = [bs "name"] -> (parseArgs (parseArgs c).2).2.(reqArgs) = c.(reqArgs) + 2.
Proof.
  destruct c. cbn. intros ->. rewrite Nat.add_comm. by vm_compute.
Qed.
End parse.
