(* ===== verification/Cmds.v ===== *)
(** * Package cmd: registration and dispatch of commands
    (dispatch/cmd/cmds.go, dispatch/cmd/event.go)

    Commands live in a heap, since the registry of the whole bot and the table
    of one dispatcher share them by pointer.  The network's state and the
    store are those of package data and either can be missing; looking a user
    up can change the store's cache, so the store is threaded through.  Which
    method of a handler a command is given to is decided by reflection over
    the handler's type, which is the parameter [has_method]. *)

From S2P Require Import Prelude GoStrings Hosts Fmt NetworkInfo Event DispatchCore Cmd.
From S2P Require Import UserModes Access StoredUser State Store.

(** dispatch/cmd/cmds.go:27-27 [GLOBAL] *)
Definition GLOBAL : bytes := bs "GLOBAL".
(** dispatch/cmd/cmds.go:30-30 [PRIVMSG] *)
Definition CMD_PRIVMSG : Z := 1.
(** dispatch/cmd/cmds.go:32-32 [NOTICE] *)
Definition CMD_NOTICE : Z := 2.
(** dispatch/cmd/cmds.go:34-34 [PRIVATE] *)
Definition PRIVATE : Z := 1.
(** dispatch/cmd/cmds.go:36-36 [PUBLIC] *)
Definition PUBLIC : Z := 2.
(** dispatch/cmd/cmds.go:41-41 [ALL] *)
Definition ALL : Z := 3.

(** dispatch/cmd/cmds.go:46-46 [errFmtInternal] *)
Definition errFmtInternal : bytes := bs "cmd: Internal Error Occurred: %v".
(** dispatch/cmd/cmds.go:47-48 [errFmtDuplicateCmd] *)
Definition errFmtDuplicateCmd : bytes := bs "cmd: Duplicate command registration attempted (%v)".
(** dispatch/cmd/cmds.go:49-49 [errMsgCmdRequired] *)
Definition errMsgCmdRequired : bytes := bs "cmd: Cmd name cannot be empty.".
(** dispatch/cmd/cmds.go:50-50 [errMsgExtRequired] *)
Definition errMsgExtRequired : bytes := bs "cmd: Extension name cannot be empty.".
(** dispatch/cmd/cmds.go:51-51 [errMsgDescRequired] *)
Definition errMsgDescRequired : bytes := bs "cmd: Description cannot be empty.".
(** dispatch/cmd/cmds.go:52-52 [errMsgHandlerRequired] *)
Definition errMsgHandlerRequired : bytes := bs "cmd: Handler required for command registration.".
(** dispatch/cmd/cmds.go:54-55 [errMsgStoreDisabled] *)
Definition errMsgStoreDisabled : bytes :=
  bs "Access Denied: Cannot use authenticated commands, nick or user parameters when store is disabled.".
(** dispatch/cmd/cmds.go:56-57 [errMsgStateDisabled] *)
Definition errMsgStateDisabled : bytes :=
  bs "Error: Cannot use nick or user parameter commands when state is disabled.".
(** dispatch/cmd/cmds.go:58-60 [errMsgNotAuthed] *)
Definition errMsgNotAuthed : bytes :=
  bs "Access Denied: You are not authenticated. To authenticate message me: auth <password>. To create an account message me: register <password>.".
(** dispatch/cmd/cmds.go:61-61 [errFmtInsuffLevel] *)
Definition errFmtInsuffLevel : bytes := bs "Access Denied: (%v) level required.".
(** dispatch/cmd/cmds.go:62-62 [errFmtInsuffGlobalLevel] *)
Definition errFmtInsuffGlobalLevel : bytes := bs "Access Denied: (%v) global level required.".
(** dispatch/cmd/cmds.go:63-63 [errFmtInsuffServerLevel] *)
Definition errFmtInsuffServerLevel : bytes := bs "Access Denied: (%v) server level required.".
(** dispatch/cmd/cmds.go:64-64 [errFmtInsuffChannelLevel] *)
Definition errFmtInsuffChannelLevel : bytes := bs "Access Denied: (%v) channel level required.".
(** dispatch/cmd/cmds.go:65-65 [errFmtInsuffFlags] *)
Definition errFmtInsuffFlags : bytes := bs "Access Denied: (%v) flag(s) required.".
(** dispatch/cmd/cmds.go:66-66 [errFmtInsuffGlobalFlags] *)
Definition errFmtInsuffGlobalFlags : bytes := bs "Access Denied: (%v) global flag(s) required.".
(** dispatch/cmd/cmds.go:67-67 [errFmtInsuffServerFlags] *)
Definition errFmtInsuffServerFlags : bytes := bs "Access Denied: (%v) server flag(s) required.".
(** dispatch/cmd/cmds.go:68-68 [errFmtInsuffChannelFlags] *)
Definition errFmtInsuffChannelFlags : bytes := bs "Access Denied: (%v) channel flag(s) required.".
(** dispatch/cmd/cmds.go:70-70 [errFmtUserNotRegistered] *)
Definition errFmtUserNotRegistered : bytes := bs "Error: User [%v] is not registered.".
(** dispatch/cmd/cmds.go:71-71 [errFmtUserNotAuthed] *)
Definition errFmtUserNotAuthed : bytes := bs "Error: User [%v] is not authenticated.".
(** dispatch/cmd/cmds.go:72-72 [errFmtUserNotFound] *)
Definition errFmtUserNotFound : bytes := bs "Error: User [%v] could not be found.".
(** dispatch/cmd/cmds.go:73-73 [errMsgMissingUsername] *)
Definition errMsgMissingUsername : bytes := bs "Error: Username must follow *, found nothing.".
(** dispatch/cmd/cmds.go:74-74 [errMsgUnexpectedArgument] *)
Definition errMsgUnexpectedArgument : bytes := bs "Error: No arguments expected.".
(** dispatch/cmd/cmds.go:75-75 [errFmtNArguments] *)
Definition errFmtNArguments : bytes := bs "Error: Expected %v %v arguments. (%v)".
(** dispatch/cmd/cmds.go:76-76 [errFmtArgumentNotChannel] *)
Definition errFmtArgumentNotChannel : bytes := bs "Error: Expected a valid channel. (given: %v)".
(** dispatch/cmd/cmds.go:77-77 [errAtLeast] *)
Definition errAtLeast : bytes := bs "at least".
(** dispatch/cmd/cmds.go:79-79 [errAtMost] *)
Definition errAtMost : bytes := bs "at most".

Definition uint8_value (z : Z) : value := VInt (bs "uint8") z.
Definition int_value (n : Z) : value := VInt (bs "int") n.

(** dispatch/cmd/cmds.go [MakeLevelError] *)
Definition MakeLevelError (l : Z) : bytes := Sprintf errFmtInsuffLevel [uint8_value l].
(** dispatch/cmd/cmds.go [MakeGlobalLevelError] *)
Definition MakeGlobalLevelError (l : Z) : bytes := Sprintf errFmtInsuffGlobalLevel [uint8_value l].
(** dispatch/cmd/cmds.go [MakeServerLevelError] *)
Definition MakeServerLevelError (l : Z) : bytes := Sprintf errFmtInsuffServerLevel [uint8_value l].
(** dispatch/cmd/cmds.go [MakeChannelLevelError] *)
Definition MakeChannelLevelError (l : Z) : bytes := Sprintf errFmtInsuffChannelLevel [uint8_value l].
(** dispatch/cmd/cmds.go [MakeFlagsError] *)
Definition MakeFlagsError (f : bytes) : bytes := Sprintf errFmtInsuffFlags [VString f].
(** dispatch/cmd/cmds.go [MakeGlobalFlagsError] *)
Definition MakeGlobalFlagsError (f : bytes) : bytes := Sprintf errFmtInsuffGlobalFlags [VString f].
(** dispatch/cmd/cmds.go [MakeServerFlagsError] *)
Definition MakeServerFlagsError (f : bytes) : bytes := Sprintf errFmtInsuffServerFlags [VString f].
(** dispatch/cmd/cmds.go [MakeChannelFlagsError] *)
Definition MakeChannelFlagsError (f : bytes) : bytes := Sprintf errFmtInsuffChannelFlags [VString f].
(** dispatch/cmd/cmds.go [MakeUserNotAuthedError] *)
Definition MakeUserNotAuthedError (u : bytes) : bytes := Sprintf errFmtUserNotAuthed [VString u].
(** dispatch/cmd/cmds.go [MakeUserNotFoundError] *)
Definition MakeUserNotFoundError (u : bytes) : bytes := Sprintf errFmtUserNotFound [VString u].
(** dispatch/cmd/cmds.go [MakeUserNotRegisteredError] *)
Definition MakeUserNotRegisteredError (u : bytes) : bytes := Sprintf errFmtUserNotRegistered [VString u].

(** ** Registration *)

(** dispatch/cmd/cmds.go [Cmds] *)
Record Cmds := { core : DispatchCore; prefix : Z; commands : gmap bytes nat }.

(** dispatch/cmd/cmds.go:97-103 [globalCmdRegistry]: the registry of the bot,
    with the heap of commands *)
Record Registry := { cmd_heap : gmap nat Cmd; globalCmdRegistry : gmap bytes nat }.

(** dispatch/cmd/cmds.go [NewCmds] *)
Definition NewCmds (pre : Z) (c : DispatchCore) : Cmds :=
  {| core := c; prefix := pre; commands := ∅ |}.

(** dispatch/cmd/cmds.go [Cmds.GetPrefix] *)
Definition GetPrefix (c : Cmds) : Z := c.(prefix).

(** dispatch/cmd/cmds.go [makeIdentifier] *)
Definition makeIdentifier (server cmd : bytes) : bytes := server ++ bs ":" ++ cmd.

(** dispatch/cmd/cmds.go:111-115 [EachCmd]: the loop *)
Fixpoint each_cmd (fn : nat -> bool) (cmds : list nat) : list nat :=
  match cmds with
  | [] => []
  | c :: cmds => if fn c then [c] else c :: each_cmd fn cmds
  end.

(** dispatch/cmd/cmds.go [EachCmd]: the commands the callback is given, which
    stops the iteration by returning [true] *)
Definition EachCmd {RO : RangeOrder bytes} (g : Registry) (fn : nat -> bool) : list nat :=
  each_cmd fn (map snd (range g.(globalCmdRegistry))).

Section Cmds.
Context {CT : CaseTables}.

Definition dup_error (name : bytes) : bytes := Sprintf errFmtDuplicateCmd [VString name].

(** dispatch/cmd/cmds.go:182-191 [Cmds.Register]: the switch on the fields
    that are required *)
Definition missing_field (cmd : Cmd) : option bytes :=
  if decide (cmd.(cmd_Cmd) = []) then Some errMsgCmdRequired else
  if decide (cmd.(Extension) = []) then Some errMsgExtRequired else
  if decide (cmd.(Description) = []) then Some errMsgDescRequired else
  if decide (cmd.(cmd_Handler) = None) then Some errMsgHandlerRequired else None.

(** dispatch/cmd/cmds.go [Cmds.Register]: the error, if any; parsing changes
    the command in the heap even when it fails. *)
Definition Register (c : Cmds) (g : Registry) (server : bytes) (p : nat)
    : go (option bytes * Cmds * Registry) :=
  cmd ← deref (g.(cmd_heap) !! p);
  let regName := makeIdentifier server cmd.(cmd_Cmd) in
  let globalRegName := makeIdentifier GLOBAL cmd.(cmd_Cmd) in
  let hasServer := bool_decide (is_Some (g.(globalCmdRegistry) !! regName)) in
  let hasGlobal := bool_decide (is_Some (g.(globalCmdRegistry) !! globalRegName)) in
  if hasServer then Ret (Some (dup_error regName), c, g) else
  if hasGlobal then Ret (Some (dup_error globalRegName), c, g) else
  match missing_field cmd with
  | Some err => Ret (Some err, c, g)
  | None =>
    let '(err, cmd') := parseArgs cmd in
    let heap := <[p := cmd']> g.(cmd_heap) in
    match err with
    | Some err => Ret (Some err, c, {| cmd_heap := heap; globalCmdRegistry := g.(globalCmdRegistry) |})
    | None =>
      Ret (None,
           {| core := c.(core); prefix := c.(prefix); commands := <[cmd.(cmd_Cmd) := p]> c.(commands) |},
           {| cmd_heap := heap; globalCmdRegistry := <[regName := p]> g.(globalCmdRegistry) |})
    end
  end.

(** dispatch/cmd/cmds.go [Cmds.Unregister] *)
Definition Unregister (c : Cmds) (g : Registry) (server cmd : bytes) : bool * Cmds * Registry :=
  let globalCmd := makeIdentifier server cmd in
  (bool_decide (is_Some (g.(globalCmdRegistry) !! globalCmd))
     || bool_decide (is_Some (c.(commands) !! cmd)),
   {| core := c.(core); prefix := c.(prefix); commands := delete cmd c.(commands) |},
   {| cmd_heap := g.(cmd_heap); globalCmdRegistry := delete globalCmd g.(globalCmdRegistry) |}).
End Cmds.

(** ** The event a command is given *)

(** dispatch/cmd/event.go [Event]: what the commander fills in.  The maps are
    made when they are first needed, and a nil one and an empty one read the
    same. *)
Record CmdEvent := {
  ce_args : gmap bytes bytes;
  ce_User : ptr;
  ce_StoredUser : ptr;
  ce_UserChannelModes : ptr;
  ce_Channel : ptr;
  ce_TargetChannel : ptr;
  ce_TargetUsers : gmap bytes nat;
  ce_TargetStoredUser : gmap bytes nat;
  ce_TargetVarUsers : list ptr;
  ce_TargetVarStoredUser : list ptr;
}.

Definition new_event : CmdEvent := {| ce_args := ∅; ce_User := None; ce_StoredUser := None;
  ce_UserChannelModes := None; ce_Channel := None; ce_TargetChannel := None;
  ce_TargetUsers := ∅; ce_TargetStoredUser := ∅; ce_TargetVarUsers := [];
  ce_TargetVarStoredUser := [] |}.

Definition set_arg (ev : CmdEvent) (name v : bytes) : CmdEvent := {|
  ce_args := <[name := v]> ev.(ce_args); ce_User := ev.(ce_User); ce_StoredUser := ev.(ce_StoredUser);
  ce_UserChannelModes := ev.(ce_UserChannelModes); ce_Channel := ev.(ce_Channel);
  ce_TargetChannel := ev.(ce_TargetChannel); ce_TargetUsers := ev.(ce_TargetUsers);
  ce_TargetStoredUser := ev.(ce_TargetStoredUser); ce_TargetVarUsers := ev.(ce_TargetVarUsers);
  ce_TargetVarStoredUser := ev.(ce_TargetVarStoredUser) |}.
Definition set_target_channel (ev : CmdEvent) (ch target : ptr) : CmdEvent := {|
  ce_args := ev.(ce_args); ce_User := ev.(ce_User); ce_StoredUser := ev.(ce_StoredUser);
  ce_UserChannelModes := ev.(ce_UserChannelModes); ce_Channel := ch;
  ce_TargetChannel := target; ce_TargetUsers := ev.(ce_TargetUsers);
  ce_TargetStoredUser := ev.(ce_TargetStoredUser); ce_TargetVarUsers := ev.(ce_TargetVarUsers);
  ce_TargetVarStoredUser := ev.(ce_TargetVarStoredUser) |}.
Definition set_targets (ev : CmdEvent) (us sus : gmap bytes nat) (vus vsus : list ptr) : CmdEvent := {|
  ce_args := ev.(ce_args); ce_User := ev.(ce_User); ce_StoredUser := ev.(ce_StoredUser);
  ce_UserChannelModes := ev.(ce_UserChannelModes); ce_Channel := ev.(ce_Channel);
  ce_TargetChannel := ev.(ce_TargetChannel); ce_TargetUsers := us;
  ce_TargetStoredUser := sus; ce_TargetVarUsers := vus; ce_TargetVarStoredUser := vsus |}.
Definition set_sender (ev : CmdEvent) (u su m ch : ptr) : CmdEvent := {|
  ce_args := ev.(ce_args); ce_User := u; ce_StoredUser := su; ce_UserChannelModes := m;
  ce_Channel := ch; ce_TargetChannel := ev.(ce_TargetChannel);
  ce_TargetUsers := ev.(ce_TargetUsers); ce_TargetStoredUser := ev.(ce_TargetStoredUser);
  ce_TargetVarUsers := ev.(ce_TargetVarUsers);
  ce_TargetVarStoredUser := ev.(ce_TargetVarStoredUser) |}.

(** dispatch/cmd/event.go [Event.GetArg] *)
Definition GetArg (ev : CmdEvent) (arg : bytes) : bytes := default [] (ev.(ce_args) !! arg).

(** dispatch/cmd/event.go [Event.SplitArg] *)
Definition SplitArg (ev : CmdEvent) (arg : bytes) : list bytes :=
  match ev.(ce_args) !! arg with
  | Some (c :: str) => Fields (c :: str)
  | _ => []
  end.

(** The state of the network and the store, when they are enabled. *)
Section Lookup.
Context {CT : CaseTables} {BC : Bcrypt} {K : KV} {G : Gob}.
Context (state : option State.State).

(** dispatch/cmd/event.go [Event.FindUserByNick] *)
Definition FindUserByNick (nick : bytes) : bytes + nat :=
  match state with
  | None => inl errMsgStateDisabled
  | Some st =>
    match State.GetUser st nick with
    | None => inl (Sprintf errFmtUserNotFound [VString nick])
    | Some user => inr user
    end
  end.

(** dispatch/cmd/event.go [Event.FindAccessByUser]: the stored user, the user
    and the error, and the store *)
Definition FindAccessByUser (store : option Store.Store) (server nickOrUser : bytes)
    : go ((ptr * ptr * option bytes) * option Store.Store) :=
  match store with
  | None => Ret ((None, None, Some errMsgStoreDisabled), store)
  | Some s =>
    c ← index nickOrUser 0;
    if decide (c = "*"%char) then
      if decide (length nickOrUser = 1) then Ret ((None, None, Some errMsgMissingUsername), store) else
      let uname := drop 1 nickOrUser in
      let '((access, err), s) := Store.FindUser s uname in
      Ret (match access, err with
           | None, _ => (None, None, Some (Sprintf errFmtUserNotRegistered [VString uname]))
           | Some _, Some e => (access, None, Some (Sprintf errFmtInternal [VOther (bs "error") e]))
           | Some _, None => (access, None, None)
           end, Some s)
    else
      match state with
      | None => Ret ((None, None, Some errMsgStateDisabled), store)
      | Some st =>
        match State.GetUser st nickOrUser with
        | None => Ret ((None, None, Some (Sprintf errFmtUserNotFound [VString nickOrUser])), store)
        | Some l =>
          u ← deref (st.(uheap) !! l);
          Ret (match Store.GetAuthedUser s server (Host u) with
               | None => (None, Some l, Some (Sprintf errFmtUserNotAuthed [VString nickOrUser]))
               | Some a => (Some a, Some l, None)
               end, store)
        end
      end
  end.

(** dispatch/cmd/cmds.go:535-550 [Cmds.parseUserArg]: the closure [addData] *)
Definition addData (vargs : bool) (name : bytes) (index : nat) (access user : ptr) (ev : CmdEvent)
    : CmdEvent :=
  set_targets ev
    (match user with Some u => if vargs then ev.(ce_TargetUsers) else <[name := u]> ev.(ce_TargetUsers)
     | None => ev.(ce_TargetUsers) end)
    (match access with Some a => if vargs then ev.(ce_TargetStoredUser)
                                 else <[name := a]> ev.(ce_TargetStoredUser)
     | None => ev.(ce_TargetStoredUser) end)
    (match user with Some u => if vargs then <[index := Some u]> ev.(ce_TargetVarUsers)
                               else ev.(ce_TargetVarUsers)
     | None => ev.(ce_TargetVarUsers) end)
    (match access with Some a => if vargs then <[index := Some a]> ev.(ce_TargetVarStoredUser)
                                 else ev.(ce_TargetVarStoredUser)
     | None => ev.(ce_TargetVarStoredUser) end).

(** What [filterArgs] and its helpers return: the error, if any, the event and
    the store. *)
Definition filtered : Type := option bytes * CmdEvent * option Store.Store.

(** dispatch/cmd/cmds.go:569-575 [Cmds.parseUserArg]: the loop over users *)
Fixpoint user_loop (store : option Store.Store) (vargs : bool) (srv name : bytes) (i : nat)
    (users : list bytes) (ev : CmdEvent) : go filtered :=
  match users with
  | [] => Ret (None, ev, store)
  | u :: users =>
    '((access, user, err), store) ← FindAccessByUser store srv u;
    match err with
    | Some e => Ret (Some e, ev, store)
    | None => user_loop store vargs srv name (S i) users (addData vargs name i access user ev)
    end
  end.

(** dispatch/cmd/cmds.go:577-583 [Cmds.parseUserArg]: the loop over nicks *)
Fixpoint nick_loop (vargs : bool) (name : bytes) (i : nat) (users : list bytes) (ev : CmdEvent)
    : option bytes * CmdEvent :=
  match users with
  | [] => (None, ev)
  | u :: users =>
    match FindUserByNick u with
    | inl e => (Some e, ev)
    | inr user => nick_loop vargs name (S i) users (addData vargs name i None (Some user) ev)
    end
  end.

(** dispatch/cmd/cmds.go [Cmds.parseUserArg] *)
Definition parseUserArg (ev : CmdEvent) (store : option Store.Store) (srv name : bytes) (t : Z)
    (users : list bytes) : go filtered :=
  let vargs := has_bit VARIADIC t in
  let nils := replicate (length users) None in
  let ev := set_targets ev ev.(ce_TargetUsers) ev.(ce_TargetStoredUser)
              (if vargs then nils else ev.(ce_TargetVarUsers)) ev.(ce_TargetVarStoredUser) in
  let kind := Z.land t USERMASK in
  if decide (kind = USER) then
    let ev := set_targets ev ev.(ce_TargetUsers) ev.(ce_TargetStoredUser) ev.(ce_TargetVarUsers)
                (if vargs then nils else ev.(ce_TargetVarStoredUser)) in
    user_loop store vargs srv name 0 users ev
  else if decide (kind = NICK) then
    let '(err, ev) := nick_loop vargs name 0 users ev in Ret (err, ev, store)
  else Ret (None, ev, store).

(** [ev.Event.NetworkInfo.IsChannel(target)]: a nil pointer panics unless the
    target is empty. *)
Definition event_is_channel (ircev : Event) (target : bytes) : go bool :=
  match target, ircev.(NetInfo) with
  | [], _ => Ret false
  | _, Some ni => Ret (IsChannel ni target)
  | _, None => Panic
  end.

Definition narg_error (how : bytes) (n : Z) (command : Cmd) : bytes :=
  Sprintf errFmtNArguments [VString how; int_value n; VString (Join command.(cmd_Args) (bs " "))].

(** dispatch/cmd/cmds.go [Cmds.parseChanArg]: whether an argument was
    consumed, or the error.  The caller has checked that there is a state. *)
Definition parseChanArg (st : State.State) (command : Cmd) (ev : CmdEvent) (ircev : Event) (index_ : nat)
    (msgArgs : list bytes) (channel : bytes) (isChan : bool) : go ((bytes + bool) * CmdEvent) :=
  isFirstChan ← (match msgArgs !! index_ with
                 | Some a => Some <$> event_is_channel ircev a
                 | None => Ret (if isChan then Some false else None)
                 end);
  match isFirstChan with
  | None => Ret (inl (narg_error errAtLeast (Z.of_nat command.(reqArgs)) command), ev)
  | Some isFirstChan =>
    arg ← index command.(args) index_;
    let name := arg.(arg_Name) in
    if isChan && negb isFirstChan then
      let ch := State.GetChannel st channel in
      Ret (inr false, set_target_channel (set_arg ev name channel) ch ch)
    else
      given ← index msgArgs index_;
      if isFirstChan : bool then
        Ret (inr true, set_target_channel (set_arg ev name given) ev.(ce_Channel)
                         (State.GetChannel st given))
      else Ret (inl (Sprintf errFmtArgumentNotChannel [VString given]), ev)
  end.

(** ** Filters *)

(** dispatch/cmd/cmds.go [filterAccess]: the error or the stored user *)
Definition filterAccess (store : option Store.Store) (command : Cmd) (server channel : bytes)
    (ircev : Event) : go (bytes + nat) :=
  let hasLevel := bool_decide (command.(ReqLevel) <> 0%Z) in
  let hasFlags := bool_decide (command.(ReqFlags) <> []) in
  match store with
  | None => Ret (inl errMsgStoreDisabled)
  | Some s =>
    match Store.GetAuthedUser s server ircev.(Sender) with
    | None => Ret (inl errMsgNotAuthed)
    | Some l =>
      access ← deref (s.(suheap) !! l);
      Ret (if hasLevel && negb (StoredUser.HasLevel access server channel command.(ReqLevel))
           then inl (Sprintf errFmtInsuffLevel [uint8_value command.(ReqLevel)])
           else if hasFlags && negb (StoredUser.HasFlags access server channel [command.(ReqFlags)])
           then inl (Sprintf errFmtInsuffFlags [VString command.(ReqFlags)])
           else inr l)
    end
  end.

(** dispatch/cmd/cmds.go:477-485 [Cmds.filterArgs]: the check for arguments
    that are left *)
Definition leftover (command : Cmd) (msgArgs : list bytes) (j : nat) : option bytes :=
  if decide (j < length msgArgs) then
    if decide (j = 0) then Some errMsgUnexpectedArgument
    else Some (narg_error errAtMost (Z.of_nat (command.(reqArgs) + command.(optArgs))) command)
  else None.

(** dispatch/cmd/cmds.go:438-441 [Cmds.filterArgs]: the number of arguments
    that the message for a missing one asks for *)
Definition wanted (command : Cmd) (isChan : bool) : Z :=
  match command.(args) with
  | first :: _ => if has_bit CHANNEL first.(arg_Type) && isChan
                  then (Z.of_nat command.(reqArgs) - 1)%Z else Z.of_nat command.(reqArgs)
  | [] => Z.of_nat command.(reqArgs)
  end.

(** dispatch/cmd/cmds.go:424-456 [Cmds.filterArgs]: the switch.  Either the
    whole function returns, or the switch is left with the position [j], which
    a channel that took no argument has moved back. *)
Definition assign_arg (command : Cmd) (channel : bytes) (isChan : bool) (msgArgs : list bytes)
    (ircev : Event) (arg : argument) (j : nat) (ev : CmdEvent)
    : go ((option bytes + Z) * CmdEvent) :=
  let t := arg.(arg_Type) in
  if has_bit CHANNEL t then
    match state with
    | None => Ret (inl (Some errMsgStateDisabled), ev)
    | Some st =>
      '(r, ev) ← parseChanArg st command ev ircev j msgArgs channel isChan;
      Ret (match r with
           | inl err => inl (Some err)
           | inr consumed => inr (if consumed : bool then Z.of_nat j else (Z.of_nat j - 1)%Z)
           end, ev)
    end
  else if has_bit REQUIRED t then
    match msgArgs !! j with
    | None => Ret (inl (Some (narg_error errAtLeast (wanted command isChan) command)), ev)
    | Some a => Ret (inr (Z.of_nat j), set_arg ev arg.(arg_Name) a)
    end
  else if has_bit OPTIONAL t then
    match msgArgs !! j with
    | None => Ret (inl None, ev)
    | Some a => Ret (inr (Z.of_nat j), set_arg ev arg.(arg_Name) a)
    end
  else if has_bit VARIADIC t then
    if decide (length msgArgs <= j) then Ret (inl None, ev)
    else Ret (inr (Z.of_nat j), set_arg ev arg.(arg_Name) (Join (drop j msgArgs) (bs " ")))
  else Ret (inr (Z.of_nat j), ev).

(** dispatch/cmd/cmds.go:458-469 [Cmds.filterArgs]: the users an argument
    names *)
Definition target_users (server : bytes) (msgArgs : list bytes) (arg : argument) (j : Z)
    (ev : CmdEvent) (store : option Store.Store) : go filtered :=
  let t := arg.(arg_Type) in
  if has_bit NICK t || has_bit USER t then
    if decide (j < 0)%Z then Panic else
    if has_bit VARIADIC t then
      rest ← slice_from msgArgs (Z.to_nat j);
      parseUserArg ev store server arg.(arg_Name) t rest
    else
      a ← index msgArgs (Z.to_nat j);
      parseUserArg ev store server arg.(arg_Name) t [a]
  else Ret (None, ev, store).

(** dispatch/cmd/cmds.go:418-485 [Cmds.filterArgs]: the loop over the
    arguments of the command that are left, [j] being the next argument of the
    message, and what follows it *)
Fixpoint filter_loop (server : bytes) (command : Cmd) (channel : bytes) (isChan : bool)
    (msgArgs : list bytes) (ircev : Event) (l : list argument) (j : nat)
    (ev : CmdEvent) (store : option Store.Store) : go filtered :=
  match l with
  | [] => Ret (leftover command msgArgs j, ev, store)
  | arg :: l =>
    '(r, ev) ← assign_arg command channel isChan msgArgs ircev arg j ev;
    match r with
    | inl err => Ret (err, ev, store)
    | inr j =>
      '(err, ev, store) ← target_users server msgArgs arg j ev store;
      match err with
      | Some e => Ret (Some e, ev, store)
      | None =>
        if has_bit VARIADIC arg.(arg_Type) then Ret (leftover command msgArgs (length msgArgs), ev, store)
        else filter_loop server command channel isChan msgArgs ircev l (Z.to_nat (j + 1)) ev store
      end
    end
  end.

(** dispatch/cmd/cmds.go [Cmds.filterArgs] *)
Definition filterArgs (server : bytes) (command : Cmd) (channel : bytes) (isChan : bool)
    (msgArgs : list bytes) (ircev : Event) (ev : CmdEvent) (store : option Store.Store) : go filtered :=
  filter_loop server command channel isChan msgArgs ircev command.(args) 0 ev store.

(** ** Dispatch *)

(** How a handler is called: by the method named like the command, or by
    [Cmd] with the command's name. *)
Inductive cmd_call :=
  | CallMethod (name : bytes)
  | CallCmd (cmd : bytes).

(** What dispatching a message comes to: nothing, a notice with an error to the
    sender, or a goroutine that calls the handler. *)
Inductive outcome :=
  | Ignored
  | Refused (nick err : bytes)
  | Started (handler : nat) (how : cmd_call) (ev : CmdEvent).

(** Whether a handler's type has a method of this name with the arguments and
    the result of a command. *)
Context (has_method : nat -> bytes -> bool).

(** dispatch/cmd/cmds.go [cmdNameDispatch] *)
Definition cmdNameDispatch (handler : nat) (cmd : bytes) : option bytes :=
  let methodName := ToUpper (take 1 cmd) ++ drop 1 cmd in
  if has_method handler methodName then Some methodName else None.

(** dispatch/cmd/cmds.go:259-264 [Cmds.Dispatch]: whether a channel message
    starts with the prefix that is asked for *)
Definition has_prefix (c : Cmds) (overridePrefix : Z) (cmd : bytes) : go bool :=
  c0 ← index cmd 0;
  let firstChar := code c0 in
  let missingOverride := bool_decide (overridePrefix = 0%Z) || bool_decide (firstChar <> overridePrefix) in
  let missingPrefix := bool_decide (overridePrefix <> 0%Z) || bool_decide (firstChar <> c.(prefix)) in
  Ret (negb (missingOverride && missingPrefix)).

(** dispatch/cmd/cmds.go:275-342 [Cmds.Dispatch]: what follows the checks of
    the prefix *)
Definition run_command (c : Cmds) (g : Registry) (networkID : bytes) (ircev : Event)
    (store : option Store.Store) (msgtype msgscope : Z) (isChan : bool) (ch cmd : bytes)
    (args : list bytes) : go (outcome * option Store.Store) :=
  let nick := Nick ircev.(Sender) in
  match c.(commands) !! cmd with
  | None => Ret (Ignored, store)
  | Some p =>
    command ← deref (g.(cmd_heap) !! p);
    if decide (Z.land msgtype command.(Msgtype) = 0%Z \/ Z.land msgscope command.(Msgscope) = 0%Z)
    then Ret (Ignored, store) else
    access ← (if command.(RequireAuth) then
                r ← filterAccess store command networkID ch ircev;
                Ret (match r with inl e => inl e | inr l => inr (Some l) end)
              else Ret (inr None));
    match access with
    | inl err => Ret (Refused nick err, store)
    | inr su =>
      '(err, ev, store) ← filterArgs networkID command ch isChan args ircev
                            (set_sender new_event None su None None) store;
      match err with
      | Some err => Ret (Refused nick err, store)
      | None =>
        let ev :=
          match state with
          | None => ev
          | Some st =>
            let u := State.GetUser st ircev.(Sender) in
            if isChan then
              set_sender ev u ev.(ce_StoredUser) (State.GetUsersChannelModes st ircev.(Sender) ch)
                (match ev.(ce_Channel) with None => State.GetChannel st ch | Some l => Some l end)
            else set_sender ev u ev.(ce_StoredUser) ev.(ce_UserChannelModes) ev.(ce_Channel)
          end in
        handler ← deref command.(cmd_Handler);
        Ret (Started handler (match cmdNameDispatch handler cmd with
                              | Some m => CallMethod m | None => CallCmd cmd end) ev, store)
      end
    end
  end.

(** dispatch/cmd/cmds.go [Cmds.Dispatch] *)
Definition Dispatch (c : Cmds) (g : Registry) (networkID : bytes) (overridePrefix : Z)
    (ircev : Event) (store : option Store.Store) : go (outcome * option Store.Store) :=
  let msgtype := if decide (ircev.(Name) = PRIVMSG) then CMD_PRIVMSG
                 else if decide (ircev.(Name) = NOTICE) then CMD_NOTICE else 0%Z in
  if decide (msgtype = 0%Z) then Ret (Ignored, store) else
  a1 ← index ircev.(Args) 1;
  match Fields a1 with
  | [] => Ret (Ignored, store)
  | f0 :: args =>
    let cmd := ToLower f0 in
    '(isChan, hasChan) ← CheckTarget c.(core) ircev;
    if (isChan : bool) then
      ok ← has_prefix c overridePrefix cmd;
      if negb hasChan || negb ok then Ret (Ignored, store) else
      ch ← Target ircev;
      run_command c g networkID ircev store msgtype PUBLIC true ch (drop 1 cmd) args
    else run_command c g networkID ircev store msgtype PRIVATE false [] cmd args
  end.
End Lookup.
