(* ===== verification/CmdRun.v ===== *)
(** * Package cmd: what registration and dispatch guarantee

    The theorems about the commander: registration and its inverse, the
    invariant of the table of commands, the assignment of arguments against a
    reference definition, which conditions hold when a command is started, and
    that dispatching an event returns. *)

From S2P Require Import Prelude GoStrings Regex Hosts Fmt NetworkInfo Event DispatchCore Cmd Cmds.
From S2P Require Import UserModes Access StoredUser State StateInv StateRun Store.

(** ** Registration *)

Section Registration.
Context {CT : CaseTables}.
Implicit Types (c : Cmds) (g : Registry).

(** What a command must have to be registered under [server]. *)
Definition registrable g (server : bytes) (cmd : Cmd) : Prop :=
  globalCmdRegistry g !! makeIdentifier server cmd.(cmd_Cmd) = None /\
  globalCmdRegistry g !! makeIdentifier GLOBAL cmd.(cmd_Cmd) = None /\
  cmd.(cmd_Cmd) <> [] /\ cmd.(Extension) <> [] /\ cmd.(Description) <> [] /\
  cmd.(cmd_Handler) <> None /\ args_ok cmd.(cmd_Args).

Lemma missing_field_None cmd :
  missing_field cmd = None <-> cmd.(cmd_Cmd) <> [] /\ cmd.(Extension) <> [] /\
    cmd.(Description) <> [] /\ cmd.(cmd_Handler) <> None.
Proof. unfold missing_field. repeat case_decide; naive_solver. Qed.

Lemma parseArgs_keeps cmd :
  let cmd' := (parseArgs cmd).2 in
  cmd'.(cmd_Cmd) = cmd.(cmd_Cmd) /\ cmd'.(cmd_Handler) = cmd.(cmd_Handler) /\
  cmd'.(cmd_Args) = cmd.(cmd_Args).
Proof.
  unfold parseArgs. destruct (cmd_Args cmd) eqn:E; [done|].
  destruct (parse_loop _ _) as [e st]. cbn. by rewrite E.
Qed.

Lemma Register_cases c g server p cmd :
  cmd_heap g !! p = Some cmd ->
  (exists err, Register c g server p = Ret (Some err, c, g) /\ ~ registrable g server cmd) \/
  (exists err cmd', Register c g server p =
     Ret (Some err, c, {| cmd_heap := <[p := cmd']> (cmd_heap g);
                          globalCmdRegistry := globalCmdRegistry g |}) /\
     ~ registrable g server cmd /\ cmd' = (parseArgs cmd).2) \/
  (Register c g server p =
     Ret (None, {| core := core c; prefix := prefix c;
                   commands := <[cmd.(cmd_Cmd) := p]> (commands c) |},
          {| cmd_heap := <[p := (parseArgs cmd).2]> (cmd_heap g);
             globalCmdRegistry := <[makeIdentifier server cmd.(cmd_Cmd) := p]> (globalCmdRegistry g) |}) /\
   registrable g server cmd).
Proof.
  intros Hp. unfold Register, registrable. rewrite Hp. cbn zeta.
  cbn [deref mbind go_bind].
  destruct (globalCmdRegistry g !! makeIdentifier server _) eqn:E1.
  { rewrite bool_decide_true by eauto. left. eexists. split; [done|]. naive_solver. }
  rewrite bool_decide_false by (intros [? ?]; congruence).
  destruct (globalCmdRegistry g !! makeIdentifier GLOBAL _) eqn:E2.
  { rewrite bool_decide_true by eauto. left. eexists. split; [done|]. naive_solver. }
  rewrite bool_decide_false by (intros [? ?]; congruence).
  pose proof (missing_field_None cmd) as Hm. destruct (missing_field cmd).
  { left. eexists. split; [done|]. intros (_ & _ & H). destruct Hm as [_ Hm]. naive_solver. }
  destruct Hm as [Hm _]. specialize (Hm eq_refl).
  pose proof (parseArgs_texts cmd) as Ha. destruct (parseArgs cmd) as [[err|] cmd'].
  - right. left. exists err, cmd'. split; [done|]. split; [|done]. intros (_ & _ & _ & _ & _ & _ & H).
    by apply Ha in H.
  - right. right. split; [done|]. destruct Ha as [[Ha _] _]. naive_solver.
Qed.

(** Every command of the table satisfies [P], with the name it is there for. *)
Definition table (P : bytes -> Cmd -> Prop) c g : Prop :=
  forall name p, commands c !! name = Some p -> exists cmd, cmd_heap g !! p = Some cmd /\ P name cmd.

(** A new command in the heap and the registry with it *)
Definition with_cmd g (p : nat) (cmd : Cmd) : Registry :=
  {| cmd_heap := <[p := cmd]> (cmd_heap g); globalCmdRegistry := globalCmdRegistry g |}.

(** Whatever comes of registering a new command, the table keeps to [P] if the
    parsed command does. *)
Lemma Register_table P c g server cmd err c' g' :
  let p := fresh (dom (cmd_heap g)) in
  table P c g -> P cmd.(cmd_Cmd) (parseArgs cmd).2 ->
  Register c (with_cmd g p cmd) server p = Ret (err, c', g') -> table P c' g'.
Proof.
  intros p Ht Hc Hr.
  assert (forall name q, commands c !! name = Some q -> exists cmd', cmd_heap g !! q = Some cmd' /\ P name cmd' /\ p <> q)
    as Hold.
  { intros name q (cmd' & Hq & HP)%Ht. exists cmd'. split; [done|]. split; [done|]. intros <-.
    apply elem_of_dom_2 in Hq. by apply is_fresh in Hq. }
  assert (cmd_heap (with_cmd g p cmd) !! p = Some cmd) as Hp by apply lookup_insert_eq.
  destruct (Register_cases c (with_cmd g p cmd) server p cmd Hp)
    as [(e & Hc' & _)|[(e & cmd' & Hc' & _)|[Hc' _]]]; rewrite Hc' in Hr; injection Hr as <- <- <-; intros name q.
  - intros (cmd2 & Hq & HP & Hne)%Hold. exists cmd2. cbn. by rewrite lookup_insert_ne.
  - intros (cmd2 & Hq & HP & Hne)%Hold. exists cmd2. cbn. by rewrite !lookup_insert_ne.
  - cbn [commands cmd_heap]. intros [[<- <-]|[_ (cmd2 & Hq & HP & Hne)%Hold]]%lookup_insert_Some.
    + exists (parseArgs cmd).2. by rewrite lookup_insert_eq.
    + exists cmd2. cbn. by rewrite !lookup_insert_ne.
Qed.

(** C22. Registering a command succeeds exactly when no command has its name on the
    server or globally, its fields are there and its arguments make sense; a
    refusal leaves both tables as they were.  A command that was registered
    cannot be registered again, and unregistering it finds it and gives the
    registry back, with the name gone from the dispatcher's table. *)
Theorem Register_spec c g server p cmd :
  cmd_heap g !! p = Some cmd ->
  exists err c' g', Register c g server p = Ret (err, c', g') /\
    (err = None <-> registrable g server cmd) /\
    (err <> None -> commands c' = commands c /\ globalCmdRegistry g' = globalCmdRegistry g) /\
    (err = None ->
       commands c' !! cmd.(cmd_Cmd) = Some p /\
       Register c' g' server p = Ret (Some (dup_error (makeIdentifier server cmd.(cmd_Cmd))), c', g') /\
       exists c2 g2, Unregister c' g' server cmd.(cmd_Cmd) = (true, c2, g2) /\
         globalCmdRegistry g2 = globalCmdRegistry g /\
         commands c2 = delete cmd.(cmd_Cmd) (commands c)).
Proof.
  intros Hp. destruct (Register_cases c g server p cmd Hp) as [(e & -> & H)|[(e & cmd' & -> & H & _)|[-> H]]].
  - exists (Some e), c, g. naive_solver.
  - eexists (Some e), c, _. split; [done|]. naive_solver.
  - eexists None, _, _. split; [reflexivity|].
    split; [by split|]. split; [by intros []|]. intros _.
    cbn [commands globalCmdRegistry]. rewrite lookup_insert_eq. split; [reflexivity|]. split.
    + unfold Register. cbn [cmd_heap globalCmdRegistry]. rewrite lookup_insert_eq.
      cbn [deref mbind go_bind]. destruct (parseArgs_keeps cmd) as (-> & _).
      by rewrite lookup_insert_eq, bool_decide_true by eauto.
    + unfold Unregister. cbn [globalCmdRegistry commands core prefix cmd_heap].
      rewrite lookup_insert_eq, (bool_decide_true (is_Some (Some p))) by eauto.
      rewrite orb_true_l. eexists _, _. split; [reflexivity|]. cbn [globalCmdRegistry commands].
      destruct H as [H _]. by rewrite delete_insert_id, delete_insert_eq.
Qed.

(** ** The table of commands *)

(** A command that can be dispatched: it has a handler, and its arguments are
    the parsed forms of texts that make sense. *)
Definition ready (cmd : Cmd) : Prop :=
  cmd.(cmd_Cmd) <> [] /\ cmd.(cmd_Handler) <> None /\
  args_ok cmd.(cmd_Args) /\ cmd.(args) = map text_argument cmd.(cmd_Args).

(** The parsed arguments of a command are not set by hand. *)
Definition heap_ok (h : gmap nat Cmd) : Prop :=
  forall p cmd, h !! p = Some cmd -> cmd.(cmd_Args) = [] -> cmd.(args) = [].

Record cmds_wf (c : Cmds) (g : Registry) : Prop := {
  cw_heap : heap_ok (cmd_heap g);
  cw_commands : forall name p, commands c !! name = Some p ->
    exists cmd, cmd_heap g !! p = Some cmd /\ cmd.(cmd_Cmd) = name /\ ready cmd;
}.

Lemma parseArgs_nil cmd : cmd.(cmd_Args) = [] -> parseArgs cmd = (None, cmd).
Proof. unfold parseArgs. by intros ->. Qed.

Lemma heap_ok_parse h p cmd :
  heap_ok h -> h !! p = Some cmd -> heap_ok (<[p := (parseArgs cmd).2]> h).
Proof.
  intros Hh Hp q cmd' Hq Ha. destruct (decide (q = p)) as [->|Hn].
  - rewrite lookup_insert_eq in Hq. injection Hq as <-.
    destruct (parseArgs_keeps cmd) as (_ & _ & E). rewrite E in Ha.
    rewrite (parseArgs_nil _ Ha). by apply (Hh p).
  - rewrite lookup_insert_ne in Hq by done. by apply (Hh q).
Qed.

Lemma ready_parse cmd :
  cmd.(cmd_Cmd) <> [] -> cmd.(cmd_Handler) <> None -> args_ok cmd.(cmd_Args) ->
  (cmd.(cmd_Args) = [] -> cmd.(args) = []) -> ready (parseArgs cmd).2.
Proof.
  intros H1 H2 H3 H4. destruct (parseArgs_keeps cmd) as (E1 & E2 & E3).
  split; [by rewrite E1|]. split; [by rewrite E2|]. split; [by rewrite E3|].
  destruct (decide (cmd_Args cmd = [])) as [E|E].
  - rewrite (parseArgs_nil _ E). cbn. rewrite E. by apply H4.
  - rewrite E3. pose proof (parseArgs_texts cmd) as Ht. destruct (parseArgs cmd) as [e cmd'].
    destruct Ht as [Ht1 Ht2]. apply Ht2; [by apply Ht1|done].
Qed.

Lemma Register_wf c g server p err c' g' :
  cmds_wf c g -> Register c g server p = Ret (err, c', g') -> cmds_wf c' g'.
Proof.
  intros Hwf. destruct (cmd_heap g !! p) as [cmd|] eqn:Hp; [|unfold Register; by rewrite Hp].
  pose proof (cw_heap _ _ Hwf) as Hh.
  destruct (Register_cases c g server p cmd Hp) as [(e & -> & _)|[(e & cmd' & -> & _ & ->)|[-> H]]];
    intros [= <- <- <-]; [done| |].
  - split; [by apply heap_ok_parse|]. intros name q Hq.
    destruct (cw_commands _ _ Hwf _ _ Hq) as (cmd1 & H1 & H2 & H3). cbn [cmd_heap].
    destruct (decide (p = q)) as [->|Hn]; [|by rewrite lookup_insert_ne by done; eauto].
    rewrite lookup_insert_eq. assert (cmd1 = cmd) as -> by congruence.
    eexists. split; [reflexivity|]. destruct (parseArgs_keeps cmd) as (-> & _). split; [done|].
    destruct H3 as (? & ? & ? & _). apply ready_parse; eauto.
  - destruct H as (_ & _ & R1 & _ & _ & R2 & R3).
    assert (ready (parseArgs cmd).2) as Hr by (apply ready_parse; eauto).
    split; [by apply heap_ok_parse|]. intros name q Hq. cbn [cmd_heap commands] in *.
    destruct (parseArgs_keeps cmd) as (Ek & _).
    destruct (decide (name = cmd_Cmd cmd)) as [->|Hne].
    + rewrite lookup_insert_eq in Hq. injection Hq as <-. rewrite lookup_insert_eq. eauto.
    + rewrite lookup_insert_ne in Hq by done.
      destruct (cw_commands _ _ Hwf _ _ Hq) as (cmd1 & H1 & H2 & H3).
      destruct (decide (p = q)) as [->|Hn]; [|by rewrite lookup_insert_ne by done; eauto].
      assert (cmd1 = cmd) as -> by congruence. by subst name.
Qed.

Lemma Unregister_wf c g server name :
  cmds_wf c g -> let '(_, c', g') := Unregister c g server name in cmds_wf c' g'.
Proof.
  intros [Hh Hc]. split; [done|]. intros k q. cbn [commands cmd_heap].
  rewrite lookup_delete_Some. intros [_ Hq]. by apply Hc.
Qed.

(** What the extensions of a bot do to the commander. *)
Inductive reg_op :=
  | OpRegister (server : bytes) (p : nat)
  | OpUnregister (server name : bytes).

Definition reg_step (s : Cmds * Registry) (o : reg_op) : go (Cmds * Registry) :=
  let '(c, g) := s in
  match o with
  | OpRegister server p => '(_, c, g) ← Register c g server p; Ret (c, g)
  | OpUnregister server name => let '(_, c, g) := Unregister c g server name in Ret (c, g)
  end.

Lemma reg_step_wf c g o c' g' : cmds_wf c g -> reg_step (c, g) o = Ret (c', g') -> cmds_wf c' g'.
Proof.
  intros Hwf. destruct o as [server p|server name]; cbn [reg_step].
  - intros ([[e c1] g1] & H & H1)%bind_Ret_inv. injection H1 as <- <-. by eapply Register_wf.
  - pose proof (Unregister_wf c g server name Hwf) as H.
    destruct (Unregister c g server name) as [[b c1] g1]. by intros [= <- <-].
Qed.

(** Whatever is registered and unregistered, in any order, on a new commander,
    every name in its table belongs to a command of that name that has a
    handler and whose parsed arguments are those of a grammatical description;
    and every operation on an existing command returns. *)
Theorem commands_ready pre d g ops :
  heap_ok (cmd_heap g) ->
  (forall server p, OpRegister server p ∈ ops -> is_Some (cmd_heap g !! p)) ->
  exists c' g', go_fold reg_step (NewCmds pre d, g) ops = Ret (c', g') /\ cmds_wf c' g'.
Proof.
  intros Hh. assert (cmds_wf (NewCmds pre d) g) as Hwf by (split; [done|]; by intros ? ? ?).
  clear Hh. revert Hwf. generalize (NewCmds pre d) as c. revert g.
  induction ops as [|o ops IH]; intros g c Hwf Hops; [by eexists _, _|].
  cbn [go_fold]. destruct o as [server p|server name]; cbn [reg_step].
  - destruct (Hops server p) as [cmd Hp]; [by left|].
    assert (exists err c1 g1, Register c g server p = Ret (err, c1, g1) /\
      dom (cmd_heap g1) = dom (cmd_heap g)) as (err & c1 & g1 & E & Hd).
    { destruct (Register_cases c g server p cmd Hp) as [(e & -> & _)|[(e & cmd' & -> & _)|[-> _]]];
        (eexists _, _, _; split; [reflexivity|]); [done| |]; cbn [cmd_heap];
        rewrite dom_insert_L; apply elem_of_dom_2 in Hp; set_solver. }
    rewrite E. cbn [mbind go_bind]. apply IH; [by eapply Register_wf|].
    intros srv q Hq. apply elem_of_dom. rewrite Hd. apply elem_of_dom, (Hops srv). by right.
  - destruct (Unregister c g server name) as [[b c1] g1] eqn:E. cbn [mbind go_bind].
    pose proof (Unregister_wf c g server name Hwf) as H. rewrite E in H. apply IH; [done|].
    unfold Unregister in E. injection E as _ _ <-. cbn [cmd_heap].
    intros srv q Hq. apply (Hops srv). by right.
Qed.
End Registration.

(** ** The assignment of arguments *)

Section Arguments.
Context {CT : CaseTables} {BC : Bcrypt} {K : KV} {G : Gob}.
Context (state : option State.State).
Context (server : bytes) (command : Cmd) (channel : bytes) (isChan : bool) (ircev : Event).
Implicit Types (l : list argument) (msgArgs : list bytes) (store : option Store.Store).

Definition typed (t : Z) l : Prop := Forall (fun a => a.(arg_Type) = t) l.

(** The arguments of a command as lists: an optional channel, required and
    optional ones, and at most one that takes the rest. *)
Record shape := { s_chan : list argument; s_req : list argument; s_opt : list argument; s_var : list argument }.

Definition shape_ok (s : shape) : Prop :=
  command.(args) = s_chan s ++ s_req s ++ s_opt s ++ s_var s /\
  typed (Z.lor CHANNEL REQUIRED) (s_chan s) /\ length (s_chan s) <= 1 /\
  typed REQUIRED (s_req s) /\ typed OPTIONAL (s_opt s) /\
  typed VARIADIC (s_var s) /\ length (s_var s) <= 1.

(** Names bound to values, pairwise. *)
Definition bind (ev : CmdEvent) l (vals : list bytes) : CmdEvent :=
  foldl (fun ev p => set_arg ev (arg_Name p.1) p.2) ev (zip l vals).

(** The reference for what follows the channel, when [j] arguments of the
    message are taken: the required and the optional arguments are bound one
    by one and the variadic one to the rest; too few and too many arguments
    are errors. *)
Definition ref_args (s : shape) msgArgs (j : nat) (ev : CmdEvent) : option bytes * CmdEvent :=
  let vals := drop j msgArgs in
  let fixed := s_req s ++ s_opt s in
  let ev1 := bind ev fixed vals in
  if decide (length vals < length (s_req s)) then
    (Some (narg_error errAtLeast (wanted command isChan) command), ev1)
  else if decide (length vals <= length fixed) then (None, ev1)
  else match s_var s with
       | v :: _ => (None, set_arg ev1 v.(arg_Name) (Join (drop (length fixed) vals) (bs " ")))
       | [] => (Some (if decide (j + length fixed = 0) then errMsgUnexpectedArgument
                      else narg_error errAtMost (Z.of_nat (command.(reqArgs) + command.(optArgs))) command),
                ev1)
       end.

(** The reference with the channel: in a channel it can be left out and is
    then the channel of the message, in private it must be given. *)
Definition ref_filter (ni : NetworkInfo) (s : shape) msgArgs (ev : CmdEvent) : option bytes * CmdEvent :=
  match s_chan s with
  | [] => ref_args s msgArgs 0 ev
  | ch :: _ =>
    match state, msgArgs with
    | None, _ => (Some errMsgStateDisabled, ev)
    | Some st, a :: _ =>
      if IsChannel ni a then
        ref_args s msgArgs 1 (set_target_channel (set_arg ev ch.(arg_Name) a) ev.(ce_Channel)
                                (State.GetChannel st a))
      else if isChan then
        let c := State.GetChannel st channel in
        ref_args s msgArgs 0 (set_target_channel (set_arg ev ch.(arg_Name) channel) c c)
      else (Some (Sprintf errFmtArgumentNotChannel [VString a]), ev)
    | Some st, [] =>
      if isChan then
        let c := State.GetChannel st channel in
        ref_args s msgArgs 0 (set_target_channel (set_arg ev ch.(arg_Name) channel) c c)
      else (Some (narg_error errAtLeast (Z.of_nat command.(reqArgs)) command), ev)
    end
  end.

Notation loop := (filter_loop state server command channel isChan).

(** One pass over required or optional arguments. *)
Lemma loop_fixed t msgArgs l1 l j ev store :
  t = REQUIRED \/ t = OPTIONAL -> typed t l1 ->
  loop msgArgs ircev (l1 ++ l) j ev store =
  let ev1 := bind ev l1 (drop j msgArgs) in
  if decide (length (drop j msgArgs) < length l1)
  then Ret (if decide (t = REQUIRED)
            then Some (narg_error errAtLeast (wanted command isChan) command) else None, ev1, store)
  else loop msgArgs ircev l (j + length l1) ev1 store.
Proof.
  intros Ht H. revert j ev. induction H as [|a l1 Ha H IH]; intros j ev.
  { cbn zeta. rewrite decide_False by (cbn; lia). by rewrite Nat.add_0_r. }
  cbn zeta. cbn [app filter_loop]. unfold assign_arg, target_users. rewrite Ha.
  assert (has_bit CHANNEL t = false /\ has_bit REQUIRED t = bool_decide (t = REQUIRED) /\
    has_bit OPTIONAL t = negb (bool_decide (t = REQUIRED)) /\
    has_bit NICK t || has_bit USER t = false /\ has_bit VARIADIC t = false)
    as (-> & -> & -> & -> & ->) by (by destruct Ht as [-> | ->]; vm_compute).
  destruct (decide (t = REQUIRED)) as [E|E];
    [rewrite (bool_decide_true _ E)|rewrite (bool_decide_false _ E)]; cbn [negb];
    (destruct (msgArgs !! j) as [v|] eqn:Ej; cbn [mbind go_bind];
     [|apply lookup_ge_None in Ej; rewrite decide_True by (rewrite length_drop; cbn; lia);
       by rewrite drop_ge]);
    replace (Z.to_nat (Z.of_nat j + 1)) with (S j) by lia; rewrite IH; cbn zeta;
    rewrite (drop_S _ _ _ Ej); cbn [length]; rewrite Nat.add_succ_r, Nat.add_succ_l;
    repeat case_decide; try lia; try done.
Qed.

Lemma loop_variadic msgArgs l j ev store :
  typed VARIADIC l -> length l <= 1 ->
  loop msgArgs ircev l j ev store =
  Ret (match l with
       | v :: _ => (None, if decide (length msgArgs <= j) then ev
                          else set_arg ev v.(arg_Name) (Join (drop j msgArgs) (bs " ")))
       | [] => (leftover command msgArgs j, ev)
       end, store).
Proof.
  intros H Hl. destruct l as [|v l]; [done|]. destruct l; [|cbn in Hl; lia].
  apply Forall_cons in H as [Hv _]. cbn [filter_loop]. unfold assign_arg, target_users. rewrite Hv.
  change (has_bit CHANNEL VARIADIC) with false. change (has_bit REQUIRED VARIADIC) with false.
  change (has_bit OPTIONAL VARIADIC) with false. change (has_bit VARIADIC VARIADIC) with true.
  change (has_bit NICK VARIADIC || has_bit USER VARIADIC) with false. cbv iota.
  destruct (decide (length msgArgs <= j)); cbn [mbind go_bind]; [done|].
  unfold leftover. by rewrite decide_False by lia.
Qed.

Lemma bind_app ev l1 l2 vals :
  length l1 <= length vals -> bind (bind ev l1 vals) l2 (drop (length l1) vals) = bind ev (l1 ++ l2) vals.
Proof.
  revert ev vals. induction l1 as [|a l1 IH]; intros ev vals H; [done|].
  destruct vals as [|v vals]; cbn in H; [lia|]. apply (IH (set_arg ev (arg_Name a) v) vals). lia.
Qed.

Lemma bind_short ev l1 l2 vals : length vals <= length l1 -> bind ev (l1 ++ l2) vals = bind ev l1 vals.
Proof.
  revert ev vals. induction l1 as [|a l1 IH]; intros ev vals H.
  { destruct vals; [|cbn in H; lia]. by destruct l2. }
  destruct vals as [|v vals]; [done|]. apply (IH (set_arg ev (arg_Name a) v) vals). cbn in H. lia.
Qed.

Lemma loop_args s msgArgs j ev store :
  typed REQUIRED (s_req s) -> typed OPTIONAL (s_opt s) -> typed VARIADIC (s_var s) ->
  length (s_var s) <= 1 -> j <= length msgArgs ->
  loop msgArgs ircev (s_req s ++ s_opt s ++ s_var s) j ev store = Ret (ref_args s msgArgs j ev, store).
Proof.
  intros Hr Ho Hv Hl Hj. unfold ref_args. rewrite (loop_fixed REQUIRED) by (done || by left).
  cbn zeta. set (vals := drop j msgArgs). destruct (decide (length vals < length (s_req s))) as [H1|H1].
  { by rewrite bind_short by lia. }
  rewrite (loop_fixed OPTIONAL) by (done || by right). cbn zeta. rewrite <- drop_drop. fold vals.
  rewrite bind_app by lia. rewrite (decide_False (P := OPTIONAL = REQUIRED)) by done.
  assert (length vals = length msgArgs - j) as Hn by apply length_drop.
  rewrite !length_drop, !length_app. fold vals.
  destruct (decide (length vals - length (s_req s) < length (s_opt s))).
  { by rewrite decide_True by lia. }
  rewrite loop_variadic by done. unfold leftover. destruct (s_var s) as [|v lv].
  - repeat case_decide; try lia; try done.
  - rewrite <- !drop_drop. fold vals. rewrite drop_drop. repeat case_decide; try lia; done.
Qed.

End Arguments.

Section Filtering.
Context {CT : CaseTables} {BC : Bcrypt} {K : KV} {G : Gob}.

End Filtering.

(** ** What dispatch guarantees *)

Section Dispatching.
Context {CT : CaseTables} {BC : Bcrypt} {K : KV} {G : Gob}.
Context (state : option State.State) (has_method : nat -> bytes -> bool).

(** The filters leave the stored user of the sender alone. *)
Lemma user_loop_sender store vargs srv name i users ev err ev' store' :
  user_loop state store vargs srv name i users ev = Ret (err, ev', store') ->
  ce_StoredUser ev' = ce_StoredUser ev.
Proof.
  revert store i ev. induction users as [|u users IH]; intros store i ev; cbn [user_loop].
  { by intros [= _ <- _]. }
  intros ([[[a us] e] st1] & _ & H)%bind_Ret_inv. destruct e; [by injection H as _ <- _|].
  by apply IH in H.
Qed.

Lemma nick_loop_sender vargs name i users ev :
  ce_StoredUser (nick_loop state vargs name i users ev).2 = ce_StoredUser ev.
Proof.
  revert i ev. induction users as [|u users IH]; intros i ev; cbn [nick_loop]; [done|].
  destruct (FindUserByNick state u); [done|]. by rewrite IH.
Qed.

Lemma parseUserArg_sender ev store srv name t users err ev' store' :
  parseUserArg state ev store srv name t users = Ret (err, ev', store') ->
  ce_StoredUser ev' = ce_StoredUser ev.
Proof.
  unfold parseUserArg. cbn zeta. case_decide; [|case_decide].
  - intros H1. by apply user_loop_sender in H1.
  - pose proof (nick_loop_sender (has_bit VARIADIC t) name 0 users
      (set_targets ev (ce_TargetUsers ev) (ce_TargetStoredUser ev)
         (if has_bit VARIADIC t then replicate (length users) None else ce_TargetVarUsers ev)
         (ce_TargetVarStoredUser ev))) as Hn.
    destruct (nick_loop _ _ _ _ _ _) as [e ev1]. by intros [= _ <- _].
  - by intros [= _ <- _].
Qed.

Lemma parseChanArg_sender st command ev ircev j msgArgs channel isChan r ev' :
  parseChanArg st command ev ircev j msgArgs channel isChan = Ret (r, ev') ->
  ce_StoredUser ev' = ce_StoredUser ev.
Proof.
  unfold parseChanArg. intros ([first|] & _ & H)%bind_Ret_inv; [|by injection H as _ <-].
  apply bind_Ret_inv in H as (arg & _ & H). destruct (isChan && negb first); [by injection H as _ <-|].
  apply bind_Ret_inv in H as (given & _ & H). by destruct first; injection H as _ <-.
Qed.

Lemma filter_loop_sender server command channel isChan msgArgs ircev l j ev store err ev' store' :
  filter_loop state server command channel isChan msgArgs ircev l j ev store = Ret (err, ev', store') ->
  ce_StoredUser ev' = ce_StoredUser ev.
Proof.
  revert j ev store. induction l as [|arg l IH]; intros j ev store; cbn [filter_loop].
  { by intros [= _ <- _]. }
  intros ([r ev1] & H1 & H)%bind_Ret_inv.
  assert (ce_StoredUser ev1 = ce_StoredUser ev) as E1.
  { revert H1. unfold assign_arg. destruct (has_bit CHANNEL _).
    - destruct state as [st|]; [|by intros [= _ <-]].
      intros ([r' ev2] & H1 & H2)%bind_Ret_inv. injection H2 as _ <-.
      by apply parseChanArg_sender in H1.
    - repeat case_match; by intros [= _ <-]. }
  destruct r as [e|j']; [by injection H as _ <- _|].
  apply bind_Ret_inv in H as ([[e ev2] st2] & H2 & H).
  assert (ce_StoredUser ev2 = ce_StoredUser ev1) as E2.
  { revert H2. unfold target_users. destruct (_ || _); [|by intros [= _ <- _]].
    case_decide; [done|]. destruct (has_bit VARIADIC _);
      intros (? & _ & H2)%bind_Ret_inv; by apply parseUserArg_sender in H2. }
  rewrite <- E1, <- E2. destruct e; [by injection H as _ <- _|].
  destruct (has_bit VARIADIC _); [by injection H as _ <- _|]. by apply IH in H.
Qed.

(** What the access filter lets through. *)
Definition granted (s : Store) (cmd : Cmd) (server ch host : bytes) (l : nat) : Prop :=
  exists u, s.(authed) !! (server ++ host) = Some l /\ s.(suheap) !! l = Some u /\
    (cmd.(ReqLevel) <> 0%Z -> StoredUser.HasLevel u server ch cmd.(ReqLevel) = true) /\
    (cmd.(ReqFlags) <> [] -> StoredUser.HasFlags u server ch [cmd.(ReqFlags)] = true).

Lemma filterAccess_granted store cmd server ch ircev l :
  filterAccess store cmd server ch ircev = Ret (inr l) ->
  exists s, store = Some s /\ granted s cmd server ch ircev.(Sender) l.
Proof.
  unfold filterAccess. destruct store as [s|]; [|done].
  destruct (GetAuthedUser s server (Sender ircev)) as [l'|] eqn:Ea; [|done].
  intros (u & Hu & H)%bind_Ret_inv. apply deref_Ret in Hu.
  destruct (bool_decide_reflect (ReqLevel cmd <> 0%Z)), (HasLevel u server ch (ReqLevel cmd)) eqn:E1;
    cbn [andb negb] in H; try done;
  (destruct (bool_decide_reflect (ReqFlags cmd <> [])), (HasFlags u server ch [ReqFlags cmd]) eqn:E2;
    cbn [andb negb] in H; try done);
  injection H as <-; exists s; (split; [done|]); exists u; done.
Qed.

(** The text that names a command: in private its first word, in a channel
    the rest of a word that starts with the prefix that is in force. *)
Definition names (c : Cmds) (overridePrefix : Z) (ircev : Event) (isChan : bool) (ch name : bytes)
    (words : list bytes) : Prop :=
  exists text word, ircev.(Args) !! 1 = Some text /\ Fields text = word :: words /\
    if isChan then
      ircev.(Args) !! 0 = Some ch /\ IsTargetChan ircev = Ret true /\
      hasChannel (core c) (ToLower ch) = true /\
      exists p, ToLower word = p :: name /\
        code p = if decide (overridePrefix = 0%Z) then prefix c else overridePrefix
    else ch = [] /\ IsTargetChan ircev = Ret false /\ name = ToLower word.

Definition message_bit (ircev : Event) : Z :=
  if decide (ircev.(Name) = PRIVMSG) then CMD_PRIVMSG
  else if decide (ircev.(Name) = NOTICE) then CMD_NOTICE else 0%Z.

(** How a handler is called for a name *)
Definition called (h : nat) (name : bytes) : cmd_call :=
  match cmdNameDispatch has_method h name with Some m => CallMethod m | None => CallCmd name end.

Lemma run_command_started c g server ircev store mt ms isChan ch name words h how ev store' :
  run_command state has_method c g server ircev store mt ms isChan ch name words
    = Ret (Started h how ev, store') ->
  how = called h name /\
  exists p cmd, commands c !! name = Some p /\ cmd_heap g !! p = Some cmd /\
    cmd.(cmd_Handler) = Some h /\ Z.land mt cmd.(Msgtype) <> 0%Z /\ Z.land ms cmd.(Msgscope) <> 0%Z /\
    (cmd.(RequireAuth) = true -> exists s l, store = Some s /\ ev.(ce_StoredUser) = Some l /\
       granted s cmd server ch ircev.(Sender) l).
Proof.
  unfold run_command. cbn zeta. destruct (commands c !! name) as [p|]; [|done].
  intros (cmd & Hp & H)%bind_Ret_inv. apply deref_Ret in Hp.
  destruct (decide (_ \/ _)) as [|Hb]; [done|]. apply Decidable.not_or in Hb as [Hb1 Hb2].
  apply bind_Ret_inv in H as (access & Ha & H). destruct access as [e|su]; [done|].
  apply bind_Ret_inv in H as ([[err ev1] store1] & Hf & H). destruct err as [e|]; [done|].
  apply bind_Ret_inv in H as (handler & Hh & H). apply deref_Ret in Hh. injection H as <- <- Hev _.
  split; [done|]. exists p, cmd. split; [done|]. split; [done|]. split; [done|]. split; [done|]. split; [done|].
  intros Hr. rewrite Hr in Ha. apply bind_Ret_inv in Ha as (r & Ha & Hs).
  destruct r as [e|l]; [done|]. injection Hs as <-.
  destruct (filterAccess_granted _ _ _ _ _ _ Ha) as (s & -> & Hg). exists s, l.
  split; [done|]. split; [|done]. apply filter_loop_sender in Hf. cbn in Hf. rewrite <- Hev.
  destruct state; [|done]. by destruct isChan.
Qed.

Lemma has_prefix_true c ov word name :
  has_prefix c ov word = Ret true -> name = drop 1 word ->
  exists p, word = p :: name /\ code p = if decide (ov = 0%Z) then prefix c else ov.
Proof.
  unfold has_prefix. intros (p & Hp & H)%bind_Ret_inv. injection H as H.
  apply index_Ret in Hp. destruct word as [|q word]; [done|]. injection Hp as ->. intros ->.
  exists p. split; [done|].
  destruct (decide (ov = 0%Z)) as [E|E].
  - rewrite (bool_decide_true _ E), (bool_decide_false (ov <> 0%Z)) in H by tauto. cbn in H.
    apply negb_true_iff, bool_decide_eq_false in H. lia.
  - rewrite (bool_decide_false _ E), (bool_decide_true (ov <> 0%Z)), andb_true_r in H by tauto.
    cbn in H. apply negb_true_iff, bool_decide_eq_false in H. lia.
Qed.

Lemma Dispatch_started_ok c g server ov ircev store h how ev store' :
  Dispatch state has_method c g server ov ircev store = Ret (Started h how ev, store') ->
  exists isChan ch name words p cmd,
    names c ov ircev isChan ch name words /\
    commands c !! name = Some p /\ cmd_heap g !! p = Some cmd /\ cmd.(cmd_Handler) = Some h /\
    Z.land (message_bit ircev) cmd.(Msgtype) <> 0%Z /\
    Z.land (if isChan then PUBLIC else PRIVATE) cmd.(Msgscope) <> 0%Z /\
    how = called h name /\
    (cmd.(RequireAuth) = true -> exists s l, store = Some s /\ ev.(ce_StoredUser) = Some l /\
       granted s cmd server ch ircev.(Sender) l).
Proof.
  unfold Dispatch. fold (message_bit ircev). cbn zeta. case_decide; [done|].
  intros (text & Ht & H1)%bind_Ret_inv. apply index_Ret in Ht.
  destruct (Fields text) as [|word words] eqn:Ef; [done|].
  apply bind_Ret_inv in H1 as ([isChan hasChan] & Hc & H1). unfold CheckTarget in Hc.
  apply bind_Ret_inv in Hc as (b & Hb & Hc). destruct b.
  - apply bind_Ret_inv in Hc as (ch & Hch & Hc). injection Hc as <- <-.
    unfold Target in Hch. apply index_Ret in Hch.
    apply bind_Ret_inv in H1 as (ok & Hok & H1).
    destruct (hasChannel _ _) eqn:Eh; [|done]. destruct ok; [|done]. cbn [negb orb] in H1.
    unfold Target, index in H1. rewrite Hch in H1. cbn [deref mbind go_bind] in H1.
    destruct (has_prefix_true _ _ _ _ Hok eq_refl) as (p0 & Hw & Hp0).
    destruct (run_command_started _ _ _ _ _ _ _ _ _ _ _ _ _ _ _ H1) as (Hh & p & cmd & H2).
    exists true, ch, (drop 1 (ToLower word)), words, p, cmd. split; [|naive_solver].
    exists text, word. eauto 10.
  - injection Hc as <- <-.
    destruct (run_command_started _ _ _ _ _ _ _ _ _ _ _ _ _ _ _ H1) as (Hh & p & cmd & H2).
    exists false, [], (ToLower word), words, p, cmd. split; [|naive_solver].
    exists text, word. eauto 10.
Qed.

(** C10. A handler is started only by a message that names a registered command of
    its kind and scope, behind the prefix and in a channel the dispatcher is
    active on, and by the method or the name the message gives;
    and a command that requires authentication only when the sender
    is logged in with the level and the flags it asks for, the stored user
    being the one the handler is given. *)
Theorem Dispatch_started c g server ov ircev store h how ev store' :
  Dispatch state has_method c g server ov ircev store = Ret (Started h how ev, store') ->
  exists isChan ch name words p cmd,
    names c ov ircev isChan ch name words /\
    commands c !! name = Some p /\ cmd_heap g !! p = Some cmd /\ cmd.(cmd_Handler) = Some h /\
    Z.land (message_bit ircev) cmd.(Msgtype) <> 0%Z /\
    Z.land (if isChan then PUBLIC else PRIVATE) cmd.(Msgscope) <> 0%Z /\
    how = called h name /\
    (cmd.(RequireAuth) = true -> exists s l, store = Some s /\ ev.(ce_StoredUser) = Some l /\
       granted s cmd server ch ircev.(Sender) l).
Proof. apply Dispatch_started_ok. Qed.

(** ** Dispatch returns *)

Definition store_ok (store : option Store.Store) : Prop :=
  match store with Some s => store_wf s | None => True end.
Definition state_ok : Prop := match state with Some st => state_wf st | None => True end.

Definition nonempty (l : list bytes) : Prop := Forall (fun a => a <> []) l.

Lemma FindAccessByUser_returns store srv u :
  state_ok -> store_ok store -> u <> [] ->
  exists r store', FindAccessByUser state store srv u = Ret (r, store') /\ store_ok store'.
Proof.
  intros Hst Hs Hu. unfold FindAccessByUser. destruct store as [s|]; [|by eexists _, _].
  destruct u as [|c0 u]; [done|]. change (index (c0 :: u) 0) with (Ret c0). cbn [mbind go_bind].
  destruct (decide (c0 = "*"%char)).
  - case_decide; [by eexists _, _|]. destruct (FindUser s _) as [[a er] s1] eqn:E.
    eexists _, _. split; [done|]. by destruct (FindUser_ok _ _ _ _ _ Hs E).
  - unfold state_ok in Hst. destruct state as [st|]; [|by eexists _, _].
    destruct (GetUser st (c0 :: u)) as [l|] eqn:E; [|by eexists _, _].
    unfold GetUser in E. destruct (users st !! _) as [q|] eqn:Eq; [|done]. cbn in E. subst q.
    destruct (wf_users _ Hst _ _ Eq) as (us & -> & _). by eexists _, _.
Qed.

Lemma user_loop_returns store vargs srv name i users ev :
  state_ok -> store_ok store -> nonempty users ->
  exists err ev' store', user_loop state store vargs srv name i users ev = Ret (err, ev', store') /\
    store_ok store'.
Proof.
  intros Hst Hs Hu. revert store i ev Hs. induction Hu as [|u users Hu _ IH]; intros store i ev Hs.
  { by eexists _, _, _. }
  cbn [user_loop]. destruct (FindAccessByUser_returns store srv u Hst Hs Hu) as ([[a us] er] & st1 & -> & H1).
  cbn [mbind go_bind]. destruct er; [by eexists _, _, _|by apply IH].
Qed.

Lemma parseUserArg_returns ev store srv name t users :
  state_ok -> store_ok store -> nonempty users ->
  exists err ev' store', parseUserArg state ev store srv name t users = Ret (err, ev', store') /\
    store_ok store'.
Proof.
  intros Hst Hs Hu. unfold parseUserArg. cbn zeta. case_decide; [by apply user_loop_returns|].
  case_decide; [|by eexists _, _, _]. destruct (nick_loop _ _ _ _ _ _). by eexists _, _, _.
Qed.

Lemma lookup_nonempty l i a : nonempty l -> l !! i = Some a -> a <> [].
Proof. intros H Hi. by apply (Forall_lookup_1 _ _ _ _ H Hi). Qed.

(** An argument that is no channel. *)
Definition plain_type (a : argument) : Prop := has_bit CHANNEL a.(arg_Type) = false.

Lemma target_users_returns srv msgArgs arg j ev store :
  state_ok -> store_ok store -> nonempty msgArgs -> j < length msgArgs ->
  exists err ev' store', target_users state srv msgArgs arg (Z.of_nat j) ev store = Ret (err, ev', store') /\
    store_ok store'.
Proof.
  intros Hst Hs Hm Hj. unfold target_users. destruct (_ || _); [|by eexists _, _, _].
  rewrite decide_False by lia. rewrite Nat2Z.id. destruct (has_bit VARIADIC _).
  - unfold slice_from. rewrite decide_True by lia. cbn [mbind go_bind].
    apply parseUserArg_returns; [done..|]. by apply Forall_drop.
  - destruct (lookup_lt_is_Some_2 _ _ Hj) as [a Ha]. unfold index. rewrite Ha.
    cbn [deref mbind go_bind]. apply parseUserArg_returns; [done..|].
    apply Forall_singleton. by eapply lookup_nonempty.
Qed.

(** The switch on an argument that is no channel leaves the position alone,
    and on an argument that is there. *)
Lemma assign_arg_returns command channel isChan msgArgs ircev t j ev :
  let arg := text_argument t in
  plain_type arg ->
  exists r ev', assign_arg state command channel isChan msgArgs ircev arg j ev = Ret (r, ev') /\
    forall j', r = inr j' -> j' = Z.of_nat j /\ j < length msgArgs.
Proof.
  intros arg Ha. unfold assign_arg. rewrite Ha.
  destruct (text_type_cases (ToLower t)) as [Hm He].
  destruct (ending_bits _ _ Hm He) as (B1 & B2 & B3). cbn [text_argument arg_Type arg] in *.
  rewrite B1, B2, B3. rewrite !elem_of_cons in He.
  assert (forall f : option bytes, exists (r : option bytes + Z) ev',
    match msgArgs !! j with
    | None => Ret (inl f, ev)
    | Some a => Ret (inr (Z.of_nat j), set_arg ev (arg_Name arg) a)
    end = Ret (r, ev') /\ forall j', r = inr j' -> j' = Z.of_nat j /\ j < length msgArgs) as Hone.
  { intros f. destruct (msgArgs !! j) eqn:E; (eexists _, _; split; [reflexivity|]); [|done].
    intros j' [= <-]. split; [done|]. by eapply lookup_lt_Some. }
  destruct He as [-> |[-> |[-> |He]]]; [..|by apply not_elem_of_nil in He].
  - change (bool_decide (OPTIONAL = REQUIRED)) with false.
    change (bool_decide (OPTIONAL = OPTIONAL)) with true. apply (Hone None).
  - change (bool_decide (VARIADIC = REQUIRED)) with false.
    change (bool_decide (VARIADIC = OPTIONAL)) with false.
    change (bool_decide (VARIADIC = VARIADIC)) with true. cbv iota.
    destruct (decide (length msgArgs <= j)); (eexists _, _; split; [reflexivity|]); [done|].
    intros j' [= <-]. lia.
  - change (bool_decide (REQUIRED = REQUIRED)) with true. apply (Hone (Some _)).
Qed.

Lemma loop_returns srv command channel isChan msgArgs ircev l j ev store :
  state_ok -> store_ok store -> nonempty msgArgs ->
  Forall (fun a => exists t, a = text_argument t /\ plain_type a) l ->
  exists err ev' store',
    filter_loop state srv command channel isChan msgArgs ircev l j ev store = Ret (err, ev', store') /\
    store_ok store'.
Proof.
  intros Hst Hs Hm Hl. revert j ev store Hs.
  induction Hl as [|arg l (t & -> & Ha) _ IH]; intros j ev store Hs; [by eexists _, _, _|].
  cbn [filter_loop].
  destruct (assign_arg_returns command channel isChan msgArgs ircev t j ev Ha) as (r & ev1 & -> & Hr).
  cbn [mbind go_bind]. destruct r as [e|j']; [by eexists _, _, _|].
  destruct (Hr _ eq_refl) as [-> Hj].
  destruct (target_users_returns srv msgArgs (text_argument t) j ev1 store)
    as ([e|] & ev2 & st2 & -> & H2); [done..|by eexists _, _, _|]. cbn [mbind go_bind].
  destruct (has_bit VARIADIC _); [by eexists _, _, _|by apply IH].
Qed.

Lemma ready_plain cmd :
  ready cmd ->
  match cmd.(args) with
  | [] => True
  | a :: l => (exists t, a = text_argument t) /\
              Forall (fun a => exists t, a = text_argument t /\ plain_type a) l
  end.
Proof.
  intros (_ & _ & (_ & _ & Hf) & ->). destruct (cmd_Args cmd) as [|t ts]; [done|].
  cbn [map] in *. split; [by eexists|]. inversion Hf as [|? ? Ht Hrest]; subst. clear -Ht.
  induction ts as [|t' ts IH]; [constructor|]. cbn [map] in *. apply Forall_cons in Ht as [Ht Hts].
  constructor; [|by apply IH]. exists t'. split; [done|]. unfold plain_type.
  unfold may_follow in Ht. apply andb_true_iff in Ht as [_ Ht]. by apply negb_true_iff in Ht.
Qed.

Lemma event_is_channel_returns ircev a :
  is_Some (NetInfo ircev) -> exists b, event_is_channel ircev a = Ret b.
Proof. intros [ni E]. unfold event_is_channel. rewrite E. destruct a; by eexists. Qed.

Lemma filterArgs_returns srv cmd channel isChan msgArgs ircev ev store :
  state_ok -> store_ok store -> nonempty msgArgs -> ready cmd -> is_Some (NetInfo ircev) ->
  exists err ev' store',
    filterArgs state srv cmd channel isChan msgArgs ircev ev store = Ret (err, ev', store') /\
    store_ok store'.
Proof.
  intros Hst Hs Hm Hr Hni. apply ready_plain in Hr. unfold filterArgs.
  destruct (args cmd) as [|a l] eqn:Ea; [by eexists _, _, _|]. destruct Hr as ((t & ->) & Hl).
  destruct (has_bit CHANNEL (arg_Type (text_argument t))) eqn:Ec.
  2: { apply loop_returns; try done. constructor; [by exists t|done]. }
  cbn [filter_loop]. unfold assign_arg, target_users. rewrite Ec.
  assert (has_bit NICK (arg_Type (text_argument t)) || has_bit USER (arg_Type (text_argument t)) = false) as ->.
  { destruct (text_type_cases (ToLower t)) as [Hm' He]. revert Ec. cbn [text_argument arg_Type].
    rewrite !elem_of_cons in Hm', He. rewrite list_elem_of_singleton in Hm'.
    destruct Hm' as [->|[->|[->| ->]]], He as [->|[->|[->|He]]];
      first [by apply not_elem_of_nil in He|by vm_compute]. }
  destruct state as [st|] eqn:Est; [|by eexists _, _, _].
  assert (exists r ev1, parseChanArg st cmd ev ircev 0 msgArgs channel isChan = Ret (r, ev1))
    as (r & ev1 & ->).
  { unfold parseChanArg. rewrite Ea. destruct msgArgs as [|x rest]; cbn [lookup list_lookup].
    - destruct isChan; by eexists _, _.
    - destruct (event_is_channel_returns ircev x Hni) as [b ->]. cbn [fmap go_fmap mbind go_bind].
      change (index (text_argument t :: l) 0) with (Ret (text_argument t)).
      change (index (x :: rest) 0) with (Ret x). cbn [mbind go_bind].
      destruct isChan, b; by eexists _, _. }
  cbn [mbind go_bind]. destruct r as [e|consumed]; [by eexists _, _, _|].
  destruct (has_bit VARIADIC _); [by eexists _, _, _|]. rewrite <- Est. by apply loop_returns.
Qed.

Lemma filterAccess_returns store cmd server ch ircev :
  store_ok store -> exists r, filterAccess store cmd server ch ircev = Ret r.
Proof.
  intros Hs. unfold filterAccess. destruct store as [s|]; [|by eexists].
  destruct (GetAuthedUser s server (Sender ircev)) as [l|] eqn:E; [|by eexists].
  destruct (sw_authed _ Hs _ _ E) as [u ->]. by eexists.
Qed.

Lemma run_command_returns c g server ircev store mt ms isChan ch name words :
  state_ok -> store_ok store -> cmds_wf c g -> nonempty words -> is_Some (NetInfo ircev) ->
  exists o store', run_command state has_method c g server ircev store mt ms isChan ch name words
    = Ret (o, store') /\ store_ok store'.
Proof.
  intros Hst Hs Hwf Hw Hni. unfold run_command. cbn zeta.
  destruct (commands c !! name) as [p|] eqn:Ep; [|by eexists _, _].
  destruct (cw_commands _ _ Hwf _ _ Ep) as (cmd & Hp & _ & Hr). rewrite Hp. cbn [deref mbind go_bind].
  destruct (decide (_ \/ _)); [by eexists _, _|].
  destruct (filterAccess_returns store cmd server ch ircev Hs) as [ra Hra].
  assert (exists access : bytes + ptr, (if RequireAuth cmd then
      r ← filterAccess store cmd server ch ircev;
      Ret match r with inl e => inl e | inr l => inr (Some l) end
    else Ret (inr None)) = Ret access) as [access ->].
  { destruct (RequireAuth cmd); [rewrite Hra|]; by eexists. }
  cbn [mbind go_bind]. destruct access as [e|su]; [by eexists _, _|].
  destruct (filterArgs_returns server cmd ch isChan words ircev (set_sender new_event None su None None) store)
    as (err & ev & store1 & -> & H1); [done..|]. cbn [mbind go_bind].
  destruct err as [e|]; [by eexists _, _|]. destruct Hr as (_ & Hh & _).
  destruct (cmd_Handler cmd) as [h|]; [|done]. by eexists _, _.
Qed.

Lemma Dispatch_runs c g server ov ircev store :
  state_ok -> store_ok store -> cmds_wf c g ->
  (message_bit ircev <> 0%Z -> 2 <= length ircev.(Args) /\ is_Some (NetInfo ircev)) ->
  exists o store', Dispatch state has_method c g server ov ircev store = Ret (o, store') /\
    store_ok store'.
Proof.
  intros Hst Hs Hwf Hev. unfold Dispatch. fold (message_bit ircev). cbn zeta.
  destruct (decide (message_bit ircev = 0%Z)) as [|Hb]; [by eexists _, _|].
  destruct (Hev Hb) as [Hlen Hni].
  destruct (lookup_lt_is_Some_2 (Args ircev) 1 ltac:(lia)) as [text Ht].
  destruct (lookup_lt_is_Some_2 (Args ircev) 0 ltac:(lia)) as [target Hg].
  unfold index at 1. rewrite Ht. cbn [deref mbind go_bind].
  pose proof (Fields_nonempty text) as Hf. destruct (Fields text) as [|word words]; [by eexists _, _|].
  apply Forall_cons in Hf as [Hword Hwords].
  assert (exists isChan, IsTargetChan ircev = Ret isChan) as [isChan Hc].
  { unfold IsTargetChan, index. rewrite Hg. cbn [deref mbind go_bind].
    destruct Hni as [ni ->]. destruct target; by eexists. }
  unfold CheckTarget. rewrite Hc. unfold Target, index. rewrite Hg. cbn [deref mbind go_bind].
  destruct isChan; cbn [mbind go_bind]; [|by apply run_command_returns].
  assert (exists b, has_prefix c ov (ToLower word) = Ret b) as [b ->].
  { unfold has_prefix. destruct (ToLower word) as [|q w] eqn:E; [|by eexists].
    by destruct (Hword (proj1 (ToLower_nil _) E)). }
  cbn [mbind go_bind]. destruct (_ || _); [by eexists _, _|]. by apply run_command_returns.
Qed.

(** C15. With a table of commands as registration leaves it and a state and a
    store that satisfy their invariants, dispatching any event returns: a
    message needs its target, its text and the network's information, and any
    other event nothing.  The store keeps its invariant. *)
Theorem Dispatch_returns c g server ov ircev store :
  state_ok -> store_ok store -> cmds_wf c g ->
  (message_bit ircev <> 0%Z -> 2 <= length ircev.(Args) /\ is_Some (NetInfo ircev)) ->
  exists o store', Dispatch state has_method c g server ov ircev store = Ret (o, store') /\
    store_ok store'.
Proof. apply Dispatch_runs. Qed.
End Dispatching.

(** ** Witnesses and runs *)

#[local] Existing Instance ascii_tables.
#[local] Existing Instance salted.
#[local] Existing Instance mem_kv.
#[local] Existing Instance name_gob.

Definition demo_cmd (name : bytes) : Cmd :=
  MkAuthCmd (bs "ext") (bs "says hello") name (Some 0) CMD_PRIVMSG ALL 5 [] [bs "#chan"; bs "who"; bs "[how]"].
Definition demo_registry : Registry :=
  {| cmd_heap := {[0 := demo_cmd (bs "hello"); 1 := demo_cmd (bs "Hello")]}; globalCmdRegistry := ∅ |}.
Definition demo_cmds : Cmds := NewCmds (code "!") {| chans := None; waiter := 0 |}.

Lemma Register_spec_witness :
  exists c' g', Register demo_cmds demo_registry (bs "net") 0 = Ret (None, c', g') /\
    commands c' !! bs "hello" = Some 0.
Proof.
  destruct (Register_spec demo_cmds demo_registry (bs "net") 0 (demo_cmd (bs "hello")) eq_refl)
    as (err & c' & g' & H1 & H2 & _ & H3).
  assert (err = None) as ->.
  { apply H2. assert ((parseArgs (demo_cmd (bs "hello"))).1 = None) as Hp by (vm_compute; reflexivity).
    pose proof (parseArgs_texts (demo_cmd (bs "hello"))) as Ht.
    destruct (parseArgs (demo_cmd (bs "hello"))) as [e cmd']. cbn in Hp. subst e.
    destruct Ht as [[Ht _] _]. repeat split; try reflexivity; try (intros [=]); apply Ht; reflexivity. }
  exists c', g'. split; [exact H1|]. exact (proj1 (H3 eq_refl)).
Defined.

Lemma demo_heap_ok : heap_ok (cmd_heap demo_registry).
Proof.
  intros p cmd H. unfold demo_registry in H. cbn [cmd_heap] in H.
  apply lookup_insert_Some in H as [[_ <-]|[_ H]]; [by intros [=]|].
  apply lookup_singleton_Some in H as [_ <-]. by intros [=].
Qed.

Definition demo_ops : list reg_op :=
  [OpRegister (bs "net") 1; OpUnregister (bs "net") (bs "Hello"); OpRegister GLOBAL 0].

Lemma demo_ops_exist server p :
  OpRegister server p ∈ demo_ops -> is_Some (cmd_heap demo_registry !! p).
Proof.
  unfold demo_ops. rewrite !elem_of_cons. intros [[= _ ->]|[[=]|[[= _ ->]|H]]];
    [by eexists|by eexists|by apply not_elem_of_nil in H].
Qed.

Lemma commands_ready_witness :
  exists c g, go_fold reg_step (demo_cmds, demo_registry) demo_ops = Ret (c, g) /\ cmds_wf c g.
Proof. exact (commands_ready _ _ _ _ demo_heap_ok demo_ops_exist). Defined.

Definition demo_after : Cmds * Registry :=
  match go_fold reg_step (demo_cmds, demo_registry) demo_ops with
  | Ret s => s
  | Panic => (demo_cmds, demo_registry)
  end.

Lemma demo_after_wf : cmds_wf demo_after.1 demo_after.2.
Proof.
  assert (cmds_wf demo_cmds demo_registry) as H by (split; [apply demo_heap_ok|by intros ? ? ?]).
  unfold demo_after. destruct (go_fold _ _ _) as [s|] eqn:E; [|exact H].
  refine (go_fold_inv (fun s => cmds_wf s.1 s.2) reg_step _ _ (demo_cmds, demo_registry) s H E).
  intros [c g] o [c' g'] _. apply reg_step_wf.
Qed.

Definition demo_access_store (level : Z) : Store := {|
  db := demo_db; cache := ∅; authed := {[bs "net" ++ bs "bob!b@home" := 0]}; checkedFirst := false;
  suheap := {[0 := {| su_Username := bs "bob"; su_Password := []; su_Masks := [];
                      su_Global := Some {| Level := level; Flags := 0 |};
                      su_Network := ∅; su_Channel := ∅; su_json := None |}]} |}.

Definition demo_say (text : bytes) : Event :=
  demo_event PRIVMSG (bs "bob!b@home") [bs "#chan"; text].
Definition demo_dispatch (level : Z) (text : bytes) : go (outcome * option Store) :=
  Dispatch (Some demo_welcomed) (fun _ _ => false) demo_after.1 demo_after.2 (bs "net") 0
    (demo_say text) (Some (demo_access_store level)).

(** What dispatch did: the command that is called and the arguments. *)
Definition summary (r : go (outcome * option Store)) : go (option (nat * cmd_call * list (bytes * bytes)) + bytes) :=
  '(o, _) ← r;
  Ret (match o with
       | Ignored => inl None
       | Refused _ e => inr e
       | Started h how ev => inl (Some (h, how, map_to_list ev.(ce_args)))
       end).

Example demo_said :
  map (fun t => summary (demo_dispatch 5 t)) [bs "!Hello Ann"; bs "hello Ann"; bs "!hello"; bs "!hello a b c"] =
  [Ret (inl (Some (0, CallCmd (bs "hello"), [(bs "who", bs "Ann"); (bs "chan", bs "#chan")])));
   Ret (inl None);
   Ret (inr (bs "Error: Expected at least 1 arguments. (#chan who [how])"));
   Ret (inr (bs "Error: Expected at most 3 arguments. (#chan who [how])"))].
Proof. vm_compute. reflexivity. Qed.

Example demo_refused :
  summary (demo_dispatch 4 (bs "!hello Ann")) = Ret (inr (bs "Access Denied: (5) level required.")).
Proof. vm_compute. reflexivity. Qed.

Definition demo_args (t : Z) (name : bytes) : argument :=
  {| Original := name; arg_Name := name; arg_Type := t |}.
Definition demo_shape : shape := {|
  s_chan := [demo_args (Z.lor CHANNEL REQUIRED) (bs "chan")]; s_req := [demo_args REQUIRED (bs "who")];
  s_opt := []; s_var := [demo_args VARIADIC (bs "rest")] |}.
Definition demo_parsed : Cmd :=
  with_args (demo_cmd (bs "hello")) (s_chan demo_shape ++ s_req demo_shape ++ s_var demo_shape) 2 0.


Lemma demo_access_wf level : store_ok (Some (demo_access_store level)).
Proof.
  split; cbn [cache authed suheap demo_access_store]; [by intros k p ?| |rewrite map_size_empty; lia].
  intros k l H. apply lookup_singleton_Some in H as [_ <-]. by eexists.
Qed.

Lemma Dispatch_returns_witness :
  exists o store', demo_dispatch 5 (bs "!Hello Ann") = Ret (o, store') /\ store_ok store'.
Proof.
  apply (Dispatch_returns (Some demo_welcomed) (fun _ _ => false) demo_after.1 demo_after.2 (bs "net") 0
           (demo_say (bs "!Hello Ann")) (Some (demo_access_store 5))).
  - exact demo_welcomed_wf.
  - apply demo_access_wf.
  - exact demo_after_wf.
  - intros _. split; [cbn; lia|by eexists].
Defined.

Lemma Dispatch_started_witness :
  exists h how ev store', demo_dispatch 5 (bs "!hello Ann") = Ret (Started h how ev, store') /\
    exists p cmd, commands demo_after.1 !! bs "hello" = Some p /\
      cmd_heap demo_after.2 !! p = Some cmd /\ cmd_Handler cmd = Some h.
Proof.
  assert (match demo_dispatch 5 (bs "!hello Ann") with
          | Ret (Started _ how _, _) => how = CallCmd (bs "hello") | _ => False end) as Hs
    by (vm_compute; reflexivity).
  destruct (demo_dispatch 5 (bs "!hello Ann")) as [[[|nick e|h how ev] store']|] eqn:E;
    [destruct Hs|destruct Hs| |destruct Hs].
  exists h, how, ev, store'. split; [reflexivity|]. unfold demo_dispatch in E.
  destruct (Dispatch_started _ _ _ _ _ _ _ _ _ _ _ _ E)
    as (isChan & ch & name & words & p & cmd & Hn & Hp & Hc & Hh & _).
  exists p, cmd. split; [|by split].
  destruct Hn as (text & word & Ht & Hf & Hn). cbn in Ht. injection Ht as <-.
  vm_compute in Hf. injection Hf as <- <-. destruct isChan.
  - destruct Hn as (_ & _ & _ & p0 & Hw & _). vm_compute in Hw. injection Hw as _ <-. exact Hp.
  - destruct Hn as (_ & Hn & _). exfalso. vm_compute in Hn. congruence.
Defined.

(** A command whose name has a capital can be registered but not called: the
    name in a message is folded, the key in the table is not. *)
Theorem capital_never_called :
  match Register demo_cmds demo_registry (bs "net") 1 with
  | Ret (err, c, g) =>
    err = None /\
    map (fun t => summary (Dispatch (Some demo_welcomed) (fun _ _ => false) c g (bs "net") 0
                             (demo_say t) (Some (demo_access_store 5))))
        [bs "!Hello Ann"; bs "!hello Ann"; bs "!HELLO Ann"]
    = [Ret (inl None); Ret (inl None); Ret (inl None)]
  | Panic => False
  end.
Proof. vm_compute. by split. Qed.

(** Registering a command globally does not look at the servers: a command
    that a server has registered is replaced in the dispatcher's table, and
    unregistering it for the server takes the other one away. *)
Theorem global_replaces_server c g p q cmd cmd' :
  cmd_heap g !! p = Some cmd -> cmd_heap g !! q = Some cmd' -> p <> q ->
  cmd'.(cmd_Cmd) = cmd.(cmd_Cmd) ->
  registrable g (bs "net") cmd -> registrable g GLOBAL cmd' ->
  exists c1 g1 c2 g2, Register c g (bs "net") p = Ret (None, c1, g1) /\
    Register c1 g1 GLOBAL q = Ret (None, c2, g2) /\
    commands c2 !! cmd.(cmd_Cmd) = Some q /\
    commands (Unregister c2 g2 (bs "net") cmd.(cmd_Cmd)).1.2 !! cmd.(cmd_Cmd) = None.
Proof.
  intros Hp Hq Hne Hname Hr Hg.
  destruct (Register_cases c g (bs "net") p cmd Hp) as [(e & _ & H)|[(e & c0 & _ & H & _)|[H _]]]; [done..|].
  eexists _, _. set (g1 := {| cmd_heap := _; globalCmdRegistry := _ |}) in H.
  set (c1 := {| core := _; prefix := _; commands := _ |}) in H.
  assert (cmd_heap g1 !! q = Some cmd') as Hq1 by (cbn [g1 cmd_heap]; by rewrite lookup_insert_ne).
  assert (registrable g1 GLOBAL cmd') as Hg1.
  { destruct Hg as (G1 & G2 & G3). unfold registrable. cbn [g1 globalCmdRegistry].
    rewrite Hname in *. rewrite lookup_insert_ne; [done|]. unfold makeIdentifier, GLOBAL.
    intros E. by injection E. }
  destruct (Register_cases c1 g1 GLOBAL q cmd' Hq1) as [(e & _ & Hn)|[(e & c0 & _ & Hn & _)|[H2 _]]]; [done..|].
  eexists _, _. split; [exact H|]. split; [exact H2|]. cbn [commands]. rewrite Hname, lookup_insert_eq.
  split; [done|]. unfold Unregister. cbn [commands fst snd]. by rewrite lookup_delete_eq.
Qed.
