(* ===== verification/ConfigMap.v ===== *)
(** * Package config: nested maps of dynamic values (config/map_helpers.go)

    A configuration is a tree of Go maps.  Maps are references: contexts point
    into the tree and setters change it in place, so maps live in a heap.  A
    map is kept in an interface under one of two types, [map[string]interface{}]
    or [mp], which type assertions tell apart.  Slices are never changed in
    place by the package and are values here, but the maps in a slice of maps
    are references like the others. *)

From Stdlib Require QArith_base.
From S2P Require Import Prelude GoStrings.

Notation Q := QArith_base.Q.
Notation q_of z := (QArith_base.Qmake z 1).

(** config/network.go [Channel] *)
Record CfgChannel := { ch_Name : bytes; ch_Password : bytes; ch_Prefix : bytes }.

(** The values of an interface: the numbers are those of the file format
    ([int64], [float64]) and of the setters ([uint]); floats are only stored
    and compared by type and are given by the rational they stand for. *)
Inductive val :=
  | VStr (s : bytes)
  | VBool (b : bool)
  | VInt64 (z : Z)
  | VUint (z : Z)
  | VFloat (q : Q)
  | VArr (l : list val)
  | VStrs (l : list bytes)
  | VMaps (l : list (option nat))
  | VChans (l : list CfgChannel)
  | VMap (p : option nat)
  | VMp (p : option nat)
  | VTime (text : bytes).

#[local] Notation ptr := (option nat).
(** The maps of all configurations. *)
Notation Heap := (gmap nat (gmap bytes val)).

Implicit Types (h : Heap) (m p : ptr) (v : val) (key name : bytes).

(** [m[key]]: a nil map has no entry. *)
Definition at_key h m key : option val := l ← m; mv ← h !! l; mv !! key.

(** [m[key] = v]: a write to a nil map panics. *)
Definition put_key h m key v : go Heap :=
  match m with
  | Some l => Ret (<[l := <[key := v]> (default ∅ (h !! l))]> h)
  | None => Panic
  end.

(** [make(map[string]interface{})] *)
Definition make_map h : nat * Heap :=
  let l := fresh (dom h) in (l, <[l := ∅]> h).

(** The entries of a map, in the order of a [range]. *)
Definition entries {RO : RangeOrder bytes} h m : list (bytes * val) :=
  match m with Some l => range (default ∅ (h !! l)) | None => [] end.

(** config/map_helpers.go [intfToMp] *)
Definition intfToMp (v : val) : ptr := match v with VMap p => p | _ => None end.

(** config/map_helpers.go [mp.get] *)
Definition get h m name : ptr :=
  match at_key h m name with Some (VMap p) | Some (VMp p) => p | _ => None end.

(** config/map_helpers.go [mp.ensure] *)
Definition ensure h m name : ptr * Heap :=
  match m with
  | None => (None, h)
  | Some l =>
    match at_key h m name with
    | Some (VMap p) | Some (VMp p) => (p, h)
    | Some _ => (None, h)
    | None =>
      let '(made, h) := make_map h in
      (Some made, <[l := <[name := VMap (Some made)]> (default ∅ (h !! l))]> h)
    end
  end.

(** config/map_helpers.go [mp.getArr] *)
Definition getArr h m name : list ptr :=
  match at_key h m name with Some (VMaps l) => l | _ => [] end.

(** [dest[key] = v] for a map that is there *)
Definition store_at h (dest : nat) key v : Heap :=
  <[dest := <[key := v]> (default ∅ (h !! dest))]> h.

(** A loop whose body can fail. *)
Fixpoint each {A : Type} (f : Heap -> A -> option Heap) h (l : list A) : option Heap :=
  match l with
  | [] => Some h
  | x :: l => h ← f h x; each f h l
  end.

(** config/map_helpers.go:69-102 [copyMap]: the switch, for the copying of
    nested maps.  A slice of maps is copied, its maps are not: each is copied
    to itself. *)
Definition copy_entry (copy : Heap -> nat -> ptr -> option Heap) (dest : nat) h (kv : bytes * val)
    : option Heap :=
  let '(key, value) := kv in
  match value with
  | VMap p | VMp p =>
    let '(child, h) := make_map h in
    copy (store_at h dest key (VMap (Some child))) child p
  | VMaps arr =>
    each (fun h srcMap => match srcMap with Some l => copy h l (Some l) | None => Some h end)
      (store_at h dest key (VMaps arr)) arr
  | v => Some (store_at h dest key v)
  end.

(** config/map_helpers.go [copyMap]: [None] when the fuel, a bound on the
    nesting, runs out.  The destination is never nil, but for an element of a
    slice of maps that is nil, which has nothing to copy. *)
Fixpoint copyMap {RO : RangeOrder bytes} (n : nat) h (dest : nat) (src : ptr) : option Heap :=
  match n with
  | 0 => None
  | S n => each (copy_entry (copyMap n) dest) h (entries h src)
  end.

(** config/map_helpers.go [mapGetter]: what the getters need of a context *)
Class MapGetter (M : Type) := {
  ctx_get : Heap -> M -> bytes -> option val;
  ctx_getParent : Heap -> M -> bytes -> option val;
}.
(** config/map_helpers.go [mapSetter] *)
Class MapSetter (M : Type) := { ctx_set : Heap -> M -> bytes -> val -> go Heap }.

(** config/map_helpers.go [setVal] *)
Definition setVal `{MapSetter M} h (c : M) key v : go Heap := ctx_set h c key v.

Section getters.
Context `{MapGetter M}.
Implicit Types (c : M) (fallback : bool).

(** The value of a key, or that of the parent when it has none. *)
Definition fetch h c key fallback : option val :=
  match ctx_get h c key with
  | Some v => Some v
  | None => if fallback then ctx_getParent h c key else None
  end.

(** config/map_helpers.go [getStr] *)
Definition getStr h c key fallback : bytes * bool :=
  match fetch h c key fallback with Some (VStr s) => (s, true) | _ => ([], false) end.

(** config/map_helpers.go [getBool] *)
Definition getBool h c key fallback : bool * bool :=
  match fetch h c key fallback with Some (VBool b) => (b, true) | _ => (false, false) end.

(** config/map_helpers.go [getUint]: the conversion of an [int64] wraps *)
Definition getUint h c key fallback : Z * bool :=
  match fetch h c key fallback with
  | Some (VInt64 z) => (z mod 2 ^ 64, true)%Z
  | Some (VUint z) => (z, true)
  | _ => (0%Z, false)
  end.

(** config/map_helpers.go [getFloat64] *)
Definition getFloat64 h c key fallback : Q * bool :=
  match fetch h c key fallback with Some (VFloat q) => (q, true) | _ => (q_of 0, false) end.

(** The strings of a slice of interfaces. *)
Definition strings_of (l : list val) : list bytes :=
  omap (fun v => match v with VStr s => Some s | _ => None end) l.

(** config/map_helpers.go [getStrArr] *)
Definition getStrArr h c key fallback : list bytes * bool :=
  match fetch h c key fallback with
  | Some (VArr []) | Some (VStrs []) => ([], false)
  | Some (VArr l) => (strings_of l, true)
  | Some (VStrs l) => (l, true)
  | _ => ([], false)
  end.
End getters.
