(* ===== verification/NetCTX.v ===== *)
(** * Package config: the context of a network (config/network.go)

    A context is two pointers into the tree of maps: the network's own map and
    the one its missing values come from.  A setter changes the map in place
    and gives back the same context, so what it returns here is the heap. *)

From S2P Require Import Prelude GoStrings ConfigMap.

Implicit Types (h : Heap) (key : bytes).

(** config/config.go:133-133 [defaultJoinDelay] *)
Definition defaultJoinDelay : Z := 5.
(** config/config.go:136-136 [defaultFloodLenPenalty] *)
Definition defaultFloodLenPenalty : Z := 120.
(** config/config.go:139-139 [defaultFloodTimeout] *)
Definition defaultFloodTimeout : Q := q_of 10.
(** config/config.go:142-142 [defaultFloodStep] *)
Definition defaultFloodStep : Q := q_of 2.
(** config/config.go:145-145 [defaultKeepAlive] *)
Definition defaultKeepAlive : Q := q_of 60.
(** config/config.go:147-147 [defaultReconnectTimeout] *)
Definition defaultReconnectTimeout : Z := 20.
(** config/config.go:149-149 [defaultPrefix] *)
Definition defaultPrefix : Z := code ".".

(** config/network.go [NetCTX] *)
Record NetCTX := { parent : option nat; network : option nat }.

Implicit Types (n : NetCTX).

(** config/network.go [NetCTX.get] *)
Definition get_ h n key : option val := at_key h n.(network) key.

(** config/network.go [NetCTX.getParent] *)
Definition getParent h n key : option val :=
  match n.(parent) with None => None | Some _ => at_key h n.(parent) key end.

(** config/network.go [NetCTX.set] *)
Definition set_ h n key (value : val) : go Heap := put_key h n.(network) key value.

#[export] Instance net_getter : MapGetter NetCTX := {| ctx_get := get_; ctx_getParent := getParent |}.
#[export] Instance net_setter : MapSetter NetCTX := {| ctx_set := set_ |}.

(** config/network.go [NetCTX.Nick] *)
Definition Nick h n : bytes * bool := getStr h n (bs "nick") true.
(** config/network.go [NetCTX.SetNick] *)
Definition SetNick h n (v : bytes) : go Heap := setVal h n (bs "nick") (VStr v).
(** config/network.go [NetCTX.Altnick] *)
Definition Altnick h n : bytes * bool := getStr h n (bs "altnick") true.
(** config/network.go [NetCTX.SetAltnick] *)
Definition SetAltnick h n (v : bytes) : go Heap := setVal h n (bs "altnick") (VStr v).
(** config/network.go [NetCTX.Username] *)
Definition Username h n : bytes * bool := getStr h n (bs "username") true.
(** config/network.go [NetCTX.SetUsername] *)
Definition SetUsername h n (v : bytes) : go Heap := setVal h n (bs "username") (VStr v).
(** config/network.go [NetCTX.Realname] *)
Definition Realname h n : bytes * bool := getStr h n (bs "realname") true.
(** config/network.go [NetCTX.SetRealname] *)
Definition SetRealname h n (v : bytes) : go Heap := setVal h n (bs "realname") (VStr v).
(** config/network.go [NetCTX.Password] *)
Definition Password h n : bytes * bool := getStr h n (bs "password") true.
(** config/network.go [NetCTX.SetPassword] *)
Definition SetPassword h n (v : bytes) : go Heap := setVal h n (bs "password") (VStr v).
(** config/network.go [NetCTX.SSL] *)
Definition SSL h n : bool * bool := getBool h n (bs "ssl") true.
(** config/network.go [NetCTX.SetSSL] *)
Definition SetSSL h n (v : bool) : go Heap := setVal h n (bs "ssl") (VBool v).
(** config/network.go [NetCTX.SSLCert] *)
Definition SSLCert h n : bytes * bool := getStr h n (bs "sslcert") true.
(** config/network.go [NetCTX.SetSSLCert] *)
Definition SetSSLCert h n (v : bytes) : go Heap := setVal h n (bs "sslcert") (VStr v).
(** config/network.go [NetCTX.NoVerifyCert] *)
Definition NoVerifyCert h n : bool * bool := getBool h n (bs "noverifycert") true.
(** config/network.go [NetCTX.SetNoVerifyCert] *)
Definition SetNoVerifyCert h n (v : bool) : go Heap := setVal h n (bs "noverifycert") (VBool v).
(** config/network.go [NetCTX.NoState] *)
Definition NoState h n : bool * bool := getBool h n (bs "nostate") true.
(** config/network.go [NetCTX.SetNoState] *)
Definition SetNoState h n (v : bool) : go Heap := setVal h n (bs "nostate") (VBool v).
(** config/network.go [NetCTX.NoStore] *)
Definition NoStore h n : bool * bool := getBool h n (bs "nostore") true.
(** config/network.go [NetCTX.SetNoStore] *)
Definition SetNoStore h n (v : bool) : go Heap := setVal h n (bs "nostore") (VBool v).
(** config/network.go [NetCTX.NoAutoJoin] *)
Definition NoAutoJoin h n : bool * bool := getBool h n (bs "noautojoin") true.
(** config/network.go [NetCTX.SetNoAutoJoin] *)
Definition SetNoAutoJoin h n (v : bool) : go Heap := setVal h n (bs "noautojoin") (VBool v).
(** config/network.go [NetCTX.JoinDelay] *)
Definition JoinDelay h n : Z * bool :=
  let '(v, ok) := getUint h n (bs "joindelay") true in
  if ok : bool then (v, true) else (defaultJoinDelay, false).
(** config/network.go [NetCTX.SetJoinDelay] *)
Definition SetJoinDelay h n (v : Z) : go Heap := setVal h n (bs "joindelay") (VUint v).
(** config/network.go [NetCTX.FloodLenPenalty] *)
Definition FloodLenPenalty h n : Z * bool :=
  let '(v, ok) := getUint h n (bs "floodlenpenalty") true in
  if ok : bool then (v, true) else (defaultFloodLenPenalty, false).
(** config/network.go [NetCTX.SetFloodLenPenalty] *)
Definition SetFloodLenPenalty h n (v : Z) : go Heap := setVal h n (bs "floodlenpenalty") (VUint v).
(** config/network.go [NetCTX.FloodTimeout] *)
Definition FloodTimeout h n : Q * bool :=
  let '(v, ok) := getFloat64 h n (bs "floodtimeout") true in
  if ok : bool then (v, true) else (defaultFloodTimeout, false).
(** config/network.go [NetCTX.SetFloodTimeout] *)
Definition SetFloodTimeout h n (v : Q) : go Heap := setVal h n (bs "floodtimeout") (VFloat v).
(** config/network.go [NetCTX.FloodStep] *)
Definition FloodStep h n : Q * bool :=
  let '(v, ok) := getFloat64 h n (bs "floodstep") true in
  if ok : bool then (v, true) else (defaultFloodStep, false).
(** config/network.go [NetCTX.SetFloodStep] *)
Definition SetFloodStep h n (v : Q) : go Heap := setVal h n (bs "floodstep") (VFloat v).
(** config/network.go [NetCTX.KeepAlive] *)
Definition KeepAlive h n : Q * bool :=
  let '(v, ok) := getFloat64 h n (bs "keepalive") true in
  if ok : bool then (v, true) else (defaultKeepAlive, false).
(** config/network.go [NetCTX.SetKeepAlive] *)
Definition SetKeepAlive h n (v : Q) : go Heap := setVal h n (bs "keepalive") (VFloat v).
(** config/network.go [NetCTX.NoReconnect] *)
Definition NoReconnect h n : bool * bool := getBool h n (bs "noreconnect") true.
(** config/network.go [NetCTX.SetNoReconnect] *)
Definition SetNoReconnect h n (v : bool) : go Heap := setVal h n (bs "noreconnect") (VBool v).
(** config/network.go [NetCTX.ReconnectTimeout] *)
Definition ReconnectTimeout h n : Z * bool :=
  let '(v, ok) := getUint h n (bs "reconnecttimeout") true in
  if ok : bool then (v, true) else (defaultReconnectTimeout, false).
(** config/network.go [NetCTX.SetReconnectTimeout] *)
Definition SetReconnectTimeout h n (v : Z) : go Heap := setVal h n (bs "reconnecttimeout") (VUint v).
(** config/network.go [NetCTX.Servers] *)
Definition Servers h n : list bytes * bool := getStrArr h n (bs "servers") false.
(** config/network.go [NetCTX.SetServers] *)
Definition SetServers h n (v : list bytes) : go Heap := setVal h n (bs "servers") (VStrs v).

(** config/network.go [NetCTX.Prefix]: the first byte as a rune *)
Definition Prefix h n : Z * bool :=
  match getStr h n (bs "prefix") true with
  | (c :: _, true) => (code c, true)
  | _ => (defaultPrefix, false)
  end.
(** config/network.go [NetCTX.SetPrefix] *)
Definition SetPrefix h n (v : Z) : go Heap := setVal h n (bs "prefix") (VStr (string_of_runes [v])).

(** config/network.go:256-270 [NetCTX.Channels]: one map of the array *)
Definition read_channel h (ch : option nat) : CfgChannel :=
  let str key := match at_key h ch key with Some (VStr s) => s | _ => [] end in
  {| ch_Name := str (bs "name"); ch_Password := str (bs "password"); ch_Prefix := str (bs "prefix") |}.

(** config/network.go [NetCTX.Channels] *)
Definition Channels h n : list CfgChannel * bool :=
  match (match at_key h n.(network) (bs "channels") with
         | Some v => Some v
         | None => at_key h n.(parent) (bs "channels")
         end) with
  | Some (VMaps arr) => (map (read_channel h) arr, true)
  | Some (VChans arr) => (arr, true)
  | _ => ([], false)
  end.
(** config/network.go [NetCTX.SetChannels] *)
Definition SetChannels h n (v : list CfgChannel) : go Heap := setVal h n (bs "channels") (VChans v).
