(* ===== verification/ExtCTX.v ===== *)
(** * Package config: the contexts of extensions (config/ext.go)

    One context for what all extensions share and one for each extension, both
    around the same pair of pointers; the settings that an extension passes on
    are kept in a tree of maps by network and channel. *)

From S2P Require Import Prelude GoStrings ConfigMap.
From S2P Require NetCTX.

Implicit Types (h : Heap) (key : bytes).

(** config/ext.go [ExtCTX] *)
Record ExtCTX := { parent : option nat; ext : option nat }.

Implicit Types (e : ExtCTX).

(** config/ext.go [ExtCTX.get] *)
Definition get_ h e key : option val := at_key h e.(ext) key.

(** config/ext.go [ExtCTX.getParent] *)
Definition getParent h e key : option val :=
  match e.(parent) with None => None | Some _ => at_key h e.(parent) key end.

(** config/ext.go [ExtCTX.set] *)
Definition set_ h e key (value : val) : go Heap := put_key h e.(ext) key value.

#[export] Instance ext_getter : MapGetter ExtCTX := {| ctx_get := get_; ctx_getParent := getParent |}.
#[export] Instance ext_setter : MapSetter ExtCTX := {| ctx_set := set_ |}.

(** config/ext.go [ExtCTX.UseJson] *)
Definition UseJson h e : bool * bool := getBool h e (bs "usejson") true.
(** config/ext.go [ExtCTX.SetUseJson] *)
Definition SetUseJson h e (v : bool) : go Heap := setVal h e (bs "usejson") (VBool v).
(** config/ext.go [ExtCTX.NoReconnect] *)
Definition NoReconnect h e : bool * bool := getBool h e (bs "noreconnect") true.
(** config/ext.go [ExtCTX.SetNoReconnect] *)
Definition SetNoReconnect h e (v : bool) : go Heap := setVal h e (bs "noreconnect") (VBool v).
(** config/ext.go [ExtCTX.SetReconnectTimeout] *)
Definition SetReconnectTimeout h e (v : Z) : go Heap := setVal h e (bs "reconnecttimeout") (VUint v).
(** config/ext.go [ExtCTX.ReconnectTimeout] *)
Definition ReconnectTimeout h e : Z * bool :=
  let '(v, ok) := getUint h e (bs "reconnecttimeout") true in
  if ok : bool then (v, true) else (NetCTX.defaultReconnectTimeout, false).

(** config/ext.go:76-101 [ExtCTX.Active]: the closure [copyArr] *)
Definition copyArr (arrVal : val) : list bytes :=
  match arrVal with
  | VArr v => strings_of v
  | VStrs v => v
  | _ => []
  end.

(** The channels a map of active channels holds for a network. *)
Definition active_in h (m : option nat) (network : bytes) : option (list bytes) :=
  arrVal ← at_key h (get h m (bs "active")) network;
  match copyArr arrVal with [] => None | arr => Some arr end.

(** config/ext.go [ExtCTX.Active] *)
Definition Active h e (network : bytes) : list bytes * bool :=
  match active_in h e.(ext) network with
  | Some arr => (arr, true)
  | None =>
    match (match e.(parent) with None => None | Some _ => active_in h e.(parent) network end) with
    | Some arr => (arr, true)
    | None => ([], false)
    end
  end.

(** config/ext.go [ExtCTX.SetActive]: a new map when there is none *)
Definition SetActive h e (network : bytes) (value : list bytes) : go Heap :=
  match get h e.(ext) (bs "active") with
  | Some acts => Ret (store_at h acts network (VStrs value))
  | None =>
    let '(made, h) := make_map h in
    put_key (store_at h made network (VStrs value)) e.(ext) (bs "active") (VMap (Some made))
  end.

(** config/ext.go [ExtGlobalCTX] *)
Definition ExtGlobalCTX : Type := ExtCTX.
(** config/ext.go [ExtGlobalCTX.ExecDir] *)
Definition ExecDir h e : bytes * bool := getStr h e (bs "execdir") false.
(** config/ext.go [ExtGlobalCTX.SetExecDir] *)
Definition SetExecDir h e (v : bytes) : go Heap := setVal h e (bs "execdir") (VStr v).
(** config/ext.go [ExtGlobalCTX.Listen] *)
Definition Listen h e : bytes * bool := getStr h e (bs "listen") false.
(** config/ext.go [ExtGlobalCTX.SetListen] *)
Definition SetListen h e (v : bytes) : go Heap := setVal h e (bs "listen") (VStr v).

(** The strings of a map, over those of [ret]. *)
Definition overlay {RO : RangeOrder bytes} h (m : option nat) (ret : gmap bytes bytes) : gmap bytes bytes :=
  foldl (fun ret '(k, v) => match v with VStr str => <[k := str]> ret | _ => ret end) ret (entries h m).

(** config/ext.go [ExtGlobalCTX.Config] *)
Definition Config {RO : RangeOrder bytes} h e (network channel : bytes) : gmap bytes bytes :=
  let nEmpty := bool_decide (network = []) in
  let cEmpty := bool_decide (channel = []) in
  let cfg := get h e.(ext) (bs "config") in
  let net := get h (get h cfg (bs "networks")) network in
  let ch := get h (get h cfg (bs "channels")) channel in
  let netch := get h (get h net (bs "channels")) channel in
  let ret := overlay h cfg ∅ in
  let ret := if negb nEmpty && cEmpty then overlay h net ret else ret in
  let ret := if negb cEmpty && nEmpty then overlay h ch ret else ret in
  if negb nEmpty && negb cEmpty then overlay h netch ret else ret.

(** [if val, ok := m[key]; ok { str, found = val.(string) }] *)
Definition assign_str h (m : option nat) key (r : bytes * bool) : bytes * bool :=
  match at_key h m key with
  | Some (VStr s) => (s, true)
  | Some _ => ([], false)
  | None => r
  end.

(** config/ext.go [ExtGlobalCTX.ConfigVal] *)
Definition ConfigVal h e (network channel key : bytes) : bytes * bool :=
  let nEmpty := bool_decide (network = []) in
  let cEmpty := bool_decide (channel = []) in
  match get h e.(ext) (bs "config") with
  | None => ([], false)
  | Some c =>
    let cfg := Some c in
    let r := assign_str h cfg key ([], false) in
    let r := if negb nEmpty && cEmpty
             then assign_str h (get h (get h cfg (bs "networks")) network) key r else r in
    let r := if negb cEmpty && nEmpty
             then assign_str h (get h (get h cfg (bs "channels")) channel) key r else r in
    if negb nEmpty && negb cEmpty
    then assign_str h (get h (get h (get h (get h cfg (bs "networks")) network) (bs "channels")) channel) key r
    else r
  end.

(** The keys that lead from the extension's map to the one a setting is kept
    in. *)
Definition config_path (network channel : bytes) : list bytes :=
  bs "config" ::
  match network, channel with
  | [], [] => []
  | _ :: _, [] => [bs "networks"; network]
  | [], _ :: _ => [bs "channels"; channel]
  | _ :: _, _ :: _ => [bs "networks"; network; bs "channels"; channel]
  end.

(** A chain of [ensure]. *)
Fixpoint ensure_path h (m : option nat) (path : list bytes) : option nat * Heap :=
  match path with
  | [] => (m, h)
  | name :: path => let '(m, h) := ensure h m name in ensure_path h m path
  end.

(** config/ext.go [ExtGlobalCTX.SetConfig]: a nil map, from a value in the way
    that is no map, panics. *)
Definition SetConfig h e (network channel key value : bytes) : go Heap :=
  let '(setMap, h) := ensure_path h e.(ext) (config_path network channel) in
  put_key h setMap key (VStr value).

(** config/ext.go [ExtNormalCTX] *)
Definition ExtNormalCTX : Type := ExtCTX.
(** config/ext.go [ExtNormalCTX.Exec] *)
Definition Exec h e : bytes * bool := getStr h e (bs "exec") false.
(** config/ext.go [ExtNormalCTX.SetExec] *)
Definition SetExec h e (v : bytes) : go Heap := setVal h e (bs "exec") (VStr v).
(** config/ext.go [ExtNormalCTX.Server] *)
Definition Server h e : bytes * bool := getStr h e (bs "server") false.
(** config/ext.go [ExtNormalCTX.SetServer] *)
Definition SetServer h e (v : bytes) : go Heap := setVal h e (bs "server") (VStr v).
(** config/ext.go [ExtNormalCTX.SSL] *)
Definition SSL h e : bool * bool := getBool h e (bs "ssl") false.
(** config/ext.go [ExtNormalCTX.SetSSL] *)
Definition SetSSL h e (v : bool) : go Heap := setVal h e (bs "ssl") (VBool v).
(** config/ext.go [ExtNormalCTX.SSLCert] *)
Definition SSLCert h e : bytes * bool := getStr h e (bs "sslcert") false.
(** config/ext.go [ExtNormalCTX.SetSSLCert] *)
Definition SetSSLCert h e (v : bytes) : go Heap := setVal h e (bs "sslcert") (VStr v).
(** config/ext.go [ExtNormalCTX.NoVerifyCert] *)
Definition NoVerifyCert h e : bool * bool := getBool h e (bs "noverifycert") false.
(** config/ext.go [ExtNormalCTX.SetNoVerifyCert] *)
Definition SetNoVerifyCert h e (v : bool) : go Heap := setVal h e (bs "noverifycert") (VBool v).
(** config/ext.go [ExtNormalCTX.Unix] *)
Definition Unix h e : bytes * bool := getStr h e (bs "unix") false.
(** config/ext.go [ExtNormalCTX.SetUnix] *)
Definition SetUnix h e (v : bytes) : go Heap := setVal h e (bs "unix") (VStr v).
