(* ===== verification/Config.v ===== *)
(** * Package config: the configuration (config/config.go)

    The root of the tree of maps with the errors of the last check and the
    name of the file.  Locks are not modelled: each method runs with the
    configuration to itself. *)

From S2P Require Import Prelude GoStrings ConfigMap.
From S2P Require NetCTX ExtCTX.

Implicit Types (h : Heap) (name : bytes).

(** config/config.go:128-128 [defaultStoreFile] *)
Definition defaultStoreFile : bytes := bs "./store.db".
(** config/config.go:130-130 [defaultLogLevel] *)
Definition defaultLogLevel : bytes := bs "info".
(** config/config_file.go:14-14 [defaultConfigFileName] *)
Definition defaultConfigFileName : bytes := bs "config.toml".

(** config/config.go [Config] *)
Record Config := { values : nat; errors : list bytes; filename : bytes }.

Implicit Types (c : Config).

(** The root as a map that is not nil. *)
Definition root c : option nat := Some c.(values).

(** config/config.go [Config.clear] *)
Definition clear h : Config * Heap :=
  let '(l, h) := make_map h in ({| values := l; errors := []; filename := [] |}, h).

(** config/config.go [Config.Clear] *)
Definition Clear h c : Config * Heap := clear h.

(** config/config.go [NewConfig] *)
Definition NewConfig h : Config * Heap := clear h.

(** config/config.go [Config.Clone]: [n] bounds the nesting *)
Definition Clone {RO : RangeOrder bytes} (n : nat) h c : option (Config * Heap) :=
  let '(nc, h) := NewConfig h in
  h ← copyMap n h nc.(values) (root c); Some (nc, h).

(** config/config.go [Config.Replace] *)
Definition Replace {RO : RangeOrder bytes} (n : nat) h c (newConfig : Config) : option (Config * Heap) :=
  let '(l, h) := make_map h in
  h ← copyMap n h l (root newConfig);
  Some ({| values := l; errors := c.(errors); filename := c.(filename) |}, h).

(** config/config.go [Config.Network] *)
Definition Network h c name : option NetCTX.NetCTX :=
  match name with
  | [] => Some {| NetCTX.parent := None; NetCTX.network := root c |}
  | _ =>
    match get h (root c) (bs "networks") with
    | None => None
    | Some nets =>
      match get h (Some nets) name with
      | None => None
      | Some net => Some {| NetCTX.parent := root c; NetCTX.network := Some net |}
      end
    end
  end.

(** config/config.go [Config.Networks] *)
Definition Networks {RO : RangeOrder bytes} h c : list bytes :=
  map fst (entries h (get h (root c) (bs "networks"))).

(** config/config.go [Config.Ext] *)
Definition Ext h c name : option ExtCTX.ExtNormalCTX :=
  match get h (root c) (bs "exts") with
  | None => None
  | Some exts =>
    match get h (Some exts) name with
    | None => None
    | Some ext => Some {| ExtCTX.parent := get h (root c) (bs "ext"); ExtCTX.ext := Some ext |}
    end
  end.

(** config/config.go [Config.ExtGlobal]: the map is made when there is none *)
Definition ExtGlobal h c : ExtCTX.ExtGlobalCTX * Heap :=
  match get h (root c) (bs "ext") with
  | Some ext => ({| ExtCTX.parent := None; ExtCTX.ext := Some ext |}, h)
  | None =>
    let '(ext, h) := make_map h in
    ({| ExtCTX.parent := None; ExtCTX.ext := Some ext |},
     store_at h c.(values) (bs "ext") (VMap (Some ext)))
  end.

(** config/config.go [Config.Exts] *)
Definition Exts {RO : RangeOrder bytes} h c : list bytes :=
  map fst (entries h (get h (root c) (bs "exts"))).

(** config/config.go [Config.DisplayErrors]: what is logged, in order *)
Definition DisplayErrors c : list bytes := c.(errors).

(** config/config.go [Config.Filename] *)
Definition Filename c : bytes :=
  match c.(filename) with [] => defaultConfigFileName | f => f end.

(** config/config.go [Config.StoreFile] *)
Definition StoreFile h c : bytes * bool :=
  match at_key h (root c) (bs "storefile") with
  | Some (VStr storefile) => (storefile, true)
  | _ => (defaultStoreFile, false)
  end.
(** config/config.go [Config.SetStoreFile] *)
Definition SetStoreFile h c (v : bytes) : Heap := store_at h c.(values) (bs "storefile") (VStr v).

(** config/config.go [Config.LogFile] *)
Definition LogFile h c : bytes * bool :=
  match at_key h (root c) (bs "logfile") with
  | Some (VStr logfile) => (logfile, true)
  | _ => ([], false)
  end.
(** config/config.go [Config.SetLogFile] *)
Definition SetLogFile h c (v : bytes) : Heap := store_at h c.(values) (bs "logfile") (VStr v).

(** config/config.go [Config.LogLevel] *)
Definition LogLevel h c : bytes * bool :=
  match at_key h (root c) (bs "loglevel") with
  | Some (VStr loglevel) => (loglevel, true)
  | _ => (defaultLogLevel, false)
  end.
(** config/config.go [Config.SetLogLevel] *)
Definition SetLogLevel h c (v : bytes) : Heap := store_at h c.(values) (bs "loglevel") (VStr v).

(** config/config.go [Config.NoCoreCmds] *)
Definition NoCoreCmds h c : bool * bool :=
  match at_key h (root c) (bs "nocorecmds") with
  | Some (VBool corecmds) => (corecmds, true)
  | _ => (false, false)
  end.
(** config/config.go [Config.SetNoCoreCmds] *)
Definition SetNoCoreCmds h c (v : bool) : Heap := store_at h c.(values) (bs "nocorecmds") (VBool v).

(** config/config.go [Config.NewNetwork]: maps of type
    [map[string]interface{}]; [None] is the nil context *)
Definition NewNetwork h c name : option NetCTX.NetCTX * Heap :=
  let '(nets, h) :=
    match get h (root c) (bs "networks") with
    | Some nets => (nets, h)
    | None => let '(nets, h) := make_map h in
              (nets, store_at h c.(values) (bs "networks") (VMap (Some nets)))
    end in
  match get h (Some nets) name with
  | Some _ => (None, h)
  | None =>
    let '(net, h) := make_map h in
    (Some {| NetCTX.parent := root c; NetCTX.network := Some net |},
     store_at h nets name (VMap (Some net)))
  end.

(** config/config.go [Config.NewExt]: maps of type [mp] *)
Definition NewExt h c name : option ExtCTX.ExtNormalCTX * Heap :=
  let '(exts, h) :=
    match get h (root c) (bs "exts") with
    | Some exts => (exts, h)
    | None => let '(exts, h) := make_map h in
              (exts, store_at h c.(values) (bs "exts") (VMp (Some exts)))
    end in
  match get h (Some exts) name with
  | Some _ => (None, h)
  | None =>
    let '(ext, h) := make_map h in
    let h := store_at h exts name (VMp (Some ext)) in
    (Some {| ExtCTX.parent := get h (root c) (bs "ext"); ExtCTX.ext := Some ext |}, h)
  end.
