(* ===== verification/Validation.v ===== *)
(** * Package config: validation (config/validation.go)

    The checks collect messages.  Maps are visited in any order; the text of a
    float, a slice or a map in a message is that of the parameter [print]. *)

From S2P Require Import Prelude GoStrings Fmt ConfigMap.
From S2P Require NetCTX ExtCTX Config.

Implicit Types (h : Heap) (m : option nat) (key name : bytes).

(** config/validation.go [validatorRules] *)
Record validatorRules := {
  stringVals : list bytes; stringSliceVals : list bytes; boolVals : list bytes;
  floatVals : list bytes; intVals : list bytes; uintVals : list bytes;
  mapVals : list bytes; mapArrVals : list bytes;
}.

(** config/validation.go [globalValidator] *)
Definition globalValidator : validatorRules := {|
  stringVals := [bs "storefile"; bs "loglevel"; bs "logfile"]; stringSliceVals := [];
  boolVals := [bs "nocorecmds"]; floatVals := []; intVals := []; uintVals := [];
  mapVals := [bs "ext"; bs "exts"; bs "networks"]; mapArrVals := [] |}.

(** config/validation.go [networkValidator] *)
Definition networkValidator : validatorRules := {|
  stringVals := [bs "nick"; bs "altnick"; bs "username"; bs "realname"; bs "password";
                 bs "sslcert"; bs "prefix"];
  stringSliceVals := [bs "servers"];
  boolVals := [bs "ssl"; bs "nostate"; bs "nostore"; bs "noautojoin"; bs "noreconnect";
               bs "noverifycert"];
  floatVals := [bs "floodtimeout"; bs "floodstep"; bs "keepalive"]; intVals := [];
  uintVals := [bs "reconnecttimeout"; bs "floodlenpenalty"; bs "joindelay"];
  mapVals := []; mapArrVals := [bs "channels"] |}.

(** config/validation.go [channelValidator] *)
Definition channelValidator : validatorRules := {|
  stringVals := [bs "name"; bs "prefix"; bs "password"]; stringSliceVals := []; boolVals := [];
  floatVals := []; intVals := []; uintVals := []; mapVals := []; mapArrVals := [] |}.

(** config/validation.go [extCommonValidator] *)
Definition extCommonValidator : validatorRules := {|
  stringVals := []; stringSliceVals := []; boolVals := [bs "usejson"; bs "noreconnect"];
  floatVals := []; intVals := []; uintVals := [bs "reconnecttimeout"];
  mapVals := [bs "active"]; mapArrVals := [] |}.

(** config/validation.go [extGlobalValidator] *)
Definition extGlobalValidator : validatorRules := {|
  stringVals := [bs "execdir"; bs "listen"]; stringSliceVals := []; boolVals := [];
  floatVals := []; intVals := []; uintVals := []; mapVals := [bs "config"]; mapArrVals := [] |}.

(** config/validation.go [extNormalValidator] *)
Definition extNormalValidator : validatorRules := {|
  stringVals := [bs "server"; bs "exec"; bs "sslcert"; bs "unix"]; stringSliceVals := [];
  boolVals := [bs "ssl"; bs "noreconnect"; bs "noverifycert"];
  floatVals := []; intVals := []; uintVals := []; mapVals := []; mapArrVals := [] |}.

(** Type tests. *)
Definition is_str (v : val) : bool := match v with VStr _ => true | _ => false end.
Definition is_bool (v : val) : bool := match v with VBool _ => true | _ => false end.
Definition is_float (v : val) : bool := match v with VFloat _ => true | _ => false end.
Definition is_int64 (v : val) : bool := match v with VInt64 _ => true | _ => false end.
Definition is_map (v : val) : bool := match v with VMap _ => true | _ => false end.
Definition is_maps (v : val) : bool := match v with VMaps _ => true | _ => false end.

Section Validation.
Context {RO : RangeOrder bytes} (print : Heap -> val -> bytes).

(** A value as an operand of a format. *)
Definition dyn h (v : val) : value :=
  match v with
  | VStr s => VString s
  | VBool b => VOther (bs "bool") (if b then bs "true" else bs "false")
  | VInt64 z => VInt (bs "int64") z
  | VUint z => VInt (bs "uint") z
  | VFloat _ => VOther (bs "float64") (print h v)
  | VArr _ => VOther (bs "[]interface {}") (print h v)
  | VStrs _ => VOther (bs "[]string") (print h v)
  | VMaps _ => VOther (bs "[]map[string]interface {}") (print h v)
  | VChans _ => VOther (bs "[]config.Channel") (print h v)
  | VMap _ => VOther (bs "map[string]interface {}") (print h v)
  | VMp _ => VOther (bs "config.mp") (print h v)
  | VTime _ => VOther (bs "time.Time") (print h v)
  end.

(** config/validation.go:319-322 [validatorRules.validateMap]: [addErr] *)
Definition map_error h name key (kind : bytes) (v : val) : bytes :=
  Sprintf (bs "(%s) %s is %T but expected %s [%v]")
    [VString name; VString key; dyn h v; VString kind; dyn h v].

(** One of the loops over keys: an error for each key that is there with a
    value of the wrong type. *)
Definition check_keys h m name (kind : bytes) (ok : val -> bool) (keys : list bytes) : list bytes :=
  flat_map (fun key => match at_key h m key with
                       | None => []
                       | Some v => if ok v then [] else [map_error h name key kind v]
                       end) keys.

(** config/validation.go:331-346 [validatorRules.validateMap]: the loop over
    the arrays of strings *)
Definition check_slices h m name (keys : list bytes) : list bytes :=
  flat_map (fun key => match at_key h m key with
                       | None | Some (VStrs _) => []
                       | Some (VArr l) =>
                         concat (imap (fun i v =>
                           if is_str v then []
                           else [map_error h name
                                   (Sprintf (bs "%s %d") [VString key; VInt (bs "int") (Z.of_nat i + 1)])
                                   (bs "string") v]) l)
                       | Some v => [map_error h name key (bs "array") v]
                       end) keys.

(** config/validation.go [validatorRules.validateMap] *)
Definition validateMap (r : validatorRules) h name m : list bytes :=
  check_keys h m name (bs "string") is_str r.(stringVals) ++
  check_slices h m name r.(stringSliceVals) ++
  check_keys h m name (bs "bool") is_bool r.(boolVals) ++
  check_keys h m name (bs "float64") is_float r.(floatVals) ++
  check_keys h m name (bs "int") is_int64 r.(uintVals) ++
  check_keys h m name (bs "map") is_map r.(mapVals) ++
  check_keys h m name (bs "map array") is_maps r.(mapArrVals).

(** config/validation.go:297-312 [validateActive]: the loop over the networks,
    which the first value that is no array ends *)
Fixpoint active_loop h (ext : bytes) (l : list (bytes * val)) : list bytes :=
  match l with
  | [] => []
  | (activeNet, VArr acts) :: l =>
    concat (imap (fun i chval =>
      if is_str chval then []
      else [Sprintf (bs "(%s active %s) %v %d is %T but expected string [%v]")
              [VString ext; VString activeNet; VString (bs "channel"); VInt (bs "int") (Z.of_nat i + 1);
               dyn h chval; dyn h chval]]) acts) ++ active_loop h ext l
  | (activeNet, v) :: _ =>
    [Sprintf (bs "(%s active) %s is %T but expected array [%v]")
       [VString ext; VString activeNet; dyn h v; dyn h v]]
  end.

(** config/validation.go [validateActive] *)
Definition validateActive h (ext : bytes) m : list bytes := active_loop h ext (entries h m).

(** config/validation.go [validateExtChanConfig] *)
Definition validateExtChanConfig h (net : bytes) m : list bytes :=
  let addErr ch kind key v :=
    let ctx := match net with
               | _ :: _ => Sprintf (bs "ext config %s%s") [VString net; VString ch]
               | [] => Sprintf (bs "ext config%s") [VString ch]
               end in
    Sprintf (bs "(%s) %s is %T but expected %s [%v]")
      [VString ctx; VString key; dyn h v; VString kind; dyn h v] in
  flat_map (fun '(key, v) =>
    match v with
    | VMap p => flat_map (fun '(keyname, val) =>
        if is_str val then [] else [addErr (bs " " ++ key) (bs "string") keyname val]) (entries h p)
    | v => [addErr [] (bs "map") key v]
    end) (entries h m).

(** config/validation.go [validateExtNetConfig] *)
Definition validateExtNetConfig h m : list bytes :=
  let addErr net kind key v :=
    Sprintf (bs "(ext config%s) %s is %T but expected %s [%v]")
      [VString net; VString key; dyn h v; VString kind; dyn h v] in
  flat_map (fun '(key, v) =>
    match v with
    | VMap p => flat_map (fun '(keyname, val) =>
        if decide (keyname = bs "channels") then
          match val with
          | VMap chs => validateExtChanConfig h key chs
          | _ => [addErr (bs " " ++ key) (bs "map") keyname val]
          end
        else if is_str val then [] else [addErr (bs " " ++ key) (bs "string") keyname val]) (entries h p)
    | v => [addErr [] (bs "map") key v]
    end) (entries h m).

(** config/validation.go [validateExtConfig] *)
Definition validateExtConfig h m : list bytes :=
  let addErr kind key v :=
    Sprintf (bs "(ext config) %s is %T but expected %s [%v]")
      [VString key; dyn h v; VString kind; dyn h v] in
  flat_map (fun '(key, v) =>
    match v with
    | VMap p =>
      if decide (key = bs "networks") then validateExtNetConfig h p
      else if decide (key = bs "channels") then validateExtChanConfig h [] p
      else [addErr (bs "string") key v]
    | VStr _ =>
      if decide (key = bs "networks" \/ key = bs "channels") then [addErr (bs "map") key v] else []
    | _ =>
      if decide (key = bs "networks" \/ key = bs "channels") then [addErr (bs "map") key v]
      else [addErr (bs "string") key v]
    end) (entries h m).

(** [if m := ...; m != nil { ... }] *)
Definition when_map (m : option nat) (f : option nat -> list bytes) : list bytes :=
  match m with None => [] | Some _ => f m end.

(** config/validation.go [Config.validateTypes] *)
Definition validateTypes h (c : Config.Config) : list bytes :=
  let values := Config.root c in
  validateMap globalValidator h (bs "global") values ++
  validateMap networkValidator h (bs "global") values ++
  when_map (get h values (bs "networks")) (fun nets =>
    flat_map (fun '(name, netVal) =>
      match intfToMp netVal with
      | None => [Sprintf (bs "(global networks) %s is %T but expected map [%v]")
                   [VString name; dyn h netVal; dyn h netVal]]
      | net =>
        validateMap networkValidator h name net ++
        flat_map (fun ch => validateMap channelValidator h (name ++ bs " channels") ch)
          (getArr h net (bs "channels"))
      end) (entries h nets)) ++
  when_map (get h values (bs "ext")) (fun ext =>
    validateMap extCommonValidator h (bs "ext") ext ++
    validateMap extGlobalValidator h (bs "ext") ext ++
    when_map (get h ext (bs "active")) (validateActive h (bs "ext")) ++
    when_map (get h ext (bs "config")) (validateExtConfig h)) ++
  when_map (get h values (bs "exts")) (fun exts =>
    flat_map (fun '(name, extVal) =>
      match intfToMp extVal with
      | None => [Sprintf (bs "(exts) %s is %T but expected map [%v]")
                   [VString name; dyn h extVal; dyn h extVal]]
      | ext =>
        validateMap extCommonValidator h name ext ++
        validateMap extNormalValidator h name ext ++
        when_map (get h ext (bs "active")) (validateActive h name)
      end) (entries h exts)).

(** The message for a field that is missing or empty. *)
Definition require (given : bytes * bool) (fmt name : bytes) : list bytes :=
  match given with (_ :: _, true) => [] | _ => [Sprintf fmt [VString name]] end.

(** config/validation.go:123-143 [Config.validateRequired]: one network; a nil
    context panics. *)
Definition required_network h (c : Config.Config) name (netval : val) : go (list bytes) :=
  match intfToMp netval with
  | None => Ret [Sprintf (bs "(%s) Expected network to be a map, got %T") [VString name; dyn h netval]]
  | Some _ =>
    ctx ← deref (Config.Network h c name);
    Ret (match NetCTX.Servers h ctx with
         | (_ :: _, true) => []
         | _ => [Sprintf (bs "(%s) Expected at least one server.") [VString name]]
         end ++
         require (NetCTX.Nick h ctx) (bs "(%s) Nickname is required.") name ++
         require (NetCTX.Username h ctx) (bs "(%s) Username is required.") name ++
         require (NetCTX.Realname h ctx) (bs "(%s) Realname is required.") name)
  end.

(** config/validation.go [Config.validateRequired] *)
Definition validateRequired h (c : Config.Config) : go (list bytes) :=
  match get h (Config.root c) (bs "networks") with
  | None => Ret [bs "Expected at least one network."]
  | nets => go_fold (fun ers '(name, netval) => e ← required_network h c name netval; Ret (ers ++ e))
              [] (entries h nets)
  end.

Definition with_errors (c : Config.Config) (l : list bytes) : Config.Config :=
  {| Config.values := c.(Config.values); Config.errors := l; Config.filename := c.(Config.filename) |}.

(** config/validation.go [Config.addError] *)
Definition addError (c : Config.Config) (format : bytes) (args : list value) : Config.Config :=
  with_errors c (c.(Config.errors) ++ [Sprintf format args]).

(** config/validation.go [Config.Errors] *)
Definition Errors (c : Config.Config) : list bytes := c.(Config.errors).

(** config/validation.go [Config.Validate] *)
Definition Validate h (c : Config.Config) : go (bool * Config.Config) :=
  match validateTypes h c with
  | (_ :: _) as ers => Ret (false, with_errors c ers)
  | [] =>
    ers ← validateRequired h c;
    match ers with
    | _ :: _ => Ret (false, with_errors c ers)
    | [] => Ret (true, c)
    end
  end.
End Validation.
