(* ===== verification/ConfigFile.v ===== *)
(** * Package config: reading and writing files (config/config_file.go)

    The TOML decoder and encoder and the file system are parameters: decoding
    fills the map it is given, even when it ends in an error. *)

From S2P Require Import Prelude GoStrings Fmt ConfigMap.
From S2P Require Config Validation.

Implicit Types (h : Heap) (c : Config.Config).

(** config/config_file.go:16-16 [errMsgInvalidConfigFile] *)
Definition errMsgInvalidConfigFile : bytes := bs "config: Failed to load config file (%v)".
(** config/config_file.go:18-18 [errMsgFileError] *)
Definition errMsgFileError : bytes := bs "config: Failed to open config file (%v)".

(** Package toml: decoding a text into a map, with the error, and the text of
    a map or the error. *)
Class Toml := {
  toml_decode : bytes -> Heap -> nat -> option bytes * Heap;
  toml_encode : Heap -> nat -> bytes + bytes;
}.

(** The file system: the content of a file, and creating one. *)
Class Files := {
  os_Open : bytes -> bytes + bytes;
  os_Create : bytes -> option bytes;
}.

Section Files.
Context {T : Toml} {F : Files}.

Definition error_value (e : bytes) : value := VOther (bs "error") e.

(** config/config_file.go [Config.FromReader] *)
Definition FromReader h c (reader : bytes) : Config.Config * Heap :=
  let '(c, h) := Config.clear h in
  let '(err, h) := toml_decode reader h c.(Config.values) in
  (match err with
   | Some e => Validation.addError c errMsgInvalidConfigFile [error_value e]
   | None => c
   end, h).

(** config/config_file.go [Config.FromString] *)
Definition FromString h c (config : bytes) : Config.Config * Heap := FromReader h c config.

Definition with_filename c (f : bytes) : Config.Config :=
  {| Config.values := c.(Config.values); Config.errors := c.(Config.errors); Config.filename := f |}.

(** config/config_file.go [Config.fromFile] *)
Definition fromFile h c (filename : bytes) (fn : bytes -> bytes + bytes) : Config.Config * Heap :=
  let filename := match filename with [] => Config.defaultConfigFileName | f => f end in
  match fn filename with
  | inl err => (Validation.addError c errMsgFileError [error_value err], h)
  | inr file => let '(c, h) := FromReader h c file in (with_filename c filename, h)
  end.

(** config/config_file.go [Config.FromFile] *)
Definition FromFile h c (filename : bytes) : Config.Config * Heap := fromFile h c filename os_Open.

(** config/config_file.go [Config.ToWriter]: the error or what is written *)
Definition ToWriter h c : bytes + bytes := toml_encode h c.(Config.values).

(** config/config_file.go [Config.toFile]: the error, and the file that is
    created with what is written to it *)
Definition toFile h c (filename : bytes) (getFile : bytes -> bytes + bytes) : option bytes * list (bytes * bytes) :=
  let filename := match filename with [] => Config.Filename c | f => f end in
  match getFile filename with
  | inl err => (Some err, [])
  | inr file =>
    match ToWriter h c with
    | inl err => (Some err, [(file, [])])
    | inr text => (None, [(file, text)])
    end
  end.

(** config/config_file.go [Config.ToFile]: the provider creates the file of
    the name that [ToFile] was given, not of the one it is called with *)
Definition ToFile h c (filename : bytes) : option bytes * list (bytes * bytes) :=
  let provider := fun _ : bytes =>
    match os_Create filename with Some err => inl err | None => inr filename end in
  toFile h c filename provider.
End Files.
