(* ===== verification/ConfigSpec.v ===== *)
(** * Package config: what the contexts, the tree and the checks guarantee

    The maps of a configuration form a tree: no map has two parents.  The
    invariant is kept by every operation that makes or changes maps, and with
    it a setting is visible exactly where it should be.  The last part shows
    what a successful check means, and where settings made by the program are
    refused by it. *)

From S2P Require Import Prelude GoStrings Fmt ConfigMap.
From S2P Require NetCTX ExtCTX Config Validation ConfigFile.

#[local] Existing Instances NetCTX.net_getter NetCTX.net_setter ExtCTX.ext_getter ExtCTX.ext_setter.

Implicit Types (h : Heap) (key name : bytes) (v : val) (l : nat).

(** ** Reading and writing through the heap *)

Lemma at_key_store h l key v p key' :
  at_key (store_at h l key v) p key' =
  if decide (p = Some l /\ key' = key) then Some v else at_key h p key'.
Proof.
  unfold at_key, store_at. destruct p as [l'|]; [|by rewrite decide_False by naive_solver].
  cbn. destruct (decide (l' = l)) as [->|Hl].
  - rewrite lookup_insert_eq. cbn. destruct (decide (key' = key)) as [->|Hk].
    + by rewrite lookup_insert_eq, decide_True by done.
    + rewrite lookup_insert_ne, decide_False by naive_solver.
      destruct (h !! l) as [m|]; cbn; [done|apply lookup_empty].
  - by rewrite lookup_insert_ne, decide_False by naive_solver.
Qed.

Lemma make_map_fresh h l h' :
  make_map h = (l, h') ->
  l ∉ dom h /\ dom h' = {[l]} ∪ dom h /\ (forall p key, at_key h' p key = at_key h p key) /\
  (forall key, at_key h (Some l) key = None).
Proof.
  unfold make_map. intros [= <- <-]. pose proof (is_fresh (dom h)) as Hf.
  set (l := fresh (dom h)) in *. apply not_elem_of_dom in Hf as Hn.
  assert (forall key, at_key h (Some l) key = None) as E by (intros key; unfold at_key; cbn; by rewrite Hn).
  split; [done|]. split; [by rewrite dom_insert_L|]. split; [|done].
  intros [l'|] key; [|done]. destruct (decide (l' = l)) as [->|Hl].
  - rewrite E. unfold at_key. cbn. by rewrite lookup_insert_eq.
  - unfold at_key. cbn. by rewrite lookup_insert_ne.
Qed.

Lemma dom_store h l key v : dom (store_at h l key v) = {[l]} ∪ dom h.
Proof. unfold store_at. by rewrite dom_insert_L. Qed.

Lemma put_key_Some h l key v : put_key h (Some l) key v = Ret (store_at h l key v).
Proof. done. Qed.

(** ** The tree *)

(** The maps that hang on a value. *)
Definition children (v : val) : list nat :=
  match v with
  | VMap (Some l) | VMp (Some l) => [l]
  | VMaps ls => omap id ls
  | _ => []
  end.

Definition edge h l key (l' : nat) : Prop :=
  exists v, at_key h (Some l) key = Some v /\ l' ∈ children v.

Record tree_wf h : Prop := {
  tw_closed : forall l key l', edge h l key l' -> l' ∈ dom h;
  tw_unique : forall l1 k1 l2 k2 l', edge h l1 k1 l' -> edge h l2 k2 l' -> l1 = l2 /\ k1 = k2;
}.

(** The root of a configuration hangs on nothing. *)
Record config_wf h (c : Config.Config) : Prop := {
  cf_tree : tree_wf h;
  cf_root : c.(Config.values) ∈ dom h;
  cf_top : forall l key, ~ edge h l key c.(Config.values);
}.

(** A value without maps. *)
Definition scalar v : Prop := children v = [].

Lemma edge_store h l key v l1 k1 l' :
  edge (store_at h l key v) l1 k1 l' <->
  (l1 = l /\ k1 = key /\ l' ∈ children v) \/ (~ (l1 = l /\ k1 = key) /\ edge h l1 k1 l').
Proof.
  unfold edge. setoid_rewrite at_key_store. destruct (decide (Some l1 = Some l /\ k1 = key)) as [[E ->]|Hn].
  - injection E as ->. split; [|naive_solver]. intros (w & [= <-] & Hw). by left.
  - split; [|naive_solver]. intros (w & Hw & Hc). right. split; [naive_solver|eauto].
Qed.

Lemma edge_make h l h' l1 k1 l' : make_map h = (l, h') -> edge h' l1 k1 l' <-> edge h l1 k1 l'.
Proof.
  intros H. destruct (make_map_fresh _ _ _ H) as (_ & _ & E & _). unfold edge. by setoid_rewrite E.
Qed.

Lemma store_scalar_wf h c l key v :
  config_wf h c -> l ∈ dom h -> scalar v -> config_wf (store_at h l key v) c.
Proof.
  intros [[H1 H2] H3 H4] Hl Hv.
  assert (forall l1 k1 l', edge (store_at h l key v) l1 k1 l' -> edge h l1 k1 l') as Hsub.
  { intros l1 k1 l' He. apply edge_store in He as [(_ & _ & Hc)|[_ He]]; [|done].
    rewrite Hv in Hc. by apply not_elem_of_nil in Hc. }
  split; [split|..].
  - intros l1 k1 l' He. rewrite dom_store. apply Hsub, H1 in He. set_solver.
  - intros l1 k1 l2 k2 l' He1 He2. eapply H2; by apply Hsub.
  - rewrite dom_store. set_solver.
  - intros l1 k1 He. by apply Hsub, H4 in He.
Qed.

(** A new map hung on a map that is there. *)
Lemma hang_wf h c h' made l key v :
  config_wf h c -> l ∈ dom h -> make_map h = (made, h') -> children v = [made] ->
  config_wf (store_at h' l key v) c.
Proof.
  intros [[H1 H2] H3 H4] Hl Hm Hv. destruct (make_map_fresh _ _ _ Hm) as (Hf & Hd & _ & _).
  assert (forall l1 k1 l', edge (store_at h' l key v) l1 k1 l' ->
            (l1 = l /\ k1 = key /\ l' = made) \/ (edge h l1 k1 l' /\ l' <> made)) as Hsub.
  { intros l1 k1 l' He. apply edge_store in He as [(-> & -> & Hc)|[_ He]].
    - left. rewrite Hv in Hc. by apply list_elem_of_singleton in Hc.
    - right. apply (edge_make _ _ _ _ _ _ Hm) in He. split; [done|]. intros ->. by apply H1 in He. }
  split; [split|..].
  - intros l1 k1 l' He. rewrite dom_store, Hd. apply Hsub in He as [(_ & _ & ->)|[He _]]; [set_solver|].
    apply H1 in He. set_solver.
  - intros l1 k1 l2 k2 l' He1 He2.
    apply Hsub in He1 as [(-> & -> & E)|[He1 E]], He2 as [(-> & -> & E')|[He2 E']]; try naive_solver.
  - rewrite dom_store, Hd. set_solver.
  - intros l1 k1 He. apply Hsub in He as [(_ & _ & E)|[He _]]; [|by apply H4 in He].
    rewrite E in H3. done.
Qed.

Lemma get_edge h l name l' : get h (Some l) name = Some l' -> edge h l name l'.
Proof.
  unfold get, edge. destruct (at_key h (Some l) name) as [[]|]; try done;
    intros ->; (eexists; split; [done|]); by left.
Qed.

Lemma get_store h l key v p name :
  get (store_at h l key v) p name =
  if decide (p = Some l /\ name = key) then match v with VMap q | VMp q => q | _ => None end
  else get h p name.
Proof. unfold get. rewrite at_key_store. by destruct (decide _). Qed.

Lemma get_make h l h' p name : make_map h = (l, h') -> get h' p name = get h p name.
Proof. intros H. unfold get. by destruct (make_map_fresh _ _ _ H) as (_ & _ & -> & _). Qed.

(** ** The contexts of networks *)

Lemma Network_Some h c name n :
  Config.Network h c name = Some n ->
  (name = [] /\ n = {| NetCTX.parent := None; NetCTX.network := Config.root c |}) \/
  (name <> [] /\ exists nets net, get h (Config.root c) (bs "networks") = Some nets /\
     get h (Some nets) name = Some net /\
     n = {| NetCTX.parent := Config.root c; NetCTX.network := Some net |}).
Proof.
  unfold Config.Network. destruct name as [|b name]; [intros [= <-]; by left|].
  destruct (get h (Config.root c) _) as [nets|] eqn:E1; [|done].
  destruct (get h (Some nets) _) as [net|] eqn:E2; [|done].
  intros [= <-]. right. split; [done|]. by exists nets, net.
Qed.

(** The maps of the root, of the table of networks and of two networks are
    different. *)
Lemma network_maps h c nets a la :
  config_wf h c -> get h (Config.root c) (bs "networks") = Some nets ->
  get h (Some nets) a = Some la ->
  nets <> Config.values c /\ la <> Config.values c /\ la <> nets /\
  (forall b lb, get h (Some nets) b = Some lb -> lb = la -> a = b) /\
  nets ∈ dom h /\ la ∈ dom h.
Proof.
  intros Hwf Hn Ha. pose proof (get_edge _ _ _ _ Hn) as En. pose proof (get_edge _ _ _ _ Ha) as Ea.
  pose proof (cf_top _ _ Hwf) as Ht. destruct (cf_tree _ _ Hwf) as [Hc Hu].
  split; [intros ->; by apply Ht in En|]. split; [intros ->; by apply Ht in Ea|].
  split; [intros ->; destruct (Hu _ _ _ _ _ En Ea) as [<- _]; by apply Ht in Ea|].
  split; [|split; by eapply Hc].
  intros b lb Hb ->. apply get_edge in Hb. by destruct (Hu _ _ _ _ _ Ea Hb).
Qed.

(** What is seen of a key through a context after it was set to [v] through
    the context of [a]. *)
Definition visible h (a b : bytes) (n : NetCTX.NetCTX) key key' v : option val :=
  if decide (key' = key) then
    if decide (a = b) then Some v
    else if decide (a = []) then
      match NetCTX.get_ h n key with Some w => Some w | None => Some v end
    else fetch h n key true
  else fetch h n key' true.

Lemma setting_scope_ok h c a n key v :
  config_wf h c -> Config.Network h c a = Some n -> scalar v ->
  (a = [] -> key <> bs "networks") ->
  exists h', setVal h n key v = Ret h' /\ config_wf h' c /\
    (forall b, Config.Network h' c b = Config.Network h c b) /\
    (forall b nb key', Config.Network h c b = Some nb ->
       fetch h' nb key' true = visible h a b nb key key' v).
Proof.
  intros Hwf Ha Hv Hk. unfold setVal. cbn. unfold NetCTX.set_.
  destruct (Network_Some _ _ _ _ Ha) as [[-> ->]|(Hne & nets & la & Hn & Hla & ->)].
  - specialize (Hk eq_refl). cbn [NetCTX.network]. unfold Config.root. rewrite put_key_Some.
    eexists. split; [reflexivity|]. split; [apply store_scalar_wf; [done|apply Hwf|done]|].
    assert (forall b, Config.Network (store_at h (Config.values c) key v) c b = Config.Network h c b) as Hnet.
    { intros [|x b]; [done|]. unfold Config.Network. rewrite get_store.
      rewrite decide_False by (intros [_ E]; by apply Hk).
      destruct (get h (Config.root c) (bs "networks")) as [nets|] eqn:En; [|done].
      rewrite get_store, decide_False; [done|]. intros [[= ->] _].
      apply get_edge in En. by apply (cf_top _ _ Hwf) in En. }
    split; [exact Hnet|]. intros b nb key' Hb. unfold visible, fetch. cbn [ctx_get ctx_getParent NetCTX.net_getter].
    destruct (Network_Some _ _ _ _ Hb) as [[-> ->]|(Hbne & nets & lb & Hn & Hlb & ->)];
      unfold NetCTX.get_, NetCTX.getParent, Config.root; cbn [NetCTX.network NetCTX.parent];
      rewrite !at_key_store.
    + destruct (decide (key' = key)) as [->|Hkk]; [by rewrite !decide_True by done|].
      by rewrite decide_False by naive_solver.
    + destruct (network_maps _ _ _ _ _ Hwf Hn Hlb) as (_ & Hlr & _).
      rewrite (decide_False (P := Some lb = Some (Config.values c) /\ key' = key)) by naive_solver.
      destruct (decide (key' = key)) as [->|Hkk]; [|by rewrite decide_False by naive_solver].
      rewrite decide_True by done. case_decide as E2; [by subst b|]. by case_decide.
  - cbn [NetCTX.network]. rewrite put_key_Some. destruct (network_maps _ _ _ _ _ Hwf Hn Hla)
      as (Hnr & Hlr & Hln & Hinj & _ & Hdom).
    eexists. split; [reflexivity|]. split; [by apply store_scalar_wf|].
    split.
    { intros [|x b]; [done|]. unfold Config.Network, Config.root in *. rewrite get_store.
      rewrite decide_False by naive_solver. rewrite Hn. rewrite get_store.
      by rewrite decide_False by naive_solver. }
    intros b nb key' Hb. unfold visible, fetch. cbn [ctx_get ctx_getParent NetCTX.net_getter].
    rewrite (decide_False (P := a = [])) by done.
    destruct (Network_Some _ _ _ _ Hb) as [[-> ->]|(Hbne & nets' & lb & Hn' & Hlb & ->)];
      unfold NetCTX.get_, NetCTX.getParent, Config.root in *; cbn [NetCTX.network NetCTX.parent];
      rewrite !at_key_store.
    + rewrite !(decide_False (P := Some (Config.values c) = Some la /\ key' = key)) by naive_solver.
      rewrite (decide_False (P := a = [])) by done.
      by destruct (decide (key' = key)) as [->|Hkk].
    + assert (nets' = nets) as -> by congruence.
      rewrite !(decide_False (P := Some (Config.values c) = Some la /\ key' = key)) by naive_solver.
      destruct (decide (key' = key)) as [->|Hkk]; [|by rewrite decide_False by naive_solver].
      destruct (decide (a = b)) as [->|Hab].
      * assert (lb = la) as -> by congruence. by rewrite decide_True by done.
      * rewrite decide_False; [done|]. intros [[= ->] _]. by apply Hab, (Hinj b la).
Qed.


(** ** Every operation keeps the tree *)

Implicit Types (c : Config.Config).

Lemma get_dom h c l name l' : config_wf h c -> get h (Some l) name = Some l' -> l' ∈ dom h.
Proof. intros Hwf H. apply get_edge in H. by eapply (tw_closed _ (cf_tree _ _ Hwf)). Qed.

Lemma dom_hang h h' made l key v :
  make_map h = (made, h') -> l ∈ dom h -> made ∈ dom (store_at h' l key v) /\ l ∈ dom (store_at h' l key v).
Proof.
  intros Hm Hl. destruct (make_map_fresh _ _ _ Hm) as (_ & Hd & _). rewrite dom_store, Hd. set_solver.
Qed.

Lemma NewNetwork_wf h c name n h' :
  config_wf h c -> Config.NewNetwork h c name = (n, h') -> config_wf h' c.
Proof.
  intros Hwf. unfold Config.NewNetwork.
  assert (forall nets h1, config_wf h1 c -> nets ∈ dom h1 ->
    (match get h1 (Some nets) name with
     | Some _ => (None, h1)
     | None => let '(net, h2) := make_map h1 in
               (Some {| NetCTX.parent := Config.root c; NetCTX.network := Some net |},
                store_at h2 nets name (VMap (Some net)))
     end) = (n, h') -> config_wf h' c) as Hin.
  { intros nets h1 Hwf1 Hd. destruct (get h1 (Some nets) name); [by intros [= _ <-]|].
    destruct (make_map h1) as [net h2] eqn:E. intros [= _ <-]. by eapply hang_wf. }
  destruct (get h (Config.root c) _) as [nets|] eqn:E.
  - apply Hin; [done|]. by eapply get_dom.
  - destruct (make_map h) as [nets h1] eqn:E1. apply Hin.
    + eapply hang_wf; [done|apply Hwf|done|done].
    + by eapply dom_hang; [|apply Hwf].
Qed.

Lemma NewExt_wf h c name n h' :
  config_wf h c -> Config.NewExt h c name = (n, h') -> config_wf h' c.
Proof.
  intros Hwf. unfold Config.NewExt.
  assert (forall exts h1, config_wf h1 c -> exts ∈ dom h1 ->
    (match get h1 (Some exts) name with
     | Some _ => (None, h1)
     | None => let '(ext, h2) := make_map h1 in
               let h2 := store_at h2 exts name (VMp (Some ext)) in
               (Some {| ExtCTX.parent := get h2 (Config.root c) (bs "ext"); ExtCTX.ext := Some ext |}, h2)
     end) = (n, h') -> config_wf h' c) as Hin.
  { intros exts h1 Hwf1 Hd. destruct (get h1 (Some exts) name); [by intros [= _ <-]|].
    destruct (make_map h1) as [ext h2] eqn:E. intros [= _ <-]. by eapply hang_wf. }
  destruct (get h (Config.root c) _) as [exts|] eqn:E.
  - apply Hin; [done|]. by eapply get_dom.
  - destruct (make_map h) as [exts h1] eqn:E1. apply Hin.
    + eapply hang_wf; [done|apply Hwf|done|done].
    + by eapply dom_hang; [|apply Hwf].
Qed.

(** A context whose map is there. *)
Definition ext_in h (e : ExtCTX.ExtCTX) : Prop := exists l, e.(ExtCTX.ext) = Some l /\ l ∈ dom h.

Lemma ExtGlobal_wf h c e h' :
  config_wf h c -> Config.ExtGlobal h c = (e, h') -> config_wf h' c /\ ext_in h' e.
Proof.
  intros Hwf. unfold Config.ExtGlobal. destruct (get h (Config.root c) _) as [ext|] eqn:E.
  - intros [= <- <-]. split; [done|]. exists ext. split; [done|]. by eapply get_dom.
  - destruct (make_map h) as [ext h1] eqn:E1. intros [= <- <-].
    split; [by eapply hang_wf; [|apply Hwf| |]|]. exists ext. split; [done|].
    by eapply dom_hang; [|apply Hwf].
Qed.

Lemma Ext_in h c name e : config_wf h c -> Config.Ext h c name = Some e -> ext_in h e.
Proof.
  intros Hwf. unfold Config.Ext. destruct (get h (Config.root c) (bs "exts")) as [exts|] eqn:E; [|done].
  destruct (get h (Some exts) name) as [ext|] eqn:E2; [|done]. intros [= <-].
  exists ext. split; [done|]. by eapply get_dom.
Qed.

Lemma ensure_wf h c m name m' h' :
  config_wf h c -> (forall l, m = Some l -> l ∈ dom h) -> ensure h m name = (m', h') ->
  config_wf h' c /\ (forall l, m' = Some l -> l ∈ dom h').
Proof.
  intros Hwf Hm. unfold ensure. destruct m as [l|]; [|by intros [= <- <-]].
  specialize (Hm l eq_refl).
  destruct (at_key h (Some l) name) as [v|] eqn:E.
  - assert (forall p, v = VMap p \/ v = VMp p -> forall l', p = Some l' -> l' ∈ dom h) as Hp.
    { intros p Hv l' ->. eapply (tw_closed _ (cf_tree _ _ Hwf) l name). exists v. split; [done|].
      destruct Hv as [-> | ->]; by left. }
    destruct v; intros [= <- <-]; split; try done; (eapply Hp; by eauto).
  - destruct (make_map h) as [made h1] eqn:E1. intros [= <- <-].
    split; [by apply (hang_wf h c h1 made l name (VMap (Some made)) Hwf Hm E1)|].
    intros l' [= <-]. by apply (dom_hang h h1 made l name (VMap (Some made)) E1).
Qed.

Lemma ensure_path_wf h c m path m' h' :
  config_wf h c -> (forall l, m = Some l -> l ∈ dom h) -> ExtCTX.ensure_path h m path = (m', h') ->
  config_wf h' c /\ (forall l, m' = Some l -> l ∈ dom h').
Proof.
  revert h m. induction path as [|name path IH]; intros h m Hwf Hm; cbn [ExtCTX.ensure_path].
  { by intros [= <- <-]. }
  destruct (ensure h m name) as [m1 h1] eqn:E. intros H.
  destruct (ensure_wf _ _ _ _ _ _ Hwf Hm E) as [Hwf1 Hm1]. by apply IH in H.
Qed.

(** What a program does to a configuration: the contexts it makes, and the
    settings through them. *)
Inductive config_op :=
  | ONewNetwork (name : bytes)
  | ONewExt (name : bytes)
  | OExtGlobal
  | OSetNetwork (name key : bytes) (v : val)
  | OSetExt (name key : bytes) (v : val)
  | OSetActive (name network : bytes) (channels : list bytes)
  | OSetConfig (network channel key value : bytes).

(** A setter of a nil context panics. *)
Definition config_step (c : Config.Config) (h : Heap) (o : config_op) : go Heap :=
  match o with
  | ONewNetwork name => Ret (Config.NewNetwork h c name).2
  | ONewExt name => Ret (Config.NewExt h c name).2
  | OExtGlobal => Ret (Config.ExtGlobal h c).2
  | OSetNetwork name key v => n ← deref (Config.Network h c name); setVal h n key v
  | OSetExt name key v => e ← deref (Config.Ext h c name); setVal h e key v
  | OSetActive name network channels =>
    e ← deref (Config.Ext h c name); ExtCTX.SetActive h e network channels
  | OSetConfig network channel key value =>
    let '(e, h) := Config.ExtGlobal h c in ExtCTX.SetConfig h e network channel key value
  end.

(** The setters store no maps, and none of them replaces the table of
    networks. *)
Definition op_ok (o : config_op) : Prop :=
  match o with
  | OSetNetwork _ _ v | OSetExt _ _ v => scalar v
  | _ => True
  end.

Lemma Network_in h c name n :
  config_wf h c -> Config.Network h c name = Some n -> exists l, n.(NetCTX.network) = Some l /\ l ∈ dom h.
Proof.
  intros Hwf H. destruct (Network_Some _ _ _ _ H) as [[_ ->]|(_ & nets & net & H1 & H2 & ->)].
  - eexists. split; [done|apply Hwf].
  - eexists. split; [done|]. by eapply get_dom.
Qed.

Lemma SetActive_wf h c e network channels h' :
  config_wf h c -> ext_in h e -> ExtCTX.SetActive h e network channels = Ret h' -> config_wf h' c.
Proof.
  intros Hwf (l & Hl & Hd). unfold ExtCTX.SetActive. rewrite Hl.
  destruct (get h (Some l) (bs "active")) as [acts|] eqn:Ea.
  - intros [= <-]. apply store_scalar_wf; [done| |done]. by eapply get_dom.
  - destruct (make_map h) as [made h1] eqn:E. rewrite put_key_Some. intros [= <-].
    (* the channels are stored in the new map before it is hung up *)
    destruct (make_map_fresh _ _ _ E) as (Hf & Hd1 & _).
    pose proof (hang_wf h c h1 made l (bs "active") (VMap (Some made)) Hwf Hd E eq_refl) as Hw.
    pose proof (store_scalar_wf _ c made network (VStrs channels) Hw
                  (proj1 (dom_hang _ _ _ _ _ _ E Hd)) eq_refl) as Hw'.
    cut (store_at (store_at h1 made network (VStrs channels)) l (bs "active") (VMap (Some made))
         = store_at (store_at h1 l (bs "active") (VMap (Some made))) made network (VStrs channels));
      [intros EE; exact (eq_ind_r (fun x => config_wf x c) Hw' EE)|].
    assert (l <> made) as Hne by (by intros ->). unfold store_at.
    rewrite !lookup_insert_ne by done. by rewrite insert_insert_ne.
Qed.

Lemma config_step_wf h c o h' :
  config_wf h c -> op_ok o -> config_step c h o = Ret h' -> config_wf h' c.
Proof.
  intros Hwf Ho. destruct o as [name|name| |name key v|name key v|name net chans|net ch key value];
    cbn [config_step op_ok] in *.
  - destruct (Config.NewNetwork h c name) as [n h1] eqn:E. intros [= <-]. by eapply NewNetwork_wf.
  - destruct (Config.NewExt h c name) as [n h1] eqn:E. intros [= <-]. by eapply NewExt_wf.
  - destruct (Config.ExtGlobal h c) as [e h1] eqn:E. intros [= <-]. by destruct (ExtGlobal_wf _ _ _ _ Hwf E).
  - intros (n & Hn & H)%bind_Ret_inv. apply deref_Ret in Hn.
    destruct (Network_in _ _ _ _ Hwf Hn) as (l & Hl & Hd). unfold setVal in H. cbn in H.
    unfold NetCTX.set_ in H. rewrite Hl, put_key_Some in H. injection H as <-. by apply store_scalar_wf.
  - intros (e & He & H)%bind_Ret_inv. apply deref_Ret in He.
    destruct (Ext_in _ _ _ _ Hwf He) as (l & Hl & Hd). unfold setVal in H. cbn in H.
    unfold ExtCTX.set_ in H. rewrite Hl, put_key_Some in H. injection H as <-. by apply store_scalar_wf.
  - intros (e & He & H)%bind_Ret_inv. apply deref_Ret in He.
    eapply SetActive_wf; [done| |exact H]. by eapply Ext_in.
  - destruct (Config.ExtGlobal h c) as [e h1] eqn:E.
    destruct (ExtGlobal_wf _ _ _ _ Hwf E) as [Hwf1 (l & Hl & Hd)]. unfold ExtCTX.SetConfig.
    destruct (ExtCTX.ensure_path h1 _ _) as [m h2] eqn:Ep. rewrite Hl in Ep.
    assert (forall l', Some l = Some l' -> l' ∈ dom h1) as Hm0 by (intros l' E'; by injection E' as <-).
    destruct (ensure_path_wf _ _ _ _ _ _ Hwf1 Hm0 Ep) as [Hwf2 Hm].
    destruct m as [l2|]; [|done]. rewrite put_key_Some. intros [= <-].
    apply store_scalar_wf; [done|by apply Hm|done].
Qed.

(** C23. Starting with a new configuration, making networks and extensions and
    setting values through any contexts, in any order, keeps the maps of the
    configuration a tree. *)
Theorem config_tree h h0 c ops h' :
  tree_wf h -> Config.NewConfig h = (c, h0) -> Forall op_ok ops ->
  go_fold (config_step c) h0 ops = Ret h' -> config_wf h' c.
Proof.
  intros Ht Hc Hops H. unfold Config.NewConfig, Config.clear in Hc.
  destruct (make_map h) as [l h1] eqn:E. injection Hc as <- <-.
  destruct (make_map_fresh _ _ _ E) as (Hf & Hd & _).
  assert (config_wf h1 {| Config.values := l; Config.errors := []; Config.filename := [] |}) as Hwf.
  { destruct Ht as [T1 T2]. split; [split|..].
    - intros l1 k1 l' He. apply (edge_make _ _ _ _ _ _ E), T1 in He. set_solver.
    - intros l1 k1 l2 k2 l' He1 He2. apply (edge_make _ _ _ _ _ _ E) in He1, He2. by eapply T2.
    - cbn. set_solver.
    - cbn. intros l1 k1 He. by apply (edge_make _ _ _ _ _ _ E), T1 in He. }
  refine (go_fold_inv (fun h => config_wf h _) _ ops _ h1 h' Hwf H).
  intros b o b' Ho Hb Hs. rewrite Forall_forall in Hops. eapply config_step_wf; [exact Hb|by apply Hops|exact Hs].
Qed.

(** ** Paths through the tree *)

Definition walk h (m : option nat) (path : list bytes) : option nat := foldl (get h) m path.

Lemma walk_snoc h m path name : walk h m (path ++ [name]) = get h (walk h m path) name.
Proof. unfold walk. by rewrite foldl_app. Qed.

Lemma walk_app h m p q : walk h m (p ++ q) = walk h (walk h m p) q.
Proof. unfold walk. by rewrite foldl_app. Qed.

Lemma walk_cons h m x q : walk h m (x :: q) = walk h (get h m x) q.
Proof. done. Qed.

Lemma walk_None h q : walk h None q = None.
Proof. induction q as [|x q IH]; [done|]. exact IH. Qed.

(** A map of a configuration is reached by one path only. *)
Lemma walk_inj h c p q l :
  config_wf h c -> walk h (Config.root c) p = Some l -> walk h (Config.root c) q = Some l -> p = q.
Proof.
  intros Hwf. pose proof (cf_top _ _ Hwf) as Ht. revert q l.
  induction p as [|x p IH] using rev_ind; intros q l Hp Hq.
  - cbn in Hp. injection Hp as <-. destruct q as [|y q _] using rev_ind; [done|].
    rewrite walk_snoc in Hq. destruct (walk h _ q) as [l2|]; [|done].
    apply get_edge in Hq. by apply Ht in Hq.
  - rewrite walk_snoc in Hp. destruct (walk h _ p) as [l1|] eqn:E1; [|done]. apply get_edge in Hp.
    destruct q as [|y q _] using rev_ind; [cbn in Hq; injection Hq as <-; by apply Ht in Hp|].
    rewrite walk_snoc in Hq. destruct (walk h _ q) as [l2|] eqn:E2; [|done]. apply get_edge in Hq.
    destruct (tw_unique _ (cf_tree _ _ Hwf) _ _ _ _ _ Hp Hq) as [<- <-]. by rewrite (IH q l1).
Qed.

(** The value at the end of a path. *)
Definition entry_at h c (path : list bytes) key : option val :=
  at_key h (walk h (Config.root c) path) key.

Lemma get_entry h c path name :
  get h (walk h (Config.root c) path) name =
  match entry_at h c path name with Some (VMap p) | Some (VMp p) => p | _ => None end.
Proof. done. Qed.

(** A write at a path leaves the maps at the paths alone that do not go
    through it. *)
Lemma walk_store h c p l key v q :
  config_wf h c -> walk h (Config.root c) p = Some l -> ~ p ++ [key] `prefix_of` q ->
  walk (store_at h l key v) (Config.root c) q = walk h (Config.root c) q.
Proof.
  intros Hwf Hp. induction q as [|x q IH] using rev_ind; intros Hn; [done|].
  rewrite !walk_snoc, IH; [|intros H; by apply Hn, prefix_app_r].
  rewrite get_store. destruct (decide _) as [[E ->]|]; [|done].
  destruct Hn. by rewrite (walk_inj _ _ _ _ _ Hwf Hp E).
Qed.

(** A scalar written where there was no map changes that one entry. *)
Lemma entry_store h c p l key v q key' :
  config_wf h c -> walk h (Config.root c) p = Some l -> scalar v ->
  ~ p ++ [key] `prefix_of` q ->
  entry_at (store_at h l key v) c q key' =
  if decide (q = p /\ key' = key) then Some v else entry_at h c q key'.
Proof.
  intros Hwf Hp Hv Hn. unfold entry_at. rewrite (walk_store _ _ _ _ _ _ _ Hwf Hp) by done.
  rewrite at_key_store. destruct (decide (q = p /\ key' = key)) as [[-> ->]|Hne].
  - by rewrite decide_True by done.
  - rewrite decide_False; [done|]. intros [E ->]. apply Hne. split; [|done].
    by apply (walk_inj _ _ _ _ _ Hwf E).
Qed.

Lemma walk_make h l h' m q : make_map h = (l, h') -> walk h' m q = walk h m q.
Proof.
  intros H. unfold walk. revert m. induction q as [|x q IH]; intros m; [done|]. cbn.
  rewrite (get_make _ _ _ _ _ H). apply IH.
Qed.

(** [ensure] adds an empty map at most: no other entry changes. *)
Lemma ensure_entry h c p l name m' h' :
  config_wf h c -> walk h (Config.root c) p = Some l -> ensure h (Some l) name = (m', h') ->
  walk h' (Config.root c) (p ++ [name]) = m' /\
  forall q key', ~ (q = p /\ key' = name) -> entry_at h' c q key' = entry_at h c q key'.
Proof.
  intros Hwf Hp. unfold ensure. destruct (at_key h (Some l) name) as [v|] eqn:E.
  { intros H. assert (h' = h) as -> by (by destruct v; injection H).
    split; [|done]. rewrite walk_snoc, Hp. unfold get. rewrite E. by destruct v; injection H. }
  destruct (make_map h) as [made h1] eqn:E1. change (<[l := _]> h1) with (store_at h1 l name (VMap (Some made))).
  intros [= <- <-]. destruct (make_map_fresh _ _ _ E1) as (Hf & Hd & Hat & Hnew).
  assert (config_wf h1 c) as Hwf1.
  { destruct Hwf as [[T1 T2] T3 T4]. split; [split|..].
    - intros l1 k1 l' He. apply (edge_make _ _ _ _ _ _ E1), T1 in He. set_solver.
    - intros l1 k1 l2 k2 l' He1 He2. apply (edge_make _ _ _ _ _ _ E1) in He1, He2. by eapply T2.
    - set_solver.
    - intros l1 k1 He. by apply (edge_make _ _ _ _ _ _ E1), T4 in He. }
  assert (walk h1 (Config.root c) p = Some l) as Hp1 by (by rewrite (walk_make _ _ _ _ _ E1)).
  assert (walk (store_at h1 l name (VMap (Some made))) (Config.root c) p = Some l) as Hp2.
  { rewrite (walk_store _ _ _ _ _ _ _ Hwf1 Hp1); [done|]. intros H. apply prefix_length in H.
    rewrite length_app in H. cbn in H. lia. }
  assert (walk (store_at h1 l name (VMap (Some made))) (Config.root c) (p ++ [name]) = Some made) as Hp3.
  { rewrite walk_snoc, Hp2, get_store. by rewrite decide_True by done. }
  split; [done|]. intros q key' Hne. unfold entry_at.
  destruct (decide (p ++ [name] `prefix_of` q)) as [[r ->]|Hpre].
  - rewrite !(walk_app _ _ (p ++ [name]) r), Hp3, walk_snoc, Hp.
    assert (get h (Some l) name = None) as -> by (unfold get; by rewrite E).
    rewrite walk_None. cbn [at_key mbind option_bind].
    assert (forall key, at_key (store_at h1 l name (VMap (Some made))) (Some made) key = None) as Hm.
    { intros key. rewrite at_key_store, Hat, Hnew. rewrite decide_False; [done|]. intros [[= ->] _].
      destruct Hwf as [[T1 _] T3 _]. destruct p as [|y p _] using rev_ind.
      - cbn in Hp. injection Hp as <-. done.
      - rewrite walk_snoc in Hp. destruct (walk h _ p); [|done]. apply get_edge, T1 in Hp. done. }
    destruct r as [|x r]; [apply Hm|]. rewrite walk_cons.
    assert (get (store_at h1 l name (VMap (Some made))) (Some made) x = None) as ->
      by (unfold get; by rewrite Hm).
    by rewrite walk_None.
  - rewrite (walk_store _ _ _ _ _ _ _ Hwf1 Hp1 Hpre), (walk_make _ _ _ _ _ E1), at_key_store, Hat.
    rewrite decide_False; [done|]. intros [Eq ->]. apply Hne. split; [|done].
    by apply (walk_inj _ _ _ _ _ Hwf Eq).
Qed.

Lemma ensure_path_None h path : (ExtCTX.ensure_path h None path).1 = None.
Proof. revert h. induction path as [|x path IH]; intros h; [done|apply IH]. Qed.

Lemma walk_dom h c p l : config_wf h c -> walk h (Config.root c) p = Some l -> l ∈ dom h.
Proof.
  intros Hwf. destruct p as [|x p _] using rev_ind; [intros [= <-]; apply Hwf|].
  rewrite walk_snoc. destruct (walk h _ p) as [l1|]; [|done]. by eapply get_dom.
Qed.

Lemma ensure_path_entry h c p l names l' h' :
  config_wf h c -> walk h (Config.root c) p = Some l ->
  ExtCTX.ensure_path h (Some l) names = (Some l', h') ->
  config_wf h' c /\ walk h' (Config.root c) (p ++ names) = Some l' /\
  forall q key', (forall i, names !! i = Some key' -> q <> p ++ take i names) ->
    entry_at h' c q key' = entry_at h c q key'.
Proof.
  revert h p l. induction names as [|x names IH]; intros h p l Hwf Hp; cbn [ExtCTX.ensure_path].
  { intros [= <- <-]. by rewrite app_nil_r. }
  destruct (ensure h (Some l) x) as [m1 h1] eqn:E. intros H.
  destruct (ensure_entry _ _ _ _ _ _ _ Hwf Hp E) as [Hw Hent].
  assert (forall l2, Some l = Some l2 -> l2 ∈ dom h) as Hd.
  { intros l2 E2. injection E2 as <-. by eapply walk_dom. }
  destruct (ensure_wf _ _ _ _ _ _ Hwf Hd E) as [Hwf1 _].
  destruct m1 as [l1|]; [|pose proof (ensure_path_None h1 names) as Hn; rewrite H in Hn; done].
  destruct (IH h1 (p ++ [x]) l1 Hwf1 Hw H) as (H1 & H2 & H3).
  split; [done|]. split; [by rewrite <- app_assoc in H2|]. intros q key' Hq.
  rewrite H3, Hent; [done| |].
  - intros [-> ->]. apply (Hq 0); [done|]. by rewrite app_nil_r.
  - intros i Hi. rewrite <- app_assoc. by apply (Hq (S i)).
Qed.

(** ** The settings of extensions *)

(** The settings have no key that names a table. *)
Definition setting_key (key : bytes) : Prop := key <> bs "networks" /\ key <> bs "channels".

(** The value that is set for a network and a channel, where an empty name
    stands for all of them. *)
Definition setting h c (network channel key : bytes) : option val :=
  entry_at h c (bs "ext" :: ExtCTX.config_path network channel) key.

Lemma config_path_inj (n ch n' ch' : bytes) :
  ExtCTX.config_path n ch = ExtCTX.config_path n' ch' -> n = n' /\ ch = ch'.
Proof.
  unfold ExtCTX.config_path. destruct n, ch, n', ch'; intros H; try done; try (by simplify_eq);
    exfalso; vm_compute in H; congruence.
Qed.

(** No setting has the place of a table on the path to another. *)
Lemma config_path_free (n ch n' ch' : bytes) key' i :
  setting_key key' -> ExtCTX.config_path n ch !! i = Some key' ->
  ExtCTX.config_path n' ch' <> take i (ExtCTX.config_path n ch).
Proof.
  intros [Hk1 Hk2] Hi E. assert (length (ExtCTX.config_path n' ch') = i) as Hl.
  { rewrite E, length_take. apply lookup_lt_Some in Hi. lia. }
  assert (i = 1 \/ i = 3 \/ i = 5) as Hc by (subst i; destruct n', ch'; cbn; lia).
  clear E Hl. destruct Hc as [-> |[-> | ->]]; destruct n, ch; try done;
    first [apply Hk1; by injection Hi as <-|apply Hk2; by injection Hi as <-].
Qed.

(** What [ConfigVal] gives in terms of the settings: the one of the place,
    else the one for all, where a value that is no string hides the other. *)
Definition config_value h c (network channel key : bytes) : bytes * bool :=
  match setting h c network channel key with
  | Some (VStr s) => (s, true)
  | Some _ => ([], false)
  | None => match setting h c [] [] key with Some (VStr s) => (s, true) | _ => ([], false) end
  end.

Lemma ConfigVal_value h c ext network channel key :
  get h (Config.root c) (bs "ext") = Some ext ->
  ExtCTX.ConfigVal h {| ExtCTX.parent := None; ExtCTX.ext := Some ext |} network channel key
  = config_value h c network channel key.
Proof.
  intros He. unfold ExtCTX.ConfigVal, config_value, setting, entry_at. cbn [ExtCTX.ext].
  unfold ExtCTX.config_path. rewrite !walk_cons, He.
  destruct (get h (Some ext) (bs "config")) as [cfg|].
  - unfold ExtCTX.assign_str. destruct network, channel; cbn [bool_decide]; rewrite ?bool_decide_true,
      ?bool_decide_false by done; cbn [negb andb]; rewrite ?walk_cons; cbn [walk foldl];
      repeat match goal with |- context [at_key h ?m key] => destruct (at_key h m key) as [[]|] end; done.
  - rewrite !walk_None. destruct network, channel; cbn [walk foldl]; rewrite ?walk_cons; done.
Qed.

Lemma ExtGlobal_spec h c e h1 :
  config_wf h c -> Config.ExtGlobal h c = (e, h1) ->
  config_wf h1 c /\ exists l, get h1 (Config.root c) (bs "ext") = Some l /\
    e = {| ExtCTX.parent := None; ExtCTX.ext := Some l |}.
Proof.
  intros Hwf H. destruct (ExtGlobal_wf _ _ _ _ Hwf H) as [Hwf1 _]. split; [done|].
  unfold Config.ExtGlobal in H. destruct (get h (Config.root c) (bs "ext")) as [l|] eqn:E.
  - injection H as <- <-. by exists l.
  - destruct (make_map h) as [l h2]. injection H as <- <-. exists l. split; [|done].
    rewrite get_store. by rewrite decide_True by done.
Qed.

Lemma cons_tail {A} (x y : A) a b : x :: a = y :: b -> a = b.
Proof. by intros [= _ ->]. Qed.


(** ** All settings at once *)

Lemma overlay_lookup {RO : RangeOrder bytes} h (m : option nat) (ret : gmap bytes bytes) key :
  ExtCTX.overlay h m ret !! key =
  match at_key h m key with Some (VStr s) => Some s | _ => ret !! key end.
Proof.
  unfold ExtCTX.overlay, entries, at_key. destruct m as [l|]; [|done]. cbn [mbind option_bind].
  set (mv := default ∅ (h !! l)).
  assert (forall key, (h !! l) ≫= (fun mv => mv !! key) = mv !! key) as Hmv.
  { intros k. unfold mv. by destruct (h !! l). }
  rewrite Hmv. clear Hmv.
  assert (forall L ret, NoDup L.*1 -> (forall v, (key, v) ∈ L -> mv !! key = Some v) ->
    (forall v, mv !! key = Some v -> (key, v) ∈ L \/ ret !! key = (match v with VStr s => Some s | _ => ret !! key end)) ->
    foldl (fun (ret : gmap bytes bytes) '(k, v) => match v with VStr str => <[k:=str]> ret | _ => ret end) ret L !! key
    = match mv !! key with Some (VStr s) => Some s | _ => ret !! key end) as Hfold.
  { clear ret. induction L as [|[k v] L IH]; intros ret Hnd Hin Hout; cbn [foldl].
    - destruct (mv !! key) as [v|]; [|done]. destruct (Hout v eq_refl) as [H|H]; [by apply not_elem_of_nil in H|].
      by destruct v.
    - cbn in Hnd. apply NoDup_cons in Hnd as [Hk Hnd]. rewrite IH; [|done|intros v' H; apply Hin; by right|].
      + destruct (decide (k = key)) as [->|Hne].
        * rewrite (Hin v) by left. destruct v; try done. 
        * destruct (mv !! key) as [[]|]; try done; destruct v; try done; by rewrite lookup_insert_ne.
      + intros w Hw. destruct (Hout w Hw) as [Hc|Hc].
        * apply elem_of_cons in Hc as [[= <- <-]|Hc]; [|by left]. right.
          destruct w; try done. by rewrite lookup_insert_eq.
        * destruct (decide (k = key)) as [->|Hne].
          { right. assert (mv !! key = Some v) as E by (apply Hin; left).
            assert (v = w) as -> by congruence. destruct w; try done. by rewrite lookup_insert_eq. }
          right. destruct v; try done. by rewrite !lookup_insert_ne. }
  apply Hfold.
  - apply NoDup_range.
  - intros v. by rewrite elem_of_range.
  - intros v Hv. left. by apply elem_of_range.
Qed.

(** The map of all settings of a network and channel agrees with looking one
    up, for a key whose own value there, if any, is a string. *)
Theorem Config_ConfigVal {RO : RangeOrder bytes} h c l network channel key :
  get h (Config.root c) (bs "ext") = Some l ->
  (forall v, setting h c network channel key = Some v -> exists s, v = VStr s) ->
  let e := {| ExtCTX.parent := None; ExtCTX.ext := Some l |} in
  ExtCTX.ConfigVal h e network channel key =
  match ExtCTX.Config h e network channel !! key with Some s => (s, true) | None => ([], false) end.
Proof.
  intros Hl Hs. cbn zeta. rewrite (ConfigVal_value _ _ _ _ _ _ Hl).
  assert (ExtCTX.Config h {| ExtCTX.parent := None; ExtCTX.ext := Some l |} network channel !! key =
          match setting h c network channel key with
          | Some (VStr s) => Some s
          | _ => match setting h c [] [] key with Some (VStr s) => Some s | _ => None end
          end) as ->.
  { unfold ExtCTX.Config, setting, entry_at, ExtCTX.config_path. cbn [ExtCTX.ext].
    rewrite !walk_cons, Hl.
    destruct (bool_decide_reflect (network = [])), (bool_decide_reflect (channel = []));
      destruct network, channel; try done; cbn [negb andb]; rewrite ?walk_cons;
      cbn [walk foldl]; rewrite ?overlay_lookup, ?lookup_empty; try done;
      repeat match goal with |- context [at_key h ?m key] => destruct (at_key h m key) as [[]|] end; done. }
  unfold config_value. destruct (setting h c network channel key) as [v|].
  - by destruct (Hs v eq_refl) as [s ->].
  - by destruct (setting h c [] [] key) as [[]|].
Qed.

(** ** Validation *)

Section Validation.
Context {RO : RangeOrder bytes} (print : Heap -> val -> bytes).

(** The type that the rules give to a key of a map. *)
Definition rule_ok (r : Validation.validatorRules) key v : Prop :=
  (key ∈ Validation.stringVals r -> Validation.is_str v = true) /\
  (key ∈ Validation.stringSliceVals r ->
     match v with VStrs _ => True | VArr l => Forall (fun v => Validation.is_str v = true) l | _ => False end) /\
  (key ∈ Validation.boolVals r -> Validation.is_bool v = true) /\
  (key ∈ Validation.floatVals r -> Validation.is_float v = true) /\
  (key ∈ Validation.uintVals r -> Validation.is_int64 v = true) /\
  (key ∈ Validation.mapVals r -> Validation.is_map v = true) /\
  (key ∈ Validation.mapArrVals r -> Validation.is_maps v = true).

Lemma flat_map_nil {A B} (f : A -> list B) (l : list A) : flat_map f l = [] <-> Forall (fun x => f x = []) l.
Proof.
  induction l as [|x l IH]; cbn; [by split|]. rewrite Forall_cons, <- IH. split.
  - by intros [-> ->]%app_eq_nil.
  - by intros [-> ->].
Qed.

Lemma check_keys_nil h m name kind ok keys :
  Validation.check_keys print h m name kind ok keys = [] ->
  forall key v, key ∈ keys -> at_key h m key = Some v -> ok v = true.
Proof.
  intros H key v Hk Hv. apply flat_map_nil in H. rewrite Forall_forall in H. apply H in Hk.
  rewrite Hv in Hk. by destruct (ok v).
Qed.

Lemma imap_concat_nil {A B} (f : nat -> A -> list B) (P : A -> Prop) (l : list A) :
  (forall i x, f i x = [] -> P x) -> concat (imap f l) = [] -> Forall P l.
Proof.
  revert f. induction l as [|x l IH]; intros f Hf; cbn; [constructor|].
  intros [H1 H2]%app_eq_nil. constructor; [by eapply Hf|]. eapply IH; [|exact H2].
  intros i y. apply Hf.
Qed.

Lemma check_slices_nil h m name keys :
  Validation.check_slices print h m name keys = [] ->
  forall key v, key ∈ keys -> at_key h m key = Some v ->
  match v with VStrs _ => True | VArr l => Forall (fun v => Validation.is_str v = true) l | _ => False end.
Proof.
  intros H key v Hk Hv. apply flat_map_nil in H. rewrite Forall_forall in H. apply H in Hk.
  rewrite Hv in Hk. destruct v; try done.
  eapply (imap_concat_nil _ (fun v => Validation.is_str v = true)); [|exact Hk].
  intros i x. cbv beta. by destruct (Validation.is_str x).
Qed.

Lemma validateMap_nil r h name m :
  Validation.validateMap print r h name m = [] ->
  forall key v, at_key h m key = Some v -> rule_ok r key v.
Proof.
  unfold Validation.validateMap. intros H key v Hv.
  apply app_eq_nil in H as [H1 H]. apply app_eq_nil in H as [H2 H]. apply app_eq_nil in H as [H3 H].
  apply app_eq_nil in H as [H4 H]. apply app_eq_nil in H as [H5 H]. apply app_eq_nil in H as [H6 H7].
  split; [|split; [|split; [|split; [|split; [|split]]]]]; intros Hk.
  - by apply (check_keys_nil _ _ _ _ _ _ H1 key v Hk).
  - by apply (check_slices_nil _ _ _ _ H2 key v Hk).
  - by apply (check_keys_nil _ _ _ _ _ _ H3 key v Hk).
  - by apply (check_keys_nil _ _ _ _ _ _ H4 key v Hk).
  - by apply (check_keys_nil _ _ _ _ _ _ H5 key v Hk).
  - by apply (check_keys_nil _ _ _ _ _ _ H6 key v Hk).
  - by apply (check_keys_nil _ _ _ _ _ _ H7 key v Hk).
Qed.

Lemma require_nil given fmt name :
  Validation.require given fmt name = [] -> exists s, given = (s, true) /\ s <> [].
Proof. unfold Validation.require. destruct given as [[|c s] []]; try done. intros _. by exists (c :: s). Qed.

(** What a checked network has. *)
Definition network_complete h c name : Prop :=
  exists n servers nick user real, Config.Network h c name = Some n /\
    NetCTX.Servers h n = (servers, true) /\ servers <> [] /\
    NetCTX.Nick h n = (nick, true) /\ nick <> [] /\
    NetCTX.Username h n = (user, true) /\ user <> [] /\
    NetCTX.Realname h n = (real, true) /\ real <> [].

Lemma required_network_spec h c nets name v :
  get h (Config.root c) (bs "networks") = Some nets -> at_key h (Some nets) name = Some v ->
  exists l : list bytes, Validation.required_network print h c name v = Ret l /\ (l = [] -> network_complete h c name).
Proof.
  intros Hn Hv. unfold Validation.required_network. destruct (intfToMp v) as [q|] eqn:Ev; [|by eexists].
  assert (exists n, Config.Network h c name = Some n) as [n E].
  { unfold Config.Network. destruct name as [|x name]; [by eexists|]. rewrite Hn.
    unfold get. rewrite Hv. destruct v; try done. cbn in Ev. subst p. by eexists. }
  rewrite E. cbn [deref mbind go_bind]. eexists. split; [reflexivity|]. intros H.
  apply app_eq_nil in H as [H1 H]. apply app_eq_nil in H as [H2 H]. apply app_eq_nil in H as [H3 H4].
  apply require_nil in H2 as (nick & E2 & N2), H3 as (user & E3 & N3), H4 as (real & E4 & N4).
  destruct (NetCTX.Servers h n) as [[|srv servers] []] eqn:E1; try done.
  exists n, (srv :: servers), nick, user, real. by rewrite E1.
Qed.

Lemma required_fold h c nets L acc :
  get h (Config.root c) (bs "networks") = Some nets ->
  (forall name v, (name, v) ∈ L -> at_key h (Some nets) name = Some v) ->
  exists l : list bytes, go_fold (fun ers '(name, netval) =>
      e ← Validation.required_network print h c name netval; Ret (ers ++ e)) acc L = Ret l /\
    (l = [] -> acc = [] /\ Forall (fun kv => network_complete h c kv.1) L).
Proof.
  intros Hn. revert acc. induction L as [|[name v] L IH]; intros acc HL; cbn [go_fold]; [by exists acc|].
  destruct (required_network_spec h c nets name v Hn (HL name v ltac:(left))) as (e & -> & He).
  cbn [mbind go_bind]. destruct (IH (acc ++ e)) as (l & Hl & Hlast); [intros; apply HL; by right|].
  exists l. split; [exact Hl|]. intros Hnil. destruct (Hlast Hnil) as [Ha Hf].
  apply app_eq_nil in Ha as [-> ->]. split; [done|]. constructor; [by apply He|done].
Qed.

(** What the result of a check says. *)
Definition verdict h c (b : bool) (c' : Config.Config) : Prop :=
  c'.(Config.values) = c.(Config.values) /\
  (b = false -> c'.(Config.errors) <> []) /\
  (b = true -> c' = c /\ exists nets, get h (Config.root c) (bs "networks") = Some nets /\
     forall name v, at_key h (Some nets) name = Some v ->
       network_complete h c name /\
       exists net, v = VMap (Some net) /\
         forall key w, at_key h (Some net) key = Some w -> rule_ok Validation.networkValidator key w).

Lemma refused h c e ers :
  exists b c', Ret (false, Validation.with_errors c (e :: ers)) = Ret (b, c') /\ verdict h c b c'.
Proof. eexists false, _. split; [reflexivity|]. split; [done|]. by split. Qed.

Lemma Validate_verdict h c :
  exists b c', Validation.Validate print h c = Ret (b, c') /\ verdict h c b c'.
Proof.
  unfold Validation.Validate.
  destruct (Validation.validateTypes print h c) as [|e ers] eqn:Et; [|apply refused].
  unfold Validation.validateRequired.
  destruct (get h (Config.root c) (bs "networks")) as [nets|] eqn:En; [|apply refused].
  destruct (required_fold h c nets (entries h (Some nets)) [] En) as (l & Hl & Hnil).
  { intros name v Hin. unfold entries in Hin. apply elem_of_range in Hin. unfold at_key. cbn.
    by destruct (h !! nets). }
  rewrite Hl. cbn [mbind go_bind]. destruct l as [|e l]; [|apply refused].
  exists true, c. split; [reflexivity|]. split; [done|]. split; [done|]. intros _. split; [done|].
  exists nets. split; [done|]. intros name v Hv.
  assert ((name, v) ∈ entries h (Some nets)) as Hin.
  { unfold entries. apply elem_of_range. unfold at_key in Hv. cbn in Hv. by destruct (h !! nets). }
  destruct (Hnil eq_refl) as [_ Hf]. rewrite Forall_forall in Hf. split; [exact (Hf _ Hin)|].
  unfold Validation.validateTypes in Et. rewrite En in Et.
  apply app_eq_nil in Et as [_ Et]. apply app_eq_nil in Et as [_ Et]. apply app_eq_nil in Et as [Et _].
  apply flat_map_nil in Et. rewrite Forall_forall in Et. apply Et in Hin.
  destruct v as [| | | | | | | | |[net|] | |]; try done. exists net. split; [done|].
  cbn [intfToMp] in Hin. apply app_eq_nil in Hin as [Hin _]. intros key w Hw. by eapply validateMap_nil.
Qed.

End Validation.

(** ** Runs *)

(** A new configuration in an empty heap. *)
Definition demo_new : Config.Config * Heap := Config.NewConfig ∅.
Definition demo_print (h : Heap) (v : val) : bytes := [].

Definition demo_net : list config_op := [
  ONewNetwork (bs "net");
  OSetNetwork (bs "net") (bs "servers") (VStrs [bs "irc.test.net:6667"]);
  OSetNetwork (bs "net") (bs "nick") (VStr (bs "Bot"));
  OSetNetwork [] (bs "username") (VStr (bs "bot"));
  OSetNetwork [] (bs "realname") (VStr (bs "A bot")) ].

Definition demo_heap (ops : list config_op) : Heap :=
  match go_fold (config_step demo_new.1) demo_new.2 ops with Ret h => h | Panic => ∅ end.

Lemma empty_tree : tree_wf ∅.
Proof. split; intros; exfalso; match goal with H : edge ∅ _ _ _ |- _ => destruct H as (v & Hv & _) end;
  unfold at_key in Hv; cbn in Hv; by rewrite lookup_empty in Hv. Qed.

Lemma config_tree_witness : config_wf (demo_heap demo_net) demo_new.1.
Proof.
  assert (go_fold (config_step demo_new.1) demo_new.2 demo_net = Ret (demo_heap demo_net)) as H
    by (vm_compute; reflexivity).
  apply (config_tree ∅ demo_new.2 demo_new.1 demo_net (demo_heap demo_net) empty_tree eq_refl); [|exact H].
  repeat constructor.
Defined.

Lemma demo_ops_wf ops : Forall op_ok ops ->
  is_panic (go_fold (config_step demo_new.1) demo_new.2 ops) = false -> config_wf (demo_heap ops) demo_new.1.
Proof.
  intros Ho. unfold demo_heap. destruct (go_fold _ _ _) as [h|] eqn:E; [|done]. intros _.
  assert (config_wf demo_new.2 demo_new.1) as Hwf.
  { split; [split|..].
    - intros l1 k1 l' (v & Hv & _). exfalso. unfold at_key in Hv. cbn in Hv.
      destruct (decide (l1 = fresh (dom (∅ : Heap)))) as [->|Hn];
        [by rewrite lookup_insert_eq in Hv|by rewrite lookup_insert_ne in Hv].
    - intros l1 k1 l2 k2 l' (v & Hv & _). exfalso. unfold at_key in Hv. cbn in Hv.
      destruct (decide (l1 = fresh (dom (∅ : Heap)))) as [->|Hn];
        [by rewrite lookup_insert_eq in Hv|by rewrite lookup_insert_ne in Hv].
    - cbn. rewrite dom_insert_L. set_solver.
    - intros l1 k1 (v & Hv & _). unfold at_key in Hv. cbn in Hv.
      destruct (decide (l1 = fresh (dom (∅ : Heap)))) as [->|Hn];
        [by rewrite lookup_insert_eq in Hv|by rewrite lookup_insert_ne in Hv]. }
  refine (go_fold_inv (fun h => config_wf h _) _ ops _ demo_new.2 h Hwf E).
  intros b o b' Hin Hb Hs. rewrite Forall_forall in Ho. eapply config_step_wf; [exact Hb|by apply Ho|exact Hs].
Qed.

(** What a getter gives through the context of a network. *)
Definition via {A : Type} (h : Heap) (name : bytes) (f : Heap -> NetCTX.NetCTX -> A) : option A :=
  f h <$> Config.Network h demo_new.1 name.

Example demo_fallback :
  let h := demo_heap demo_net in
  (via h (bs "net") NetCTX.Nick, via h (bs "net") NetCTX.Username, via h [] NetCTX.Nick,
   via h (bs "net") NetCTX.Prefix, via h (bs "other") NetCTX.Nick,
   Validation.Validate demo_print h demo_new.1) =
  (Some (bs "Bot", true), Some (bs "bot", true), Some ([], false), Some (code ".", false), None,
   Ret (true, demo_new.1)).
Proof. vm_compute. reflexivity. Qed.


Definition demo_ext : list config_op := [
  OSetConfig [] [] (bs "key") (bs "all"); OSetConfig (bs "net") [] (bs "key") (bs "net");
  OSetConfig [] (bs "#c") (bs "key") (bs "chan"); OSetConfig (bs "net") (bs "#c") (bs "key") (bs "both");
  OSetConfig [] [] (bs "more") (bs "all") ].

(** The settings are read at the place they were made for; the comment on
    [Config] has those of a network and of a channel the wrong way round. *)
Theorem Config_by_place :
  let h := demo_heap demo_ext in
  let '(e, h) := Config.ExtGlobal h demo_new.1 in
  map (fun '(n, ch) => ExtCTX.Config h e n ch !! bs "key") [([], []); (bs "net", []); ([], bs "#c"); (bs "net", bs "#c")]
  = [Some (bs "all"); Some (bs "net"); Some (bs "chan"); Some (bs "both")].
Proof. vm_compute. reflexivity. Qed.


Lemma Config_ConfigVal_witness :
  let h := demo_heap demo_ext in
  exists l, get h (Config.root demo_new.1) (bs "ext") = Some l /\
    let e := {| ExtCTX.parent := None; ExtCTX.ext := Some l |} in
    ExtCTX.ConfigVal h e (bs "net") (bs "#c") (bs "key") =
    match ExtCTX.Config h e (bs "net") (bs "#c") !! bs "key" with Some s => (s, true) | None => ([], false) end.
Proof.
  cbn zeta. destruct (get (demo_heap demo_ext) (Config.root demo_new.1) (bs "ext")) as [l|] eqn:E.
  - exists l. split; [reflexivity|].
    apply (Config_ConfigVal (demo_heap demo_ext) demo_new.1 l (bs "net") (bs "#c") (bs "key") E).
    intros v Hv.
    assert (setting (demo_heap demo_ext) demo_new.1 (bs "net") (bs "#c") (bs "key") = Some (VStr (bs "both"))) as Hs
      by (vm_compute; reflexivity).
    exists (bs "both"). rewrite Hs in Hv. by injection Hv as <-.
  - exfalso. assert (is_Some (get (demo_heap demo_ext) (Config.root demo_new.1) (bs "ext"))) as [x Hx]
      by (vm_compute; by eexists). congruence.
Defined.

(** Settings that the setters make are refused by the check, which knows the
    types of the file format only: numbers, channels, active channels and,
    since its map has another type, any extension. *)
Theorem setters_refused :
  map (fun ops => match Validation.Validate demo_print (demo_heap (demo_net ++ ops)) demo_new.1 with
                  | Ret (b, c) => Some (b, length (Validation.Errors c))
                  | Panic => None
                  end)
      [ []; [OSetNetwork (bs "net") (bs "joindelay") (VUint 5)];
        [OSetNetwork (bs "net") (bs "channels") (VChans [])];
        [ONewExt (bs "x")]; [ONewExt (bs "x"); OSetActive (bs "x") (bs "net") [bs "#c"]] ]
  = [Some (true, 0); Some (false, 1); Some (false, 1); Some (false, 2); Some (false, 2)].
Proof. vm_compute. reflexivity. Qed.

(** A check that succeeds keeps the errors of an earlier one that failed. *)
Theorem Validate_keeps_errors :
  let c := Validation.with_errors demo_new.1 [bs "old"] in
  Validation.Validate demo_print (demo_heap demo_net) c = Ret (true, c).
Proof. vm_compute. reflexivity. Qed.

(** Writing to no name in particular creates a file with the empty name and
    not the one the configuration was read from. *)
Theorem ToFile_ignores_filename `{ConfigFile.Toml, ConfigFile.Files} h c text :
  ConfigFile.os_Create [] = None -> ConfigFile.ToWriter h c = inr text ->
  ConfigFile.ToFile h c [] = (None, [([], text)]).
Proof. intros H1 H2. unfold ConfigFile.ToFile, ConfigFile.toFile. by rewrite H1, H2. Qed.

(** A prefix in ASCII is read back; of another one the first byte is. *)
Theorem Prefix_SetPrefix h h' n r :
  (0 < r < 128)%Z -> NetCTX.SetPrefix h n r = Ret h' -> NetCTX.Prefix h' n = (r, true).
Proof.
  intros Hr. unfold NetCTX.SetPrefix, setVal. cbn. unfold NetCTX.set_, NetCTX.Prefix, getStr, fetch.
  destruct (NetCTX.network n) as [l|] eqn:E; [|done]. rewrite put_key_Some. intros [= <-].
  cbn [ctx_get NetCTX.net_getter]. unfold NetCTX.get_. rewrite E, at_key_store.
  rewrite decide_True by done. unfold string_of_runes. cbn [map concat]. rewrite app_nil_r.
  unfold encode_rune. assert (valid_rune r = true) as -> by (unfold valid_rune; repeat case_bool_decide; cbn; try done; lia).
  rewrite bool_decide_true by lia. by rewrite code_byte_of by lia.
Qed.

Theorem Prefix_not_ascii :
  (n ← Config.Network (demo_heap demo_net) demo_new.1 (bs "net");
   match NetCTX.SetPrefix (demo_heap demo_net) n 0xE9 with
   | Ret h' => Some (NetCTX.Prefix h' n)
   | Panic => None
   end) = Some (0xC3%Z, true).
Proof. vm_compute. reflexivity. Qed.
