(* ===== verification/ConfigClone.v ===== *)
(** * Package config: copies of a configuration

    A copy reads like the original and its nested maps are new ones, so that
    settings made through one are not seen through the other; the maps in a
    slice of maps are the exception, they are shared. *)

From S2P Require Import Prelude GoStrings ConfigMap ConfigSpec.
From S2P Require NetCTX Config.

Implicit Types (h : Heap) (key : bytes) (v : val) (l : nat) (p : option nat).

(** The map of a value that is a map. *)
Definition as_map v : option (option nat) :=
  match v with VMap p | VMp p => Some p | _ => None end.

Section copy.
Context {RO : RangeOrder bytes}.

(** The heap that is copied from; maps that are reached from each other, with
    a measure of their nesting. *)
Context (h0 : Heap) (S : gset nat) (rank : nat -> nat).

Definition flat l : Prop :=
  forall key v, at_key h0 (Some l) key = Some v -> as_map v = None /\ children v = [].

Record source_ok : Prop := {
  so_dom : S ⊆ dom h0;
  so_child : forall l key v l', l ∈ S -> at_key h0 (Some l) key = Some v -> l' ∈ children v ->
    l' ∈ S /\ rank l' < rank l;
  so_flat : forall l key ls l', l ∈ S -> at_key h0 (Some l) key = Some (VMaps ls) -> Some l' ∈ ls -> flat l';
}.

(** [q] holds a copy of [p], made of maps outside of [D]. *)
Fixpoint copied (n : nat) (D : gset nat) (h' : Heap) (p : option nat) (q : nat) : Prop :=
  match n with
  | 0 => False
  | Datatypes.S n =>
    q ∉ D /\ q ∈ dom h' /\
    forall key,
      match at_key h0 p key with
      | None => at_key h' (Some q) key = None
      | Some v =>
        match as_map v with
        | Some p' => exists q', at_key h' (Some q) key = Some (VMap (Some q')) /\ copied n D h' p' q'
        | None => at_key h' (Some q) key = Some v
        end
      end
  end.

Lemma copied_stable n D D' h1 h2 p q :
  (forall l, l ∉ D -> l ∈ dom h1 -> h2 !! l = h1 !! l) -> dom h1 ⊆ dom h2 -> D' ⊆ D ->
  copied n D h1 p q -> copied n D' h2 p q.
Proof.
  intros Hsame Hd HD. revert p q. induction n as [|n IH]; intros p q; [done|]. cbn [copied].
  intros (Hq & Hin & Hk). split; [set_solver|]. split; [set_solver|]. intros key. specialize (Hk key).
  assert (at_key h2 (Some q) key = at_key h1 (Some q) key) as ->
    by (unfold at_key; cbn; by rewrite Hsame).
  destruct (at_key h0 p key) as [v|]; [|done]. destruct (as_map v); [|done].
  destruct Hk as (q' & H1 & H2). eauto.
Qed.

(** A heap in which the copying has begun: the source is as it was. *)
Record begun (h : Heap) (dest : nat) : Prop := {
  bg_source : forall l, l ∈ S -> h !! l = h0 !! l;
  bg_dom : dom h0 ⊆ dom h;
  bg_dest : dest ∈ dom h /\ dest ∉ dom h0;
}.

Lemma store_same h l key v :
  at_key h (Some l) key = Some v -> store_at h l key v = h.
Proof.
  unfold at_key, store_at. cbn. destruct (h !! l) as [m|] eqn:E; [|done]. cbn. intros H.
  by rewrite (insert_id m), insert_id.
Qed.

(** A flat map copied to itself. *)
Lemma copy_self n h l :
  flat l -> h !! l = h0 !! l -> is_Some (h0 !! l) -> copyMap (Datatypes.S n) h l (Some l) = Some h.
Proof.
  intros Hf Hl [m0 Hm]. cbn [copyMap]. unfold entries. rewrite Hl, Hm. cbn [default].
  assert (forall L, (forall k v, (k, v) ∈ L -> m0 !! k = Some v) ->
    each (copy_entry (copyMap n) l) h L = Some h) as Hfold.
  { induction L as [|[k v] L IH]; intros HL; [done|]. cbn [each].
    assert (m0 !! k = Some v) as Hk by (apply HL; by left).
    assert (at_key h (Some l) k = Some v) as Hat by (unfold at_key; cbn; by rewrite Hl, Hm).
    assert (at_key h0 (Some l) k = Some v) as Hat0 by (unfold at_key; cbn; by rewrite Hm).
    destruct (Hf k v Hat0) as [Hv1 Hv2].
    assert (copy_entry (copyMap n) l h (k, v) = Some h) as ->;
      [|cbn [mbind option_bind]; apply IH; intros; apply HL; by right].
    destruct v as [| | | | | | |ls| | | |]; try done; cbn [copy_entry];
      rewrite (store_same _ _ _ _ Hat); try done.
    cbn [children] in Hv2. clear -Hv2. induction ls as [|[x|] ls IH]; [done|by cbn in Hv2|].
    cbn. by apply IH. }
  apply Hfold. intros k v Hin. by apply elem_of_range in Hin.
Qed.

(** What the loop leaves in the destination for an entry. *)
Definition entry_copied (n : nat) (D : gset nat) (h' : Heap) (dest : nat) (kv : bytes * val) : Prop :=
  match as_map kv.2 with
  | Some p => exists q, at_key h' (Some dest) kv.1 = Some (VMap (Some q)) /\ copied n D h' p q
  | None => at_key h' (Some dest) kv.1 = Some kv.2
  end.

(** A step or a loop of the copying: other maps are left alone. *)
Definition grows h h' (dest : nat) : Prop :=
  dom h ⊆ dom h' /\ forall l, l ∈ dom h -> l <> dest -> h' !! l = h !! l.

Lemma grows_trans h1 h2 h3 dest : grows h1 h2 dest -> grows h2 h3 dest -> grows h1 h3 dest.
Proof.
  intros [D1 G1] [D2 G2]. split; [set_solver|]. intros l Hl Hn. rewrite G2 by set_solver. by apply G1.
Qed.

Lemma begun_grows h h' dest : source_ok -> begun h dest -> grows h h' dest -> begun h' dest.
Proof.
  intros Hs [B1 B2 [B3 B4]] [G1 G2]. split; [|set_solver|set_solver].
  intros l Hl. pose proof (so_dom Hs) as Hd. rewrite G2; [by apply B1|set_solver|set_solver].
Qed.

(** The nesting below a pointer is within the fuel. *)
Definition within (n : nat) p : Prop :=
  match p with Some l => l ∈ S /\ rank l + 1 < n | None => 0 < n end.

(** The maps on a value are within the fuel; those of a slice are flat. *)
Definition value_within (n : nat) v : Prop :=
  (forall p, as_map v = Some p -> within n p) /\
  (forall ls l, v = VMaps ls -> Some l ∈ ls -> l ∈ S /\ flat l) /\ 0 < n.

Definition copy_correct (n : nat) : Prop :=
  forall h dest src D, begun h dest -> within n src -> (forall key, at_key h (Some dest) key = None) ->
    dest ∉ D -> D ⊆ dom h -> exists h', copyMap n h dest src = Some h' /\ grows h h' dest /\
      copied n D h' src dest.

Lemma at_key_grows h h' dest l key : grows h h' dest -> l ∈ dom h -> l <> dest ->
  at_key h' (Some l) key = at_key h (Some l) key.
Proof. intros [_ G] Hl Hn. unfold at_key. cbn. by rewrite G. Qed.

Lemma store_begun h dest key v : source_ok -> begun h dest -> begun (store_at h dest key v) dest /\
  grows h (store_at h dest key v) dest.
Proof.
  intros Hs Hb. assert (grows h (store_at h dest key v) dest) as Hg.
  { split; [rewrite dom_store; set_solver|]. intros l Hl Hn. unfold store_at. by rewrite lookup_insert_ne. }
  split; [by eapply begun_grows|done].
Qed.

(** One step of the loop. *)
Lemma copy_step n h dest D key v :
  source_ok -> copy_correct n -> begun h dest -> value_within n v -> dest ∉ D -> D ⊆ dom h ->
  exists h', copy_entry (copyMap n) dest h (key, v) = Some h' /\ grows h h' dest /\
    entry_copied n ({[dest]} ∪ D) h' dest (key, v) /\
    forall k, k <> key -> at_key h' (Some dest) k = at_key h (Some dest) k.
Proof.
  intros Hs Hcopy Hb (Hp & Hflat & Hn) HD1 HD2.
  destruct (as_map v) as [p|] eqn:Ev.
  - assert (copy_entry (copyMap n) dest h (key, v) =
      (let '(child, h) := make_map h in copyMap n (store_at h dest key (VMap (Some child))) child p)) as ->
      by (destruct v; try done; cbn in Ev; by injection Ev as ->).
    destruct (make_map h) as [child h1] eqn:Em. destruct (make_map_fresh _ _ _ Em) as (Hf & Hd & Hat & Hnew).
    assert (child <> dest) as Hcd by (intros ->; by destruct Hb as [_ _ [? _]]).
    assert (forall l, l ∈ dom h -> h1 !! l = h !! l) as Hold.
    { intros l Hl. unfold make_map in Em. injection Em as <- <-. rewrite lookup_insert_ne; [done|].
      intros <-. by apply Hf. }
    set (h2 := store_at h1 dest key (VMap (Some child))).
    assert (grows h h2 dest) as G2.
    { split; [unfold h2; rewrite dom_store, Hd; set_solver|]. intros l Hl Hne. unfold h2, store_at.
      rewrite lookup_insert_ne by done. by apply Hold. }
    assert (begun h2 child) as B2.
    { pose proof (begun_grows _ _ _ Hs Hb G2) as [B1 B2 _]. split; [done|done|].
      split; [unfold h2; rewrite dom_store, Hd; set_solver|]. intros Hc. apply (bg_dom _ _ Hb) in Hc. done. }
    destruct (Hcopy h2 child p ({[dest]} ∪ D)) as (h' & Hc & G' & Hcp); [done|by apply Hp| | | |].
    + intros k. unfold h2. rewrite at_key_store, decide_False by naive_solver. by rewrite Hat, Hnew.
    + set_solver.
    + unfold h2. rewrite dom_store, Hd. set_solver.
    + exists h'. split; [exact Hc|].
      assert (forall k, at_key h' (Some dest) k = at_key h2 (Some dest) k) as Hdest.
      { intros k. eapply at_key_grows; [exact G'| |done]. unfold h2. rewrite dom_store. set_solver. }
      split; [|split].
      * destruct G2 as [D2 G2], G' as [D3 G3]. split; [set_solver|]. intros l Hl Hne.
        rewrite G3, G2; [done|done|done|set_solver|]. intros ->. by apply Hf.
      * unfold entry_copied. cbn [fst snd]. rewrite Ev. exists child. split; [|done].
        rewrite Hdest. unfold h2. by rewrite at_key_store, decide_True.
      * intros k Hk. rewrite Hdest. unfold h2. rewrite at_key_store, decide_False by naive_solver. by rewrite Hat.
  - destruct (store_begun h dest key v Hs Hb) as [B1 G1].
    exists (store_at h dest key v). split; [|split; [done|split]].
    + destruct v as [| | | | | | |ls| | | |]; try done. cbn [copy_entry].
      assert (forall ls', ls' ⊆ ls -> each (fun h srcMap => match srcMap with
         | Some l => copyMap n h l (Some l) | None => Some h end) (store_at h dest key (VMaps ls)) ls'
         = Some (store_at h dest key (VMaps ls))) as Hloop; [|by apply Hloop].
      induction ls' as [|[l|] ls' IH]; intros Hsub; [done| |].
      * cbn [each]. destruct (Hflat ls l eq_refl) as [HlS Hfl]; [apply Hsub; by left|].
        destruct n as [|n]; [lia|]. rewrite copy_self.
        -- cbn [mbind option_bind]. apply IH. set_solver.
        -- done.
        -- by apply B1.
        -- apply elem_of_dom. by apply (so_dom Hs).
      * cbn [each mbind option_bind]. apply IH. set_solver.
    + unfold entry_copied. cbn [fst snd]. rewrite Ev, at_key_store. by rewrite decide_True.
    + intros k Hk. rewrite at_key_store. by rewrite decide_False by naive_solver.
Qed.

Lemma entry_copied_grows n D h h' dest kv :
  entry_copied n ({[dest]} ∪ D) h dest kv -> grows h h' dest ->
  at_key h' (Some dest) kv.1 = at_key h (Some dest) kv.1 -> entry_copied n ({[dest]} ∪ D) h' dest kv.
Proof.
  unfold entry_copied. intros He [G1 G2] ->. destruct (as_map kv.2); [|done].
  destruct He as (q & Hq & Hc). exists q. split; [done|].
  eapply copied_stable; [|exact G1|reflexivity|exact Hc]. intros l Hl Hin. apply G2; [done|set_solver].
Qed.

Lemma copy_loop n D dest L h :
  source_ok -> copy_correct n -> begun h dest -> dest ∉ D -> D ⊆ dom h ->
  NoDup L.*1 -> Forall (fun kv => value_within n kv.2) L ->
  exists h', each (copy_entry (copyMap n) dest) h L = Some h' /\ grows h h' dest /\
    Forall (entry_copied n ({[dest]} ∪ D) h' dest) L /\
    forall k, k ∉ L.*1 -> at_key h' (Some dest) k = at_key h (Some dest) k.
Proof.
  intros Hs Hcopy. revert h. induction L as [|[key v] L IH]; intros h Hb HD1 HD2 Hnd HL; cbn [each].
  { exists h. split; [done|]. by split. }
  apply Forall_cons in HL as [Hv HL]. cbn in Hnd. apply NoDup_cons in Hnd as [Hk Hnd].
  destruct (copy_step n h dest D key v Hs Hcopy Hb Hv HD1 HD2) as (h1 & -> & G1 & E1 & K1).
  cbn [mbind option_bind].
  destruct (IH h1) as (h' & He & G' & E' & K'); [by eapply begun_grows|done|destruct G1; set_solver|done|done|].
  exists h'. split; [exact He|]. split; [by eapply grows_trans|]. split.
  - constructor; [|done]. eapply entry_copied_grows; [exact E1|done|]. by apply K'.
  - intros k Hk'. rewrite fmap_cons in Hk'. apply not_elem_of_cons in Hk' as [Hk1 Hk2]. by rewrite K', K1.
Qed.

Lemma source_within n l : source_ok -> l ∈ S -> rank l + 1 < Datatypes.S n ->
  Forall (fun kv => value_within n kv.2) (entries h0 (Some l)).
Proof.
  intros Hs Hl Hr. apply Forall_forall. intros [k v] Hin. unfold entries in Hin.
  apply elem_of_range in Hin. assert (at_key h0 (Some l) k = Some v) as Hat
    by (unfold at_key; cbn; by destruct (h0 !! l)).
  cbn [snd]. split; [|split; [|lia]].
  - intros p Hp. unfold within. destruct p as [l'|]; [|lia].
    destruct (so_child Hs l k v l' Hl Hat) as [H1 H2]; [|split; [done|lia]].
    destruct v; try done; cbn in Hp; injection Hp as ->; by left.
  - intros ls l' -> Hin'. split; [|by eapply so_flat].
    destruct (so_child Hs l k (VMaps ls) l' Hl Hat) as [H1 _]; [|done].
    cbn. apply list_elem_of_omap. by exists (Some l').
Qed.

Lemma copyMap_correct n : source_ok -> copy_correct n.
Proof.
  intros Hs. induction n as [|n IH]; intros h dest src D Hb Hw Hempty HD1 HD2.
  { destruct src; cbn in Hw; lia. }
  cbn [copyMap].
  assert (entries h src = entries h0 src) as ->.
  { unfold entries. destruct src as [l|]; [|done]. cbn in Hw. rewrite (bg_source _ _ Hb); [done|apply Hw]. }
  destruct (copy_loop n D dest (entries h0 src) h) as (h' & He & G & E & K); try done.
  - destruct src as [l|]; [apply NoDup_range|by constructor].
  - destruct src as [l|]; [|constructor]. destruct Hw. by apply source_within.
  - exists h'. split; [exact He|]. split; [done|]. cbn [copied].
    destruct G as [G1 G2]. destruct (bg_dest _ _ Hb) as [Hd _].
    split; [done|]. split; [set_solver|]. intros key.
    destruct (at_key h0 src key) as [v|] eqn:Ea.
    + assert ((key, v) ∈ entries h0 src) as Hin.
      { unfold entries. destruct src as [l|]; [|done]. apply elem_of_range. unfold at_key in Ea.
        cbn in Ea. by destruct (h0 !! l). }
      rewrite Forall_forall in E. apply E in Hin. unfold entry_copied in Hin. cbn [fst snd] in Hin.
      destruct (as_map v) as [p|]; [|done]. destruct Hin as (q & Hq & Hc). exists q. split; [done|].
      eapply copied_stable; [| | |exact Hc]; [done|done|set_solver].
    + rewrite K; [apply Hempty|]. intros Hin. apply list_elem_of_fmap in Hin as ([k v] & -> & Hin).
      unfold entries in Hin. destruct src as [l|]; [|by apply not_elem_of_nil in Hin].
      apply elem_of_range in Hin. unfold at_key in Ea. cbn in Ea, Hin.
      destruct (h0 !! l) as [mv|]; cbn in *; [congruence|by rewrite lookup_empty in Hin].
Qed.

(** Two values read the same: both are maps, or they are equal. *)
Definition same_value (a b : option val) : Prop :=
  match a, b with
  | Some a, Some b => match as_map a with Some _ => exists q, b = VMap (Some q) | None => a = b end
  | None, None => True
  | _, _ => False
  end.

Lemma copied_paths n D h' p q path :
  copied n D h' p q ->
  (forall key, same_value (at_key h0 (walk h0 p path) key) (at_key h' (walk h' (Some q) path) key)) /\
  (forall l, walk h' (Some q) path = Some l -> l ∉ D).
Proof.
  revert n p q. induction path as [|x path IH]; intros n p q Hc; (destruct n as [|n]; [done|]);
    cbn [copied] in Hc; destruct Hc as (Hq & Hin & Hk).
  - cbn [walk foldl]. split; [|by intros l [= <-]]. intros key. specialize (Hk key).
    destruct (at_key h0 p key) as [v|]; [|by rewrite Hk]. unfold same_value.
    destruct (as_map v) eqn:Ev; [|by rewrite Hk]. destruct Hk as (q' & -> & _). by eexists.
  - rewrite !walk_cons. specialize (Hk x).
    assert (get h0 p x = match at_key h0 p x with Some v => default None (as_map v) | None => None end) as ->
      by (unfold get; by destruct (at_key h0 p x) as [[]|]).
    unfold get. destruct (at_key h0 p x) as [v|].
    + destruct (as_map v) as [p'|] eqn:Ev.
      * destruct Hk as (q' & -> & Hc'). cbn [default]. by eapply IH.
      * rewrite Hk. destruct v; try done; cbn [default]; rewrite !walk_None; by split.
    + rewrite Hk, !walk_None. by split.
Qed.
End copy.

(** Copying a configuration into a map that was just made *)
Lemma copyMap_fresh {RO : RangeOrder bytes} h c (S : gset nat) (rank : nat -> nat) (n : nat) dest h1 :
  source_ok h S rank -> c.(Config.values) ∈ S -> rank c.(Config.values) + 1 < n ->
  make_map h = (dest, h1) ->
  exists h', copyMap n h1 dest (Config.root c) = Some h' /\
    (forall l, l ∈ dom h -> h' !! l = h !! l) /\
    forall path,
      (forall key, same_value (entry_at h c path key) (at_key h' (walk h' (Some dest) path) key)) /\
      (forall l, walk h' (Some dest) path = Some l -> l ∉ dom h).
Proof.
  intros Hs Hc Hn Em. destruct (make_map_fresh _ _ _ Em) as (Hf & Hd & Hat & Hnew).
  assert (forall l, l ∈ dom h -> h1 !! l = h !! l) as Hold.
  { intros l Hl. unfold make_map in Em. injection Em as <- <-. rewrite lookup_insert_ne; [done|].
    intros <-. by apply Hf. }
  assert (begun h S h1 dest) as Hb.
  { split; [|set_solver|set_solver]. intros l Hl. apply Hold. by apply (so_dom _ _ _ Hs). }
  destruct (copyMap_correct h S rank n Hs h1 dest (Config.root c) (dom h) Hb) as (h' & Hcp & [G1 G2] & Hk).
  - by split.
  - intros key. by rewrite Hat, Hnew.
  - done.
  - set_solver.
  - exists h'. split; [done|]. split.
    + intros l Hl. rewrite G2, Hold; [done|done|set_solver|]. by intros ->.
    + intros path. exact (copied_paths h n (dom h) h' (Config.root c) dest path Hk).
Qed.


(** Replacing gives the receiver a copy of the other configuration. *)
Lemma Replace_copies {RO : RangeOrder bytes} h c nc (S : gset nat) (rank : nat -> nat) (n : nat) :
  source_ok h S rank -> nc.(Config.values) ∈ S -> rank nc.(Config.values) + 1 < n ->
  exists c' h', Config.Replace n h c nc = Some (c', h') /\
    c'.(Config.filename) = c.(Config.filename) /\ c'.(Config.errors) = c.(Config.errors) /\
    (forall l, l ∈ dom h -> h' !! l = h !! l) /\
    forall path,
      (forall key, same_value (entry_at h nc path key) (entry_at h' c' path key)) /\
      (forall l, walk h' (Config.root c') path = Some l -> l ∉ dom h).
Proof.
  intros Hs Hc Hn. unfold Config.Replace. destruct (make_map h) as [dest h1] eqn:Em.
  destruct (copyMap_fresh _ _ _ _ _ _ _ Hs Hc Hn Em) as (h' & Hcp & Hold & Hp).
  rewrite Hcp. cbn [mbind option_bind]. eexists _, _. split; [reflexivity|].
  split; [done|]. split; [done|]. by split.
Qed.

(** ** A run *)

Definition demo_maps : Heap := {[
  0 := {[bs "networks" := VMap (Some 1)]};
  1 := {[bs "net" := VMap (Some 2)]};
  2 := {[bs "nick" := VStr (bs "Bot"); bs "channels" := VMaps [Some 3]]};
  3 := {[bs "name" := VStr (bs "#chan")]} ]}.
Definition demo_config : Config.Config :=
  {| Config.values := 0; Config.errors := []; Config.filename := bs "bot.toml" |}.
Definition demo_rank (l : nat) : nat := 4 - l.

Lemma demo_entries l key v :
  at_key demo_maps (Some l) key = Some v ->
  (l = 0 /\ v = VMap (Some 1)) \/ (l = 1 /\ v = VMap (Some 2)) \/
  (l = 2 /\ (v = VStr (bs "Bot") \/ v = VMaps [Some 3])) \/ (l = 3 /\ v = VStr (bs "#chan")).
Proof.
  unfold at_key, demo_maps. cbn [mbind option_bind]. intros H. apply bind_Some in H as (m & Hm & H).
  repeat (apply lookup_insert_Some in Hm as [[<- <-]|[_ Hm]];
    [repeat (apply lookup_insert_Some in H as [[_ <-]|[_ H]]; [by auto 8|]);
     apply lookup_singleton_Some in H as [_ <-]; by auto 8|]).
  apply lookup_singleton_Some in Hm as [<- <-]. apply lookup_singleton_Some in H as [_ <-]. by auto 8.
Qed.

Lemma demo_source : source_ok demo_maps (dom demo_maps) demo_rank.
Proof.
  split; [done|..].
  - intros l key v l' _ Hv Hc.
    apply demo_entries in Hv as [[-> ->]|[[-> ->]|[[-> [-> | ->]]|[-> ->]]]]; cbn in Hc;
      try (by apply not_elem_of_nil in Hc); apply list_elem_of_singleton in Hc as ->;
      (split; [apply elem_of_dom; by eexists|unfold demo_rank; lia]).
  - intros l key ls l' _ Hv Hin.
    apply demo_entries in Hv as [[_ [=]]|[[_ [=]]|[[-> [[=]|[= ->]]]|[_ [=]]]]].
    apply list_elem_of_singleton in Hin as [= ->]. intros k w Hw.
    by apply demo_entries in Hw as [[[=] _]|[[[=] _]|[[[=] _]|[_ ->]]]].
Qed.


(** The maps of channels are shared: a change to one of the copy is seen in
    the original. *)
Theorem Clone_shares_channels :
  match Config.Clone 6 demo_maps demo_config with
  | Some (c', h') =>
    match Config.Network h' c' (bs "net"), Config.Network h' demo_config (bs "net") with
    | Some copy, Some original =>
      match getArr h' copy.(NetCTX.network) (bs "channels") with
      | Some ch :: _ => NetCTX.Channels (store_at h' ch (bs "name") (VStr (bs "#other"))) original
      | _ => ([], false)
      end
    | _, _ => ([], false)
    end
  | None => ([], false)
  end = ([{| ch_Name := bs "#other"; ch_Password := []; ch_Prefix := [] |}], true).
Proof. vm_compute. reflexivity. Qed.
