(* ===== verification/Effects.v ===== *)
(** * Computations that change a state and may not return

    A handler that panics or never comes back has still done what it did
    before: the state goes on from there.  [eff S A] is a computation that
    changes a state [S]; its outcome is a value, a panic, or a loop that does
    not end. *)

From S2P Require Import Prelude.

Inductive result (A : Type) : Type :=
  | Done (a : A)
  | Panicked
  | Hangs.
Arguments Done {A} a.
Arguments Panicked {A}.
Arguments Hangs {A}.

Definition eff (S A : Type) : Type := S -> result A * S.

#[export] Instance eff_ret S : MRet (eff S) := fun A a s => (Done a, s).
#[export] Instance eff_bind S : MBind (eff S) := fun A B f m s =>
  match m s with
  | (Done a, s) => f a s
  | (Panicked, s) => (Panicked, s)
  | (Hangs, s) => (Hangs, s)
  end.

Section effects.
Context {S : Type}.
Implicit Types (s : S).

Definition panics {A} : eff S A := fun s => (Panicked, s).
Definition reads {A} (f : S -> A) : eff S A := fun s => (Done (f s), s).
Definition changes (f : S -> S) : eff S unit := fun s => (Done tt, f s).

(** A computation without effects that may panic. *)
Definition pure_go {A} (m : go A) : eff S A :=
  fun s => (match m with Ret a => Done a | Panic => Panicked end, s).

(** A [for] loop over a list. *)
Fixpoint each {A} (f : A -> eff S unit) (l : list A) : eff S unit :=
  match l with
  | [] => mret tt
  | x :: l => f x ;; each f l
  end.

(** [defer] of a function that recovers: a panic ends with this value. *)
Definition recovering {A} (m : eff S A) (a : A) : eff S A := fun s =>
  match m s with (Panicked, s) => (Done a, s) | r => r end.

(** A run from a state in [P] that returns [a] ends in [Q a], and a run that
    does not return leaves a state in [X]. *)
Definition triple {A} (P : S -> Prop) (m : eff S A) (Q : A -> S -> Prop) (X : S -> Prop) : Prop :=
  forall s, P s -> match m s with (Done a, s') => Q a s' | (_, s') => X s' end.

Lemma triple_ret {A} P (a : A) (Q : A -> S -> Prop) X :
  (forall s, P s -> Q a s) -> triple P (mret a) Q X.
Proof. intros H s Hs. by apply H. Qed.

Lemma triple_bind {A B} P (m : eff S A) (f : A -> eff S B) R Q X :
  triple P m R X -> (forall a, triple (R a) (f a) Q X) -> triple P (m ≫= f) Q X.
Proof.
  intros Hm Hf s Hs. specialize (Hm s Hs). unfold mbind, eff_bind.
  destruct (m s) as [[a| |] s']; [by apply Hf|done|done].
Qed.

Lemma triple_weaken {A} (P P' : S -> Prop) (m : eff S A) Q Q' (X X' : S -> Prop) :
  triple P' m Q' X' -> (forall s, P s -> P' s) -> (forall a s, Q' a s -> Q a s) ->
  (forall s, X' s -> X s) -> triple P m Q X.
Proof.
  intros Hm HP HQ HX s Hs. specialize (Hm s (HP s Hs)). destruct (m s) as [[a| |] s']; auto.
Qed.

(** A computation that does not change the state keeps everything about it. *)
Lemma triple_same {A} (P X : S -> Prop) (m : eff S A) :
  (forall s, (m s).2 = s) -> (forall s, P s -> X s) -> triple P m (fun _ => P) X.
Proof.
  intros Hm HX s Hs. specialize (Hm s). destruct (m s) as [[a| |] s']; cbn in Hm; subst; auto.
Qed.

Lemma triple_panics {A} (P X : S -> Prop) (Q : A -> S -> Prop) :
  (forall s, P s -> X s) -> triple P panics Q X.
Proof. intros HX s Hs. by apply HX. Qed.

Lemma triple_each {A} (P X : S -> Prop) (f : A -> eff S unit) l :
  (forall x, triple P (f x) (fun _ => P) X) -> triple P (each f l) (fun _ => P) X.
Proof.
  intros Hf. induction l as [|x l IH]; cbn; [by apply triple_ret|]. by eapply triple_bind; [apply Hf|].
Qed.

Lemma triple_recovering {A} P (m : eff S A) a Q X :
  triple P m Q X -> (forall s, X s -> Q a s) -> triple P (recovering m a) Q X.
Proof.
  intros Hm HX s Hs. specialize (Hm s Hs). unfold recovering.
  destruct (m s) as [[] s']; [done|by apply HX|done].
Qed.

(** Facts that do not depend on the state move out of the precondition. *)
Lemma triple_pull {A} (P : S -> Prop) (F : Prop) (m : eff S A) Q X :
  (F -> triple P m Q X) -> triple (fun s => F /\ P s) m Q X.
Proof. intros H s [HF Hs]. by apply H. Qed.

Lemma bind_Done {A B} (m : eff S A) (f : A -> eff S B) s b s2 :
  (m ≫= f) s = (Done b, s2) -> exists a s1, m s = (Done a, s1) /\ f a s1 = (Done b, s2).
Proof. unfold mbind, eff_bind. destruct (m s) as [[] s']; naive_solver. Qed.

Lemma bind_run {A B} (m : eff S A) (f : A -> eff S B) s a s1 :
  m s = (Done a, s1) -> (m ≫= f) s = f a s1.
Proof. unfold mbind, eff_bind. by intros ->. Qed.

Lemma pure_go_run {A} (m : go A) s a : m = Ret a -> pure_go m s = (Done a, s).
Proof. intros E. unfold pure_go. by rewrite E. Qed.
End effects.
