(* ===== verification/CoreText.v ===== *)
(** * Package bot: the texts of the core commands (bot/core_commands.go)

    The names of the commands and the messages they send, as the constants of
    the file give them. *)

From S2P Require Import Prelude GoStrings.

Module Text.
(** bot/core_commands.go:20-20 [extension] *)
Definition extension : bytes :=
  bs "core".
(** bot/core_commands.go:21-21 [register] *)
Definition register : bytes :=
  bs "register".
(** bot/core_commands.go:22-22 [auth] *)
Definition auth : bytes :=
  bs "auth".
(** bot/core_commands.go:23-23 [logout] *)
Definition logout : bytes :=
  bs "logout".
(** bot/core_commands.go:24-24 [access] *)
Definition access : bytes :=
  bs "access".
(** bot/core_commands.go:25-25 [users] *)
Definition users : bytes :=
  bs "users".
(** bot/core_commands.go:26-26 [gusers] *)
Definition gusers : bytes :=
  bs "gusers".
(** bot/core_commands.go:27-27 [susers] *)
Definition susers : bytes :=
  bs "susers".
(** bot/core_commands.go:28-28 [deluser] *)
Definition deluser : bytes :=
  bs "deluser".
(** bot/core_commands.go:29-29 [delme] *)
Definition delme : bytes :=
  bs "delme".
(** bot/core_commands.go:30-30 [passwd] *)
Definition passwd : bytes :=
  bs "passwd".
(** bot/core_commands.go:31-31 [masks] *)
Definition masks : bytes :=
  bs "masks".
(** bot/core_commands.go:32-32 [addmask] *)
Definition addmask : bytes :=
  bs "addmask".
(** bot/core_commands.go:33-33 [delmask] *)
Definition delmask : bytes :=
  bs "delmask".
(** bot/core_commands.go:35-35 [resetpasswd] *)
Definition resetpasswd : bytes :=
  bs "setpasswd".
(** bot/core_commands.go:37-37 [ggive] *)
Definition ggive : bytes :=
  bs "ggive".
(** bot/core_commands.go:38-38 [sgive] *)
Definition sgive : bytes :=
  bs "sgive".
(** bot/core_commands.go:39-39 [give] *)
Definition give : bytes :=
  bs "give".
(** bot/core_commands.go:40-40 [gtake] *)
Definition gtake : bytes :=
  bs "gtake".
(** bot/core_commands.go:41-41 [stake] *)
Definition stake : bytes :=
  bs "stake".
(** bot/core_commands.go:42-42 [take] *)
Definition take : bytes :=
  bs "take".
(** bot/core_commands.go:43-43 [takeAllArg] *)
Definition takeAllArg : bytes :=
  bs "all".
(** bot/core_commands.go:45-45 [help] *)
Definition help : bytes :=
  bs "help".
(** bot/core_commands.go:47-47 [errFmtRegister] *)
Definition errFmtRegister : bytes :=
  bs "bot: A core command registration failed: %v".
(** bot/core_commands.go:48-48 [errMsgInternal] *)
Definition errMsgInternal : bytes :=
  bs "There was an internal error, try again later.".
(** bot/core_commands.go:49-49 [errFmtInternal] *)
Definition errFmtInternal : bytes :=
  bs "commander: Error processing command %v (%v)".
(** bot/core_commands.go:50-51 [errFmtExpired] *)
Definition errFmtExpired : bytes :=
  bs "commander: Data expired between locks. Could not find user [%v]".
(** bot/core_commands.go:52-52 [cmdExec] *)
Definition cmdExec : bytes :=
  bs "bot: Core command executed".
(** bot/core_commands.go:53-53 [errInternalError] *)
Definition errInternalError : bytes :=
  bs "bot: Core command error".
(** bot/core_commands.go:54-54 [errInternalPanic] *)
Definition errInternalPanic : bytes :=
  bs "bot: Core command error".
(** bot/core_commands.go:56-56 [errMsgAuthed] *)
Definition errMsgAuthed : bytes :=
  bs "You are already authenticated.".
(** bot/core_commands.go:57-57 [errFmtUserNotFound] *)
Definition errFmtUserNotFound : bytes :=
  bs "The user [%v] could not be found.".
(** bot/core_commands.go:58-58 [errFmtUserNotAuthed] *)
Definition errFmtUserNotAuthed : bytes :=
  bs "The user [%v] is not authenticated.".
(** bot/core_commands.go:60-60 [registerDesc] *)
Definition registerDesc : bytes :=
  bs "Registers an account.".
(** bot/core_commands.go:61-62 [registerSuccess] *)
Definition registerSuccess : bytes :=
  bs "Registered [%v] successfully. You have been automatically authenticated.".
(** bot/core_commands.go:63-65 [registerSuccessFirst] *)
Definition registerSuccessFirst : bytes :=
  bs "Registered [%v] successfully. As the first user, you have been given all permissions and privileges as well as being automatically authenticated. \o/".
(** bot/core_commands.go:66-66 [registerFailure] *)
Definition registerFailure : bytes :=
  bs "The username [%v] is already registered.".
(** bot/core_commands.go:67-67 [authDesc] *)
Definition authDesc : bytes :=
  bs "Authenticate a user to an account.".
(** bot/core_commands.go:68-68 [authSuccess] *)
Definition authSuccess : bytes :=
  bs "Successfully authenticated [%v].".
(** bot/core_commands.go:69-70 [logoutDesc] *)
Definition logoutDesc : bytes :=
  bs "Logs the current user out of the account. Admins can add a user param to log that user out.".
(** bot/core_commands.go:71-71 [logoutSuccess] *)
Definition logoutSuccess : bytes :=
  bs "Successfully logged out.".
(** bot/core_commands.go:72-72 [accessDesc] *)
Definition accessDesc : bytes :=
  bs "Access retrieves the access for the user.".
(** bot/core_commands.go:73-73 [accessSuccess] *)
Definition accessSuccess : bytes :=
  bs "Access for [%v]: %v".
(** bot/core_commands.go:74-74 [deluserDesc] *)
Definition deluserDesc : bytes :=
  bs "Deletes a user account from the bot.".
(** bot/core_commands.go:75-75 [deluserSuccess] *)
Definition deluserSuccess : bytes :=
  bs "Removed user [%v].".
(** bot/core_commands.go:76-76 [deluserFailure] *)
Definition deluserFailure : bytes :=
  bs "User [%v] does not exist.".
(** bot/core_commands.go:77-77 [delmeDesc] *)
Definition delmeDesc : bytes :=
  bs "Deletes the current user's account.".
(** bot/core_commands.go:78-78 [delmeSuccess] *)
Definition delmeSuccess : bytes :=
  bs "Removed your user account [%v].".
(** bot/core_commands.go:79-79 [delmeFailure] *)
Definition delmeFailure : bytes :=
  bs "User account could not be removed.".
(** bot/core_commands.go:80-80 [passwdDesc] *)
Definition passwdDesc : bytes :=
  bs "Change the current user's account password.".
(** bot/core_commands.go:81-81 [passwdSuccess] *)
Definition passwdSuccess : bytes :=
  bs "Successfully updated password.".
(** bot/core_commands.go:82-82 [passwdFailure] *)
Definition passwdFailure : bytes :=
  bs "Old password did not match the current password.".
(** bot/core_commands.go:83-84 [masksDesc] *)
Definition masksDesc : bytes :=
  bs "Retrieves the current user's mask list. Admins can add a user param to see that user's masks.".
(** bot/core_commands.go:85-85 [masksSuccess] *)
Definition masksSuccess : bytes :=
  bs "Masks: %v".
(** bot/core_commands.go:86-86 [masksFailure] *)
Definition masksFailure : bytes :=
  bs "No masks set.".
(** bot/core_commands.go:87-88 [addmaskDesc] *)
Definition addmaskDesc : bytes :=
  bs "Adds a mask to the current user. Admins can add a user param to add a mask to that user.".
(** bot/core_commands.go:89-89 [addmaskSuccess] *)
Definition addmaskSuccess : bytes :=
  bs "Host [%v] added successfully.".
(** bot/core_commands.go:90-90 [addmaskFailure] *)
Definition addmaskFailure : bytes :=
  bs "Host [%v] already exists.".
(** bot/core_commands.go:91-92 [delmaskDesc] *)
Definition delmaskDesc : bytes :=
  bs "Deletes a mask from the current user. Admins can add a user param to remove a mask to that user.".
(** bot/core_commands.go:93-93 [delmaskSuccess] *)
Definition delmaskSuccess : bytes :=
  bs "Host [%v] removed successfully.".
(** bot/core_commands.go:94-94 [delmaskFailure] *)
Definition delmaskFailure : bytes :=
  bs "Host [%v] not found.".
(** bot/core_commands.go:96-96 [resetpasswdDesc] *)
Definition resetpasswdDesc : bytes :=
  bs "Resets a user's password.".
(** bot/core_commands.go:97-97 [resetpasswdSuccess] *)
Definition resetpasswdSuccess : bytes :=
  bs "Password reset successful.".
(** bot/core_commands.go:98-98 [resetpasswdSuccessTarget] *)
Definition resetpasswdSuccessTarget : bytes :=
  bs "Your password was reset by %v, it is now: %v".
(** bot/core_commands.go:100-101 [ggiveDesc] *)
Definition ggiveDesc : bytes :=
  bs "Gives global access to a user. Arguments can be numeric levels or flags.".
(** bot/core_commands.go:102-102 [ggiveSuccess] *)
Definition ggiveSuccess : bytes :=
  bs "User [%v] now has: (%v) globally.".
(** bot/core_commands.go:103-104 [sgiveDesc] *)
Definition sgiveDesc : bytes :=
  bs "Gives network access to a user. Arguments can be numeric levels or flags.".
(** bot/core_commands.go:105-105 [sgiveSuccess] *)
Definition sgiveSuccess : bytes :=
  bs "User [%v] now has: (%v) network-wide.".
(** bot/core_commands.go:106-107 [giveDesc] *)
Definition giveDesc : bytes :=
  bs "Gives channel access to a user. Arguments can be numeric levels or flags.".
(** bot/core_commands.go:108-108 [giveSuccess] *)
Definition giveSuccess : bytes :=
  bs "User [%v] now has: (%v) on %v".
(** bot/core_commands.go:109-111 [gtakeDesc] *)
Definition gtakeDesc : bytes :=
  bs "Takes global access from a user. If no arguments are given, takes the level access, otherwise removes the given flags. Use all to take all access.".
(** bot/core_commands.go:112-114 [stakeDesc] *)
Definition stakeDesc : bytes :=
  bs "Takes network access from a user. If no arguments are given, takes the level access, otherwise removes the given flags. Use all to take all access.".
(** bot/core_commands.go:115-117 [takeDesc] *)
Definition takeDesc : bytes :=
  bs "Takes channel access from a user. If no arguments are given, takes the level access, otherwise removes the given flags. Use all to take all access.".
(** bot/core_commands.go:119-120 [giveFailure] *)
Definition giveFailure : bytes :=
  bs "Invalid arguments, must be numeric accesses from 1-255 or flags in the range: A-Za-z.".
(** bot/core_commands.go:121-121 [giveFailureHas] *)
Definition giveFailureHas : bytes :=
  bs "User [%v](%v) already has: %v".
(** bot/core_commands.go:122-124 [takeFailure] *)
Definition takeFailure : bytes :=
  bs "Invalid arguments, leave empty to delete level access, specific flags to delete those flags, or the keyword all to delete everything. (given: %v)".
(** bot/core_commands.go:125-126 [takeFailureNo] *)
Definition takeFailureNo : bytes :=
  bs "No action taken. User [%v](%v) has none of the given access to remove.".
(** bot/core_commands.go:128-128 [gusersDesc] *)
Definition gusersDesc : bytes :=
  bs "Lists all the users added to the global access list.".
(** bot/core_commands.go:129-129 [gusersNoUsers] *)
Definition gusersNoUsers : bytes :=
  bs "No users for %v".
(** bot/core_commands.go:130-130 [gusersHead] *)
Definition gusersHead : bytes :=
  bs "Showing %v users:".
(** bot/core_commands.go:132-133 [usersDesc] *)
Definition usersDesc : bytes :=
  bs "Lists all the users added to the channel's access list. If no channel specified then list for current channel.".
(** bot/core_commands.go:134-134 [usersNoUsers] *)
Definition usersNoUsers : bytes :=
  bs "No users for %v".
(** bot/core_commands.go:135-135 [usersHead] *)
Definition usersHead : bytes :=
  bs "Showing %v users for %v:".
(** bot/core_commands.go:137-137 [susersDesc] *)
Definition susersDesc : bytes :=
  bs "Lists all the users added to the network's access list. ".
(** bot/core_commands.go:138-138 [susersNoUsers] *)
Definition susersNoUsers : bytes :=
  bs "No users for %v".
(** bot/core_commands.go:139-139 [susersHead] *)
Definition susersHead : bytes :=
  bs "Showing %v users for %v:".
(** bot/core_commands.go:141-141 [usersListHeadUser] *)
Definition usersListHeadUser : bytes :=
  bs "User".
(** bot/core_commands.go:142-142 [usersListHeadAccess] *)
Definition usersListHeadAccess : bytes :=
  bs "Access".
(** bot/core_commands.go:143-143 [usersList] *)
Definition usersList : bytes :=
  bs "%-*v %v".
(** bot/core_commands.go:145-145 [helpSuccess] *)
Definition helpSuccess : bytes :=
  bs "Cmds:".
(** bot/core_commands.go:146-146 [helpSuccessUsage] *)
Definition helpSuccessUsage : bytes :=
  bs "Usage: ".
(** bot/core_commands.go:147-148 [helpFailure] *)
Definition helpFailure : bytes :=
  bs "No help available for (%v), try " ++ ["034"%char] ++ bs "help" ++ ["034"%char] ++ bs " for a list of all commands.".
(** bot/core_commands.go:149-151 [helpDesc] *)
Definition helpDesc : bytes :=
  bs "Help with no arguments shows all commands, help with an argument performs a search, if only one match is found gives detailed information about that command.".
End Text.
