(* ===== verification/CoreCmds.v ===== *)
(** * Package bot: the core commands (bot/core_commands.go)

    The commands with which users register, log in and are given access.  A
    command is given its event by the commander and works on the bot's store
    and on a writer; both are the state [env] of the computation, and stay
    changed when the command panics, since [Cmd] recovers.  What the event
    points to in the state of the network does not change while a command
    reads it.  The salt of a new password and the draws of the random numbers
    are arguments, and logging is left out. *)

From stdpp Require Import sorting.
From S2P Require Import Prelude GoStrings Hosts Fmt Effects NetworkInfo Event DispatchCore Cmd Cmds.
From S2P Require Import Channel UserModes Access StoredUser State Store.
From S2P Require Import Writer CoreText.

(** ** What the commands are made of *)

(** An error that is logged: a text, or what [strconv.ParseUint] returns for
    a number it cannot read or that is out of range. *)
Inductive failure :=
  | Failed (text : bytes)
  | NumError (num : bytes) (out_of_range : bool).

(** bot/core_commands.go:17-17 [rgxFlags]: the expression is searched for, not
    matched against the whole text, so one letter anywhere is enough. *)
Definition rgxFlags_match (s : bytes) : bool :=
  existsb (fun c => bool_decide (65 <= code c <= 90)%Z || bool_decide (97 <= code c <= 122)%Z) s.

(** [strconv.ParseUint(s, 10, 8)]: digits only, and no more than 255. *)
Definition ParseUint8 (s : bytes) : failure + Z :=
  match s with
  | [] => inl (NumError s false)
  | _ =>
    match mapM digit_val s with
    | None => inl (NumError s false)
    | Some ds =>
      let n := foldl (fun n d => n * 10 + Z.of_nat d)%Z 0%Z ds in
      if bool_decide (n <= 255)%Z then inr n else inl (NumError s true)
    end
  end.

(** bot/core_commands.go [filterFlags]: an invalid byte is written back as
    U+FFFD. *)
Definition filterFlags (flags : bytes) (check : Z -> bool) : bytes :=
  string_of_runes (List.filter (fun r => negb (check r)) (runes flags)).

(** bot/core_commands.go [userListWidth] *)
Definition userListWidth (users : list StoredUser) : nat :=
  foldl (fun minl u => let l := length u.(su_Username) in if bool_decide (minl < l) then l else minl)
    (length Text.usersListHeadUser) users.

(** The order of Go's strings, for [sort.Strings] *)
Fixpoint bytes_leb (a b : bytes) : bool :=
  match a, b with
  | [], _ => true
  | _, [] => false
  | x :: a, y :: b =>
    if bool_decide (code x < code y)%Z then true
    else if bool_decide (x = y) then bytes_leb a b else false
  end.

Definition bytes_le (a b : bytes) : Prop := bytes_leb a b = true.
#[export] Instance bytes_le_dec : RelDecision bytes_le.
Proof. unfold bytes_le. solve_decision. Defined.

Definition sort_strings (l : list bytes) : list bytes := merge_sort bytes_le l.

Definition access_value (a : option Access) : value := VOther (bs "*data.Access") (Access_String a).

(** [*user] and [G], the flag of the users that manage others *)
Definition user_arg : bytes := bs "user".
Definition flag_G : Z := 71.

Section CoreCmds.
Context {CT : CaseTables} {BC : Bcrypt} {K : KV} {G : Gob} {RO : RangeOrder bytes}.
Context (state : option State.State).
Context {W E : Type} (Write : bytes -> W -> W * option E).
Context (registry : Registry) (salt : Salt) (draws : list Z).

Record env := { e_store : option Store; e_w : W }.
Abbreviation cmdM := (eff env).

(** The internal error, which is logged, and the external one, which the
    sender is told. *)
Abbreviation errs := (option failure * option bytes)%type.

Definition ok : cmdM errs := mret (None, None).
Definition internal (err : failure) : cmdM errs := mret (Some err, None).
Definition external (err : bytes) : cmdM errs := mret (None, Some err).

(** A call of the writer, whose error nobody looks at. *)
Definition say (call : W -> go (option (W * option E))) : cmdM unit := fun s =>
  match call s.(e_w) with
  | Panic => (Panicked, s)
  | Ret None => (Hangs, s)
  | Ret (Some (w, _)) => (Done tt, {| e_store := s.(e_store); e_w := w |})
  end.
Definition notice (target : bytes) (args : list value) : cmdM unit :=
  say (Notice Write target args).
Definition noticef (target format : bytes) (args : list value) : cmdM unit :=
  say (Noticef Write target format args).

(** A method of the store; the store may be missing. *)
Definition with_store {A} (f : Store -> go (A * Store)) : cmdM A := fun s =>
  match s.(e_store) with
  | None => (Panicked, s)
  | Some store =>
    match f store with
    | Panic => (Panicked, s)
    | Ret (a, store) => (Done a, {| e_store := Some store; e_w := s.(e_w) |})
    end
  end.
Definition on_store {A} (f : Store -> A * Store) : cmdM A := with_store (fun s => Ret (f s)).

(** Following a pointer to a stored user, and changing what it points to *)
Definition load (p : ptr) : cmdM StoredUser :=
  with_store (fun s => u ← deref (l ← p; s.(suheap) !! l); Ret (u, s)).
Definition store_user (l : nat) (u : StoredUser) : cmdM unit :=
  on_store (fun s => (tt, set_suheap s (<[l := u]> s.(suheap)))).
Definition alloc_user (u : StoredUser) : cmdM nat :=
  on_store (fun s => let l := fresh (dom s.(suheap)) in (l, set_suheap s (<[l := u]> s.(suheap)))).

(** The events the commands are given. *)
Context (ircev : Event) (ev : CmdEvent).

Definition sender : cmdM User :=
  pure_go (st ← deref state; deref (l ← ev.(ce_User); st.(uheap) !! l)).
(** [ev.Channel.Name()] *)
Definition channel_name : cmdM bytes :=
  pure_go (st ← deref state; ch ← deref (l ← ev.(ce_Channel); st.(cheap) !! l);
           Ret (Channel_Name ch)).
(** [ev.TargetUsers[name].Nick()] *)
Definition target_nick (name : bytes) : cmdM bytes :=
  pure_go (st ← deref state; u ← deref (l ← ev.(ce_TargetUsers) !! name; st.(uheap) !! l);
           Ret (User_Nick u)).
Definition target_user : ptr := ev.(ce_TargetStoredUser) !! user_arg.

Definition save (l : nat) : cmdM (option bytes) := with_store (fun s => SaveUser s l).
Definition find (username : bytes) : cmdM (ptr * option bytes) :=
  on_store (fun s => FindUser s username).
Definition authed_user (network host : bytes) : cmdM ptr :=
  on_store (fun s => (GetAuthedUser s network host, s)).

(** ** Accounts *)

(** The name that is registered or logged in with: the argument, or the
    sender's username. *)
Definition given_username : cmdM bytes :=
  match GetArg ev (bs "username") with
  | [] => u ← sender; mret (TrimLeft (User_Username u) (bs "~"))
  | uname => mret uname
  end.

(** [access := ev.StoredUser], or else the user the sender is logged in as *)
Definition current_user : cmdM ptr :=
  match ev.(ce_StoredUser) with
  | Some l => mret (Some l)
  | None => u ← sender; authed_user ircev.(NetworkID) (Host u)
  end.

(** bot/core_commands.go [coreCmds.register] *)
Definition register : cmdM errs :=
  let pwd := GetArg ev (bs "password") in
  uname ← given_username;
  access ← current_user;
  match access with
  | Some _ => external (Sprintf Text.errMsgAuthed [])
  | None =>
    '(access, err) ← find uname;
    match err, access with
    | Some err, _ => internal (Failed err)
    | None, Some _ => external (Sprintf Text.registerFailure [VString uname])
    | None, None =>
      match NewStoredUser salt uname pwd [] with
      | inl err => internal (Failed err)
      | inr access =>
        u ← sender;
        let host := Host u in
        let nick := User_Nick u in
        '(isFirst, err) ← on_store IsFirst;
        match err with
        | Some err => internal (Failed err)
        | None =>
          l ← alloc_user (if isFirst : bool
                          then set_global access (Some {| Level := 255; Flags := 2 ^ 64 - 1 |})
                          else access);
          err ← save l;
          match err with
          | Some err => internal (Failed err)
          | None =>
            r ← with_store (fun s => AuthUser s ircev.(NetworkID) host uname pwd);
            match r with
            | inl (Other err) => internal (Failed err)
            | inl (Auth err) => internal (Failed (AuthError_Error err))
            | inr _ =>
              noticef nick (if isFirst : bool then Text.registerSuccessFirst else Text.registerSuccess)
                [VString uname] ;;
              ok
            end
          end
        end
      end
    end
  end.

(** bot/core_commands.go [coreCmds.auth] *)
Definition auth : cmdM errs :=
  let pwd := GetArg ev (bs "password") in
  uname ← given_username;
  u ← sender;
  let host := Host u in
  let nick := User_Nick u in
  access ← current_user;
  match access with
  | Some _ => external Text.errMsgAuthed
  | None =>
    r ← with_store (fun s => AuthUser s ircev.(NetworkID) host uname pwd);
    match r with
    | inl (Auth err) => external (AuthError_Error err)
    | inl (Other err) => internal (Failed err)
    | inr _ => noticef nick Text.authSuccess [VString uname] ;; ok
    end
  end.

(** Whether the sender, who has to be logged in, has the flag G globally; a
    command that another user is given to asks for it. *)
Definition sender_manages : cmdM bool :=
  u ← load ev.(ce_StoredUser); mret (HasGlobalFlag u flag_G).

(** bot/core_commands.go [coreCmds.logout] *)
Definition logout : cmdM errs :=
  u ← sender;
  let host := Host u in
  let nick := User_Nick u in
  let rest uname :=
    (if bool_decide (uname <> [])
     then with_store (fun s => s ← LogoutByUsername s uname; Ret (tt, s))
     else on_store (fun s => (tt, Logout s ircev.(NetworkID) host))) ;;
    notice nick [VString Text.logoutSuccess] ;; ok in
  match target_user with
  | None => rest []
  | Some l =>
    manages ← sender_manages;
    if negb manages then external (MakeGlobalFlagsError (bs "G")) else
    user ← load (Some l);
    rest user.(su_Username)
  end.

(** bot/core_commands.go [coreCmds.access] *)
Definition access : cmdM errs :=
  ch ← match ev.(ce_Channel) with Some _ => channel_name | None => mret [] end;
  u ← sender;
  access ← load (match target_user with None => ev.(ce_StoredUser) | Some l => Some l end);
  noticef (User_Nick u) Text.accessSuccess
    [VString access.(su_Username); VString (StoredUser_String access ircev.(NetworkID) ch)] ;;
  ok.

(** bot/core_commands.go:480-488 [coreCmds.gusers]: the table that the three
    lists of users end in *)
Definition user_table (nick : bytes) (head : list value) (headf : bytes) (list : list StoredUser)
    (get : StoredUser -> option Access) : cmdM errs :=
  let width := int_value (Z.of_nat (userListWidth list + 1)) in
  noticef nick headf (int_value (Z.of_nat (length list)) :: head) ;;
  noticef nick Text.usersList
    [width; VString Text.usersListHeadUser; VString Text.usersListHeadAccess] ;;
  each (fun ua => noticef nick Text.usersList
                    [width; VString ua.(su_Username); access_value (get ua)]) list ;;
  ok.

(** bot/core_commands.go [coreCmds.gusers]: the message for an empty list is
    sent without its operand. *)
Definition gusers : cmdM errs :=
  u ← sender;
  let nick := User_Nick u in
  r ← on_store (fun s => (GlobalUsers s, s));
  match r with
  | inl err => internal (Failed err)
  | inr [] => noticef nick Text.gusersNoUsers [] ;; ok
  | inr list => user_table nick [] Text.gusersHead list GetGlobal
  end.

(** bot/core_commands.go [coreCmds.susers] *)
Definition susers : cmdM errs :=
  u ← sender;
  let nick := User_Nick u in
  let network := ircev.(NetworkID) in
  r ← on_store (fun s => (NetworkUsers s network, s));
  match r with
  | inl err => internal (Failed err)
  | inr [] => noticef nick Text.susersNoUsers [VString network] ;; ok
  | inr list => user_table nick [VString network] Text.susersHead list
                  (fun ua => GetNetwork ua network)
  end.

(** bot/core_commands.go [coreCmds.users]: without an argument the channel of
    the event is followed, which is nil for a private message. *)
Definition users : cmdM errs :=
  ch ← match GetArg ev (bs "chan") with [] => channel_name | ch => mret ch end;
  match ch with
  | [] => ok
  | _ =>
    u ← sender;
    let nick := User_Nick u in
    let network := ircev.(NetworkID) in
    r ← on_store (fun s => (ChanUsers s network ch, s));
    match r with
    | inl err => internal (Failed err)
    | inr [] => noticef nick Text.usersNoUsers [VString ch] ;; ok
    | inr list => user_table nick [VString ch] Text.usersHead list
                    (fun ua => StoredUser.GetChannel ua network ch)
    end
  end.

(** bot/core_commands.go [coreCmds.deluser] *)
Definition deluser : cmdM errs :=
  let param := GetArg ev user_arg in
  manages ← sender_manages;
  if negb manages then external (MakeGlobalFlagsError (bs "G")) else
  user ← load target_user;
  let uname := user.(su_Username) in
  u ← sender;
  let nick := User_Nick u in
  with_store (fun s => s ← LogoutByUsername s uname; Ret (tt, s)) ;;
  '(removed, err) ← on_store (fun s => RemoveUser s uname);
  match err with
  | Some err => internal (Failed err)
  | None =>
    noticef nick (if removed : bool then Text.deluserSuccess else Text.deluserFailure)
      [VString param] ;;
    ok
  end.

(** bot/core_commands.go [coreCmds.delme]: only the login of the sender's own
    host ends. *)
Definition delme : cmdM errs :=
  u ← sender;
  let host := Host u in
  let nick := User_Nick u in
  self ← load ev.(ce_StoredUser);
  let uname := self.(su_Username) in
  on_store (fun s => (tt, Logout s ircev.(NetworkID) host)) ;;
  '(removed, err) ← on_store (fun s => RemoveUser s uname);
  match err with
  | Some err => internal (Failed err)
  | None =>
    if removed : bool then noticef nick Text.delmeSuccess [VString uname] ;; ok
    else internal (Failed Text.delmeFailure)
  end.

(** What commands do to find a user again after they have given their locks
    back: the user, or the internal error *)
Definition find_again (uname : bytes) (rest : nat -> StoredUser -> cmdM errs) : cmdM errs :=
  '(access, err) ← find uname;
  match err, access with
  | Some err, _ => internal (Failed err)
  | None, None => internal (Failed (Sprintf Text.errFmtExpired [VString uname]))
  | None, Some l => u ← load (Some l); rest l u
  end.

(** Saving, and going on when there is no error *)
Definition save_then (l : nat) (rest : cmdM errs) : cmdM errs :=
  err ← save l;
  match err with
  | Some err => internal (Failed err)
  | None => rest
  end.

(** bot/core_commands.go [coreCmds.passwd] *)
Definition passwd : cmdM errs :=
  let oldpasswd := GetArg ev (bs "oldpassword") in
  let newpasswd := GetArg ev (bs "newpassword") in
  u ← sender;
  let nick := User_Nick u in
  self ← load ev.(ce_StoredUser);
  let uname := self.(su_Username) in
  if negb (VerifyPassword self oldpasswd) then notice nick [VString Text.passwdFailure] ;; ok else
  find_again uname (fun l access =>
    let '(err, access) := SetPassword salt access newpasswd in
    match err with
    | Some err => internal (Failed err)
    | None =>
      store_user l access ;;
      save_then l (notice nick [VString Text.passwdSuccess] ;; ok)
    end).

(** bot/core_commands.go [coreCmds.masks] *)
Definition masks : cmdM errs :=
  let rest p :=
    access ← load p;
    u ← sender;
    match access.(su_Masks) with
    | [] => notice (User_Nick u) [VString Text.masksFailure] ;; ok
    | masks => noticef (User_Nick u) Text.masksSuccess [VString (Join masks (bs " "))] ;; ok
    end in
  match target_user with
  | None => rest ev.(ce_StoredUser)
  | Some l =>
    manages ← sender_manages;
    if negb manages then external (MakeGlobalFlagsError (bs "G")) else rest (Some l)
  end.

(** The name of the user whose masks change, and what is done with it *)
Definition mask_owner (rest : bytes -> bytes -> cmdM errs) : cmdM errs :=
  u ← sender;
  let nick := User_Nick u in
  self ← load ev.(ce_StoredUser);
  match target_user with
  | None => rest nick self.(su_Username)
  | Some l =>
    manages ← sender_manages;
    if negb manages then external (MakeGlobalFlagsError (bs "G")) else
    user ← load (Some l);
    rest nick user.(su_Username)
  end.

(** bot/core_commands.go [coreCmds.addmask] *)
Definition addmask : cmdM errs :=
  let mask := GetArg ev (bs "mask") in
  mask_owner (fun nick uname =>
    find_again uname (fun l access =>
      let '(added, access) := AddMask access mask in
      if added : bool then
        store_user l access ;;
        save_then l (noticef nick Text.addmaskSuccess [VString mask] ;; ok)
      else noticef nick Text.addmaskFailure [VString mask] ;; ok)).

(** bot/core_commands.go [coreCmds.delmask] *)
Definition delmask : cmdM errs :=
  let mask := GetArg ev (bs "mask") in
  mask_owner (fun nick uname =>
    find_again uname (fun l access =>
      let '(deleted, access) := DelMask access mask in
      if deleted : bool then
        store_user l access ;;
        save_then l (noticef nick Text.delmaskSuccess [VString mask] ;; ok)
      else noticef nick Text.delmaskFailure [VString mask] ;; ok)).

(** bot/core_commands.go [coreCmds.resetpasswd] *)
Definition resetpasswd : cmdM errs :=
  user ← load target_user;
  let uname := user.(su_Username) in
  resetnick ← target_nick (bs "nick");
  u ← sender;
  let nick := User_Nick u in
  find_again uname (fun l access =>
    let '((newpasswd, err), access) := ResetPassword salt draws access in
    match err with
    | Some err => internal (Failed err)
    | None =>
      store_user l access ;;
      save_then l
        (notice nick [VString Text.resetpasswdSuccess] ;;
         noticef resetnick Text.resetpasswdSuccessTarget [VString nick; VString newpasswd] ;;
         ok)
    end).

(** ** Giving and taking access *)

(** bot/core_commands.go:156-156 [giveHelperFunc]: the user it leaves, the text
    for the sender and whether to save *)
Definition giveHelperFunc : Type := StoredUser -> Z -> bytes -> StoredUser * bytes * bool.
(** bot/core_commands.go:157-157 [takeHelperFunc] *)
Definition takeHelperFunc : Type := StoredUser -> bool -> bool -> bytes -> StoredUser * bytes * bool.

(** One of the three places access is kept at. *)
Record scope := {
  sc_get : StoredUser -> option Access;
  sc_has_flag : StoredUser -> Z -> bool;
  sc_has_level : StoredUser -> Z -> bool;
  sc_has_flags : StoredUser -> bytes -> bool;
  sc_grant_level : StoredUser -> Z -> StoredUser;
  sc_grant_flags : StoredUser -> bytes -> StoredUser;
  sc_revoke : StoredUser -> StoredUser;
  sc_revoke_level : StoredUser -> StoredUser;
  sc_revoke_flags : StoredUser -> bytes -> StoredUser;
  sc_text : StoredUser -> bytes;
}.

(** bot/core_commands.go:822-835 [coreCmds.ggive]: the function given to the
    helper; that of [sgive] and [give] is the same for another scope. *)
Definition give_func (sc : scope) : giveHelperFunc := fun a level flags =>
  let a := if bool_decide (0 < level)%Z then sc.(sc_grant_level) a level else a in
  if bool_decide (flags <> []) then
    let filtered := filterFlags flags (sc.(sc_has_flag) a) in
    if bool_decide (filtered = []) && bool_decide (level = 0%Z) then
      (a, Sprintf Text.giveFailureHas [VString a.(su_Username); access_value (sc.(sc_get) a);
                                       VString flags], false)
    else
      let a := sc.(sc_grant_flags) a filtered in (a, sc.(sc_text) a, true)
  else (a, sc.(sc_text) a, true).

(** bot/core_commands.go:896-920 [coreCmds.gtake]: the function given to the
    helper; that of [stake] and [take] is the same for another scope. *)
Definition take_func (sc : scope) : takeHelperFunc := fun a all level flags =>
  let '(a, save) :=
    if all then
      if sc.(sc_has_level) a 1 || sc.(sc_has_flags) a flags then (sc.(sc_revoke) a, true) else (a, false)
    else if level then
      if sc.(sc_has_level) a 1 then (sc.(sc_revoke_level) a, true) else (a, false)
    else if sc.(sc_has_flags) a flags then (sc.(sc_revoke_flags) a flags, true) else (a, false) in
  (a, if save : bool then sc.(sc_text) a
      else Sprintf Text.takeFailureNo [VString a.(su_Username); VString (Access_String (sc.(sc_get) a))],
   save).

(** The calls that [ggive] and [gtake] make *)
Definition global_scope : scope := {|
  sc_get := su_Global;
  sc_has_flag := HasGlobalFlag;
  sc_has_level := HasGlobalLevel;
  sc_has_flags := fun a flags => HasGlobalFlags a [flags];
  sc_grant_level := GrantGlobalLevel;
  sc_grant_flags := fun a flags => GrantGlobalFlags a [flags];
  sc_revoke := RevokeGlobal;
  sc_revoke_level := RevokeGlobalLevel;
  sc_revoke_flags := fun a flags => RevokeGlobalFlags a [flags];
  sc_text := fun a => Sprintf Text.ggiveSuccess [VString a.(su_Username); access_value a.(su_Global)];
|}.
(** The calls that [sgive] and [stake] make *)
Definition network_scope (network : bytes) : scope := {|
  sc_get := fun a => GetNetwork a network;
  sc_has_flag := fun a => HasNetworkFlag a network;
  sc_has_level := fun a => HasNetworkLevel a network;
  sc_has_flags := fun a flags => HasNetworkFlags a network [flags];
  sc_grant_level := fun a => GrantNetworkLevel a network;
  sc_grant_flags := fun a flags => GrantNetworkFlags a network [flags];
  sc_revoke := fun a => RevokeNetwork a network;
  sc_revoke_level := fun a => RevokeNetworkLevel a network;
  sc_revoke_flags := fun a flags => RevokeNetworkFlags a network [flags];
  sc_text := fun a => Sprintf Text.sgiveSuccess
                        [VString a.(su_Username); access_value (GetNetwork a network)];
|}.
(** The calls that [give] and [take] make *)
Definition channel_scope (network channel : bytes) : scope := {|
  sc_get := fun a => StoredUser.GetChannel a network channel;
  sc_has_flag := fun a => HasChannelFlag a network channel;
  sc_has_level := fun a => HasChannelLevel a network channel;
  sc_has_flags := fun a flags => HasChannelFlags a network channel [flags];
  sc_grant_level := fun a => GrantChannelLevel a network channel;
  sc_grant_flags := fun a flags => GrantChannelFlags a network channel [flags];
  sc_revoke := fun a => RevokeChannel a network channel;
  sc_revoke_level := fun a => RevokeChannelLevel a network channel;
  sc_revoke_flags := fun a flags => RevokeChannelFlags a network channel [flags];
  sc_text := fun a => Sprintf Text.giveSuccess
                        [VString a.(su_Username); access_value (StoredUser.GetChannel a network channel);
                         VString channel];
|}.

(** bot/core_commands.go:1021-1028 [coreCmds.giveHelper]: the loop over the
    arguments: the last level and all the flags *)
Fixpoint read_grants (args : list bytes) (level : Z) (flags : bytes) : failure + (Z * bytes) :=
  match args with
  | [] => inr (level, flags)
  | arg :: args =>
    if rgxFlags_match arg then read_grants args level (flags ++ arg) else
    match ParseUint8 arg with
    | inl err => inl err
    | inr level => read_grants args level flags
    end
  end.

(** bot/core_commands.go [coreCmds.giveHelper]: the text it sends is used as a
    format once more. *)
Definition giveHelper (g : giveHelperFunc) : cmdM errs :=
  user ← load target_user;
  let args := SplitArg ev (bs "levelOrFlags") in
  u ← sender;
  let nick := User_Nick u in
  find_again user.(su_Username) (fun l access =>
    match read_grants args 0 [] with
    | inl err => internal err
    | inr (level, flags) =>
      if bool_decide (0 < level < 256)%Z || bool_decide (flags <> []) then
        let '(access, str, dosave) := g access level flags in
        store_user l access ;;
        let rest := noticef nick str [] ;; ok in
        if dosave : bool then save_then l rest else rest
      else noticef nick Text.giveFailure [] ;; ok
    end).

(** bot/core_commands.go [coreCmds.takeHelper]: an argument that makes no sense
    is an error for the sender, and the function is called nevertheless. *)
Definition takeHelper (t : takeHelperFunc) : cmdM errs :=
  user ← load target_user;
  let arg := GetArg ev (bs "allOrFlags") in
  u ← sender;
  let nick := User_Nick u in
  find_again user.(su_Username) (fun l access =>
    let '(all, level, flags, external) :=
      if bool_decide (arg = []) then (false, true, [], None) else
      if bool_decide (arg = Text.takeAllArg) then (true, false, [], None) else
      if rgxFlags_match arg then (false, false, arg, None)
      else (false, false, [], Some (Sprintf Text.takeFailure [VString arg])) in
    let '(access, str, dosave) := t access all level flags in
    store_user l access ;;
    let rest := noticef nick str [] ;; mret (None, external) in
    if dosave : bool then
      err ← save l;
      match err with
      | Some err => mret (Some (Failed err), external)
      | None => rest
      end
    else rest).

(** bot/core_commands.go [coreCmds.ggive] *)
Definition ggive : cmdM errs := giveHelper (give_func global_scope).
(** bot/core_commands.go [coreCmds.sgive] *)
Definition sgive : cmdM errs := giveHelper (give_func (network_scope ircev.(NetworkID))).
(** bot/core_commands.go [coreCmds.give] *)
Definition give : cmdM errs :=
  giveHelper (give_func (channel_scope ircev.(NetworkID) (GetArg ev (bs "chan")))).
(** bot/core_commands.go [coreCmds.gtake] *)
Definition gtake : cmdM errs := takeHelper (take_func global_scope).
(** bot/core_commands.go [coreCmds.stake] *)
Definition stake : cmdM errs := takeHelper (take_func (network_scope ircev.(NetworkID))).
(** bot/core_commands.go [coreCmds.take] *)
Definition take : cmdM errs :=
  takeHelper (take_func (channel_scope ircev.(NetworkID) (GetArg ev (bs "chan")))).

(** ** Help *)

(** [output[ext] = append(output[ext], cmd)] *)
Definition add_output (output : gmap bytes (list bytes)) (c : Cmd) : gmap bytes (list bytes) :=
  <[c.(Extension) := default [] (output !! c.(Extension)) ++ [c.(cmd_Cmd)]]> output.

(** bot/core_commands.go:1104-1132 [coreCmds.help]: the function given to
    [EachCmd] for one command: what it leaves, and whether it stops *)
Definition help_visit (search : bytes) (output : gmap bytes (list bytes)) (exact : list Cmd) (c : Cmd)
    : gmap bytes (list bytes) * list Cmd * bool :=
  let combined := c.(Extension) ++ bs "." ++ c.(cmd_Cmd) in
  let perfect := bool_decide (combined = search) in
  if bool_decide (search <> []) then
    if bool_decide (c.(cmd_Cmd) = search) || perfect then
      let first := bool_decide (exact = []) || perfect in
      let exact := if first then [c] else exact ++ [c] in
      if perfect then (output, exact, true)
      else (if first then add_output output c else output, exact, false)
    else (if Contains combined search then add_output output c else output, exact, false)
  else (add_output output c, exact, false).

Fixpoint help_loop (search : bytes) (output : gmap bytes (list bytes)) (exact : list Cmd) (l : list Cmd)
    : gmap bytes (list bytes) * list Cmd :=
  match l with
  | [] => (output, exact)
  | c :: l =>
    let '(output, exact, stop) := help_visit search output exact c in
    if stop : bool then (output, exact) else help_loop search output exact l
  end.

(** bot/core_commands.go [coreCmds.help] *)
Definition help : cmdM errs :=
  let search := ToLower (GetArg ev (bs "command")) in
  u ← sender;
  let nick := User_Nick u in
  cmds ← pure_go (go_fold (fun l p => c ← deref (registry.(cmd_heap) !! p); Ret (l ++ [c]))
                   [] (map snd (range registry.(globalCmdRegistry))));
  let '(output, exactMatches) := help_loop search ∅ [] cmds in
  let '(output, exactMatches) :=
    if bool_decide (1 < length exactMatches) then (foldl add_output output exactMatches, [])
    else (output, exactMatches) in
  match exactMatches with
  | exactMatch :: _ =>
    notice nick [VString Text.helpSuccess; VString (bs " "); VString exactMatch.(Extension);
                 VString (bs "."); VString exactMatch.(cmd_Cmd)] ;;
    notice nick [VString exactMatch.(Description)] ;;
    (match exactMatch.(cmd_Args) with
     | [] => mret tt
     | args => notice nick [VString Text.helpSuccessUsage; VString (Join args (bs " "))]
     end) ;;
    ok
  | [] =>
    match range output with
    | [] => noticef nick Text.helpFailure [VString search] ;; ok
    | outputs =>
      each (fun p => notice nick [VString p.1; VString (bs ":")] ;;
                     notice nick [VString (bs " "); VString (Join (sort_strings p.2) (bs " "))]) outputs ;;
      ok
    end
  end.

(** ** The handler *)

(** bot/core_commands.go:252-295 [coreCmds.Cmd]: the switch *)
Definition run_core (cmd : bytes) : cmdM errs :=
  if decide (cmd = Text.register) then register else
  if decide (cmd = Text.auth) then auth else
  if decide (cmd = Text.logout) then logout else
  if decide (cmd = Text.access) then access else
  if decide (cmd = Text.gusers) then gusers else
  if decide (cmd = Text.susers) then susers else
  if decide (cmd = Text.users) then users else
  if decide (cmd = Text.deluser) then deluser else
  if decide (cmd = Text.delme) then delme else
  if decide (cmd = Text.passwd) then passwd else
  if decide (cmd = Text.masks) then masks else
  if decide (cmd = Text.addmask) then addmask else
  if decide (cmd = Text.delmask) then delmask else
  if decide (cmd = Text.resetpasswd) then resetpasswd else
  if decide (cmd = Text.ggive) then ggive else
  if decide (cmd = Text.sgive) then sgive else
  if decide (cmd = Text.give) then give else
  if decide (cmd = Text.gtake) then gtake else
  if decide (cmd = Text.stake) then stake else
  if decide (cmd = Text.take) then take else
  if decide (cmd = Text.help) then help else ok.

(** bot/core_commands.go [coreCmds.Cmd]: the error the commander is given; a
    panic is caught and gives none. *)
Definition coreCmds_Cmd (cmd : bytes) : cmdM (option bytes) :=
  recovering (r ← run_core cmd; mret r.2) None.
End CoreCmds.

(** ** Registration *)

(** bot/core_commands.go:160-168 [commands]: an entry of the table *)
Record core_entry := {
  en_Name : bytes; en_Desc : bytes; en_Authed : bool; en_Public : bool;
  en_Level : Z; en_Flags : bytes; en_Args : list bytes;
}.

(** bot/core_commands.go:169-194 [commands] *)
Definition commands : list core_entry :=
  let e n d a p f args := {| en_Name := n; en_Desc := d; en_Authed := a; en_Public := p;
                             en_Level := 0; en_Flags := bs f; en_Args := map bs args |} in
  [e Text.register Text.registerDesc false false "" ["password"; "[username]"];
   e Text.auth Text.authDesc false false "" ["password"; "[username]"];
   e Text.logout Text.logoutDesc true true "" ["[*user]"];
   e Text.access Text.accessDesc true true "" ["[*user]"];
   e Text.gusers Text.gusersDesc false true "" [];
   e Text.susers Text.susersDesc false true "" [];
   e Text.users Text.usersDesc false true "" ["[chan]"];
   e Text.deluser Text.deluserDesc true true "" ["*user"];
   e Text.delme Text.delmeDesc true true "" [];
   e Text.passwd Text.passwdDesc true false "" ["oldpassword"; "newpassword"];
   e Text.masks Text.masksDesc true false "" ["[*user]"];
   e Text.addmask Text.addmaskDesc true false "" ["mask"; "[*user]"];
   e Text.delmask Text.delmaskDesc true false "" ["mask"; "[*user]"];
   e Text.resetpasswd Text.resetpasswdDesc true false "" ["~nick"; "*user"];
   e Text.ggive Text.ggiveDesc true true "G" ["*user"; "levelOrFlags..."];
   e Text.sgive Text.sgiveDesc true true "GS" ["*user"; "levelOrFlags..."];
   e Text.give Text.giveDesc true true "GSC" ["#chan"; "*user"; "levelOrFlags..."];
   e Text.gtake Text.gtakeDesc true true "G" ["*user"; "[allOrFlags]"];
   e Text.stake Text.stakeDesc true true "GS" ["*user"; "[allOrFlags]"];
   e Text.take Text.takeDesc true true "GSC" ["#chan"; "*user"; "[allOrFlags]"];
   e Text.help Text.helpDesc true true "" ["[command]"]]%string.

(** bot/core_commands.go:207-222 [NewCoreCmds]: the command that is made for an
    entry *)
Definition core_cmd (handler : nat) (e : core_entry) : Cmd.Cmd :=
  {| cmd_Cmd := e.(en_Name); Extension := Text.extension; Description := e.(en_Desc);
     Msgtype := CMD_PRIVMSG; Msgscope := if e.(en_Public) then ALL else PRIVATE;
     cmd_Args := e.(en_Args); RequireAuth := e.(en_Authed); ReqLevel := e.(en_Level);
     ReqFlags := e.(en_Flags); cmd_Handler := Some handler;
     args := []; reqArgs := 0; optArgs := 0 |}.

(** bot/core_commands.go [NewCoreCmds]: the error, if any, the bot's commander
    and the registry *)
Fixpoint register_core {CT : CaseTables} (handler : nat) (entries : list core_entry) (c : Cmds) (g : Registry)
    : go (option bytes * Cmds * Registry) :=
  match entries with
  | [] => Ret (None, c, g)
  | e :: entries =>
    let p := fresh (dom g.(cmd_heap)) in
    let g := {| cmd_heap := <[p := core_cmd handler e]> g.(cmd_heap);
                globalCmdRegistry := g.(globalCmdRegistry) |} in
    '(err, c, g) ← Register c g GLOBAL p;
    match err with
    | Some err => Ret (Some (Sprintf Text.errFmtRegister [VOther (bs "*errors.errorString") err]), c, g)
    | None => register_core handler entries c g
    end
  end.
Definition NewCoreCmds {CT : CaseTables} (handler : nat) (c : Cmds) (g : Registry) :=
  register_core handler commands c g.

(** bot/core_commands.go [coreCmds.unregisterCoreCmds] *)
Definition unregisterCoreCmds (c : Cmds) (g : Registry) : Cmds * Registry :=
  foldl (fun cg e => let '(_, c, g) := Unregister cg.1 cg.2 GLOBAL e.(en_Name) in (c, g)) (c, g) commands.

(** ** A command from the message to the answer *)

Section Conversation.
Context {CT : CaseTables} {BC : Bcrypt} {K : KV} {G : Gob} {RO : RangeOrder bytes}.
Context (state : option State.State).
Context {W E : Type} (Write : bytes -> W -> W * option E).

(** dispatch/cmd/cmds.go:322-338 [Cmds.Dispatch]: the goroutine for a command
    of the core handler, whose only exported method is [Cmd], and the notices
    the sender is sent. *)
Definition converse (salt : Salt) (draws : list Z) (c : Cmds) (g : Registry) (overridePrefix : Z)
    (ircev : Event) : eff env unit := fun s =>
  match Dispatch state (fun _ _ => false) c g ircev.(NetworkID) overridePrefix ircev s.(e_store) with
  | Panic => (Panicked, s)
  | Ret (o, store) =>
    let s := {| e_store := store; e_w := s.(e_w) |} in
    let nick := Nick ircev.(Sender) in
    match o with
    | Ignored => (Done tt, s)
    | Refused nick err => notice Write nick [VString err] s
    | Started _ (CallMethod _) _ => (Done tt, s)
    | Started _ (CallCmd cmd) ev =>
      (err ← coreCmds_Cmd state Write g salt draws ircev ev cmd;
       match err with Some err => notice Write nick [VString err] | None => mret tt end) s
    end
  end.
End Conversation.
