(* ===== verification/CoreRun.v ===== *)
(** * Package bot: runs of the core commands

    A bot with an empty database in memory and an encoder for whole users, and
    conversations with it. *)

From stdpp Require Import countable.
From S2P Require Import Prelude GoStrings Hosts Fmt Effects NetworkInfo Event DispatchCore Cmd Cmds.
From S2P Require Import Channel UserModes Access JSONStorer StoredUser State StateInv StateRun Store StoreInv.
From S2P Require Import Writer CoreText CoreCmds.

#[local] Existing Instance ascii_tables.
#[local] Existing Instance salted.
#[local] Existing Instance mem_kv.

(** ** An encoder *)

#[local] Instance Access_eq_dec : EqDecision Access.
Proof. solve_decision. Defined.
#[local] Program Instance Access_countable : Countable Access :=
  inj_countable' (fun a => (Level a, Flags a)) (fun p => {| Level := p.1; Flags := p.2 |}) _.
Next Obligation. by intros []. Qed.
#[local] Instance StoredChannel_eq_dec : EqDecision StoredChannel.
Proof. solve_decision. Defined.
#[local] Instance StoredUser_eq_dec : EqDecision StoredUser.
Proof. solve_decision. Defined.

#[local] Program Instance StoredUser_countable : Countable StoredUser :=
  inj_countable'
    (fun u => (su_Username u, su_Password u, su_Masks u, su_Global u, su_Network u, su_Channel u, su_json u))
    (fun t => let '(n, p, m, g, s, c, j) := t in
      {| su_Username := n; su_Password := p; su_Masks := m; su_Global := g; su_Network := s;
         su_Channel := c; su_json := j |}) _.
Next Obligation. by intros []. Qed.
#[local] Program Instance StoredChannel_countable : Countable StoredChannel :=
  inj_countable' (fun c => (sc_NetID c, sc_Name c, sc_json c))
    (fun t => let '(n, c, j) := t in {| sc_NetID := n; sc_Name := c; sc_json := j |}) _.
Next Obligation. by intros []. Qed.

Fixpoint pos_bits (p : positive) : bytes :=
  match p with xH => [] | xO p => "0"%char :: pos_bits p | xI p => "1"%char :: pos_bits p end.
Fixpoint bits_pos (s : bytes) : positive :=
  match s with
  | [] => xH
  | "0"%char :: s => xO (bits_pos s)
  | _ :: s => xI (bits_pos s)
  end.
Lemma bits_pos_bits p : bits_pos (pos_bits p) = p.
Proof. induction p as [p IH|p IH|]; cbn [pos_bits bits_pos]; by rewrite ?IH. Qed.

Definition enc {A} `{Countable A} (tag : ascii) (a : A) : bytes + bytes := inr (tag :: pos_bits (encode a)).
Definition dec {A} `{Countable A} (tag : ascii) (zero : A) (s : bytes) : A * option bytes :=
  match s with
  | [] => (zero, Some (bs "EOF"))
  | c :: s =>
    if bool_decide (c = tag) then
      match decode (bits_pos s) with Some a => (a, None) | None => (zero, Some (bs "gob: bad data")) end
    else (zero, Some (bs "gob: wrong type"))
  end.
Lemma dec_enc {A} `{Countable A} tag zero (a : A) s : enc tag a = inr s -> dec tag zero s = (a, None).
Proof.
  intros [= <-]. cbn. rewrite bool_decide_true by done. by rewrite bits_pos_bits, decode_encode.
Qed.

#[local] Program Instance demo_gob : Gob := {|
  enc_user := enc "u"; dec_user := dec "u" (empty_user [] None);
  enc_chan := enc "c"; dec_chan := dec "c" {| sc_NetID := []; sc_Name := []; sc_json := None |};
|}.
Next Obligation. intros u s. apply dec_enc. Qed.
Next Obligation. intros u s. apply dec_enc. Qed.
Next Obligation. done. Qed.
Next Obligation. done. Qed.

#[local] Program Instance demo_working : Working.
Next Obligation. done. Qed.
Next Obligation.
  intros d k f e d' H. unfold kv_Put, mem_kv in H. destruct (f _); apply (f_equal fst) in H; discriminate H.
Qed.
Next Obligation. intros u. by eexists. Qed.
Next Obligation. done. Qed.

(** ** A bot *)

Definition demo_salt : @Salt salted := "x"%char.
Definition demo_log : Type := list bytes.
Definition log_write (l : bytes) (log : demo_log) : demo_log * option unit := (log ++ [l], None).

Definition demo_bot : Cmds * Registry :=
  match NewCoreCmds 7 (NewCmds (code "!") {| chans := None; waiter := 0 |})
          {| cmd_heap := ∅; globalCmdRegistry := ∅ |} with
  | Ret (None, c, g) => (c, g)
  | _ => (NewCmds 0 {| chans := None; waiter := 0 |}, {| cmd_heap := ∅; globalCmdRegistry := ∅ |})
  end.

(** The channel [#chan] with the bot, ann, bob and eve in it *)
Definition demo_net : option State :=
  match run demo_start [
    demo_welcome;
    demo_event JOIN (bs "me!u@host") [bs "#chan"];
    demo_event JOIN (bs "ann!a@one") [bs "#chan"];
    demo_event JOIN (bs "bob!b@two") [bs "#chan"];
    demo_event JOIN (bs "eve!b@three") [bs "#chan"]] with Ret s => Some s | Panic => None end.

Definition empty_store : Store.Store :=
  {| db := ∅; cache := ∅; authed := ∅; checkedFirst := false; suheap := ∅ |}.
Definition demo_env : env (W := demo_log) := {| e_store := Some empty_store; e_w := [] |}.

Lemma empty_store_inv : store_inv empty_store.
Proof.
  split; cbn; [by intros ? ? ?| |by intros ? ? ?|rewrite map_size_empty; lia].
  intros k u H. unfold record in H. cbn in H. done.
Qed.

Definition says (from to text : string) : Event := demo_event PRIVMSG (bs from) [bs to; bs text].

Definition talk (l : list Event) : result unit * env (W := demo_log) :=
  each (converse demo_net log_write "x"%char (repeat 0%Z 10) demo_bot.1 demo_bot.2 0) l demo_env.

(** What the bot answered *)
Definition answers (l : list Event) : list bytes := (talk l).2.(e_w).

Definition ann (text : string) : Event := says "ann!a@one" "me" text.
Definition bob (text : string) : Event := says "bob!b@two" "me" text.
Definition eve (text : string) : Event := says "eve!b@three" "me" text.
Definition ann_chan (text : string) : Event := says "ann!a@one" "#chan" text.
Definition bob_chan (text : string) : Event := says "bob!b@two" "#chan" text.

Definition two_users : list Event := [ann "register secret"; bob "register hunter2"].

(** ** Conversations

    The first user is given everything; the later ones nothing. *)
Example two_users_registered :
  answers two_users = map bs [
    "NOTICE ann :Registered [a] successfully. As the first user, you have been given all permissions and privileges as well as being automatically authenticated. \o/";
    "NOTICE bob :Registered [b] successfully. You have been automatically authenticated."]%string.
Proof. vm_compute. reflexivity. Qed.

(** What the bot answers after the two have registered *)
Definition later (l : list Event) : list bytes := skipn 2 (answers (two_users ++ l)).

(** The flags a command asks for are looked for at every place the sender has
    access at, and a command gives any flag: the flag C on one channel is
    enough to give oneself the flag G there, and that is enough for access on
    every channel and for global access. *)
Example channel_flag_escalates :
  later [ann_chan "!give bob C"; bob_chan "!give #other bob 250"; bob_chan "!give bob G";
         bob_chan "!ggive bob 200 ABC"; bob "access"]
  = map bs ["NOTICE ann :User [b] now has: (C) on #chan";
            "NOTICE bob :User [b] now has: (250) on #other";
            "NOTICE bob :User [b] now has: (CG) on #chan";
            "NOTICE bob :User [b] now has: (200 ABC) globally.";
            "NOTICE bob :Access for [b]: G(200 ABC) #other(250) #chan(CG)"]%string.
Proof. vm_compute. reflexivity. Qed.

(** Any user that is logged in can reset the password of any other, have it
    sent to a nick of his choice, and log in as the other. *)
Example setpasswd_takes_over :
  later [bob "setpasswd bob *a"; bob "logout"; bob "auth 0000000000 a"; bob "access"]
  = map bs ["NOTICE bob :Password reset successful.";
            "NOTICE bob :Your password was reset by bob, it is now: 0000000000";
            "NOTICE bob :Successfully logged out.";
            "NOTICE bob :Successfully authenticated [a].";
            "NOTICE bob :Access for [a]: G(255 -ALL-)"]%string.
Proof. vm_compute. reflexivity. Qed.

(** Taking all access takes nothing from a user that has flags and no level,
    and an argument that makes no sense is answered twice. *)
Example take_all_takes_nothing :
  later [ann "ggive bob ABC"; ann "gtake bob all"; ann "gtake bob 12"]
  = map bs ["NOTICE ann :User [b] now has: (ABC) globally.";
            "NOTICE ann :No action taken. User [b](ABC) has none of the given access to remove.";
            "NOTICE ann :No action taken. User [b](ABC) has none of the given access to remove.";
            "NOTICE ann :Invalid arguments, leave empty to delete level access, specific flags to delete those flags, or the keyword all to delete everything. (given: 12)"]%string.
Proof. vm_compute. reflexivity. Qed.

(** A level out of range is not answered at all, and one letter makes an
    argument flags, whatever else is in it. *)
Example give_arguments :
  later [ann "ggive bob 300"; ann "ggive bob 0"; ann "ggive bob 1x-"]
  = map bs ["NOTICE ann :Invalid arguments, must be numeric accesses from 1-255 or flags in the range: A-Za-z.";
            "NOTICE ann :User [b] now has: (x) globally."]%string.
Proof. vm_compute. reflexivity. Qed.

(** The message for an empty list of global users lacks its operand. *)
Example gusers_empty : answers [bob "gusers"] = [bs "NOTICE bob :No users for %!v(MISSING)"].
Proof. vm_compute. reflexivity. Qed.

(** In private, [users] without a channel panics and is not answered. *)
Example users_private : later [bob "users"; bob "users #chan"] = [bs "NOTICE bob :No users for #chan"].
Proof. vm_compute. reflexivity. Qed.

(** What a user is called ends up in a format. *)
Example name_is_a_format :
  answers [ann "register secret"; bob "register pw %s"; ann "ggive bob 3"]
  !! 2 = Some (bs "NOTICE ann :User [%!s(MISSING)] now has: (3) globally.").
Proof. vm_compute. reflexivity. Qed.

(** A user that deletes itself stays logged in from its other hosts. *)
Example delme_leaves_logins :
  later [eve "auth hunter2 b"; bob "delme"; eve "access"]
  = map bs ["NOTICE eve :Successfully authenticated [b].";
            "NOTICE bob :Removed your user account [b].";
            "NOTICE eve :Access for [b]: none"]%string.
Proof. vm_compute. reflexivity. Qed.

(** Looking a thousand unknown names up empties the cache.  The user that is
    logged in is then not the one that is found and saved any more: access that
    is taken away stays with the login. *)
Definition flush : list Event :=
  map (fun n => demo_event PRIVMSG (bs "bob!b@two") [bs "me"; bs "access *z" ++ Itoa (Z.of_nat n)])
    (seq 0 1001).

Example revoked_flag_still_works :
  skipn 1004 (answers (two_users ++ [ann "ggive bob G"] ++ flush ++
                       [ann "gtake bob G"; bob "access"; bob "ggive *a 3"]))
  = map bs ["NOTICE ann :User [b] now has: (none) globally.";
            "NOTICE bob :Access for [b]: G(G)";
            "NOTICE bob :User [a] now has: (3 -ALL-) globally."]%string.
Proof. vm_compute. reflexivity. Qed.

(** A search for one command's name, and a search that only finds parts *)
Example help_answers :
  later [bob "help give"; bob "help gi"; bob "help zzz"]
  = map bs ["NOTICE bob :Cmds: core.give";
            "NOTICE bob :Gives channel access to a user. Arguments can be numeric levels or flags.";
            "NOTICE bob :Usage: #chan *user levelOrFlags...";
            "NOTICE bob :core:"; "NOTICE bob : ggive give register sgive"]%string
    ++ [Sprintf (bs "NOTICE bob :" ++ Text.helpFailure) [VString (bs "zzz")]].
Proof. vm_compute. reflexivity. Qed.
