(* ===== verification/CoreSpec.v ===== *)
(** * Package bot: what the core commands may do

    A command changes at most one user of the store's table, and only as the
    rules of [effect] allow: which command, whose user, and by whom.  The
    invariant of the store is kept, also by a command that panics. *)

From S2P Require Import Prelude GoStrings Hosts Fmt Effects NetworkInfo Event DispatchCore Cmd Cmds.
From S2P Require Import Channel UserModes Access StoredUser State Store StoreInv.
From S2P Require Import Writer CoreText CoreCmds CoreRun.

Section Effects.
Context {CT : CaseTables} {BC : Bcrypt} {K : KV} {G : Gob} {WK : Working} {RO : RangeOrder bytes}.
Context (state : option State.State).
Context {W E : Type} (Write : bytes -> W -> W * option E).
Context (registry : Registry) (salt : Salt) (draws : list Z).
Context (ircev : Event) (ev : CmdEvent).
Abbreviation table := (bytes -> option StoredUser).
Abbreviation errs := (option failure * option bytes)%type.
Implicit Types (e : env (K := K) (W := W)) (rec : table) (X : env (K := K) (W := W) -> Prop).

(** A store that is in order and has this table of users *)
Definition St rec e : Prop :=
  exists s, e.(e_store) = Some s /\ store_inv s /\ forall k, record s k = rec k.

(** Where a location leads *)
Definition at_loc (l : nat) (u : StoredUser) e : Prop :=
  exists s, e.(e_store) = Some s /\ s.(suheap) !! l = Some u.

(** A user of the store was changed in place and is not saved yet. *)
Definition Dirty rec (l : nat) (u u' : StoredUser) e : Prop :=
  exists s, e.(e_store) = Some (set_suheap s (<[l := u']> s.(suheap))) /\ store_inv s /\
    s.(suheap) !! l = Some u /\ forall k, record s k = rec k.

Definition upd rec (k : bytes) (o : option StoredUser) : table :=
  fun k' => if decide (k' = k) then o else rec k'.

(** ** The steps the commands are made of *)

Lemma say_St rec (call : W -> go (option (W * option E))) : triple (St rec) (say call) (fun _ => St rec) (St rec).
Proof.
  intros e He. unfold say. destruct (call (e_w e)) as [[[w o]|]|]; done.
Qed.

Lemma pure_St {A} rec (m : go A) : triple (St rec) (pure_go m) (fun _ => St rec) (St rec).
Proof. by apply triple_same. Qed.

(** A method that only reads the store *)
Lemma read_St {A} rec (f : Store -> go (A * Store)) :
  (forall s a s', f s = Ret (a, s') -> s' = s) ->
  triple (St rec) (with_store f) (fun _ => St rec) (St rec).
Proof.
  intros Hf. apply triple_same; [|done]. intros [[s|] w]; cbn; [|done].
  destruct (f s) as [[a s']|] eqn:Ef; [|done]. by rewrite (Hf _ _ _ Ef).
Qed.

Lemma load_St rec p : triple (St rec) (load p) (fun _ => St rec) (St rec).
Proof. apply read_St. intros s a s' H. go_inv. by destruct (l ← p; _); go_inv. Qed.

Lemma find_St rec name :
  triple (St rec) (find name)
    (fun r e => St rec e /\ (r.2 = None -> match r.1 with
       | Some l => exists u, at_loc l u e /\ rec (ToLower name) = Some u /\ u.(su_Username) = ToLower name
       | None => rec (ToLower name) = None end))
    (St rec).
Proof.
  intros [o w] (s & Hs & Hi & Hr). cbn in Hs. subst o. unfold find, on_store, with_store. cbn.
  destruct (FindUser s name) as [[p err] s'] eqn:Ef. cbn.
  destruct (FindUser_record _ _ _ _ _ Hi Ef) as (I' & [R' _] & _ & U).
  split; [by exists s'; split; [|split; [|intros k; rewrite R']]|]. intros ->.
  destruct (U eq_refl) as [U1 U2]. rewrite Hr in U1. destruct p as [l|]; [|done].
  destruct (U2 ltac:(by eexists)) as [u Hu]. rewrite Hu in U1. exists u. split; [by exists s'|].
  split; [done|]. refine (proj1 (si_named _ Hi (ToLower name) u _)). by rewrite Hr.
Qed.

Lemma store_user_St rec l u u' X :
  triple (fun e => St rec e /\ at_loc l u e) (store_user l u') (fun _ => Dirty rec l u u') X.
Proof.
  intros [o w] [(s & Hs & Hi & Hr) (s2 & Hs2 & Hl)]. cbn in *. subst o. injection Hs2 as <-.
  exists s. done.
Qed.

Lemma save_Dirty rec l u u' X :
  u'.(su_Username) = u.(su_Username) -> rec u.(su_Username) = Some u ->
  triple (Dirty rec l u u') (save l)
    (fun err e => err = None /\ St (upd rec u.(su_Username) (Some u')) e) X.
Proof.
  intros Hn Hu [o w] (s & Hs & Hi & Hl & Hr). cbn in Hs. subst o.
  assert (ToLower u.(su_Username) = u.(su_Username)) as Hlow.
  { refine (proj2 (si_named _ Hi _ u _)). by rewrite Hr. }
  destruct (SaveUser_record s l u u' Hi Hl Hn Hlow) as (s' & E1 & I1 & _ & _ & R1).
  unfold save, with_store. cbn [e_store]. rewrite E1. split; [done|]. exists s'. split; [done|].
  split; [done|]. intros k. rewrite R1. unfold upd. by rewrite Hr.
Qed.

(** Nothing was changed in place after all. *)
Lemma Dirty_same rec l u e : Dirty rec l u u e -> St rec e.
Proof.
  intros (s & Hs & Hi & Hl & Hr). exists s. rewrite insert_id in Hs by done. by destruct s.
Qed.

(** ** Rules for whole commands *)

(** Going on with something that keeps the store as it is *)
Lemma then_St {A B} rec (m : eff env A) (f : A -> eff env B) Q X :
  triple (St rec) m (fun _ => St rec) (St rec) -> (forall e, St rec e -> X e) ->
  (forall a, triple (St rec) (f a) Q X) -> triple (St rec) (m ≫= f) Q X.
Proof.
  intros Hm HX Hf. eapply triple_bind; [|exact Hf].
  eapply triple_weaken; [exact Hm|done|done|exact HX].
Qed.

Lemma find_again_St rec uname rest (Q : errs -> env -> Prop) X :
  (forall e, St rec e -> X e) -> (forall a e, St rec e -> Q a e) ->
  (forall l u, rec u.(su_Username) = Some u -> u.(su_Username) = ToLower uname ->
     triple (fun e => St rec e /\ at_loc l u e) (rest l u) Q X) ->
  triple (St rec) (find_again uname rest) Q X.
Proof.
  intros HX HQ Hrest. eapply triple_bind.
  { eapply triple_weaken; [apply (find_St rec uname)|done|intros r e H; exact H|exact HX]. }
  intros [p err]. cbn [fst snd]. destruct err as [err|]; [apply triple_ret; intros e [He _]; by apply HQ|].
  destruct p as [l|]; [|apply triple_ret; intros e [He _]; by apply HQ].
  intros [o w] [(s & Hs & Hi & Hr) Hp]. destruct (Hp eq_refl) as (u & (s2 & Hs2 & Hl) & Hu & Hn).
  cbn in Hs, Hs2. subst o. injection Hs2 as <-.
  unfold load, with_store, mbind, eff_bind. cbn. rewrite Hl. cbn.
  refine (Hrest l u _ Hn {| e_store := Some s; e_w := w |} _); [by rewrite Hn|].
  split; exists s; done.
Qed.

(** Changing a user in place, saving and going on *)
Lemma change_St rec l u u' rest Q X :
  u'.(su_Username) = u.(su_Username) -> rec u.(su_Username) = Some u ->
  triple (St (upd rec u.(su_Username) (Some u'))) rest Q X ->
  triple (fun e => St rec e /\ at_loc l u e) (store_user l u' ;; save_then l rest) Q X.
Proof.
  intros Hn Hu Hrest. eapply triple_bind; [apply store_user_St|]. intros [].
  eapply triple_bind; [by apply save_Dirty|]. intros err. apply triple_pull. intros Herr.
  by subst err.
Qed.

(** ** What a command may do *)

Section Command.
Context (s0 : Store) (cmd : bytes) (Hi0 : store_inv s0).

(** The name of the sender's own account, and of the one the command names *)
Definition own (k : bytes) : Prop :=
  exists u, user_at s0 ev.(ce_StoredUser) = Some u /\ k = ToLower u.(su_Username).
Definition targeted (k : bytes) : Prop :=
  exists u, user_at s0 (target_user ev) = Some u /\ k = ToLower u.(su_Username).
(** The sender is logged in and has the flag G globally. *)
Definition manager : Prop :=
  exists u, user_at s0 ev.(ce_StoredUser) = Some u /\ HasGlobalFlag u flag_G = true.
Definition knows_password : Prop :=
  exists u, user_at s0 ev.(ce_StoredUser) = Some u /\
    VerifyPassword u (GetArg ev (bs "oldpassword")) = true.
(** No user was ever registered in this database. *)
Definition first_ever : Prop :=
  s0.(checkedFirst) = false /\ view s0.(db) !! isInitialized = None.

(** The places that the commands give and take access at *)
Definition gives : option scope :=
  if decide (cmd = Text.ggive) then Some global_scope else
  if decide (cmd = Text.sgive) then Some (network_scope ircev.(NetworkID)) else
  if decide (cmd = Text.give) then Some (channel_scope ircev.(NetworkID) (GetArg ev (bs "chan"))) else None.
Definition takes : option scope :=
  if decide (cmd = Text.gtake) then Some global_scope else
  if decide (cmd = Text.stake) then Some (network_scope ircev.(NetworkID)) else
  if decide (cmd = Text.take) then Some (channel_scope ircev.(NetworkID) (GetArg ev (bs "chan"))) else None.

Definition full_access : Access := {| Level := 255; Flags := 2 ^ 64 - 1 |}.

(** How the user under the name [k] may change. *)
Inductive effect (k : bytes) : option StoredUser -> option StoredUser -> Prop :=
  | effect_none o : effect k o o
  | effect_registered u : cmd = Text.register ->
      su_Network u = ∅ -> su_Channel u = ∅ ->
      (su_Global u = None \/ first_ever /\ su_Global u = Some full_access) ->
      effect k None (Some u)
  | effect_deleted u : cmd = Text.deluser -> manager -> targeted k -> effect k (Some u) None
  | effect_left u : cmd = Text.delme -> own k -> effect k (Some u) None
  | effect_password u pw : cmd = Text.passwd -> own k -> knows_password ->
      GenerateFromPassword salt (GetArg ev (bs "newpassword")) = inr pw ->
      effect k (Some u) (Some (set_password u pw))
  | effect_reset u pw : cmd = Text.resetpasswd -> targeted k -> effect k (Some u) (Some (set_password u pw))
  | effect_masks u ms : cmd = Text.addmask \/ cmd = Text.delmask ->
      (target_user ev = None /\ own k \/ manager /\ targeted k) ->
      effect k (Some u) (Some (set_masks u ms))
  | effect_given sc u level flags : gives = Some sc -> targeted k -> (0 <= level <= 255)%Z ->
      effect k (Some u) (Some (give_func sc u level flags).1.1)
  | effect_taken sc u all level flags : takes = Some sc -> targeted k ->
      effect k (Some u) (Some (take_func sc u all level flags).1.1).

Definition Start e : Prop := e.(e_store) = Some s0.
Definition Eff e : Prop :=
  exists s, e.(e_store) = Some s /\ store_inv s /\ forall k, effect k (record s0 k) (record s k).

Lemma Start_St e : Start e -> St (record s0) e.
Proof. intros He. by exists s0. Qed.

Lemma St_Eff e : St (record s0) e -> Eff e.
Proof.
  intros (s & Hs & Hi & Hr). exists s. split; [done|]. split; [done|]. intros k. rewrite Hr. constructor.
Qed.

Lemma upd_Eff k o e : effect k (record s0 k) o -> St (upd (record s0) k o) e -> Eff e.
Proof.
  intros Hk (s & Hs & Hi & Hr). exists s. split; [done|]. split; [done|]. intros k'. rewrite Hr.
  unfold upd. case_decide; subst; [done|constructor].
Qed.

(** A command that has what it needs and leaves the store as it is now *)
Abbreviation allowed m := (triple Start m (fun _ => Eff) Eff).
Abbreviation allowed_in P m := (triple P m (fun _ => Eff) Eff).

Lemma allowed_ret {A} (P : env -> Prop) (a : A) : (forall e, P e -> Eff e) -> allowed_in P (mret a).
Proof. intros H. by apply triple_ret. Qed.

Lemma allowed_pure {A B} (m : go A) (f : A -> eff env B) :
  (forall a, allowed (f a)) -> allowed (pure_go m ≫= f).
Proof.
  intros Hf. eapply triple_bind; [|exact Hf].
  apply triple_same; [done|]. intros e He. by apply St_Eff, Start_St.
Qed.

Lemma allowed_load {B} p (f : StoredUser -> eff env B) :
  (forall u, user_at s0 p = Some u -> allowed (f u)) -> allowed (load p ≫= f).
Proof.
  intros Hf [o w] He. unfold Start in He. cbn in He. subst o.
  unfold mbind, eff_bind, load, with_store, user_at in *. cbn.
  destruct (l ← p; suheap s0 !! l) as [u|] eqn:Eu; cbn.
  - by apply (Hf u eq_refl {| e_store := Some s0; e_w := w |}).
  - by apply St_Eff, Start_St.
Qed.

Lemma allowed_from_St {A} (m : eff env A) : allowed_in (St (record s0)) m -> allowed m.
Proof. intros H. eapply triple_weaken; [exact H|apply Start_St|done|done]. Qed.

(** Answers at the end *)
Lemma allowed_say {A} rec (call : W -> go (option (W * option E))) (f : unit -> eff env A) :
  (forall e, St rec e -> Eff e) -> (forall a, allowed_in (St rec) (f a)) ->
  allowed_in (St rec) (say call ≫= f).
Proof. intros HE Hf. apply (then_St rec); [apply say_St|done|done]. Qed.

Lemma allowed_each {A B} rec (f : A -> eff env unit) l (g : unit -> eff env B) :
  (forall e, St rec e -> Eff e) -> (forall x, triple (St rec) (f x) (fun _ => St rec) (St rec)) ->
  (forall a, allowed_in (St rec) (g a)) -> allowed_in (St rec) (each f l ≫= g).
Proof. intros HE Hf Hg. apply (then_St rec); [by apply triple_each|done|done]. Qed.

(** Finding a user again that the command has looked at before *)
Lemma allowed_find uname rest :
  (forall l u, record s0 u.(su_Username) = Some u -> u.(su_Username) = ToLower uname ->
     allowed_in (fun e => St (record s0) e /\ at_loc l u e) (rest l u)) ->
  allowed_in (St (record s0)) (find_again uname rest).
Proof. intros H. apply find_again_St; [apply St_Eff|intros _; apply St_Eff|exact H]. Qed.

(** Changing and saving the user that was found *)
Lemma allowed_change l u u' rest :
  u'.(su_Username) = u.(su_Username) -> record s0 u.(su_Username) = Some u ->
  effect u.(su_Username) (Some u) (Some u') ->
  ((forall e, St (upd (record s0) u.(su_Username) (Some u')) e -> Eff e) ->
   allowed_in (St (upd (record s0) u.(su_Username) (Some u'))) rest) ->
  allowed_in (fun e => St (record s0) e /\ at_loc l u e) (store_user l u' ;; save_then l rest).
Proof.
  intros Hn Hu He Hrest. apply change_St; [done|done|]. apply Hrest. intros e. apply upd_Eff.
  by rewrite Hu.
Qed.

(** ** Command by command *)

(** The tail of every command: answers, and what the command returns *)
Ltac answers :=
  repeat first
    [ apply allowed_say; [by auto using St_Eff|intros ?]
    | apply allowed_each; [by auto using St_Eff|intros ?; apply say_St|intros ?]
    | apply allowed_ret; by auto using St_Eff ].

Lemma allowed_read {A B} (f : Store -> A) (g : A -> eff env B) :
  (forall a, allowed_in (St (record s0)) (g a)) ->
  allowed_in (St (record s0)) (on_store (fun s => (f s, s)) ≫= g).
Proof.
  intros Hg. apply then_St; [|apply St_Eff|exact Hg].
  apply read_St. intros s a s' H. by injection H.
Qed.

Lemma table_allowed nick head headf list get :
  allowed_in (St (record s0)) (user_table Write nick head headf list get).
Proof. unfold user_table, noticef. answers. Qed.

Lemma access_allowed : allowed (access state Write ircev ev).
Proof.
  unfold access. apply allowed_from_St, then_St; [|apply St_Eff|].
  { destruct (ce_Channel ev); [apply pure_St|by apply triple_ret]. }
  intros ch. apply then_St; [apply pure_St|apply St_Eff|]. intros u.
  apply then_St; [apply load_St|apply St_Eff|]. intros a. unfold noticef. answers.
Qed.

Lemma gusers_allowed : allowed (gusers state Write ev).
Proof.
  unfold gusers. apply allowed_pure. intros u. apply allowed_from_St, allowed_read. intros [e|[|x l]].
  - unfold internal. answers.
  - unfold noticef. answers.
  - apply table_allowed.
Qed.

Lemma susers_allowed : allowed (susers state Write ircev ev).
Proof.
  unfold susers. apply allowed_pure. intros u. apply allowed_from_St, allowed_read. intros [e|[|x l]].
  - unfold internal. answers.
  - unfold noticef. answers.
  - apply table_allowed.
Qed.

Lemma users_allowed : allowed (users state Write ircev ev).
Proof.
  unfold users. apply allowed_from_St, then_St; [|apply St_Eff|].
  { destruct (GetArg ev (bs "chan")); [apply pure_St|by apply triple_ret]. }
  intros [|c ch]; [unfold ok; answers|]. apply then_St; [apply pure_St|apply St_Eff|]. intros u.
  apply allowed_read. intros [e|[|x l]].
  - unfold internal. answers.
  - unfold noticef. answers.
  - apply table_allowed.
Qed.

Lemma help_allowed : allowed (help state Write registry ev).
Proof.
  unfold help. apply allowed_pure. intros u. apply allowed_pure. intros cmds. apply allowed_from_St.
  destruct (help_loop _ _ _ cmds) as [output exact].
  destruct (if bool_decide _ then _ else _) as [output' [|x l]].
  - destruct (range output') as [|p l]; [unfold noticef; answers|].
    apply allowed_each; [apply St_Eff| |intros; answers]. intros x.
    eapply triple_bind; [apply say_St|]. intros []. apply say_St.
  - unfold notice. apply allowed_say; [apply St_Eff|]. intros _. apply allowed_say; [apply St_Eff|].
    intros _. apply then_St; [|apply St_Eff|intros; answers].
    destruct (cmd_Args x); [by apply triple_ret|apply say_St].
Qed.

Lemma masks_allowed : allowed (masks state Write ev).
Proof.
  assert (forall p, allowed_in (St (record s0)) (access ← load p; u ← sender state ev;
    match access.(su_Masks) with
    | [] => notice Write (User_Nick u) [VString Text.masksFailure] ;; ok
    | masks => noticef Write (User_Nick u) Text.masksSuccess [VString (Join masks (bs " "))] ;; ok
    end)) as Hrest.
  { intros p. apply then_St; [apply load_St|apply St_Eff|]. intros a.
    apply then_St; [apply pure_St|apply St_Eff|]. intros u. unfold notice, noticef.
    destruct (su_Masks a); answers. }
  unfold masks. destruct (target_user ev) as [l|]; [|apply allowed_from_St, Hrest].
  apply allowed_from_St. unfold sender_manages. apply then_St; [|apply St_Eff|].
  { eapply triple_bind; [apply load_St|]. intros u. by apply triple_ret. }
  intros [|]; [apply Hrest|]. unfold external. cbn [negb]. answers.
Qed.

(** The check of the sender's flag *)
Lemma allowed_manages {B} (f : bool -> eff env B) :
  (manager -> allowed (f true)) -> allowed (f false) -> allowed (sender_manages ev ≫= f).
Proof.
  intros Ht Hf [o w] He. unfold Start in He. cbn in He. subst o.
  unfold sender_manages, mbind, eff_bind, load, with_store. cbn.
  destruct (l ← ce_StoredUser ev; suheap s0 !! l) as [u|] eqn:Eu; cbn; [|by apply St_Eff, Start_St].
  change (allowed (f false)) in Hf. destruct (HasGlobalFlag u flag_G) eqn:Eg.
  - apply Ht; [by exists u|done].
  - by apply Hf.
Qed.

Lemma owned self u k :
  user_at s0 ev.(ce_StoredUser) = Some self -> su_Username u = ToLower self.(su_Username) ->
  k = su_Username u -> own k.
Proof. intros Hs Hu ->. by exists self. Qed.

Lemma aimed user u k :
  user_at s0 (target_user ev) = Some user -> su_Username u = ToLower user.(su_Username) ->
  k = su_Username u -> targeted k.
Proof. intros Hs Hu ->. by exists user. Qed.

(** A function of the name whose masks change *)
Lemma owner_allowed rest :
  (forall nick uname, (forall u, su_Username u = ToLower uname ->
     target_user ev = None /\ own (su_Username u) \/ manager /\ targeted (su_Username u)) ->
   allowed (rest nick uname)) ->
  allowed (mask_owner state ev rest).
Proof.
  intros Hrest. unfold mask_owner. apply allowed_pure. intros u. apply allowed_load. intros self Hself.
  destruct (target_user ev) as [l|] eqn:Et.
  - apply allowed_manages; [|unfold external; intros e He; by apply St_Eff, Start_St].
    intros Hm. cbn [negb]. apply allowed_load. intros user Hu. apply Hrest. intros u' Hn. right.
    split; [done|]. eapply aimed; [by rewrite Et|done|done].
  - apply Hrest. intros u' Hn. left. split; [done|]. by eapply owned.
Qed.

Lemma AddMask_masks u mask b u' : AddMask u mask = (b, u') -> exists ms, u' = set_masks u ms.
Proof.
  unfold AddMask. case_decide; intros [= <- <-]; [exists (su_Masks u); by destruct u|by eexists].
Qed.
Lemma DelMask_masks u mask b u' : DelMask u mask = (b, u') -> exists ms, u' = set_masks u ms.
Proof.
  unfold DelMask. destruct (list_find _ _) as [[i m]|]; intros [= <- <-];
    [by eexists|exists (su_Masks u); by destruct u].
Qed.

Lemma addmask_allowed : cmd = Text.addmask -> allowed (addmask state Write ev).
Proof.
  intros Hc. unfold addmask, noticef. apply owner_allowed. intros nick uname Hwho.
  apply allowed_from_St, allowed_find. intros l u Hu Hn.
  destruct (AddMask u _) as [[] u'] eqn:Em; apply AddMask_masks in Em as [ms ->].
  - apply allowed_change; [done|done|apply effect_masks; [by left|by apply Hwho]|intros HE; answers].
  - intros e [He _]. revert e He. answers.
Qed.

Lemma delmask_allowed : cmd = Text.delmask -> allowed (delmask state Write ev).
Proof.
  intros Hc. unfold delmask, noticef. apply owner_allowed. intros nick uname Hwho.
  apply allowed_from_St, allowed_find. intros l u Hu Hn.
  destruct (DelMask u _) as [[] u'] eqn:Em; apply DelMask_masks in Em as [ms ->].
  - apply allowed_change; [done|done|apply effect_masks; [by right|by apply Hwho]|intros HE; answers].
  - intros e [He _]. revert e He. answers.
Qed.

Lemma SetPassword_password u pw err u' :
  SetPassword salt u pw = (err, u') ->
  match err with None => exists p, GenerateFromPassword salt pw = inr p /\ u' = set_password u p
               | Some _ => u' = u end.
Proof. unfold SetPassword. destruct (GenerateFromPassword _ _) as [e|p]; intros [= <- <-]; eauto. Qed.

Lemma passwd_allowed : cmd = Text.passwd -> allowed (passwd state Write salt ev).
Proof.
  intros Hc. unfold passwd, notice. apply allowed_pure. intros u. apply allowed_load. intros self Hself.
  destruct (VerifyPassword self _) eqn:Ev; cbn [negb]; [|apply allowed_from_St; answers].
  apply allowed_from_St, allowed_find. intros l u' Hu' Hn.
  destruct (SetPassword salt u' _) as [err u2] eqn:Ep. apply SetPassword_password in Ep.
  destruct err as [err|]; [intros e [He _]; by apply St_Eff|]. destruct Ep as (p & Hp & ->).
  apply allowed_change; [done|done| |intros HE; answers].
  apply effect_password; [done|by eapply owned|by exists self|done].
Qed.

Lemma resetpasswd_allowed :
  cmd = Text.resetpasswd -> allowed (resetpasswd state Write salt draws ev).
Proof.
  intros Hc. unfold resetpasswd, notice, noticef. apply allowed_load. intros user Huser.
  apply allowed_pure. intros nick. apply allowed_pure. intros u.
  apply allowed_from_St, allowed_find. intros l u' Hu' Hn. unfold ResetPassword. cbn zeta.
  destruct (SetPassword salt u' _) as [err u2] eqn:Ep. apply SetPassword_password in Ep.
  destruct err as [err|]; [intros e [He _]; by apply St_Eff|]. destruct Ep as (p & Hp & ->).
  apply allowed_change; [done|done| |intros HE; answers]. apply effect_reset; [done|by eapply aimed].
Qed.

(** *** Logins and removals *)

(** A method of the store that leaves its table alone *)
Lemma method_St {A} rec (f : Store -> go (A * Store)) :
  (forall s, store_inv s -> exists a s', f s = Ret (a, s') /\ store_inv s' /\ same_users s s') ->
  triple (St rec) (with_store f) (fun _ => St rec) (St rec).
Proof.
  intros Hf [o w] (s & Hs & Hi & Hr). cbn in Hs. subst o. unfold with_store. cbn.
  destruct (Hf s Hi) as (a & s' & -> & I' & [R' _]). exists s'. split; [done|]. split; [done|].
  intros k. by rewrite R'.
Qed.

Lemma logout_name_St rec uname :
  triple (St rec) (with_store (fun s => s ← LogoutByUsername s uname; Ret (tt, s)))
    (fun _ => St rec) (St rec).
Proof.
  apply method_St. intros s Hi. destruct (LogoutByUsername_record s uname Hi) as (s' & H & I' & R' & _).
  exists tt, s'. by rewrite H.
Qed.

Lemma logout_host_St rec network host :
  triple (St rec) (on_store (fun s => (tt, Logout s network host))) (fun _ => St rec) (St rec).
Proof.
  apply method_St. intros s Hi. destruct (Logout_record s network host Hi). by eexists _, _.
Qed.

Lemma auth_St rec network host uname pwd :
  triple (St rec) (with_store (fun s => AuthUser s network host uname pwd)) (fun _ => St rec) (St rec).
Proof.
  apply method_St. intros s Hi.
  destruct (AuthUser_record s network host uname pwd Hi) as (r & s' & H & I' & R' & _). by exists r, s'.
Qed.

Lemma given_username_same e : (given_username state ev e).2 = e.
Proof.
  unfold given_username. destruct (GetArg _ _); [|done]. unfold mbind, eff_bind, sender, pure_go.
  by destruct (st ← deref state; _).
Qed.

Lemma current_user_same e : (current_user state ircev ev e).2 = e.
Proof.
  unfold current_user. destruct (ce_StoredUser ev); [done|]. unfold mbind, eff_bind, sender, pure_go.
  destruct (st ← deref state; _); [|done]. destruct e as [[s|] w]; done.
Qed.

Lemma auth_allowed : allowed (auth state Write ircev ev).
Proof.
  unfold auth. apply allowed_from_St, then_St; [|apply St_Eff|].
  { apply triple_same; [apply given_username_same|done]. }
  intros uname. apply then_St; [apply pure_St|apply St_Eff|]. intros u.
  apply then_St; [apply triple_same; [apply current_user_same|done]|apply St_Eff|].
  intros [l|]; [unfold external; answers|]. apply then_St; [apply auth_St|apply St_Eff|].
  intros [[err|err]|l]; unfold external, internal, noticef; answers.
Qed.

Lemma logout_allowed : allowed (logout state Write ircev ev).
Proof.
  unfold logout. apply allowed_from_St, then_St; [apply pure_St|apply St_Eff|]. intros u. cbn zeta.
  assert (forall uname, allowed_in (St (record s0))
    ((if bool_decide (uname <> [])
      then with_store (fun s => s ← LogoutByUsername s uname; Ret (tt, s))
      else on_store (fun s => (tt, Logout s (NetworkID ircev) (Host u)))) ;;
     notice Write (User_Nick u) [VString Text.logoutSuccess] ;; ok)) as Hrest.
  { intros uname. unfold notice. apply then_St; [|apply St_Eff|intros; answers].
    case_bool_decide; [apply logout_name_St|apply logout_host_St]. }
  destruct (target_user ev) as [l|]; [|apply Hrest].
  unfold sender_manages. apply then_St; [|apply St_Eff|].
  { eapply triple_bind; [apply load_St|]. intros x. by apply triple_ret. }
  intros [|]; cbn [negb]; [|unfold external; answers].
  apply then_St; [apply load_St|apply St_Eff|]. intros x. apply Hrest.
Qed.

(** Removing a user that the command may remove *)
Lemma remove_then {B} uname (f : bool * option bytes -> eff env B) :
  (forall u, record s0 (ToLower uname) = Some u -> effect (ToLower uname) (Some u) None) ->
  (forall r rec, (forall e, St rec e -> Eff e) -> allowed_in (St rec) (f r)) ->
  allowed_in (St (record s0)) (on_store (fun s => RemoveUser s uname) ≫= f).
Proof.
  intros Hk Hf [o w] (s & Hs & Hi & Hr). cbn in Hs. subst o.
  unfold on_store, with_store, mbind, eff_bind. cbn.
  destruct (RemoveUser s uname) as [[removed err] s'] eqn:Er.
  destruct (RemoveUser_record _ _ _ _ _ Hi Er) as (I' & _ & _ & R').
  assert (forall e, St (fun k => if decide (removed = true /\ k = ToLower uname) then None
                                 else record s0 k) e -> Eff e) as HE.
  { intros e (s1 & H1 & H2 & H3). exists s1. split; [done|]. split; [done|]. intros k. rewrite H3.
    destruct (decide (removed = true /\ k = ToLower uname)) as [[_ Hk']|]; [|constructor].
    rewrite Hk'. destruct (record s0 (ToLower uname)) as [x|]; [by apply Hk|constructor]. }
  cbn. refine (Hf (removed, err) _ HE {| e_store := Some s'; e_w := w |} _).
  exists s'. split; [done|]. split; [done|]. intros k. rewrite R', Hr. done.
Qed.

Lemma deluser_allowed : cmd = Text.deluser -> allowed (deluser state Write ev).
Proof.
  intros Hc. unfold deluser. apply allowed_manages; [|unfold external; intros e He; by apply St_Eff, Start_St].
  intros Hm. cbn [negb]. apply allowed_load. intros user Hu. apply allowed_from_St.
  apply then_St; [apply pure_St|apply St_Eff|]. intros u.
  apply then_St; [apply logout_name_St|apply St_Eff|]. intros _. apply remove_then.
  - intros u' Hu'. apply effect_deleted; [done|done|by exists user].
  - intros [removed [err|]] rec HE; unfold internal, noticef; answers.
Qed.

Lemma delme_allowed : cmd = Text.delme -> allowed (delme state Write ircev ev).
Proof.
  intros Hc. unfold delme. apply allowed_pure. intros u. apply allowed_load. intros self Hs.
  apply allowed_from_St. apply then_St; [apply logout_host_St|apply St_Eff|]. intros _. apply remove_then.
  - intros u' Hu'. apply effect_left; [done|by exists self].
  - intros [[] [err|]] rec HE; unfold internal, noticef; answers.
Qed.

(** *** Registering *)

(** Nothing but the cache has changed since the start. *)
Definition Begun rec e : Prop :=
  exists s, e.(e_store) = Some s /\ store_inv s /\ (forall k, record s k = rec k) /\
    s.(db) = s0.(db) /\ s.(checkedFirst) = s0.(checkedFirst).

Lemma Begun_St rec e : Begun rec e -> St rec e.
Proof. intros (s & Hs & Hi & Hr & _). by exists s. Qed.

Lemma find_Begun name :
  triple (Begun (record s0)) (find name)
    (fun r e => Begun (record s0) e /\ (r = (None, None) -> record s0 (ToLower name) = None)) Eff.
Proof.
  intros [o w] (s & Hs & Hi & Hr & Hd & Hc). cbn in Hs. subst o. unfold find, on_store, with_store. cbn.
  destruct (FindUser s name) as [[p err] s'] eqn:Ef. cbn. pose proof (FindUser_db _ _ _ _ Ef) as [D C].
  destruct (FindUser_record _ _ _ _ _ Hi Ef) as (I' & [R' _] & _ & U). split.
  - exists s'. split; [done|]. split; [done|]. split; [intros k; by rewrite R'|]. by rewrite D, C.
  - intros [= -> ->]. destruct (U eq_refl) as [U1 _]. rewrite Hr in U1. by rewrite <- U1.
Qed.

Lemma isFirst_Begun :
  triple (Begun (record s0)) (on_store IsFirst)
    (fun r e => St (record s0) e /\ (r = (true, None) -> first_ever)) Eff.
Proof.
  intros [o w] (s & Hs & Hi & Hr & Hd & Hc). cbn in Hs. subst o. unfold on_store, with_store. cbn.
  destruct (IsFirst s) as [r s'] eqn:Ef. cbn.
  destruct (IsFirst_record _ _ _ Hi Ef) as (I' & [R' _] & _). split.
  - exists s'. split; [done|]. split; [done|]. intros k. by rewrite R'.
  - intros ->. unfold first_ever. rewrite <- Hd, <- Hc. revert Ef. unfold IsFirst.
    destruct (checkedFirst s); [done|]. destruct (kv_Put _ _ _) as [[e|b] d] eqn:Ep; [done|].
    intros [= -> _]. split; [done|]. apply Put_ok in Ep.
    destruct (view (db s) !! isInitialized); [by destruct Ep|done].
Qed.

Lemma alloc_St rec u :
  triple (St rec) (alloc_user u) (fun l e => St rec e /\ at_loc l u e) Eff.
Proof.
  intros [o w] (s & Hs & Hi & Hr). cbn in Hs. subst o. unfold alloc_user, on_store, with_store. cbn.
  destruct (inv_alloc s u Hi) as (I' & [R' _] & L). split; eexists; [|done]. split; [done|].
  split; [done|]. intros k. by rewrite R'.
Qed.

Lemma save_new rec l u X :
  ToLower u.(su_Username) = u.(su_Username) ->
  triple (fun e => St rec e /\ at_loc l u e) (save l)
    (fun err e => err = None /\ St (upd rec u.(su_Username) (Some u)) e) X.
Proof.
  intros Hlow [o w] [(s & Hs & Hi & Hr) (s2 & Hs2 & Hl)]. cbn in Hs, Hs2. subst o. injection Hs2 as <-.
  destruct (SaveUser_record s l u u Hi Hl eq_refl Hlow) as (s' & E1 & I1 & _ & _ & R1).
  rewrite insert_id in E1 by done. replace (set_suheap s (suheap s)) with s in E1 by (by destruct s).
  unfold save, with_store. cbn. rewrite E1. split; [done|]. exists s'. split; [done|]. split; [done|].
  intros k. rewrite R1. unfold upd. by rewrite Hr.
Qed.

Lemma NewStoredUser_plain un pw u :
  NewStoredUser salt un pw [] = inr u ->
  su_Username u = ToLower un /\ su_Global u = None /\ su_Network u = ∅ /\ su_Channel u = ∅.
Proof.
  unfold NewStoredUser. destruct un as [|c un]; [done|]. destruct pw as [|d pw]; [done|].
  unfold SetPassword. destruct (GenerateFromPassword _ _); [done|]. by intros [= <-].
Qed.

Lemma register_allowed : cmd = Text.register -> allowed (register state Write salt ircev ev).
Proof.
  intros Hc. unfold register.
  assert (forall e, Begun (record s0) e -> Eff e) as HB by (intros e He; by apply St_Eff, Begun_St).
  apply (triple_weaken _ (Begun (record s0)) _ _ (fun _ => Eff) _ Eff); [|intros e He; by exists s0|done|done].
  eapply triple_bind; [apply triple_same; [apply given_username_same|exact HB]|]. intros uname.
  eapply triple_bind; [apply triple_same; [apply current_user_same|exact HB]|].
  intros [l|]; [by apply allowed_ret|].
  eapply triple_bind; [apply find_Begun|]. intros [[l|] [err|]]; cbn [fst snd];
    try (apply allowed_ret; intros e [He _]; by apply HB).
  destruct (NewStoredUser salt uname _ []) as [err|u] eqn:En; [apply allowed_ret; intros e [He _]; by apply HB|].
  destruct (NewStoredUser_plain _ _ _ En) as (Hun & Hg & Hnet & Hch).
  intros e [He Hnone]. specialize (Hnone eq_refl). rewrite <- Hun in Hnone. revert e He.
  eapply triple_bind; [apply triple_same; [done|exact HB]|]. intros x.
  eapply triple_bind; [apply isFirst_Begun|]. intros [isFirst [err|]]; cbn [fst snd];
    [apply allowed_ret; intros e [He _]; by apply St_Eff|].
  intros e [He Hf]. revert e He.
  set (u' := if isFirst then _ else u).
  assert (su_Username u' = su_Username u) as Hn by (unfold u'; by destruct isFirst).
  assert (effect (su_Username u') None (Some u')) as Heff.
  { unfold u'. destruct isFirst; apply effect_registered; auto. }
  eapply triple_bind; [apply alloc_St|]. intros l.
  eapply triple_bind; [apply save_new; by rewrite Hn, Hun, ToLower_idem|].
  intros err. apply triple_pull. intros ->.
  assert (forall e, St (upd (record s0) (su_Username u') (Some u')) e -> Eff e) as HE.
  { intros e. apply upd_Eff. by rewrite Hn, Hnone, <- Hn. }
  apply then_St; [apply auth_St|exact HE|].
  intros [[err|err]|l']; unfold internal, noticef; answers.
Qed.

(** *** Giving and taking *)

(** The calls of a scope change accesses only. *)
Record keeps_name (sc : scope) : Prop := {
  kn_grant_level : forall u l, su_Username (sc.(sc_grant_level) u l) = su_Username u;
  kn_grant_flags : forall u f, su_Username (sc.(sc_grant_flags) u f) = su_Username u;
  kn_revoke : forall u, su_Username (sc.(sc_revoke) u) = su_Username u;
  kn_revoke_level : forall u, su_Username (sc.(sc_revoke_level) u) = su_Username u;
  kn_revoke_flags : forall u f, su_Username (sc.(sc_revoke_flags) u f) = su_Username u;
}.

Lemma doNetwork_name u n f : su_Username (doNetwork u n f) = su_Username u.
Proof. unfold doNetwork. destruct (_ !! _); [|done]. by destruct (f _). Qed.
Lemma doChannel_name u n c f : su_Username (doChannel u n c f) = su_Username u.
Proof.
  unfold doChannel. destruct (_ !! _) as [m|]; [|done]. destruct (m !! _); [|done]. by destruct (f _).
Qed.

Lemma global_name : keeps_name global_scope.
Proof. by split. Qed.
Lemma network_name n : keeps_name (network_scope n).
Proof. split; cbn; intros; try done; apply doNetwork_name. Qed.
Lemma channel_name_kept n c : keeps_name (channel_scope n c).
Proof. split; cbn; intros; try done; apply doChannel_name. Qed.

Lemma give_func_name sc u level flags u' str save :
  keeps_name sc -> give_func sc u level flags = (u', str, save) ->
  su_Username u' = su_Username u /\ (save = false -> u' = u).
Proof.
  intros Hsc. unfold give_func. repeat case_bool_decide; cbn [andb]; intros Heq;
    injection Heq as <- <- <-; rewrite ?kn_grant_flags, ?kn_grant_level by done; split; try done; lia.
Qed.

Lemma take_func_name sc u all level flags u' str save :
  keeps_name sc -> take_func sc u all level flags = (u', str, save) ->
  su_Username u' = su_Username u /\ (save = false -> u' = u).
Proof.
  intros Hsc. unfold take_func. destruct all, level; repeat case_match; intros Heq; simplify_eq;
    rewrite ?kn_revoke, ?kn_revoke_level, ?kn_revoke_flags by done; done.
Qed.

Lemma gives_name sc : gives = Some sc -> keeps_name sc.
Proof.
  unfold gives. repeat case_decide; intros [= <-]; auto using global_name, network_name, channel_name_kept.
Qed.
Lemma takes_name sc : takes = Some sc -> keeps_name sc.
Proof.
  unfold takes. repeat case_decide; intros [= <-]; auto using global_name, network_name, channel_name_kept.
Qed.

Lemma read_grants_range l level flags level' flags' :
  (0 <= level <= 255)%Z -> read_grants l level flags = inr (level', flags') -> (0 <= level' <= 255)%Z.
Proof.
  revert level flags. induction l as [|a l IH]; intros level flags Hl; cbn; [by intros [= <- _]|].
  destruct (rgxFlags_match a); [by apply IH|]. destruct (ParseUint8 a) as [|n] eqn:Ep; [done|].
  apply IH. revert Ep. unfold ParseUint8. destruct a; [done|]. destruct (mapM _ _) as [ds|]; [|done].
  case_bool_decide; [|done]. intros [= <-]. split; [|done].
  assert (forall n, (0 <= n)%Z -> (0 <= foldl (fun n d => n * 10 + Z.of_nat d) n ds)%Z) as Hf; [|by apply Hf].
  clear. induction ds as [|d ds IHd]; intros n Hn; cbn; [done|]. apply IHd. lia.
Qed.

(** Saving what was changed in place *)
Lemma dirty_save {B} l u u' (f : option bytes -> eff env B) :
  su_Username u' = su_Username u -> record s0 u.(su_Username) = Some u ->
  effect u.(su_Username) (Some u) (Some u') ->
  (forall rec, (forall e, St rec e -> Eff e) -> allowed_in (St rec) (f None)) ->
  allowed_in (Dirty (record s0) l u u') (save l ≫= f).
Proof.
  intros Hn Hu Heff Hf. eapply triple_bind; [by apply save_Dirty|]. intros err. apply triple_pull.
  intros Herr. subst err. apply Hf. intros e. apply upd_Eff. by rewrite Hu.
Qed.

Lemma give_allowed sc :
  gives = Some sc -> allowed (giveHelper state Write ev (give_func sc)).
Proof.
  intros Hc. unfold giveHelper, noticef. apply allowed_load. intros user Huser. apply allowed_pure. intros x.
  apply allowed_from_St, allowed_find. intros l u Hu Hn.
  destruct (read_grants _ 0 []) as [err|[level flags]] eqn:Eg; [intros e [He _]; by apply St_Eff|].
  apply read_grants_range in Eg; [|done].
  destruct (bool_decide (0 < level < 256)%Z || _); [|intros e [He _]; revert e He; answers].
  assert (effect (su_Username u) (Some u) (Some (give_func sc u level flags).1.1)) as Heff
    by (apply effect_given; [done|by eapply aimed|done]).
  destruct (give_func sc u level flags) as [[u' str] dosave] eqn:Ef.
  destruct (give_func_name _ _ _ _ _ _ _ (gives_name _ Hc) Ef) as [Hname Hsame].
  eapply triple_bind; [apply store_user_St|]. intros []. destruct dosave.
  - apply dirty_save; [done|done|done|]. intros rec HE. answers.
  - rewrite Hsame by done. intros e He%Dirty_same. revert e He. answers.
Qed.

Lemma take_allowed sc :
  takes = Some sc -> allowed (takeHelper state Write ev (take_func sc)).
Proof.
  intros Hc. unfold takeHelper, noticef. apply allowed_load. intros user Huser. apply allowed_pure. intros x.
  apply allowed_from_St, allowed_find. intros l u Hu Hn.
  destruct (if bool_decide _ then _ else _) as [[[all level] flags] ext].
  assert (effect (su_Username u) (Some u) (Some (take_func sc u all level flags).1.1)) as Heff
    by (apply effect_taken; [done|by eapply aimed]).
  destruct (take_func sc u all level flags) as [[u' str] dosave] eqn:Ef.
  destruct (take_func_name _ _ _ _ _ _ _ _ (takes_name _ Hc) Ef) as [Hname Hsame].
  eapply triple_bind; [apply store_user_St|]. intros []. destruct dosave.
  - apply dirty_save; [done|done|done|]. intros rec HE. answers.
  - rewrite Hsame by done. intros e He%Dirty_same. revert e He. answers.
Qed.

Lemma run_core_allowed : allowed (run_core state Write registry salt draws ircev ev cmd).
Proof.
  unfold run_core. repeat case_decide;
    auto using access_allowed, gusers_allowed, susers_allowed, users_allowed, help_allowed,
      masks_allowed, addmask_allowed, delmask_allowed, passwd_allowed, resetpasswd_allowed,
      auth_allowed, logout_allowed, deluser_allowed, delme_allowed, register_allowed.
  all: try match goal with Hc : cmd = _ |- _ =>
    first [apply give_allowed; unfold gives; by rewrite Hc
          |apply take_allowed; unfold takes; by rewrite Hc] end.
  intros e He. by apply St_Eff, Start_St.
Qed.
End Command.

Lemma core_effects_ok s0 w cmd :
  store_inv s0 ->
  let e := (coreCmds_Cmd state Write registry salt draws ircev ev cmd
              {| e_store := Some s0; e_w := w |}).2 in
  exists s, e.(e_store) = Some s /\ store_inv s /\
    forall k, effect s0 cmd k (record s0 k) (record s k).
Proof.
  intros Hi. cbn zeta.
  assert (triple (Start s0) (coreCmds_Cmd state Write registry salt draws ircev ev cmd)
            (fun _ => Eff s0 cmd) (Eff s0 cmd)) as H.
  { apply triple_recovering; [|done]. eapply triple_bind; [by apply run_core_allowed|].
    intros r. by apply triple_ret. }
  specialize (H {| e_store := Some s0; e_w := w |} eq_refl).
  by destruct (coreCmds_Cmd _ _ _ _ _ _ _ _ _) as [[] e].
Qed.
End Effects.

(** ** Witness *)

#[local] Existing Instance ascii_tables.
#[local] Existing Instance salted.
#[local] Existing Instance mem_kv.
#[local] Existing Instance demo_gob.
#[local] Existing Instance demo_working.

