(* ===== verification/CoreGate.v ===== *)
(** * Package bot: who can change access by a message

    The commander and the core commands together: whatever message is given
    to the bot, access that a registered user has only changes when the sender
    is logged in as someone with the flag the command asks for. *)

From S2P Require Import Prelude GoStrings Hosts Fmt Effects NetworkInfo Event DispatchCore Cmd Cmds CmdRun.
From S2P Require Import Channel UserModes Access JSONStorer StoredUser State StateInv Store StoreInv.
From S2P Require Import Writer CoreText CoreCmds CoreRun CoreSpec.

(** ** Dispatching only looks users up *)

Section Looking.
Context {CT : CaseTables} {BC : Bcrypt} {K : KV} {G : Gob}.
Context (state : option State.State).
Context (R : option Store -> option Store -> Prop) `{!PreOrder R}.
Context (R_find : forall s name, R (Some s) (Some (FindUser s name).2)).

Lemma FindAccessByUser_rel store srv u r store' :
  FindAccessByUser state store srv u = Ret (r, store') -> R store store'.
Proof.
  unfold FindAccessByUser. destruct store as [s|]; [|by intros [= _ <-]].
  intros (c & _ & H)%bind_Ret_inv. destruct (decide _); [destruct (decide _)|]; [by injection H as _ <-| |].
  - pose proof (R_find s (drop 1 u)) as Hf. destruct (FindUser s (drop 1 u)) as [[a err] s1].
    by injection H as _ <-.
  - destruct state as [st|]; [|by injection H as _ <-]. destruct (GetUser st u); [|by injection H as _ <-].
    apply bind_Ret_inv in H as (x & _ & H). by injection H as _ <-.
Qed.

Lemma user_loop_rel store vargs srv name i users ev err ev' store' :
  user_loop state store vargs srv name i users ev = Ret (err, ev', store') -> R store store'.
Proof.
  revert store i ev. induction users as [|u users IH]; intros store i ev; cbn [user_loop]; [by intros [= _ _ <-]|].
  intros ([[[a us] e] st1] & H1%FindAccessByUser_rel & H)%bind_Ret_inv.
  destruct e; [by injection H as _ _ <-|]. etransitivity; [exact H1|by eapply IH].
Qed.

Lemma parseUserArg_rel ev store srv name t users err ev' store' :
  parseUserArg state ev store srv name t users = Ret (err, ev', store') -> R store store'.
Proof.
  unfold parseUserArg. cbn zeta. case_decide; [|case_decide].
  - intros H1. by apply user_loop_rel in H1.
  - destruct (nick_loop _ _ _ _ _ _) as [e ev1]. by intros [= _ _ <-].
  - by intros [= _ _ <-].
Qed.

Lemma target_users_rel srv msgArgs arg j ev store err ev' store' :
  target_users state srv msgArgs arg j ev store = Ret (err, ev', store') -> R store store'.
Proof.
  unfold target_users. destruct (_ || _); [|by intros [= _ _ <-]]. case_decide; [done|].
  destruct (has_bit VARIADIC _); intros (? & _ & H1)%bind_Ret_inv; by apply parseUserArg_rel in H1.
Qed.

Lemma filter_loop_rel server command channel isChan msgArgs ircev l j ev store err ev' store' :
  filter_loop state server command channel isChan msgArgs ircev l j ev store = Ret (err, ev', store') ->
  R store store'.
Proof.
  revert j ev store. induction l as [|arg l IH]; intros j ev store; cbn [filter_loop]; [by intros [= _ _ <-]|].
  intros ([r ev1] & _ & H)%bind_Ret_inv. destruct r as [e|j']; [by injection H as _ _ <-|].
  apply bind_Ret_inv in H as ([[e ev2] st2] & H2%target_users_rel & H).
  etransitivity; [exact H2|]. destruct e; [by injection H as _ _ <-|].
  destruct (has_bit VARIADIC _); [by injection H as _ _ <-|]. by apply IH in H.
Qed.

Context (has_method : nat -> bytes -> bool).

Lemma run_command_rel c g server ircev store mt ms isChan ch name words o store' :
  run_command state has_method c g server ircev store mt ms isChan ch name words = Ret (o, store') ->
  R store store'.
Proof.
  unfold run_command. cbn zeta. destruct (Cmds.commands c !! name) as [p|]; [|by intros [= _ <-]].
  intros (cmd & _ & H)%bind_Ret_inv. destruct (decide (_ \/ _)); [by injection H as _ <-|].
  apply bind_Ret_inv in H as (access & _ & H). destruct access as [e|su]; [by injection H as _ <-|].
  apply bind_Ret_inv in H as ([[err ev1] store1] & Hf%filter_loop_rel & H).
  destruct err as [e|]; [by injection H as _ <-|]. apply bind_Ret_inv in H as (h & _ & H).
  by injection H as _ <-.
Qed.

Lemma Dispatch_rel c g server ov ircev store o store' :
  Dispatch state has_method c g server ov ircev store = Ret (o, store') -> R store store'.
Proof.
  unfold Dispatch. cbn zeta. destruct (decide _); [by intros [= _ <-]|].
  intros (text & _ & H)%bind_Ret_inv. destruct (Fields text) as [|word words]; [by injection H as _ <-|].
  apply bind_Ret_inv in H as ([isChan hasChan] & _ & H). destruct isChan; [|by apply run_command_rel in H].
  apply bind_Ret_inv in H as (ok & _ & H). destruct (negb hasChan || negb ok); [by injection H as _ <-|].
  apply bind_Ret_inv in H as (ch & _ & H). by apply run_command_rel in H.
Qed.
End Looking.

(** ** The table of the core commands *)

(** Registering core commands keeps a table to what each of them satisfies. *)
Lemma register_core_keeps {CT : CaseTables} (P : bytes -> Cmd -> Prop) h entries c g c' g' :
  (forall e, e ∈ entries -> P (en_Name e) (parseArgs (core_cmd h e)).2) -> table P c g ->
  register_core h entries c g = Ret (None, c', g') -> table P c' g'.
Proof.
  revert c g. induction entries as [|e entries IH]; intros c g He Ht; cbn [register_core].
  { by intros [= <- <-]. }
  intros ([[err c2] g2] & Hr & H)%bind_Ret_inv. destruct err as [err|]; [done|]. cbn beta iota in H.
  refine (IH c2 g2 _ _ H); [intros; apply He; by right|].
  eapply (Register_table P c g GLOBAL (core_cmd h e)); [done|apply He; by left|exact Hr].
Qed.

(** Every command of the table was made for an entry of the core commands. *)
Definition core_table (c : Cmds) (g : Registry) : Prop :=
  table (fun name cmd => exists e, e ∈ commands /\ en_Name e = name /\
    RequireAuth cmd = en_Authed e /\ ReqFlags cmd = en_Flags e) c g.

Lemma parseArgs_access {CT : CaseTables} cmd :
  RequireAuth (parseArgs cmd).2 = RequireAuth cmd /\ ReqFlags (parseArgs cmd).2 = ReqFlags cmd.
Proof. unfold parseArgs. destruct (cmd_Args cmd); [done|]. by destruct (parse_loop _ _). Qed.

Lemma NewCoreCmds_table {CT : CaseTables} h pre d g0 c g :
  NewCoreCmds h (NewCmds pre d) g0 = Ret (None, c, g) -> core_table c g.
Proof.
  apply register_core_keeps; [|by intros ? ?]. intros e He. exists e.
  destruct (parseArgs_access (core_cmd h e)) as [-> ->]. done.
Qed.

(** ** Access *)

Section Access.
Context {CT : CaseTables} {BC : Bcrypt} {K : KV} {G : Gob} {WK : Working} {RO : RangeOrder bytes}.
Context (state : option State.State).
Context {W E : Type} (Write : bytes -> W -> W * option E).

(** One store continues another through lookups. *)
Definition looked (o o' : option Store) : Prop :=
  match o, o' with
  | Some s, Some s' => store_inv s -> store_inv s' /\ same_users s s'
  | None, None => True
  | _, _ => False
  end.

#[local] Instance looked_pre : PreOrder looked.
Proof.
  split.
  - intros [s|]; [|done]. intros Hi. split; [done|apply same_users_refl].
  - intros [s1|] [s2|] [s3|]; cbn; try done. intros H1 H2 Hi.
    destruct (H1 Hi) as [I2 S2]. destruct (H2 I2) as [I3 S3]. split; [done|by eapply same_users_trans].
Qed.

Lemma looked_find s name : looked (Some s) (Some (FindUser s name).2).
Proof.
  intros Hi. destruct (FindUser s name) as [[p err] s'] eqn:E1.
  by destruct (FindUser_record _ _ _ _ _ Hi E1) as (I & S & _).
Qed.

(** The three places of a user's access *)
Definition place (u : StoredUser) : option Access * gmap bytes Access * gmap bytes (gmap bytes Access) :=
  (su_Global u, su_Network u, su_Channel u).

Lemma doNetwork_places u n f :
  su_Global (doNetwork u n f) = su_Global u /\ su_Channel (doNetwork u n f) = su_Channel u.
Proof. unfold doNetwork. destruct (_ !! _); [|done]. by destruct (f _). Qed.
Lemma doChannel_places u n c f :
  su_Global (doChannel u n c f) = su_Global u /\ su_Network (doChannel u n c f) = su_Network u.
Proof.
  unfold doChannel. destruct (_ !! _) as [m|]; [|done]. destruct (m !! _); [|done]. by destruct (f _).
Qed.

(** A function of the three scopes that changes one place only *)
Lemma scope_places {A} (proj : StoredUser -> A) sc :
  (forall u l, proj (sc.(sc_grant_level) u l) = proj u) ->
  (forall u f, proj (sc.(sc_grant_flags) u f) = proj u) ->
  (forall u, proj (sc.(sc_revoke) u) = proj u) ->
  (forall u, proj (sc.(sc_revoke_level) u) = proj u) ->
  (forall u f, proj (sc.(sc_revoke_flags) u f) = proj u) ->
  forall u, (forall level flags, proj (give_func sc u level flags).1.1 = proj u) /\
    (forall all level flags, proj (take_func sc u all level flags).1.1 = proj u).
Proof.
  intros H1 H2 H3 H4 H5 u. split.
  - intros level flags. unfold give_func. repeat case_bool_decide; cbn; by rewrite ?H2, ?H1.
  - intros all level flags. unfold take_func. repeat case_match; simplify_eq/=; by rewrite ?H3, ?H4, ?H5.
Qed.

#[local] Ltac kept := intros; first [done|apply doNetwork_places|apply doChannel_places].

Lemma global_places u :
  (forall level flags, let u' := (give_func global_scope u level flags).1.1 in
     su_Network u' = su_Network u /\ su_Channel u' = su_Channel u) /\
  (forall all level flags, let u' := (take_func global_scope u all level flags).1.1 in
     su_Network u' = su_Network u /\ su_Channel u' = su_Channel u).
Proof.
  destruct (scope_places su_Network global_scope
    ltac:(kept) ltac:(kept) ltac:(kept) ltac:(kept) ltac:(kept) u) as [H1 H2].
  destruct (scope_places su_Channel global_scope
    ltac:(kept) ltac:(kept) ltac:(kept) ltac:(kept) ltac:(kept) u) as [H3 H4].
  split; [intros level flags|intros all level flags]; cbn zeta; auto.
Qed.

Lemma network_places n u :
  (forall level flags, let u' := (give_func (network_scope n) u level flags).1.1 in
     su_Global u' = su_Global u /\ su_Channel u' = su_Channel u) /\
  (forall all level flags, let u' := (take_func (network_scope n) u all level flags).1.1 in
     su_Global u' = su_Global u /\ su_Channel u' = su_Channel u).
Proof.
  destruct (scope_places su_Global (network_scope n)
    ltac:(kept) ltac:(kept) ltac:(kept) ltac:(kept) ltac:(kept) u) as [H1 H2].
  destruct (scope_places su_Channel (network_scope n)
    ltac:(kept) ltac:(kept) ltac:(kept) ltac:(kept) ltac:(kept) u) as [H3 H4].
  split; [intros level flags|intros all level flags]; cbn zeta; auto.
Qed.

Lemma channel_places n c u :
  (forall level flags, let u' := (give_func (channel_scope n c) u level flags).1.1 in
     su_Global u' = su_Global u /\ su_Network u' = su_Network u) /\
  (forall all level flags, let u' := (take_func (channel_scope n c) u all level flags).1.1 in
     su_Global u' = su_Global u /\ su_Network u' = su_Network u).
Proof.
  destruct (scope_places su_Global (channel_scope n c)
    ltac:(kept) ltac:(kept) ltac:(kept) ltac:(kept) ltac:(kept) u) as [H1 H2].
  destruct (scope_places su_Network (channel_scope n c)
    ltac:(kept) ltac:(kept) ltac:(kept) ltac:(kept) ltac:(kept) u) as [H3 H4].
  split; [intros level flags|intros all level flags]; cbn zeta; auto.
Qed.

(** The entries of the commands that give and take *)
Lemma entry_flags e :
  e ∈ commands ->
  (en_Name e = Text.ggive \/ en_Name e = Text.gtake -> en_Authed e = true /\ en_Flags e = bs "G") /\
  (en_Name e = Text.sgive \/ en_Name e = Text.stake -> en_Authed e = true /\ en_Flags e = bs "GS") /\
  (en_Name e = Text.give \/ en_Name e = Text.take -> en_Authed e = true /\ en_Flags e = bs "GSC").
Proof.
  intros He. assert (Forall (fun e =>
    (en_Name e = Text.ggive \/ en_Name e = Text.gtake -> en_Authed e = true /\ en_Flags e = bs "G") /\
    (en_Name e = Text.sgive \/ en_Name e = Text.stake -> en_Authed e = true /\ en_Flags e = bs "GS") /\
    (en_Name e = Text.give \/ en_Name e = Text.take -> en_Authed e = true /\ en_Flags e = bs "GSC"))
    commands) as H by decide_now.
  rewrite Forall_forall in H. by apply H.
Qed.

Lemma gives_cases ircev ev cmd sc :
  gives ircev ev cmd = Some sc \/ takes ircev ev cmd = Some sc ->
  (cmd = Text.ggive \/ cmd = Text.gtake) /\ sc = global_scope \/
  (cmd = Text.sgive \/ cmd = Text.stake) /\ (exists n, sc = network_scope n) \/
  (cmd = Text.give \/ cmd = Text.take) /\ (exists n c, sc = channel_scope n c).
Proof. unfold gives, takes. intros [H|H]; repeat case_decide; simplify_eq; eauto 9. Qed.

(** What the effect of a command means for the access of a user that was and
    is registered *)
Lemma effect_access salt ircev ev s0 e k u u' :
  e ∈ commands -> effect salt ircev ev s0 (en_Name e) k (Some u) (Some u') ->
  (su_Global u' <> su_Global u -> en_Authed e = true /\ en_Flags e = bs "G") /\
  (su_Network u' <> su_Network u -> en_Authed e = true /\ en_Flags e = bs "GS") /\
  (su_Channel u' <> su_Channel u -> en_Authed e = true /\ en_Flags e = bs "GSC").
Proof.
  intros He%entry_flags H. destruct He as (Eg & Es & Ec).
  assert (forall sc, gives ircev ev (en_Name e) = Some sc \/ takes ircev ev (en_Name e) = Some sc ->
    forall v, (exists level flags, v = (give_func sc u level flags).1.1) \/
      (exists all level flags, v = (take_func sc u all level flags).1.1) ->
    (su_Global v <> su_Global u -> en_Authed e = true /\ en_Flags e = bs "G") /\
    (su_Network v <> su_Network u -> en_Authed e = true /\ en_Flags e = bs "GS") /\
    (su_Channel v <> su_Channel u -> en_Authed e = true /\ en_Flags e = bs "GSC")) as Hsc.
  { intros sc [[Hn ->]|[[Hn [n ->]]|[Hn (n & c & ->)]]]%gives_cases v Hv;
      [pose proof (global_places u) as [P Q]|pose proof (network_places n u) as [P Q]
      |pose proof (channel_places n c u) as [P Q]];
      destruct Hv as [(level & flags & ->)|(all & level & flags & ->)];
      [destruct (P level flags)|destruct (Q all level flags)|destruct (P level flags)
      |destruct (Q all level flags)|destruct (P level flags)|destruct (Q all level flags)];
      split; [|split| |split| |split| |split| |split| |split]; intros Hne; try (by destruct Hne); auto. }
  inversion H; subst; try (split; [|split]; intros Hne; by destruct Hne);
    (eapply Hsc; [eauto|eauto 6]).
Qed.

(** The sender of a message is logged in as a user with one of these flags,
    globally, on the network, or in the channel the message was sent to. *)
Definition flagged (s : Store) (ircev : Event) (flags : bytes) : Prop :=
  exists l x ch, s.(authed) !! (ircev.(NetworkID) ++ ircev.(Sender)) = Some l /\
    s.(suheap) !! l = Some x /\ (ch = [] \/ ircev.(Args) !! 0 = Some ch) /\
    HasFlags x ircev.(NetworkID) ch [flags] = true.

(** What a message may do to the access of the users that are registered
    before and after *)
Definition guarded (s0 s : Store) (ircev : Event) : Prop :=
  forall k u u', record s0 k = Some u -> record s k = Some u' ->
    (su_Global u' <> su_Global u -> flagged s0 ircev (bs "G")) /\
    (su_Network u' <> su_Network u -> flagged s0 ircev (bs "GS")) /\
    (su_Channel u' <> su_Channel u -> flagged s0 ircev (bs "GSC")).

Lemma guarded_same s0 s ircev : same_users s0 s -> guarded s0 s ircev.
Proof.
  intros [H _] k u u' H0 H1. rewrite H, H0 in H1. injection H1 as <-.
  split; [|split]; intros Hne; by destruct Hne.
Qed.

Lemma say_store (call : W -> go (option (W * option E))) (e : env (W := W)) :
  e_store (say call e).2 = e_store e.
Proof. unfold say. by destruct (call _) as [[[]|]|]. Qed.

Lemma converse_guarded h pre d g0 c g salt draws ov ircev s0 w :
  NewCoreCmds h (NewCmds pre d) g0 = Ret (None, c, g) -> store_inv s0 ->
  exists s, e_store (converse state Write salt draws c g ov ircev {| e_store := Some s0; e_w := w |}).2 = Some s /\
    store_inv s /\ guarded s0 s ircev.
Proof.
  intros Ht%NewCoreCmds_table Hi. unfold converse. cbn [e_store e_w].
  destruct (Dispatch _ _ _ _ _ _ _ _) as [[o store']|] eqn:Ed; [|by exists s0; auto using guarded_same, same_users_refl].
  pose proof (Dispatch_rel state looked looked_find _ _ _ _ _ _ _ _ _ Ed) as HR.
  destruct store' as [s1|]; [|done]. destruct (HR Hi) as [I1 S1]. clear HR.
  destruct o as [|nick err|h' how ev].
  - exists s1. auto using guarded_same.
  - exists s1. unfold notice. rewrite say_store. auto using guarded_same.
  - destruct (Dispatch_started_ok _ _ _ _ _ _ _ _ _ _ _ _ Ed)
      as (isChan & ch & name & words & p & cmd & Hn & Hc & Hp & _ & _ & _ & -> & Hauth).
    destruct (Ht _ _ Hc) as (cmd' & Hp' & e & He & <- & A1 & A2). rewrite Hp in Hp'. injection Hp' as <-.
    unfold called, cmdNameDispatch.
    destruct (core_effects_ok state Write g salt draws ircev ev s1 w (en_Name e) I1) as (s & Hs & Is & Heff).
    exists s. unfold mbind, eff_bind.
    destruct (coreCmds_Cmd _ _ _ _ _ _ _ _ _) as [r e1]. cbn in Hs.
    split; [by destruct r as [[err|]| |]; unfold notice; rewrite ?say_store|]. split; [done|].
    intros k u u' Hu Hu'. specialize (Heff k). destruct S1 as [S1 _]. rewrite S1, Hu, Hu' in Heff.
    destruct (effect_access _ _ _ _ _ _ _ _ He Heff) as (E1 & E2 & E3).
    assert (forall fl, fl <> [] -> en_Authed e = true -> en_Flags e = fl -> flagged s0 ircev fl) as Hf.
    { intros fl Hfl Ha <-. rewrite <- A1 in Ha. destruct (Hauth Ha) as (s2 & l & [= <-] & _ & x & X1 & X2 & _ & X4).
      exists l, x, ch. split; [done|]. split; [done|]. rewrite <- A2 in *. split; [|by apply X4].
      destruct Hn as (text & word & _ & _ & Hch). destruct isChan; [right; apply Hch|left; apply Hch]. }
    split; [|split]; intros Hne; [destruct (E1 Hne)|destruct (E2 Hne)|destruct (E3 Hne)]; by apply Hf.
Qed.

End Access.

(** ** Witness *)

#[local] Existing Instance ascii_tables.
#[local] Existing Instance salted.
#[local] Existing Instance mem_kv.
#[local] Existing Instance demo_gob.
#[local] Existing Instance demo_working.

