(* ===== verification/CoreAccess.v ===== *)
(** * Package bot: what giving and taking access does

    The commands that give and take work at three places, global, on a network
    and on a channel, through the nine calls of a [scope].  [ScopeLaws] is what
    those calls promise; the stored user discharges it at each place, and what
    giving and taking come to is proved against it once. *)

From S2P Require Import Prelude GoStrings Fmt Access StoredUser CoreText CoreCmds.

(** What a place holds when it was never written *)
Abbreviation no_access := (NewAccess 0 []).

Class ScopeLaws {CT : CaseTables} {BC : Bcrypt} (sc : scope) : Prop := {
  law_has_flag : forall u r, sc.(sc_has_flag) u r = on_access (sc.(sc_get) u) (fun x => Access_HasFlag x r);
  law_has_level : forall u l, sc.(sc_has_level) u l = on_access (sc.(sc_get) u) (fun x => Access_HasLevel x l);
  law_has_flags : forall u f, sc.(sc_has_flags) u f = on_access (sc.(sc_get) u) (fun x => Access_HasFlags x [f]);
  law_grant_level : forall u l,
    sc.(sc_get) (sc.(sc_grant_level) u l) = Some (with_level l (default no_access (sc.(sc_get) u)));
  law_grant_flags : forall u f,
    sc.(sc_get) (sc.(sc_grant_flags) u f) = Some (SetFlags (default no_access (sc.(sc_get) u)) [f]);
  law_revoke : forall u, sc.(sc_get) (sc.(sc_revoke) u) = None;
  law_revoke_level : forall u,
    sc.(sc_get) (sc.(sc_revoke_level) u) = with_level 0 <$> sc.(sc_get) u;
  law_revoke_flags : forall u f,
    sc.(sc_get) (sc.(sc_revoke_flags) u f) = (fun x => ClearFlags x [f]) <$> sc.(sc_get) u;
}.

Section Scopes.
Context {CT : CaseTables} {BC : Bcrypt}.

#[export] Instance global_laws : ScopeLaws global_scope.
Proof. by split. Qed.

Lemma ensureNetwork_here a n f :
  GetNetwork (ensureNetwork a n f) n = Some (f (default no_access (GetNetwork a n))).
Proof. by rewrite ensureNetwork_get, decide_True. Qed.
Lemma doNetwork_here a n f : GetNetwork (doNetwork a n f) n = GetNetwork a n ≫= f.
Proof. by rewrite doNetwork_get, decide_True. Qed.
Lemma ensureChannel_here a n c f :
  GetChannel (ensureChannel a n c f) n c = Some (f (default no_access (GetChannel a n c))).
Proof. by rewrite ensureChannel_get, decide_True. Qed.
Lemma doChannel_here a n c f : GetChannel (doChannel a n c f) n c = GetChannel a n c ≫= f.
Proof. by rewrite doChannel_get, decide_True. Qed.

#[local] Ltac law :=
  intros; cbn [sc_get sc_grant_level sc_grant_flags sc_revoke sc_revoke_level sc_revoke_flags];
  unfold GrantNetworkLevel, GrantNetworkFlags, RevokeNetwork, RevokeNetworkLevel, RevokeNetworkFlags,
    GrantChannelLevel, GrantChannelFlags, RevokeChannel, RevokeChannelLevel, RevokeChannelFlags;
  rewrite ?ensureNetwork_here, ?doNetwork_here, ?ensureChannel_here, ?doChannel_here;
  first [done|by destruct (GetNetwork _ _)|by destruct (GetChannel _ _ _)].

#[export] Instance network_laws n : ScopeLaws (network_scope n).
Proof. split; unfold network_scope; law. Qed.

#[export] Instance channel_laws n c : ScopeLaws (channel_scope n c).
Proof. split; unfold channel_scope; law. Qed.

(** ** Filtering flags *)

Lemma decode_rune_valid s r w : decode_rune s = Some (r, w) -> valid_rune r = true.
Proof.
  destruct s as [|c0 s1]; [done|]. unfold decode_rune, is_cont, rune_error, valid_rune. intros [= H].
  pose proof (code_range c0).
  repeat (case_match; simplify_eq/=;
    rewrite ?andb_true_iff, ?negb_true_iff, ?andb_false_iff, ?orb_true_iff,
            ?bool_decide_eq_true, ?bool_decide_eq_false in * ); lia.
Qed.

Lemma runes_valid s : Forall (fun r => valid_rune r = true) (runes s).
Proof.
  unfold runes. induction s as [|s r w E IH] using chunks_ind; [constructor|].
  rewrite (chunks_step _ _ _ E). cbn. constructor; [|done]. by eapply decode_rune_valid.
Qed.

(** What is left of the flags: the runes that are not there yet *)
Lemma filterFlags_runes flags check :
  runes (filterFlags flags check) = List.filter (fun r => negb (check r)) (runes flags).
Proof.
  unfold filterFlags. apply runes_string_of_runes. pose proof (runes_valid flags) as H.
  rewrite Forall_forall in *. intros r Hr. apply H. apply list_elem_of_In, List.filter_In in Hr as [Hr _].
  by apply list_elem_of_In.
Qed.

Lemma filterFlags_nil flags check :
  filterFlags flags check = [] <-> forall r, r ∈ runes flags -> check r = true.
Proof.
  split.
  - intros H0 r Hr. pose proof (filterFlags_runes flags check) as H. rewrite H0 in H. symmetry in H.
    change (runes []) with (@nil Z) in H. destruct (check r) eqn:E; [done|]. assert (In r []) as []. rewrite <- H.
    apply List.filter_In. split; [by apply list_elem_of_In|by rewrite E].
  - intros H. unfold filterFlags. destruct (List.filter _ _) as [|r l] eqn:E; [done|].
    assert (In r (r :: l)) as Hr by by left. rewrite <- E in Hr. apply List.filter_In in Hr as [Hr Hc].
    apply list_elem_of_In, H in Hr. by rewrite Hr in Hc.
Qed.

(** Granting only the missing letters grants the letters. *)
Lemma SetFlags_filtered x flags r :
  is_rune r ->
  Access_HasFlag (SetFlags x [filterFlags flags (Access_HasFlag x)]) r
  = Access_HasFlag x r || bool_decide (is_Some (flag_index r)) && bool_decide (r ∈ runes flags).
Proof.
  intros Hr. destruct (flags_set x [filterFlags flags (Access_HasFlag x)] r Hr) as [-> _].
  unfold flag_runes. cbn [map concat]. rewrite app_nil_r, filterFlags_runes.
  destruct (Access_HasFlag x r) eqn:E; [done|]. cbn. f_equal. apply bool_decide_ext.
  rewrite !list_elem_of_In, List.filter_In. rewrite E. naive_solver.
Qed.

(** ** Giving and taking *)

Lemma HasFlag_none r : is_rune r -> Access_HasFlag no_access r = false.
Proof. intros Hr. rewrite HasFlag_index by done. destruct (flag_index r); [apply Z.bits_0|done]. Qed.

Lemma runes_rune s r : r ∈ runes s -> is_rune r.
Proof. intros Hr. pose proof (runes_are_runes s) as H. rewrite Forall_forall in H. by apply H. Qed.

(** The letters of a place, a missing access having none *)
Lemma has_flag_get sc `{!ScopeLaws sc} u r :
  is_rune r -> sc.(sc_has_flag) u r = Access_HasFlag (default no_access (sc.(sc_get) u)) r.
Proof.
  intros Hr. rewrite law_has_flag. destruct (sc_get sc u); [done|]. cbn [on_access default from_option].
  by rewrite HasFlag_none.
Qed.

Lemma filterFlags_ext flags f g :
  (forall r, r ∈ runes flags -> f r = g r) -> filterFlags flags f = filterFlags flags g.
Proof.
  intros H. unfold filterFlags. f_equal. apply List.filter_ext_in. intros r Hr%list_elem_of_In.
  by rewrite H.
Qed.

Lemma filterFlags_scope sc `{!ScopeLaws sc} u flags :
  filterFlags flags (sc.(sc_has_flag) u)
  = filterFlags flags (Access_HasFlag (default no_access (sc.(sc_get) u))).
Proof. apply filterFlags_ext. intros r Hr. apply has_flag_get; [done|by eapply runes_rune]. Qed.

Lemma with_level_flag l x : Access_HasFlag (with_level l x) = Access_HasFlag x.
Proof. done. Qed.

(** What is refused: no level, and no flag that is new *)
Definition nothing_new (x : Access) (level : Z) (flags : bytes) : Prop :=
  level = 0%Z /\ flags <> [] /\ forall r, r ∈ runes flags -> Access_HasFlag x r = true.


(** Taking, at any of the three places: all access, when there is a level; the
    level, when there is one; or the letters that are given, when one of them
    is there.  Otherwise nothing changes and nothing is saved, so all access of
    a user that has flags and no level cannot be taken. *)
Theorem take_removes sc `{!ScopeLaws sc} u all level flags u' str save :
  take_func sc u all level flags = (u', str, save) ->
  (all = true -> flags = []) ->
  match sc.(sc_get) u with
  | None => save = false /\ u' = u
  | Some x =>
    if all || level then
      save = bool_decide (1 <= x.(Level))%Z /\
      (if save then sc.(sc_get) u' = if all then None else Some (with_level 0 x) else u' = u)
    else
      save = existsb (Access_HasFlag x) (runes flags) /\
      (if save then sc.(sc_get) u' = Some (ClearFlags x [flags]) else u' = u)
  end.
Proof.
  intros Ht Hall. unfold take_func in Ht. rewrite !law_has_level, !law_has_flags in Ht.
  destruct (sc_get sc u) as [x|] eqn:Ex; cbn [on_access] in Ht.
  - unfold Access_HasLevel, Access_HasFlags in Ht. cbn [existsb] in Ht. rewrite orb_false_r in Ht.
    destruct all; cbn [orb].
    + rewrite Hall in Ht by done. change (runes []) with (@nil Z) in Ht. cbn [existsb] in Ht.
      rewrite orb_false_r in Ht. destruct (bool_decide _); simplify_eq; by rewrite ?law_revoke.
    + destruct level.
      * destruct (bool_decide _); simplify_eq; by rewrite ?law_revoke_level, ?Ex.
      * destruct (existsb _ _); simplify_eq; by rewrite ?law_revoke_flags, ?Ex.
  - destruct all, level; simplify_eq/=; done.
Qed.
End Scopes.

(** ** Witnesses *)

#[local] Existing Instance ascii_tables.
#[local] Existing Instance salted.

Definition flagged_user : StoredUser :=
  set_network (empty_user (bs "b") None) {[bs "net" := {| Level := 0; Flags := 5 |}]}.


(** All access is not taken from a user with flags only. *)
Lemma take_removes_witness :
  (take_func (network_scope (bs "net")) flagged_user true false []).1.1 = flagged_user /\
  (take_func (network_scope (bs "net")) flagged_user true false []).2 = false.
Proof.
  destruct (take_func (network_scope (bs "net")) flagged_user true false []) as [[u' str] save] eqn:E.
  pose proof (take_removes (network_scope (bs "net")) flagged_user true false [] u' str save E
    (fun _ => eq_refl)) as H.
  assert (sc_get (network_scope (bs "net")) flagged_user = Some {| Level := 0; Flags := 5 |}) as Hg
    by (vm_compute; reflexivity).
  rewrite Hg in H. cbn [orb] in H. destruct H as [H1 H2].
  assert (save = false) as -> by (rewrite H1; decide_now). split; [exact H2|reflexivity].
Defined.
