(* ===== verification/Server.v ===== *)
(** * Package bot: a server connection (bot/server.go)

    The record the bot keeps for every network, its status with the listeners
    that are told of it, and how a connection is set up: which of the servers
    is dialled, and with which flood protection.  Dialling itself is a
    parameter; a channel is known by a number, and what is sent on it is part
    of the result. *)

From S2P Require Import Prelude GoStrings Fmt NetworkInfo State.
From S2P Require Import ConfigMap NetCTX Config Client.

(** ** Status *)

(** bot/server.go:24-24 [Status] *)
Definition Status : Type := Z.
(** bot/server.go:28-28 [STATUS_STOPPED] *)
Definition STATUS_STOPPED : Status := 0%Z.
(** bot/server.go:29-29 [STATUS_CONNECTING] *)
Definition STATUS_CONNECTING : Status := 1%Z.
(** bot/server.go:30-30 [STATUS_STARTED] *)
Definition STATUS_STARTED : Status := 2%Z.
(** bot/server.go:31-31 [STATUS_RECONNECTING] *)
Definition STATUS_RECONNECTING : Status := 3%Z.

(** bot/server.go:37-37 [errFmtAlreadyConnected] *)
Definition errFmtAlreadyConnected : bytes := bs "bot: %v already connected." ++ [byte_of 10].
(** bot/server.go:42-42 [errNotConnected] *)
Definition errNotConnected : bytes := bs "bot: Server not connected".
(** bot/server.go:44-44 [errFailedToLoadCertificate] *)
Definition errFailedToLoadCertificate : bytes := bs "bot: Failed to load certificate".
(** bot/server.go:46-46 [errServerKilledConn] *)
Definition errServerKilledConn : bytes := bs "bot: Killed trying to connect".

(** bot/server.go [Server]: what the modelled methods use.  The listeners are
    nil until one is added, and five lists then: for every status, and for
    each. *)
Record Server := {
  networkID : bytes;
  status : Status;
  statusListeners : option (list (list nat));
  conf : Config.Config;
  netInfo : NetworkInfo;
  client : option IrcClient;
  state : option State.State;
  serverIndex : nat;
}.

Definition set_status (s : Server) (v : Status) : Server := {| networkID := s.(networkID); status := v;
  statusListeners := s.(statusListeners); conf := s.(conf); netInfo := s.(netInfo);
  client := s.(client); state := s.(state); serverIndex := s.(serverIndex) |}.
Definition set_listeners (s : Server) (v : option (list (list nat))) : Server :=
  {| networkID := s.(networkID); status := s.(status); statusListeners := v; conf := s.(conf);
     netInfo := s.(netInfo); client := s.(client); state := s.(state); serverIndex := s.(serverIndex) |}.
Definition set_netInfo (s : Server) (v : NetworkInfo) : Server := {| networkID := s.(networkID);
  status := s.(status); statusListeners := s.(statusListeners); conf := s.(conf); netInfo := v;
  client := s.(client); state := s.(state); serverIndex := s.(serverIndex) |}.
Definition set_client (s : Server) (v : option IrcClient) : Server := {| networkID := s.(networkID);
  status := s.(status); statusListeners := s.(statusListeners); conf := s.(conf);
  netInfo := s.(netInfo); client := v; state := s.(state); serverIndex := s.(serverIndex) |}.
Definition set_state (s : Server) (v : option State.State) : Server := {| networkID := s.(networkID);
  status := s.(status); statusListeners := s.(statusListeners); conf := s.(conf);
  netInfo := s.(netInfo); client := s.(client); state := v; serverIndex := s.(serverIndex) |}.
Definition set_index (s : Server) (v : nat) : Server := {| networkID := s.(networkID);
  status := s.(status); statusListeners := s.(statusListeners); conf := s.(conf);
  netInfo := s.(netInfo); client := s.(client); state := s.(state); serverIndex := v |}.

(** bot/server.go [Server.GetStatus] *)
Definition GetStatus (s : Server) : Status := s.(status).

(** [byte(st) + 1], the list of a status *)
Definition status_slot (st : Status) : nat := Z.to_nat ((st + 1) mod 256).

(** bot/server.go [Server.setStatus]: what is sent to which listener, in
    order *)
Definition setStatus (s : Server) (newstatus : Status) : go (list (nat * Status) * Server) :=
  let s := set_status s newstatus in
  match s.(statusListeners) with
  | None => Ret ([], s)
  | Some ls =>
    every ← index ls 0;
    mine ← index ls (status_slot newstatus);
    Ret (map (fun l => (l, newstatus)) (every ++ mine), s)
  end.

(** [ls[i] = append(ls[i], listener)] *)
Definition append_at (ls : list (list nat)) (i : nat) (listener : nat) : go (list (list nat)) :=
  l ← index ls i; Ret (<[i := l ++ [listener]]> ls).

(** bot/server.go [Server.addStatusListener] *)
Definition addStatusListener (s : Server) (listener : nat) (listen : list Status) : go Server :=
  let ls := default [[]; []; []; []; []] s.(statusListeners) in
  ls ← match listen with
       | [] => append_at ls 0 listener
       | _ => go_fold (fun ls st => append_at ls (status_slot st) listener) ls listen
       end;
  Ret (set_listeners s (Some ls)).

(** ** State and capabilities *)

(** bot/server.go [Server.createState]: on an error the pointer is the one
    [NewState] returned, nil *)
Definition createState (s : Server) : go (option bytes * Server) :=
  r ← NewState (Some s.(netInfo));
  Ret match r with
      | inl err => (Some err, set_state s None)
      | inr st => (None, set_state s (Some st))
      end.

(** bot/server.go [Server.rehashNetworkInfo] *)
Definition rehashNetworkInfo (s : Server) : go (option bytes * Server) :=
  match s.(state) with
  | None => Ret (None, s)
  | Some st => '(err, st) ← SetNetworkInfo st (Some s.(netInfo)); Ret (err, set_state s (Some st))
  end.

(** ** Writing and closing *)

(** bot/server.go [Server.Write]: an error, or what the client's [Write]
    returns; the client is nil when there is no connection, and using it then
    is a panic.  [pump_open] says whether the client's pump takes the bytes. *)
Definition Server_Write (s : Server) (pump_open : bool) (buf : bytes)
    : go (bytes + (option nat * option bytes)) :=
  match buf with
  | [] => Ret (inr (Some 0, None))
  | _ =>
    if bool_decide (GetStatus s <> STATUS_STOPPED) then
      _ ← deref s.(client); Ret (inr (Client.Write pump_open buf))
    else Ret (inl errNotConnected)
  end.

(** bot/server.go [Server.Close]: [err] is what closing the client gives *)
Definition Server_Close (s : Server) (err : option bytes) : option bytes * Server :=
  (match s.(client) with Some _ => err | None => None end, set_client s None).

(** ** Connecting *)

(** [time.Duration(f)] of a float: the fraction is cut off. *)
Definition whole (q : Q) : Z := wrap64 (Z.quot (QArith_base.Qnum q) (Zpos (QArith_base.Qden q))).
(** A duration in seconds *)
Definition seconds (q : Q) : Z := wrap64 (whole q * defaultTimeScale).

(** bot/server.go [connResult]: what dialling gives: no error, or its
    text and whether it is temporary *)
Definition dialled : Type := option (bytes * bool).

(** bot/server.go [Server.createConnection]: which server is dialled,
    with TLS or without, and the result; [dial] stands for the dialling
    functions. *)
Definition createConnection (h : Heap) (dial : bool -> bytes -> dialled) (s : Server)
    : go (bytes * dialled * Server) :=
  cfg ← deref (Config.Network h s.(conf) s.(networkID));
  let '(srvs, _) := NetCTX.Servers h cfg in
  let '(ssl, _) := NetCTX.SSL h cfg in
  let s := if bool_decide (length srvs <= s.(serverIndex)) then set_index s 0 else s in
  server ← index srvs s.(serverIndex);
  let r := dial ssl server in
  Ret (server, r, match r with Some _ => set_index s (S s.(serverIndex)) | None => s end).

(** *** TLS *)

Section TLS.
Context {Pool : Type} (AppendCertsFromPEM : bytes -> bool * Pool) (os_Open : bytes -> bytes + bytes).

(** What is set of a [tls.Config] *)
Record tls_config := { InsecureSkipVerify : bool; RootCAs : option Pool }.

(** bot/server.go [readCert]: a pool is given back with the error when the file
    could be read *)
Definition readCert (filename : bytes) : option Pool * option bytes :=
  match os_Open filename with
  | inl err => (None, Some err)
  | inr pem =>
    let '(ok, certpool) := AppendCertsFromPEM pem in
    (Some certpool, if ok : bool then None else Some errFailedToLoadCertificate)
  end.

(** bot/server.go [Server.createTlsConfig]: [cfg] is the context of the server's
    network *)
Definition createTlsConfig (h : Heap) (cfg : NetCTX.NetCTX) (cr : bytes -> option Pool * option bytes)
    : tls_config * option bytes :=
  let skipVerify := (NetCTX.NoVerifyCert h cfg).1 in
  let '(cert, ok) := NetCTX.SSLCert h cfg in
  if ok : bool then
    let '(pool, err) := cr cert in ({| InsecureSkipVerify := skipVerify; RootCAs := pool |}, err)
  else ({| InsecureSkipVerify := skipVerify; RootCAs := None |}, None).

(** bot/server.go:189-201 [Server.createConnection]: how a server is dialled; an
    error of the certificate is no [net.Error]. *)
Definition dial_server (connProvider : option (bytes -> dialled)) (tls_Dial : tls_config -> bytes -> dialled)
    (net_Dial : bytes -> dialled) (h : Heap) (cfg : NetCTX.NetCTX) (ssl : bool) (server : bytes) : dialled :=
  match connProvider with
  | Some dial => dial server
  | None =>
    if ssl then
      match createTlsConfig h cfg readCert with
      | (_, Some err) => Some (err, false)
      | (conf, None) => tls_Dial conf server
      end
    else net_Dial server
  end.
End TLS.

(** bot/server.go:152-167 [Server.createIrcClient]: the client that is made
    with the settings of the network *)
Definition configured_client (h : Heap) (cfg : NetCTX.NetCTX) : IrcClient :=
  NewIrcClient (NetCTX.FloodLenPenalty h cfg).1
    (seconds (NetCTX.FloodTimeout h cfg).1) (seconds (NetCTX.FloodStep h cfg).1)
    (seconds (NetCTX.KeepAlive h cfg).1) defaultTimeScale.

(** bot/server.go [Server.createIrcClient]: the error, whether it is
    temporary, and the server; [killed] says that the server is killed before
    the connection is there. *)
Definition createIrcClient (h : Heap) (dial : bool -> bytes -> dialled) (killed : bool) (s : Server)
    : go (option bytes * bool * Server) :=
  match s.(client) with
  | Some _ => Ret (Some (Sprintf errFmtAlreadyConnected [VString s.(networkID)]), false, s)
  | None =>
    '(_, r, s) ← createConnection h dial s;
    if killed then Ret (Some errServerKilledConn, false, s) else
    match r with
    | Some (err, temporary) => Ret (Some err, temporary, s)
    | None =>
      cfg ← deref (Config.Network h s.(conf) s.(networkID));
      Ret (None, false, set_client s (Some (configured_client h cfg)))
    end
  end.

(** ** Properties *)

(** Listeners are kept in five lists, one for every status and one each. *)
Definition listeners_ok (s : Server) : Prop :=
  match s.(statusListeners) with Some ls => length ls = 5 | None => True end.

Definition is_status (st : Status) : Prop := (0 <= st <= 3)%Z.

Lemma slot_of st : is_status st -> status_slot st = Z.to_nat (st + 1).
Proof. unfold is_status, status_slot. intros H. by rewrite Z.mod_small by lia. Qed.

(** Who is told of a status *)
Definition told (s : Server) (st : Status) : list nat :=
  match s.(statusListeners) with
  | Some ls => default [] (ls !! 0) ++ default [] (ls !! status_slot st)
  | None => []
  end.

Lemma append_at_spec ls i l :
  i < length ls -> exists ls', append_at ls i l = Ret ls' /\ length ls' = length ls /\
    forall j, default [] (ls' !! j) = default [] (ls !! j) ++ (if decide (i = j) then [l] else []).
Proof.
  intros Hi. destruct (lookup_lt_is_Some_2 _ _ Hi) as [x Hx]. unfold append_at, index. rewrite Hx.
  eexists. split; [done|]. split; [apply length_insert|]. intros j. case_decide as Hj.
  - subst. rewrite list_lookup_insert_eq by done. by rewrite Hx.
  - rewrite list_lookup_insert_ne by done. by rewrite app_nil_r.
Qed.

Lemma append_each ls listen l :
  length ls = 5 -> Forall is_status listen ->
  exists ls', go_fold (fun ls st => append_at ls (status_slot st) l) ls listen = Ret ls' /\ length ls' = 5 /\
    forall j, default [] (ls' !! j) =
      default [] (ls !! j) ++ replicate (length (filter (fun st => status_slot st = j) listen)) l.
Proof.
  intros Hl Hs. revert ls Hl. induction Hs as [|st listen Hst _ IH]; intros ls Hl; cbn [go_fold].
  { exists ls. split; [done|]. split; [done|]. intros j. by rewrite app_nil_r. }
  destruct (append_at_spec ls (status_slot st) l) as (ls1 & -> & L1 & D1).
  { rewrite slot_of, Hl by done. unfold is_status in Hst. lia. }
  cbn [mbind go_bind]. destruct (IH ls1) as (ls' & E' & L' & D'); [lia|].
  exists ls'. split; [done|]. split; [done|]. intros j. rewrite D', D1, filter_cons. case_decide as Hj.
  - by rewrite <- app_assoc.
  - by rewrite app_nil_r.
Qed.

(** A listener is told of the statuses it was added for, once for each time
    they were named, or of every status when none was named, after those that
    were added before it; and changing the status of a server tells exactly
    those, in that order. *)
Theorem status_notifies s listener listen st :
  listeners_ok s -> Forall is_status listen -> is_status st ->
  exists s', addStatusListener s listener listen = Ret s' /\ listeners_ok s' /\
    told s' st ≡ₚ told s st ++
      (match listen with
       | [] => [listener]
       | _ => replicate (length (filter (fun x => x = st) listen)) listener
       end) /\
    setStatus s' st = Ret (map (fun l => (l, st)) (told s' st), set_status s' st).
Proof.
  intros Hok Hl Hst. unfold addStatusListener. set (ls := default _ _).
  assert (length ls = 5 /\ told s st = default [] (ls !! 0) ++ default [] (ls !! status_slot st)) as [H5 Ht].
  { unfold ls, told, listeners_ok in *. destruct (statusListeners s); [done|]. split; [done|].
    cbn. rewrite slot_of by done. unfold is_status in Hst.
    assert (st = 0 \/ st = 1 \/ st = 2 \/ st = 3)%Z as [->|[->|[->| ->]]] by lia; done. }
  rewrite Ht. clearbody ls.
  assert (forall ls', length ls' = 5 -> let s' := set_listeners s (Some ls') in
    setStatus s' st = Ret (map (fun l => (l, st)) (told s' st), set_status s' st)) as Hset.
  { intros ls' H. cbn zeta. unfold setStatus, told, index. cbn [statusListeners set_listeners set_status].
    destruct (lookup_lt_is_Some_2 ls' 0 ltac:(lia)) as [x Hx]. rewrite Hx.
    destruct (lookup_lt_is_Some_2 ls' (status_slot st)) as [y Hy]; [|by rewrite Hy].
    rewrite slot_of by done. unfold is_status in Hst. lia. }
  assert (status_slot st <> 0) as Hne by (rewrite slot_of by done; unfold is_status in Hst; lia).
  destruct listen as [|st0 listen].
  - destruct (append_at_spec ls 0 listener) as (ls' & -> & L' & D'); [lia|].
    eexists. split; [done|]. split; [cbn; lia|]. split; [|by apply Hset; lia].
    unfold told. cbn [set_listeners statusListeners]. rewrite !D', decide_True, decide_False by done.
    rewrite app_nil_r, <- !app_assoc. apply Permutation_app_head, Permutation_app_comm.
  - destruct (append_each ls (st0 :: listen) listener H5 Hl) as (ls' & -> & L' & D').
    eexists. split; [done|]. split; [done|]. split; [|by apply Hset].
    unfold told. cbn [set_listeners statusListeners]. rewrite !D'.
    assert (forall l, Forall is_status l ->
      filter (fun x => status_slot x = 0) l = [] /\
      filter (fun x => status_slot x = status_slot st) l = filter (fun x => x = st) l) as Hf.
    { clear - Hst. intros l. induction 1 as [|x l Hx _ [IH1 IH2]]; [done|]. rewrite !filter_cons.
      rewrite !slot_of by done. rewrite slot_of in IH2 by done. unfold is_status in *.
      split; [by rewrite decide_False by lia|]. rewrite IH2.
      repeat case_decide; try done; lia. }
    destruct (Hf _ Hl) as [-> ->]. by rewrite app_nil_r, app_assoc.
Qed.

(** Dialling over and over, when every attempt fails *)
Fixpoint attempts (h : Heap) (dial : bool -> bytes -> dialled) (n : nat) (s : Server) : go (list bytes * Server) :=
  match n with
  | 0 => Ret ([], s)
  | S n =>
    '(server, _, s) ← createConnection h dial s;
    '(l, s) ← attempts h dial n s;
    Ret (server :: l, s)
  end.

(** A bot that cannot connect goes through the servers of the network in
    turn: the attempt after [i] failures is at server [i] modulo their
    number. *)
Theorem servers_in_turn h dial n s cfg srvs ok :
  Config.Network h s.(conf) s.(networkID) = Some cfg -> NetCTX.Servers h cfg = (srvs, ok) ->
  srvs <> [] -> s.(serverIndex) <= length srvs -> (forall ssl x, dial ssl x <> None) ->
  exists l s', attempts h dial n s = Ret (l, s') /\
    l = map (fun i => nth ((s.(serverIndex) + i) mod length srvs) srvs []) (seq 0 n).
Proof.
  intros Hn Hs Hne. revert s Hn. induction n as [|n IH]; intros s Hn Hi Hd; cbn [attempts]; [by eexists _, _|].
  assert (0 < length srvs) as Hpos by (destruct srvs; [done|cbn; lia]).
  unfold createConnection at 1. rewrite Hn. cbn [deref mbind go_bind]. rewrite Hs.
  destruct (NetCTX.SSL h cfg) as [ssl okssl].
  set (i := if bool_decide (length srvs <= serverIndex s) then 0 else serverIndex s).
  assert (i < length srvs /\ i = serverIndex s mod length srvs) as [Hlt Hmod].
  { unfold i. case_bool_decide.
    - split; [done|]. assert (serverIndex s = length srvs) as -> by lia. by rewrite Nat.Div0.mod_same.
    - split; [lia|]. by rewrite Nat.mod_small by lia. }
  assert ((if bool_decide (length srvs <= serverIndex s) then set_index s 0 else s) = set_index s i) as ->.
  { unfold i. case_bool_decide; [done|by destruct s]. }
  cbn [set_index serverIndex]. destruct (lookup_lt_is_Some_2 _ _ Hlt) as [x Hx].
  unfold index. rewrite Hx. cbn [deref mbind go_bind].
  destruct (dial ssl x) as [e|] eqn:Ed; [|by destruct (Hd ssl x)].
  destruct (IH (set_index s (S i))) as (l & s' & E & Hl); [done|cbn; lia|done|].
  change (set_index (set_index s i) (S i)) with (set_index s (S i)). rewrite E. cbn [mbind go_bind].
  eexists _, _. split; [done|]. cbn [seq map]. f_equal.
  - rewrite Nat.add_0_r, <- Hmod. by apply nth_lookup_Some with (d := []) in Hx.
  - rewrite Hl, <- seq_shift, map_map. apply map_ext. intros j. cbn [set_index serverIndex]. f_equal.
    replace (S i + j) with (i + S j) by lia. by rewrite Hmod, Nat.Div0.add_mod_idemp_l.
Qed.

(** Fractions of a second are lost: what the configuration gives as half a
    second is no time at all. *)
Lemma fraction_lost q : (0 <= QArith_base.Qnum q < Zpos (QArith_base.Qden q))%Z -> seconds q = 0%Z.
Proof. intros H. unfold seconds, whole. by rewrite Z.quot_small. Qed.

(** A server that asks for TLS with a certificate that cannot be read, or holds
    none, is not dialled, and is not tried again. *)
Lemma bad_certificate {Pool} AppendCertsFromPEM os_Open tls_Dial net_Dial h s cfg cert err :
  s.(client) = None -> Config.Network h s.(conf) s.(networkID) = Some cfg ->
  (NetCTX.Servers h cfg).1 <> [] -> (NetCTX.SSL h cfg).1 = true -> NetCTX.SSLCert h cfg = (cert, true) ->
  (readCert (Pool := Pool) AppendCertsFromPEM os_Open cert).2 = Some err ->
  exists s', createIrcClient h (dial_server AppendCertsFromPEM os_Open None tls_Dial net_Dial h cfg) false s =
    Ret (Some err, false, s').
Proof.
  intros Hc Hn Hs Hssl Hcert Herr. unfold createIrcClient, createConnection. rewrite Hc, Hn. cbn [deref mbind go_bind].
  destruct (NetCTX.Servers h cfg) as [srvs ok]. destruct (NetCTX.SSL h cfg) as [ssl ok']. cbn in Hs, Hssl. subst ssl.
  set (s0 := if bool_decide _ then _ else _).
  assert (serverIndex s0 < length srvs) as Hi.
  { unfold s0. case_bool_decide; cbn; [destruct srvs; [done|cbn; lia]|lia]. }
  destruct (lookup_lt_is_Some_2 _ _ Hi) as [server Hsrv]. unfold index. rewrite Hsrv. cbn [deref mbind go_bind].
  unfold dial_server, createTlsConfig. rewrite Hcert.
  destruct (readCert _ _ cert) as [pool e]. cbn in Herr. subst e. by eexists.
Qed.

(** Between two connections, the status is not the stopped one and there is no
    client: writing is a panic. *)
Lemma write_while_connecting s pump_open c buf :
  s.(status) <> STATUS_STOPPED -> s.(client) = None -> Server_Write s pump_open (c :: buf) = Panic.
Proof. intros H1 H2. unfold Server_Write, GetStatus. by rewrite bool_decide_true, H2. Qed.

(** ** Witnesses *)

(** A configuration with one network and two servers *)
Definition server_conf : Config.Config * Heap :=
  let '(c, h) := Config.NewConfig ∅ in
  let '(n, h) := Config.NewNetwork h c (bs "net") in
  match n with
  | Some n => match NetCTX.SetServers h n [bs "one"; bs "two"] with Ret h => (c, h) | Panic => (c, h) end
  | None => (c, h)
  end.

Definition new_server (c : Config.Config) : Server := {| networkID := bs "net"; status := STATUS_STOPPED;
  statusListeners := None; conf := c; netInfo := NewNetworkInfo; client := None; state := None;
  serverIndex := 0 |}.

Definition refuse (ssl : bool) (server : bytes) : dialled := Some (bs "refused", true).

Lemma servers_in_turn_witness :
  exists s', attempts server_conf.2 refuse 5 (new_server server_conf.1)
    = Ret (map bs ["one"; "two"; "one"; "two"; "one"]%string, s').
Proof.
  destruct (Config.Network server_conf.2 server_conf.1 (bs "net")) as [cfg|] eqn:En;
    [|vm_compute in En; discriminate En].
  destruct (NetCTX.Servers server_conf.2 cfg) as [srvs ok] eqn:Es.
  assert (srvs = [bs "one"; bs "two"]) as ->.
  { vm_compute in En. injection En as <-. vm_compute in Es. by injection Es as <- _. }
  destruct (servers_in_turn server_conf.2 refuse 5 (new_server server_conf.1) cfg _ ok En Es)
    as (l & s' & H1 & H2); [done|cbn; lia|done|].
  exists s'. rewrite H1, H2. reflexivity.
Defined.

Lemma status_notifies_witness :
  exists s', addStatusListener (new_server server_conf.1) 7 [STATUS_STARTED; STATUS_STOPPED] = Ret s' /\
    setStatus s' STATUS_STARTED = Ret ([(7, STATUS_STARTED)], set_status s' STATUS_STARTED).
Proof.
  destruct (status_notifies (new_server server_conf.1) 7 [STATUS_STARTED; STATUS_STOPPED] STATUS_STARTED)
    as (s' & H1 & _ & H3 & H4); [exact I| |by split|].
  { apply Forall_cons_2; [by split|]. apply Forall_cons_2; [by split|]. apply Forall_nil_2. }
  exists s'. split; [exact H1|]. rewrite H4.
  change (told s' STATUS_STARTED ≡ₚ [7]) in H3.
  symmetry in H3. apply Permutation_length_1_inv in H3. by rewrite H3.
Defined.
