(* ===== verification/CoreHandler.v ===== *)
(** * Package bot: the core handler (bot/core_handler.go)

    The handler that answers pings, logs in when the connection is made, joins
    the configured channels, looks for a free nick, and keeps the server's
    capabilities.  Its state is the server, the count of nicks that were
    tried, the times it has waited for, and the writer.  The configuration is
    only read.  What a parser of capabilities that panics has already stored
    is not kept. *)

From S2P Require Import Prelude GoStrings Fmt Effects NetworkInfo Event Writer.
From S2P Require Import ConfigMap NetCTX Config Client UserModes State StateInv StateRun Server.

(** irc/proto.go:9-9 [NICK] *)
Definition P_NICK : bytes := bs "NICK".
(** irc/proto.go:12-12 [PING] *)
Definition P_PING : bytes := bs "PING".
(** irc/proto.go:13-13 [PONG] *)
Definition P_PONG : bytes := bs "PONG".
(** irc/proto.go:130-130 [ERR_NICKNAMEINUSE] *)
Definition ERR_NICKNAMEINUSE : bytes := bs "433".
(** irc/proto.go:150-150 [ERR_BANNEDFROMCHAN] *)
Definition ERR_BANNEDFROMCHAN : bytes := bs "474".
(** irc/proto.go:171-171 [CONNECT] *)
Definition CONNECT : bytes := bs "CONNECT".
(** irc/proto.go:172-172 [DISCONNECT] *)
Definition DISCONNECT : bytes := bs "DISCONNECT".

Section CoreHandler.
Context {CT : CaseTables}.
Context {W E : Type} (Write : bytes -> W -> W * option E).
Context (h : Heap) (untilJoinScale : Z).

(** bot/core_handler.go [coreHandler]: with the server that belongs to the
    network of the events *)
Record handler := {
  hd_server : option Server;
  hd_nickvalue : nat;
  hd_waits : list Z;
  hd_w : W;
}.
Abbreviation hM := (eff handler).

Definition with_nickvalue (n : nat) (s : handler) : handler := {| hd_server := s.(hd_server);
  hd_nickvalue := n; hd_waits := s.(hd_waits); hd_w := s.(hd_w) |}.
Definition with_wait (d : Z) (s : handler) : handler := {| hd_server := s.(hd_server);
  hd_nickvalue := s.(hd_nickvalue); hd_waits := s.(hd_waits) ++ [d]; hd_w := s.(hd_w) |}.
Definition with_server (v : Server) (s : handler) : handler := {| hd_server := Some v;
  hd_nickvalue := s.(hd_nickvalue); hd_waits := s.(hd_waits); hd_w := s.(hd_w) |}.

(** A call of the writer, whose error nobody looks at *)
Definition send_call (call : W -> go (option (W * option E))) : hM unit := fun s =>
  match call s.(hd_w) with
  | Panic => (Panicked, s)
  | Ret None => (Hangs, s)
  | Ret (Some (w, _)) => (Done tt, {| hd_server := s.(hd_server); hd_nickvalue := s.(hd_nickvalue);
                                     hd_waits := s.(hd_waits); hd_w := w |})
  end.
Definition w_Send (args : list value) : hM unit := send_call (Send Write args).
Definition w_Sendf (format : bytes) (args : list value) : hM unit := send_call (Sendf Write format args).

(** bot/core_handler.go [coreHandler.getServer]: a server that is not there is
    a nil pointer, which every user of it follows. *)
Definition getServer : hM Server := s ← reads hd_server; pure_go (deref s).
Definition server_config (s : Server) (netID : bytes) : hM NetCTX.NetCTX :=
  pure_go (deref (Config.Network h s.(Server.conf) netID)).

(** [<-time.After(c.untilJoinScale * time.Duration(joindelay))] *)
Definition wait_join (joindelay : Z) : hM unit :=
  changes (with_wait (wrap64 (untilJoinScale * wrap64 joindelay))).

(** bot/core_handler.go:64-68 [coreHandler.HandleRaw]: joining one channel *)
Definition join_channel (ch : CfgChannel) : hM unit :=
  match ch.(ch_Password) with
  | [] => w_Sendf (bs "JOIN %s") [VString ch.(ch_Name)]
  | pass => w_Sendf (bs "JOIN %s %s") [VString ch.(ch_Name); VString pass]
  end.

(** bot/core_handler.go:36-70 [coreHandler.HandleRaw]: the connection is made *)
Definition on_connect (ev : Event) : hM unit :=
  server ← getServer;
  changes (with_nickvalue 0) ;;
  cfg ← server_config server ev.(NetworkID);
  let nick := (NetCTX.Nick h cfg).1 in
  let uname := (NetCTX.Username h cfg).1 in
  let realname := (NetCTX.Realname h cfg).1 in
  let noautojoin := (NetCTX.NoAutoJoin h cfg).1 in
  let joindelay := (NetCTX.JoinDelay h cfg).1 in
  (let '(password, ok) := NetCTX.Password h cfg in
   if ok : bool then w_Send [VString (bs "PASS :"); VString password] else mret tt) ;;
  w_Send [VString (bs "NICK :"); VString nick] ;;
  w_Sendf (bs "USER %s 0 * :%s") [VString uname; VString realname] ;;
  if noautojoin : bool then mret tt else
  let '(chs, ok) := NetCTX.Channels h cfg in
  if ok : bool then wait_join joindelay ;; Effects.each join_channel chs else mret tt.

(** bot/core_handler.go:96-98 [coreHandler.HandleRaw]: the bot's nick, empty
    without a state *)
Definition current_nick (server : Server) : hM bytes :=
  match server.(Server.state) with
  | None => mret []
  | Some st => nick ← pure_go (Self_Nick st); mret (ToLower nick)
  end.

(** bot/core_handler.go:71-117 [coreHandler.HandleRaw]: someone was kicked, or
    the bot is banned *)
Definition on_kick (ev : Event) : hM unit :=
  server ← getServer;
  cfg ← server_config server ev.(NetworkID);
  let noautojoin := (NetCTX.NoAutoJoin h cfg).1 in
  let joindelay := (NetCTX.JoinDelay h cfg).1 in
  if noautojoin : bool then mret tt else
  let '(chs, ok) := NetCTX.Channels h cfg in
  if negb ok then mret tt else
  a0 ← pure_go (index ev.(Args) 0);
  a1 ← pure_go (index ev.(Args) 1);
  let '(nick, channel) := if bool_decide (ev.(Name) = KICK) then (ToLower a1, ToLower a0)
                          else (ToLower a0, ToLower a1) in
  curNick ← current_nick server;
  if bool_decide (curNick = []) || bool_decide (nick <> curNick) then mret tt else
  Effects.each (fun ch =>
    if bool_decide (ToLower ch.(ch_Name) <> channel) then mret tt else
    (if bool_decide (ev.(Name) = ERR_BANNEDFROMCHAN) then wait_join joindelay else mret tt) ;;
    join_channel ch) chs.

(** bot/core_handler.go:128-136 [coreHandler.HandleRaw]: the nick to try next *)
Definition next_nick (nick altnick : bytes) (nickvalue : nat) : bytes :=
  if bool_decide (nickvalue = 0) && bool_decide (altnick <> []) then altnick
  else nick ++ replicate nickvalue "_"%char.

(** bot/core_handler.go:119-137 [coreHandler.HandleRaw]: the nick is taken *)
Definition on_nick_in_use (ev : Event) : hM unit :=
  server ← getServer;
  cfg ← server_config server ev.(NetworkID);
  let nick := (NetCTX.Nick h cfg).1 in
  let altnick := (NetCTX.Altnick h cfg).1 in
  nickvalue ← reads hd_nickvalue;
  changes (with_nickvalue (S nickvalue)) ;;
  w_Send [VString (bs "NICK :" ++ next_nick nick altnick nickvalue)].

(** bot/core_handler.go:139-148 [coreHandler.HandleRaw]: someone joined *)
Definition on_join (ev : Event) : hM unit :=
  server ← getServer;
  match server.(Server.state) with
  | None => mret tt
  | Some st =>
    u ← pure_go (user_at st st.(self_user));
    if bool_decide (ev.(Sender) = Host u) then
      a0 ← pure_go (index ev.(Args) 0);
      w_Send [VString (bs "WHO :"); VString a0] ;;
      w_Send [VString (bs "MODE :"); VString a0]
    else mret tt
  end.

(** bot/core_handler.go:150-158 [coreHandler.HandleRaw]: what the server says
    about itself *)
Definition on_capabilities (parse : NetworkInfo -> list bytes -> go NetworkInfo) (ev : Event) : hM unit :=
  server ← getServer;
  ni ← pure_go (parse server.(netInfo) ev.(Args));
  changes (with_server (set_netInfo server ni)) ;;
  '(_, server) ← pure_go (rehashNetworkInfo (set_netInfo server ni));
  changes (with_server server).

(** bot/core_handler.go [coreHandler.HandleRaw] *)
Definition HandleRaw (ev : Event) : hM unit :=
  let named n := bool_decide (ev.(Name) = n) in
  if named P_PING then a0 ← pure_go (index ev.(Args) 0); w_Send [VString (P_PONG ++ bs " :" ++ a0)] else
  if named CONNECT then on_connect ev else
  if named KICK || named ERR_BANNEDFROMCHAN then on_kick ev else
  if named ERR_NICKNAMEINUSE then on_nick_in_use ev else
  if named JOIN then on_join ev else
  if named RPL_MYINFO then on_capabilities ParseMyInfo ev else
  if named RPL_ISUPPORT then on_capabilities ParseISupport ev else mret tt.

(** ** What is written *)

(** The lines were handed to the writer, one after the other. *)
Definition said (lines : list bytes) (s : handler) : handler := {| hd_server := s.(hd_server);
  hd_nickvalue := s.(hd_nickvalue); hd_waits := s.(hd_waits);
  hd_w := foldl (fun w l => (Write l w).1) s.(hd_w) lines |}.

Lemma said_said l1 l2 s : said l2 (said l1 s) = said (l1 ++ l2) s.
Proof. unfold said. cbn. by rewrite foldl_app. Qed.
Lemma said_nil s : said [] s = s.
Proof. by destruct s. Qed.
Lemma w_Send_said args s : w_Send args s = (Done tt, said [Sprint args] s).
Proof. unfold w_Send, send_call, Send, write1, said. cbn [foldl]. by destruct (Write _ _). Qed.
Lemma w_Sendf_said f args s : w_Sendf f args s = (Done tt, said [Sprintf f args] s).
Proof. unfold w_Sendf, send_call, Sendf, write1, said. cbn [foldl]. by destruct (Write _ _). Qed.

Definition join_line (ch : CfgChannel) : bytes :=
  bs "JOIN " ++ ch.(ch_Name) ++ match ch.(ch_Password) with [] => [] | pass => bs " " ++ pass end.

Lemma join_channel_said ch s : join_channel ch s = (Done tt, said [join_line ch] s).
Proof.
  unfold join_channel, join_line. destruct (ch_Password ch) as [|c pass]; rewrite w_Sendf_said, Sprintf_args.
  - change (bs "JOIN %s") with (bs "JOIN " ++ bs "%s"). rewrite format_text by decide_now.
    change (bs "%s") with ("%"%char :: "s"%char :: []). by rewrite format_s.
  - change (bs "JOIN %s %s") with (bs "JOIN " ++ "%"%char :: "s"%char :: bs " " ++ bs "%s").
    rewrite format_text by decide_now. rewrite format_s, format_text by decide_now.
    change (bs "%s") with ("%"%char :: "s"%char :: []). rewrite format_s. cbn [format_from extra_args].
    by rewrite app_nil_r.
Qed.

Lemma join_channels_said chs s : Effects.each join_channel chs s = (Done tt, said (map join_line chs) s).
Proof.
  revert s. induction chs as [|ch chs IH]; intros s; cbn [Effects.each map]; [by rewrite said_nil|].
  erewrite bind_run by apply join_channel_said. by rewrite IH, said_said.
Qed.

(** ** Properties *)

Definition waited (n : nat) (d : Z) (s : handler) : handler := {| hd_server := s.(hd_server);
  hd_nickvalue := s.(hd_nickvalue); hd_waits := s.(hd_waits) ++ replicate n d; hd_w := s.(hd_w) |}.

Definition join_wait (cfg : NetCTX.NetCTX) : Z := wrap64 (untilJoinScale * wrap64 (NetCTX.JoinDelay h cfg).1).

(** The channels the bot is to be in *)
Definition joins (cfg : NetCTX.NetCTX) : list CfgChannel :=
  if (NetCTX.NoAutoJoin h cfg).1 then [] else
  if (NetCTX.Channels h cfg).2 then (NetCTX.Channels h cfg).1 else [].

Definition login_lines (cfg : NetCTX.NetCTX) : list bytes :=
  (if (NetCTX.Password h cfg).2 then [bs "PASS :" ++ (NetCTX.Password h cfg).1] else []) ++
  [bs "NICK :" ++ (NetCTX.Nick h cfg).1;
   bs "USER " ++ (NetCTX.Username h cfg).1 ++ bs " 0 * :" ++ (NetCTX.Realname h cfg).1].

Lemma user_line a b : Sprintf (bs "USER %s 0 * :%s") [VString a; VString b] = bs "USER " ++ a ++ bs " 0 * :" ++ b.
Proof.
  rewrite Sprintf_args.
  change (bs "USER %s 0 * :%s") with (bs "USER " ++ "%"%char :: "s"%char :: bs " 0 * :" ++ "%"%char :: "s"%char :: []).
  rewrite format_text by decide_now. rewrite format_s, format_text by decide_now.
  rewrite format_s. cbn [format_from extra_args]. by rewrite app_nil_r.
Qed.

Section handled.
Variables (srv : Server) (cfg : NetCTX.NetCTX) (ev : Event).
Hypothesis Hcfg : Config.Network h srv.(Server.conf) ev.(NetworkID) = Some cfg.

Lemma getServer_run s : s.(hd_server) = Some srv -> getServer s = (Done srv, s).
Proof. intros H. unfold getServer, reads, pure_go, mbind, eff_bind. by rewrite H. Qed.

Lemma server_config_run s : server_config srv ev.(NetworkID) s = (Done cfg, s).
Proof. unfold server_config, pure_go. by rewrite Hcfg. Qed.

Lemma on_connect_said s : s.(hd_server) = Some srv ->
  on_connect ev s = (Done tt,
    let s := said (login_lines cfg) (with_nickvalue 0 s) in
    if (NetCTX.NoAutoJoin h cfg).1 then s else
    if (NetCTX.Channels h cfg).2 then said (map join_line (NetCTX.Channels h cfg).1) (with_wait (join_wait cfg) s)
    else s).
Proof.
  intros H. unfold on_connect. erewrite bind_run by by apply getServer_run.
  unfold changes at 1. erewrite bind_run by done. erewrite bind_run by apply server_config_run.
  unfold login_lines. destruct (NetCTX.Password h cfg) as [pass ok].
  set (s0 := with_nickvalue 0 s). set (s1 := said (if ok then [bs "PASS :" ++ pass] else []) s0).
  rewrite (bind_run _ _ s0 tt s1).
  2: { unfold s1. destruct ok; [by rewrite w_Send_said|by rewrite said_nil]. }
  erewrite bind_run by apply w_Send_said. erewrite bind_run by apply w_Sendf_said.
  unfold s1. rewrite user_line, !said_said. cbn [fst snd Sprint show is_string orb app].
  destruct (NetCTX.NoAutoJoin h cfg).1; [done|].
  destruct (NetCTX.Channels h cfg) as [chs []]; cbn [fst snd]; [|done].
  unfold wait_join, changes. erewrite bind_run by done. apply join_channels_said.
Qed.

Lemma current_nick_run s : is_Some srv.(Server.state) ->
  forall me, (st ← deref srv.(Server.state); Self_Nick st) = Ret me -> current_nick srv s = (Done (ToLower me), s).
Proof.
  intros [st Hst] me Hme. unfold current_nick. rewrite Hst in *. cbn [deref mbind go_bind] in Hme.
  unfold pure_go, mbind, eff_bind. by rewrite Hme.
Qed.

(** The channels of the configuration that go by a name *)
Definition named_channels (channel : bytes) : list CfgChannel :=
  filter (fun ch => ToLower ch.(ch_Name) = ToLower channel) (joins cfg).

Lemma rejoin_each chs (banned : bool) channel s :
  Effects.each (fun ch =>
    if bool_decide (ToLower ch.(ch_Name) <> ToLower channel) then mret tt else
    (if banned then wait_join (NetCTX.JoinDelay h cfg).1 else mret tt) ;; join_channel ch) chs s =
  let l := filter (fun ch => ToLower ch.(ch_Name) = ToLower channel) chs in
  (Done tt, waited (if banned then length l else 0) (join_wait cfg) (said (map join_line l) s)).
Proof.
  revert s. induction chs as [|ch chs IH]; intros s; cbn [Effects.each].
  { cbn. rewrite said_nil. destruct banned; unfold waited; cbn; rewrite app_nil_r; by destruct s. }
  rewrite filter_cons. destruct (decide (ToLower ch.(ch_Name) = ToLower channel)) as [Hch|Hch];
    [rewrite (bool_decide_false (_ <> _)) by auto|rewrite bool_decide_true by done; cbv iota;
     by erewrite bind_run by done].
  - set (s1 := if banned then with_wait (join_wait cfg) s else s).
    rewrite (bind_run _ _ s tt (said [join_line ch] s1)).
    2: { rewrite (bind_run _ _ s tt s1); [apply join_channel_said|]. unfold s1. by destruct banned. }
    rewrite IH. cbn [length map]. unfold waited, said, s1. destruct banned; cbn; [|done].
    by rewrite <- app_assoc.
Qed.

Lemma on_kick_said s who channel me :
  s.(hd_server) = Some srv -> (st ← deref srv.(Server.state); Self_Nick st) = Ret me ->
  (if bool_decide (ev.(Name) = KICK) then ev.(Args) !! 0 = Some channel /\ ev.(Args) !! 1 = Some who
   else ev.(Args) !! 0 = Some who /\ ev.(Args) !! 1 = Some channel) ->
  let l := if bool_decide (ToLower who = ToLower me /\ me <> []) then named_channels channel else [] in
  on_kick ev s = (Done tt,
    waited (if bool_decide (ev.(Name) = ERR_BANNEDFROMCHAN) then length l else 0) (join_wait cfg)
      (said (map join_line l) s)).
Proof.
  intros H Hme Hargs l. assert (forall s d b, waited (if b : bool then length (@nil CfgChannel) else 0) d (said (map join_line []) s) = s) as Hnone.
  { intros s0 d b. cbn [map]. rewrite said_nil. destruct b; unfold waited; cbn; rewrite app_nil_r; by destruct s0. }
  unfold on_kick. erewrite bind_run by by apply getServer_run. erewrite bind_run by apply server_config_run.
  assert ((NetCTX.NoAutoJoin h cfg).1 = true \/ (NetCTX.Channels h cfg).2 = false -> l = []) as Hl.
  { intros Hoff. assert (joins cfg = []) as Hj.
    { unfold joins. by destruct Hoff as [->| ->]; [|destruct (NetCTX.NoAutoJoin h cfg).1]. }
    unfold l, named_channels. rewrite Hj. by destruct (bool_decide (_ /\ _)). }
  destruct (NetCTX.NoAutoJoin h cfg).1 eqn:En; [by rewrite Hl, Hnone by auto|].
  destruct (NetCTX.Channels h cfg) as [chs ok] eqn:Ec. destruct ok; cbn [negb]; [|rewrite Hl by auto].
  2: { rewrite Hnone. done. }
  set (two := if bool_decide (ev.(Name) = KICK) then (channel, who) else (who, channel)).
  assert (index (Args ev) 0 = Ret two.1 /\ index (Args ev) 1 = Ret two.2) as [E0 E1].
  { unfold two. rewrite !index_Ret. by destruct (bool_decide _), Hargs. }
  erewrite bind_run by apply pure_go_run, E0. erewrite bind_run by apply pure_go_run, E1.
  assert ((if bool_decide (ev.(Name) = KICK) then (ToLower two.2, ToLower two.1) else (ToLower two.1, ToLower two.2))
    = (ToLower who, ToLower channel)) as ->.
  { unfold two. by destruct (bool_decide _). }
  erewrite bind_run.
  2: { apply current_nick_run; [|exact Hme]. destruct (Server.state srv); [done|discriminate Hme]. }
  assert (bool_decide (ToLower me = []) = bool_decide (me = [])) as ->.
  { apply bool_decide_ext, ToLower_nil. }
  unfold l, named_channels, joins. rewrite En, Ec. cbn [snd fst].
  destruct (decide (me = [])) as [->|Hne].
  { rewrite bool_decide_true by done. cbn [orb]. rewrite (bool_decide_false (_ /\ _)) by naive_solver. by rewrite Hnone. }
  rewrite bool_decide_false by done. cbn [orb]. destruct (decide (ToLower who = ToLower me)) as [Ew|Ew].
  - rewrite bool_decide_false by naive_solver. rewrite (bool_decide_true (_ /\ _)) by done.
    apply (rejoin_each chs (bool_decide (ev.(Name) = ERR_BANNEDFROMCHAN))).
  - rewrite bool_decide_true by done. rewrite (bool_decide_false (_ /\ _)) by naive_solver. by rewrite Hnone.
Qed.

Lemma on_nick_in_use_said s : s.(hd_server) = Some srv ->
  on_nick_in_use ev s = (Done tt,
    said [bs "NICK :" ++ next_nick (NetCTX.Nick h cfg).1 (NetCTX.Altnick h cfg).1 s.(hd_nickvalue)]
      (with_nickvalue (S s.(hd_nickvalue)) s)).
Proof.
  intros H. unfold on_nick_in_use. erewrite bind_run by by apply getServer_run.
  erewrite bind_run by apply server_config_run. unfold reads, changes. erewrite bind_run by done.
  erewrite bind_run by done. by rewrite w_Send_said.
Qed.
End handled.

(** The handler is told the same thing [n] times. *)
Fixpoint told_times (n : nat) (ev : Event) : hM unit :=
  match n with 0 => mret tt | S n => HandleRaw ev ;; told_times n ev end.

Definition nick_line (x : bytes) : bytes := bs "NICK :" ++ x.

Lemma refused_times srv cfg ev n s :
  Config.Network h srv.(Server.conf) ev.(NetworkID) = Some cfg ->
  ev.(Name) = ERR_NICKNAMEINUSE -> s.(hd_server) = Some srv ->
  told_times n ev s = (Done tt,
    said (map (fun i => nick_line (next_nick (NetCTX.Nick h cfg).1 (NetCTX.Altnick h cfg).1 i)) (seq s.(hd_nickvalue) n))
      (with_nickvalue (s.(hd_nickvalue) + n) s)).
Proof.
  intros Hcfg Hname. revert s. induction n as [|n IH]; intros s H; cbn [told_times seq map].
  { rewrite said_nil, Nat.add_0_r. by destruct s. }
  assert (HandleRaw ev = on_nick_in_use ev) as -> by (unfold HandleRaw; by rewrite Hname).
  erewrite bind_run by by apply (on_nick_in_use_said srv cfg). rewrite IH by done. cbn.
  rewrite <- Nat.add_succ_comm. f_equal.
Qed.

(** An unending supply of names runs out of a list. *)
Lemma first_free (f : nat -> bytes) (taken : list bytes) k :
  (forall i j, k <= i -> k <= j -> f i = f j -> i = j) ->
  exists n, n <= k + length taken /\ f n ∉ taken /\ forall i, i < n -> f i ∈ taken.
Proof.
  intros Hinj. assert (exists n, n <= k + length taken /\ f n ∉ taken) as [N [HN Hfree]].
  { destruct (decide (Exists (fun n => f n ∉ taken) (seq k (S (length taken))))) as [He|He].
    - apply Exists_exists in He as (n & Hn & Hf). apply elem_of_seq in Hn. exists n. split; [lia|done].
    - exfalso. apply not_Exists_Forall in He; [|intros x; apply _]. rewrite Forall_forall in He.
      assert (length (map f (seq k (S (length taken)))) <= length taken); [|rewrite length_map, length_seq in *; lia].
      apply submseteq_length, NoDup_submseteq.
      + apply NoDup_fmap_2_strong; [|apply NoDup_seq]. intros x y Hx%elem_of_seq Hy%elem_of_seq. apply Hinj; lia.
      + intros x Hx. apply list_elem_of_fmap in Hx as (n & -> & Hn). apply dec_stable. by apply He. }
  revert Hfree HN. induction (lt_wf N) as [N _ IH]. intros Hfree HN.
  destruct (decide (Exists (fun i => f i ∉ taken) (seq 0 N))) as [He|He].
  - apply Exists_exists in He as (m & Hm%elem_of_seq & Hf). apply (IH m); [lia|done|lia].
  - exists N. split; [done|]. split; [done|]. intros i Hi. apply not_Exists_Forall in He; [|intros x; apply _].
    rewrite Forall_forall in He. apply dec_stable, He, elem_of_seq. lia.
Qed.

(** C34. The bot finds itself a nick: whatever nicks the server says are in
    use, it is the turn of a free one after no more refusals than there are
    nicks in use and one more, and all those that were tried before were in use. *)
Theorem free_nick_found srv cfg ev taken s :
  Config.Network h srv.(Server.conf) ev.(NetworkID) = Some cfg ->
  ev.(Name) = ERR_NICKNAMEINUSE -> s.(hd_server) = Some srv -> s.(hd_nickvalue) = 0 ->
  exists nicks free, length nicks <= S (length taken) /\ free ∉ taken /\ nicks ⊆ taken /\
    told_times (S (length nicks)) ev s =
      (Done tt, said (map nick_line (nicks ++ [free])) (with_nickvalue (S (length nicks)) s)).
Proof.
  intros Hcfg Hname Hs H0. set (f := next_nick (NetCTX.Nick h cfg).1 (NetCTX.Altnick h cfg).1).
  destruct (first_free f taken 1) as (n & Hn & Hfree & Htaken).
  { intros i j Hi Hj. unfold f, next_nick. rewrite !(bool_decide_false (_ = 0)) by lia. cbn [andb].
    intros Hrep%app_inv_head. apply (f_equal length) in Hrep. by rewrite !length_replicate in Hrep. }
  exists (map f (seq 0 n)), (f n). rewrite length_map, length_seq. split; [lia|]. split; [done|]. split.
  - intros x Hx. apply list_elem_of_fmap in Hx as (i & -> & Hi%elem_of_seq). apply Htaken. lia.
  - rewrite (refused_times srv cfg), H0 by done. f_equal. f_equal.
    rewrite seq_S, !map_app, map_map. done.
Qed.

(** When the connection is made the bot gives its password, nick and user
    name, and after the delay joins every configured channel, unless it is
    told not to; the count of nicks that were tried starts again. *)
Theorem connect_logs_in srv cfg ev s :
  Config.Network h srv.(Server.conf) ev.(NetworkID) = Some cfg -> ev.(Name) = CONNECT ->
  s.(hd_server) = Some srv ->
  HandleRaw ev s = (Done tt,
    said (login_lines cfg ++ map join_line (joins cfg))
      (waited (if (NetCTX.NoAutoJoin h cfg).1 then 0 else if (NetCTX.Channels h cfg).2 then 1 else 0) (join_wait cfg)
        (with_nickvalue 0 s))).
Proof.
  intros Hcfg Hname Hs. assert (HandleRaw ev = on_connect ev) as -> by (unfold HandleRaw; by rewrite Hname).
  rewrite (on_connect_said srv cfg) by done. f_equal. cbn zeta. unfold joins.
  assert (forall d, waited 0 d (with_nickvalue 0 s) = with_nickvalue 0 s) as Hw.
  { intros d. unfold waited. cbn. by rewrite app_nil_r. }
  destruct (NetCTX.NoAutoJoin h cfg).1; [by rewrite Hw, app_nil_r|].
  destruct (NetCTX.Channels h cfg) as [chs []]; cbn [fst snd]; [|by rewrite Hw, app_nil_r].
  by rewrite <- said_said.
Qed.

(** A channel of the configuration is joined again, at once when the bot
    itself was kicked from it and after the delay when it is banned there;
    nothing is written for the others, or when somebody else is meant. *)
Theorem rejoins srv cfg ev s who channel me :
  Config.Network h srv.(Server.conf) ev.(NetworkID) = Some cfg ->
  s.(hd_server) = Some srv -> (st ← deref srv.(Server.state); Self_Nick st) = Ret me ->
  (ev.(Name) = KICK /\ ev.(Args) = [channel; who] \/ ev.(Name) = ERR_BANNEDFROMCHAN /\ ev.(Args) = [who; channel]) ->
  let l := if bool_decide (ToLower who = ToLower me /\ me <> []) then named_channels cfg channel else [] in
  HandleRaw ev s = (Done tt,
    said (map join_line l)
      (waited (if bool_decide (ev.(Name) = ERR_BANNEDFROMCHAN) then length l else 0) (join_wait cfg) s)).
Proof.
  intros Hcfg Hs Hme Hev l. assert (HandleRaw ev = on_kick ev) as ->.
  { unfold HandleRaw. by destruct Hev as [[-> _]|[-> _]]. }
  rewrite (on_kick_said srv cfg ev Hcfg s who channel me) by (done || by destruct Hev as [[-> ->]|[-> ->]]).
  done.
Qed.
End CoreHandler.

(** ** Witnesses *)

(** A configuration with one network, its nicks and two channels *)
Definition demo_conf : Config.Config * Heap :=
  let '(c, h) := Config.NewConfig ∅ in
  let '(n, h) := Config.NewNetwork h c (bs "net") in
  match (n ← deref n; h ← NetCTX.SetNick h n (bs "me"); h ← NetCTX.SetAltnick h n (bs "me2");
         h ← NetCTX.SetUsername h n (bs "u"); h ← NetCTX.SetRealname h n (bs "Real Name");
         NetCTX.SetChannels h n [
           {| ch_Name := bs "#chan"; ch_Password := []; ch_Prefix := [] |};
           {| ch_Name := bs "#key"; ch_Password := bs "pw"; ch_Prefix := [] |}]) with
  | Ret h => (c, h)
  | Panic => (c, h)
  end.

Definition demo_server : Server := {| Server.networkID := bs "net"; Server.status := STATUS_STARTED;
  Server.statusListeners := None; Server.conf := demo_conf.1; Server.netInfo := demo_info;
  Server.client := None; Server.state := Some demo_welcomed; Server.serverIndex := 0 |}.

Definition demo_handler : handler (W := list bytes) := {| hd_server := Some demo_server;
  hd_nickvalue := 0; hd_waits := []; hd_w := [] |}.

Definition demo_write (l : bytes) (w : list bytes) : list bytes * option unit := (w ++ [l], None).

Definition demo_handle : Event -> eff (handler (W := list bytes)) unit :=
  @HandleRaw ascii_tables _ _ demo_write demo_conf.2 1000000000.

Lemma demo_network : exists cfg, Config.Network demo_conf.2 demo_conf.1 (bs "net") = Some cfg /\
  (NetCTX.Nick demo_conf.2 cfg).1 = bs "me" /\ (NetCTX.Altnick demo_conf.2 cfg).1 = bs "me2".
Proof. eexists. split; [vm_compute; reflexivity|]. by split; vm_compute. Qed.

Lemma free_nick_found_witness :
  exists n nicks, (@told_times ascii_tables _ _ demo_write demo_conf.2 1000000000 n
      (demo_event ERR_NICKNAMEINUSE (bs "irc.test.net") []) demo_handler).1 = Done tt /\
    nicks ⊆ [bs "me2"; bs "me_"] /\ n = S (length nicks) /\ n <= 4.
Proof.
  destruct demo_network as (cfg & Hcfg & _).
  destruct (free_nick_found (CT := ascii_tables) demo_write demo_conf.2 1000000000 demo_server cfg
    (demo_event ERR_NICKNAMEINUSE (bs "irc.test.net") []) [bs "me2"; bs "me_"] demo_handler)
    as (nicks & free & H1 & _ & H3 & H4); [exact Hcfg|reflexivity|reflexivity|reflexivity|].
  exists (S (length nicks)), nicks. split; [by rewrite H4|]. split; [done|]. split; [done|]. cbn in H1. lia.
Defined.

Lemma connect_logs_in_witness :
  demo_handle (demo_event CONNECT (bs "net") []) demo_handler =
  (Done tt, {| hd_server := Some demo_server; hd_nickvalue := 0; hd_waits := [5000000000]%Z;
     hd_w := map bs ["NICK :me"; "USER u 0 * :Real Name"; "JOIN #chan"; "JOIN #key pw"]%string |}).
Proof.
  destruct (Config.Network demo_conf.2 demo_conf.1 (bs "net")) as [cfg|] eqn:Hcfg; [|vm_compute in Hcfg; discriminate Hcfg].
  unfold demo_handle.
  rewrite (connect_logs_in (CT := ascii_tables) demo_write demo_conf.2 1000000000 demo_server cfg
    (demo_event CONNECT (bs "net") []) demo_handler Hcfg eq_refl eq_refl).
  vm_compute in Hcfg. injection Hcfg as <-. vm_compute. reflexivity.
Defined.

Lemma rejoins_witness :
  demo_handle (demo_event KICK (bs "op!o@p") [bs "#KEY"; bs "Me"]) demo_handler =
  (Done tt, {| hd_server := Some demo_server; hd_nickvalue := 0; hd_waits := []; hd_w := [bs "JOIN #key pw"] |}).
Proof.
  destruct (Config.Network demo_conf.2 demo_conf.1 (bs "net")) as [cfg|] eqn:Hcfg; [|vm_compute in Hcfg; discriminate Hcfg].
  unfold demo_handle.
  rewrite (rejoins (CT := ascii_tables) demo_write demo_conf.2 1000000000 demo_server cfg
    (demo_event KICK (bs "op!o@p") [bs "#KEY"; bs "Me"]) demo_handler (bs "Me") (bs "#KEY") (bs "me") Hcfg eq_refl).
  - vm_compute in Hcfg. injection Hcfg as <-. vm_compute. reflexivity.
  - vm_compute. reflexivity.
  - left. by split.
Defined.

(** Without an alternative nick the first thing to try is the nick that was
    just refused. *)
Lemma refused_nick_again nick : next_nick nick [] 0 = nick.
Proof. apply app_nil_r. Qed.
