(* ===== verification/Lifecycle.v ===== *)
(** * Package bot: starting and stopping servers (bot/bot.go)

    Three kinds of goroutines share the bot's channels: [monitorServers], one
    [startServer] for every start, and the callers of [stopServer].  The
    channels have no buffer, so a send and its receive are one step that two
    goroutines take together; a [select] reads the channel it sends on when it
    is entered and not when it is left.  [next] is the step of a label, for
    any interleaving; what the network, the configuration and the timers give
    is part of the label. *)

From S2P Require Import Prelude GoStrings Fmt Server.

(** bot/bot.go:54-54 [errServerKilled] *)
Definition errServerKilled : bytes := bs "bot: Server killed".
(** bot/bot.go:57-57 [errServerKilledReconn] *)
Definition errServerKilledReconn : bytes := bs "bot: Server reconnection aborted".

(** ** The goroutines *)

(** The three [select]s that can be killed: in [createIrcClient], in
    [dispatch], and the pause before a reconnection *)
Inductive sel := Dial | Loop | Pause.

(** Where a goroutine of [startServer] or [stopServer] is *)
Inductive phase :=
  | StartAsks                          (** sends to [serverControl] *)
  | StartWaits                         (** receives from [serverStart] *)
  | Enter (s : sel)
  | At (s : sel) (c : nat)             (** in the [select], with its channel *)
  | Leaving (err : option bytes)       (** behind the loop *)
  | Reports (err : option bytes)       (** sends to [serverEnd] *)
  | Finishing
  | Returned
  | StopAsks
  | StopWaits
  | Stopped (stopped : bool).

(** Where [monitorServers] is *)
Inductive monitor :=
  | Idle                               (** in its [select] *)
  | SaysStart (n : nat) (isStarted : bool)
  | Kills (n : nat) (c : nat)          (** receives from [killable] *)
  | SaysStop (isStarted : bool)
  | Tells (err : option bytes)         (** sends to [botEnd] *)
  | Ended.

#[export] Instance sel_eq_dec : EqDecision sel.
Proof. solve_decision. Defined.
#[export] Instance phase_eq_dec : EqDecision phase.
Proof. solve_decision. Defined.
#[export] Instance monitor_eq_dec : EqDecision monitor.
Proof. solve_decision. Defined.

(** What the goroutines share of a server; [connected] says that its client
    is not nil. *)
Record srv := { name : bytes; started : bool; killable : nat; connected : bool; status : Status }.

(** bot/bot.go:86-91 [Bot]: the servers by their pointers, the goroutines with
    the server each is for, the monitor with its variable [servers], which
    channels are closed and how many there are, what was sent to [botEnd], and
    whether a goroutine has panicked, which ends the program. *)
Record bot := {
  srvs : gmap nat srv;
  threads : gmap nat (nat * phase);
  mon : monitor;
  servers : Z;
  closed : gset nat;
  chans : nat;
  told : list (option bytes);
  crashed : bool;
}.

Definition no_servers : bot := {| srvs := ∅; threads := ∅; mon := Idle; servers := 0; closed := ∅;
  chans := 0; told := []; crashed := false |}.

Definition set_srv (n : nat) (s : srv) (b : bot) : bot := {| srvs := <[n := s]> b.(srvs);
  threads := b.(threads); mon := b.(mon); servers := b.(servers); closed := b.(closed);
  chans := b.(chans); told := b.(told); crashed := b.(crashed) |}.
Definition set_thread (t n : nat) (p : phase) (b : bot) : bot := {| srvs := b.(srvs);
  threads := <[t := (n, p)]> b.(threads); mon := b.(mon); servers := b.(servers); closed := b.(closed);
  chans := b.(chans); told := b.(told); crashed := b.(crashed) |}.
Definition set_mon (m : monitor) (b : bot) : bot := {| srvs := b.(srvs); threads := b.(threads);
  mon := m; servers := b.(servers); closed := b.(closed); chans := b.(chans); told := b.(told);
  crashed := b.(crashed) |}.
Definition set_servers (z : Z) (b : bot) : bot := {| srvs := b.(srvs); threads := b.(threads);
  mon := b.(mon); servers := z; closed := b.(closed); chans := b.(chans); told := b.(told);
  crashed := b.(crashed) |}.
Definition set_closed (c : nat) (b : bot) : bot := {| srvs := b.(srvs); threads := b.(threads);
  mon := b.(mon); servers := b.(servers); closed := {[c]} ∪ b.(closed); chans := b.(chans);
  told := b.(told); crashed := b.(crashed) |}.
Definition add_told (err : option bytes) (b : bot) : bot := {| srvs := b.(srvs); threads := b.(threads);
  mon := b.(mon); servers := b.(servers); closed := b.(closed); chans := b.(chans);
  told := b.(told) ++ [err]; crashed := b.(crashed) |}.
(** [make(chan int)] *)
Definition make_chan (b : bot) : nat * bot := (b.(chans), {| srvs := b.(srvs); threads := b.(threads);
  mon := b.(mon); servers := b.(servers); closed := b.(closed); chans := S b.(chans);
  told := b.(told); crashed := b.(crashed) |}).
Definition crash (b : bot) : bot := {| srvs := b.(srvs); threads := b.(threads);
  mon := b.(mon); servers := b.(servers); closed := b.(closed); chans := b.(chans);
  told := b.(told); crashed := true |}.

Definition set_started (v : bool) (s : srv) : srv := {| name := s.(name); started := v;
  killable := s.(killable); connected := s.(connected); status := s.(status) |}.
Definition set_killable (c : nat) (s : srv) : srv := {| name := s.(name); started := s.(started);
  killable := c; connected := s.(connected); status := s.(status) |}.
(** Changing the status and the client *)
Definition set_client_status (v : bool) (st : Status) (s : srv) : srv := {| name := s.(name);
  started := s.(started); killable := s.(killable); connected := v; status := st |}.

(** ** Steps *)

Inductive label :=
  | Create (name : bytes)               (** a server is made *)
  | Spawn (start : bool) (n : nat)      (** [go b.startServer(srv, ...)] or a call of [stopServer] *)
  | Control (t : nat)                   (** the monitor receives from [serverControl] *)
  | Answer (t : nat)                    (** and answers *)
  | Eval (t : nat)                      (** a [select] is entered *)
  | Connected (t : nat)
  | Failed (t : nat) (err : bytes) (temporary noReconn : bool)
  | Message (t : nat)                   (** a message was read and dispatched *)
  | Disconnected (t : nat) (noReconn : bool)
  | Elapsed (t : nat)                   (** the pause is over *)
  | Kill (t : nat)                      (** the monitor receives what a [select] sends on [killable] *)
  | KillClosed                          (** or finds [killable] closed *)
  | SendClosed (t : nat)                (** a [select] sends on a closed channel *)
  | CloseKill (t : nat)                 (** [srv.Close(); close(srv.killable)] *)
  | Report (t : nat)                    (** the monitor receives from [serverEnd] *)
  | Told                                (** and [botEnd] is read *)
  | Finish (t : nat).

(** bot/bot.go:173-176 [Bot.monitorServers]: the end of an iteration *)
Definition again (b : bot) : bot := set_mon (if bool_decide (b.(servers) = 0)%Z then Ended else Idle) b.

(** bot/bot.go:151-166 [Bot.monitorServers]: an operation on a server is
    received, up to the answer; a start replaces the channel before anything
    is looked at. *)
Definition control (t n : nat) (start : bool) (b : bot) : option bot :=
  s ← b.(srvs) !! n;
  Some (
    if start then
      let '(c, b) := make_chan b in
      set_mon (SaysStart n s.(started)) (set_thread t n StartWaits (set_srv n (set_killable c s) b))
    else if s.(started) then
      set_mon (Kills n s.(killable)) (set_thread t n StopWaits (set_srv n (set_started false s) b))
    else set_mon (SaysStop false) (set_thread t n StopWaits b)).

(** bot/bot.go:155-159 [Bot.monitorServers]: the answer to a start, and
    [Bot.startServer] that receives it *)
Definition answer_start (t m n : nat) (isStarted : bool) (b : bot) : option bot :=
  s ← b.(srvs) !! n;
  Some (again (
    if isStarted then set_thread t m Returned b
    else set_servers (b.(servers) + 1) (set_srv n (set_started true s) (set_thread t m (Enter Dial) b)))).

(** bot/server.go:130-150 [Server.createIrcClient] and the other two: a
    [select] reads the channel; dialling is refused when there is a client. *)
Definition enter (t n : nat) (x : sel) (s : srv) (b : bot) : bot :=
  match x with
  | Dial =>
    let b := set_srv n (set_client_status s.(connected) STATUS_CONNECTING s) b in
    if s.(connected) then set_thread t n (Leaving (Some (Sprintf errFmtAlreadyConnected [VString s.(name)]))) b
    else set_thread t n (At Dial s.(killable)) b
  | x => set_thread t n (At x s.(killable)) b
  end.

(** bot/bot.go:226-241 [Bot.startServer]: what comes behind a connection
    that failed or ended *)
Definition lost (t n : nat) (err : option bytes) (disconnect noReconn : bool) (s : srv) (b : bot) : bot :=
  if negb disconnect || noReconn then set_thread t n (Leaving err) b
  else set_srv n (set_client_status false STATUS_RECONNECTING s) (set_thread t n (Enter Pause) b).

(** The error a [select] that is killed ends with *)
Definition killed_error (x : sel) : bytes :=
  match x with Dial => errServerKilledConn | Loop => errServerKilled | Pause => errServerKilledReconn end.

(** bot/bot.go:243-246 [Bot.startServer]: closing; a channel that is closed
    already is a panic. *)
Definition close_kill (t n : nat) (err : option bytes) (s : srv) (b : bot) : bot :=
  if bool_decide (s.(killable) ∈ b.(closed)) then crash b
  else set_closed s.(killable) (set_srv n (set_client_status false s.(status) s) (set_thread t n (Reports err) b)).

(** bot/bot.go:195-247 [Bot.startServer]: the steps of a goroutine of its own *)
Definition own_step (l : label) (t n : nat) (p : phase) (s : srv) (b : bot) : option bot :=
  match l, p with
  | Eval _, Enter x => Some (enter t n x s b)
  | Connected _, At Dial _ =>
    Some (set_srv n (set_client_status true STATUS_STARTED s) (set_thread t n (Enter Loop) b))
  | Failed _ err temporary noReconn, At Dial _ => Some (lost t n (Some err) temporary noReconn s b)
  | Message _, At Loop _ => Some (set_thread t n (Enter Loop) b)
  | Disconnected _ noReconn, At Loop _ => Some (lost t n None true noReconn s b)
  | Elapsed _, At Pause _ => Some (set_thread t n (Enter Dial) b)
  | SendClosed _, At _ c => if bool_decide (c ∈ b.(closed)) then Some (crash b) else None
  | CloseKill _, Leaving err => Some (close_kill t n err s b)
  | Finish _, Finishing =>
    Some (set_srv n (set_client_status s.(connected) STATUS_STOPPED s) (set_thread t n Returned b))
  | _, _ => None
  end.

(** bot/bot.go:147-178 [Bot.monitorServers]: the steps a goroutine takes with
    the monitor *)
Definition met_step (l : label) (t n : nat) (p : phase) (s : srv) (b : bot) : option bot :=
  match l, p, b.(mon) with
  | Control _, StartAsks, Idle => control t n true b
  | Control _, StopAsks, Idle => control t n false b
  | Answer _, StartWaits, SaysStart m isStarted => answer_start t n m isStarted b
  | Answer _, StopWaits, SaysStop isStarted => Some (again (set_thread t n (Stopped isStarted) b))
  | Kill _, At x c, Kills _ c' =>
    if bool_decide (c = c' /\ c ∉ b.(closed))
    then Some (set_mon (SaysStop true) (set_thread t n (Leaving (Some (killed_error x))) b)) else None
  | Report _, Reports err, Idle =>
    Some (set_mon (Tells err) (set_srv n (set_started false s) (set_thread t n Finishing b)))
  | _, _, _ => None
  end.

(** The goroutine a step is of *)
Definition label_thread (l : label) : option nat :=
  match l with
  | Create _ | Spawn _ _ | KillClosed | Told => None
  | Control t | Answer t | Eval t | Connected t | Failed t _ _ _ | Message t | Disconnected t _
  | Elapsed t | Kill t | SendClosed t | CloseKill t | Report t | Finish t => Some t
  end.
Definition is_met (l : label) : bool :=
  match l with Control _ | Answer _ | Kill _ | Report _ => true | _ => false end.

Definition next (b : bot) (l : label) : option bot :=
  if b.(crashed) then None else
  match label_thread l with
  | Some t =>
    '(n, p) ← b.(threads) !! t;
    s ← b.(srvs) !! n;
    (if is_met l then met_step else own_step) l t n p s b
  | None =>
    match l, b.(mon) with
    | Create name, _ =>
      let '(c, b) := make_chan b in
      Some (set_srv (fresh (dom b.(srvs))) {| name := name; started := false; killable := c;
              connected := false; status := STATUS_STOPPED |} b)
    | Spawn start n, _ =>
      _ ← b.(srvs) !! n;
      Some (set_thread (fresh (dom b.(threads))) n (if start then StartAsks else StopAsks) b)
    | KillClosed, Kills _ c => if bool_decide (c ∈ b.(closed)) then Some (set_mon (SaysStop false) b) else None
    | Told, Tells err => Some (again (set_servers (b.(servers) - 1) (add_told err b)))
    | _, _ => None
    end
  end.

Fixpoint steps (b : bot) (ls : list label) : option bot :=
  match ls with [] => Some b | l :: ls => b ← next b l; steps b ls end.

(** ** What can go wrong *)

(** A bot with one server that is connected and in its loop *)
Definition up : list label :=
  [Create (bs "net"); Spawn true 0; Control 0; Answer 0; Eval 0; Connected 0; Eval 0].

(** A second start of a server that runs is refused, but it replaces the
    channel the server can be killed by: the server's [select] waits with the
    old one, and a stop with the new one, so both wait, and the monitor with
    them, until a message arrives. *)
Example restart_hides_kill :
  exists b, steps no_servers (up ++ [Spawn true 0; Control 1; Answer 1; Spawn false 0; Control 2]) = Some b /\
    b.(mon) = Kills 0 2 /\ b.(threads) !! 0 = Some (0, At Loop 1) /\
    next b (Kill 0) = None /\ next b KillClosed = None.
Proof. eexists. split; [vm_compute; reflexivity|]. by vm_compute. Qed.

(** A start while a stop is being carried out is accepted; the goroutine that
    ends then closes the channel of the one that starts, which panics. *)
Example restart_while_stopping_panics :
  exists b, steps no_servers (up ++
      [Spawn false 0; Control 1; Kill 0; Answer 1; Spawn true 0; Control 2; Answer 2; CloseKill 0;
       Eval 2; SendClosed 2]) = Some b /\ b.(crashed) = true.
Proof. eexists. split; [vm_compute; reflexivity|]. done. Qed.

(** Stopping a server before any was started ends the monitor, and with it
    every later start. *)
Example stop_first_ends :
  exists b, steps no_servers [Create (bs "net"); Spawn false 0; Control 0; Answer 0; Spawn true 0] = Some b /\
    b.(mon) = Ended /\ next b (Control 1) = None.
Proof. eexists. split; [vm_compute; reflexivity|]. by vm_compute. Qed.

(** ** Every run *)

(** A goroutine of [startServer] between its acceptance and its report *)
Definition live (p : phase) : bool :=
  match p with Enter _ | At _ _ | Leaving _ | Reports _ => true | _ => false end.
Definition is_live (x : nat * (nat * phase)) : Prop := live x.2.2 = true.
#[export] Instance is_live_dec x : Decision (is_live x).
Proof. apply _. Defined.

Definition live_count (m : gmap nat (nat * phase)) : Z := Z.of_nat (size (filter is_live m)).
Definition unit_of (v : bool) : Z := if v then 1%Z else 0%Z.

Lemma live_count_insert m t n p :
  live_count (<[t := (n, p)]> m) =
    (live_count m - unit_of (match m !! t with Some (_, q) => live q | None => false end) + unit_of (live p))%Z.
Proof.
  unfold live_count. rewrite <- insert_delete_eq, map_filter_insert.
  assert (filter is_live (delete t m) = delete t (filter is_live m)) as Hd by apply map_filter_delete.
  assert (Z.of_nat (size (filter is_live (delete t m))) =
    Z.of_nat (size (filter is_live m)) - unit_of (match m !! t with Some (_, q) => live q | None => false end))%Z as Hold.
  { rewrite Hd, map_size_delete. destruct (m !! t) as [[n0 q]|] eqn:Hm.
    - destruct (live q) eqn:Hq.
      + assert (filter is_live m !! t = Some (n0, q)) as Hf by by apply map_lookup_filter_Some.
        rewrite Hf. assert (size (filter is_live m) <> 0); [|cbn; lia].
        intros E%map_size_empty_inv. by rewrite E, lookup_empty in Hf.
      + assert (filter is_live m !! t = None) as ->; [|cbn; lia].
        apply map_lookup_filter_None. right. intros x Hx. rewrite Hm in Hx. injection Hx as <-.
        unfold is_live. cbn. by rewrite Hq.
    - assert (filter is_live m !! t = None) as ->; [|cbn; lia]. apply map_lookup_filter_None. by left. }
  case_decide as Hp; unfold is_live in Hp; cbn in Hp.
  - rewrite Hp, map_size_insert_None, Nat2Z.inj_succ, Hold; [cbn; lia|].
    by rewrite Hd, lookup_delete_eq.
  - rewrite delete_delete_eq. destruct (live p); [done|]. rewrite Hold. cbn. lia.
Qed.


(** What a goroutine that moves does to those that wait for an answer: [w] is
    the phase of waiting, [x] and [x'] say whether the monitor owes one. *)
Definition one_waits (w : phase) (x : bool) (m : gmap nat (nat * phase)) : Prop :=
  if x then exists t n, m !! t = Some (n, w) /\ forall t' n', m !! t' = Some (n', w) -> t' = t
  else forall t n, m !! t <> Some (n, w).

Lemma one_waits_insert w x x' m t n p :
  one_waits w x m ->
  (if bool_decide (p = w) then x = false /\ x' = true
   else if bool_decide (snd <$> m !! t = Some w) then x' = false else x' = x) ->
  one_waits w x' (<[t := (n, p)]> m).
Proof.
  intros Hm. case_bool_decide as Hp.
  { intros [-> ->]. subst. exists t, n. rewrite lookup_insert_eq. split; [done|]. intros t' n' Ht.
    destruct (decide (t' = t)); [done|]. rewrite lookup_insert_ne in Ht by done. by destruct (Hm t' n'). }
  case_bool_decide as Ho; intros Hx; subst.
  - destruct x; cbn in *.
    + destruct Hm as (t0 & n0 & H0 & Huniq). intros t' n' Ht. destruct (m !! t) as [[n1 p1]|] eqn:E; [|done].
      injection Ho as ->. apply Huniq in E as Et. subst t0.
      destruct (decide (t' = t)) as [->|Hne]; [rewrite lookup_insert_eq in Ht; congruence|].
      rewrite lookup_insert_ne in Ht by done. by apply Huniq in Ht.
    + intros t' n' Ht. destruct (decide (t' = t)) as [->|Hne]; [rewrite lookup_insert_eq in Ht; congruence|].
      rewrite lookup_insert_ne in Ht by done. by apply Hm in Ht.
  - destruct x; cbn in *.
    + destruct Hm as (t0 & n0 & H0 & Huniq). exists t0, n0.
      rewrite lookup_insert_ne by (intros ->; by rewrite H0 in Ho). split; [done|]. intros t' n' Ht.
      destruct (decide (t' = t)) as [->|Hne]; [rewrite lookup_insert_eq in Ht; congruence|].
      rewrite lookup_insert_ne in Ht by done. by apply Huniq in Ht.
    + intros t' n' Ht. destruct (decide (t' = t)) as [->|Hne]; [rewrite lookup_insert_eq in Ht; congruence|].
      rewrite lookup_insert_ne in Ht by done. by apply Hm in Ht.
Qed.

(** The answer the monitor owes, by where it is *)
Definition owes_start (m : monitor) : option nat := match m with SaysStart n _ => Some n | _ => None end.
Definition owes_stop (m : monitor) : bool := match m with Kills _ _ | SaysStop _ => true | _ => false end.
Definition is_telling (m : monitor) : bool := match m with Tells _ => true | _ => false end.

Definition waits_start (p : phase) : bool := match p with StartWaits => true | _ => false end.
Definition waits_stop (p : phase) : bool := match p with StopWaits => true | _ => false end.
(** A fact of the phase a goroutine was in, if there was one *)
Definition old (f : phase -> bool) (b : bot) (t : nat) : bool :=
  match b.(threads) !! t with Some (_, q) => f q | None => false end.

Record run_inv (b : bot) : Prop := {
  inv_known : forall t n p, b.(threads) !! t = Some (n, p) -> is_Some (b.(srvs) !! n);
  inv_count : b.(servers) = (live_count b.(threads) + unit_of (is_telling b.(mon)))%Z;
  inv_start : one_waits StartWaits (bool_decide (is_Some (owes_start b.(mon)))) b.(threads);
  inv_asked : forall t n, b.(threads) !! t = Some (n, StartWaits) -> owes_start b.(mon) = Some n;
  inv_stop : one_waits StopWaits (owes_stop b.(mon)) b.(threads);
  inv_ended : b.(mon) = Ended -> b.(servers) = 0%Z;
}.

Lemma no_servers_inv : run_inv no_servers.
Proof. by split; cbn. Qed.

Lemma run_inv_move b b' t n p :
  run_inv b -> b'.(threads) = <[t := (n, p)]> b.(threads) ->
  (forall m, is_Some (b.(srvs) !! m) -> is_Some (b'.(srvs) !! m)) -> is_Some (b.(srvs) !! n) ->
  (b'.(servers) - unit_of (is_telling b'.(mon)) =
     b.(servers) - unit_of (is_telling b.(mon)) -
     unit_of (old live b t) + unit_of (live p))%Z ->
  (if waits_start p then owes_start b.(mon) = None /\ owes_start b'.(mon) = Some n
   else if old waits_start b t then owes_start b'.(mon) = None
   else owes_start b'.(mon) = owes_start b.(mon)) ->
  (if waits_stop p then owes_stop b.(mon) = false /\ owes_stop b'.(mon) = true
   else if old waits_stop b t then owes_stop b'.(mon) = false
   else owes_stop b'.(mon) = owes_stop b.(mon)) ->
  (b'.(mon) = Ended -> b'.(servers) = 0%Z) ->
  run_inv b'.
Proof.
  intros [Hk Hc Hs Ha Ht He] Hth Hsrv Hn Hcount Hstart Hstop Hend.
  assert (waits_start p = bool_decide (p = StartWaits)) as Ep by by destruct p.
  assert (old waits_start b t = bool_decide (snd <$> b.(threads) !! t = Some StartWaits)) as Eo.
  { unfold old. destruct (threads b !! t) as [[? []]|]; done. }
  rewrite Ep, Eo in Hstart. split; rewrite ?Hth.
  - intros t' n' p' H. apply Hsrv. destruct (decide (t' = t)) as [->|Hne].
    + rewrite lookup_insert_eq in H. by injection H as <- <-.
    + rewrite lookup_insert_ne in H by done. by eapply Hk.
  - rewrite live_count_insert. unfold old in Hcount. lia.
  - eapply one_waits_insert; [exact Hs|]. destruct (bool_decide (p = StartWaits)).
    + by destruct Hstart as [-> ->].
    + destruct (bool_decide (snd <$> _ = _)); by rewrite Hstart.
  - intros t' n' H. destruct (decide (t' = t)) as [->|Hne].
    + rewrite lookup_insert_eq in H. injection H as <- ->. by destruct Hstart as [_ ->].
    + rewrite lookup_insert_ne in H by done. apply Ha in H as Hm. destruct (bool_decide (p = StartWaits)).
      { destruct Hstart as [Hnone _]. congruence. }
      destruct (bool_decide (snd <$> _ = _)) eqn:Ho; [apply bool_decide_eq_true in Ho|congruence].
      exfalso. rewrite Hm in Hs. rewrite bool_decide_true in Hs by done. destruct Hs as (t0 & n0 & _ & Huniq).
      destruct (b.(threads) !! t) as [[n1 p1]|] eqn:E; [|done]. injection Ho as ->.
      apply Huniq in E, H. congruence.
  - eapply one_waits_insert; [exact Ht|].
    assert (waits_stop p = bool_decide (p = StopWaits)) as <- by by destruct p.
    assert (old waits_stop b t = bool_decide (snd <$> b.(threads) !! t = Some StopWaits)) as <-; [|done].
    unfold old. destruct (threads b !! t) as [[? []]|]; done.
  - done.
Qed.

Lemma insert_known (m : gmap nat srv) n s k : is_Some (m !! k) -> is_Some (<[n := s]> m !! k).
Proof. intros H. rewrite lookup_insert_is_Some'. by right. Qed.

#[local] Arguments Sprintf : simpl never.
#[local] Arguments killed_error : simpl never.

(** The conditions of [run_inv_move], for a step whose labels and phases are
    known *)
Ltac moved Hinv Ht Hm :=
  eapply (run_inv_move _ _ _ _ _ Hinv);
  [reflexivity | intros k Hk; repeat apply insert_known; exact Hk | eauto
  | unfold old; cbn; rewrite ?Ht, ?Hm; cbn; try lia ..];
  try done.

Lemma run_inv_crash b : run_inv b -> run_inv (crash b).
Proof. by intros []. Qed.

Lemma own_step_inv l t n p s b b' :
  run_inv b -> b.(threads) !! t = Some (n, p) -> b.(srvs) !! n = Some s ->
  own_step l t n p s b = Some b' -> run_inv b'.
Proof.
  intros Hinv Ht Hs Hl. pose proof (inv_ended _ Hinv) as He.
  destruct l, p; try done; cbn in Hl.
  - injection Hl as <-. destruct s0; cbn; [destruct (connected s)|..]; moved Hinv Ht Ht.
  - destruct s0; [|done..]. injection Hl as <-. moved Hinv Ht Ht.
  - destruct s0; [|done..]. injection Hl as <-. unfold lost. destruct (_ || _); moved Hinv Ht Ht.
  - destruct s0; try done. injection Hl as <-. moved Hinv Ht Ht.
  - destruct s0; try done. injection Hl as <-. destruct noReconn; cbn; moved Hinv Ht Ht.
  - destruct s0; try done. injection Hl as <-. moved Hinv Ht Ht.
  - case_bool_decide; [|done]. injection Hl as <-. by apply run_inv_crash.
  - injection Hl as <-. unfold close_kill. case_bool_decide; [by apply run_inv_crash|]. moved Hinv Ht Ht.
  - injection Hl as <-. moved Hinv Ht Ht.
Qed.

Lemma met_step_inv l t n p s b b' :
  run_inv b -> b.(threads) !! t = Some (n, p) -> b.(srvs) !! n = Some s ->
  met_step l t n p s b = Some b' -> run_inv b'.
Proof.
  intros Hinv Ht Hs Hl.
  destruct l, p; try done; cbn in Hl; destruct (mon b) eqn:Hm; try done.
  - unfold control in Hl. rewrite Hs in Hl. injection Hl as <-. moved Hinv Ht Hm.
  - unfold control in Hl. rewrite Hs in Hl. injection Hl as <-. destruct (started s); moved Hinv Ht Hm.
  - unfold answer_start in Hl. destruct (srvs b !! n0) as [s0|] eqn:Hs0; [|done]. cbn in Hl. injection Hl as <-.
    unfold again. destruct isStarted; cbn; case_bool_decide; moved Hinv Ht Hm.
  - injection Hl as <-. unfold again. cbn. case_bool_decide; moved Hinv Ht Hm.
  - case_bool_decide; [|done]. injection Hl as <-. moved Hinv Ht Hm.
  - injection Hl as <-. moved Hinv Ht Hm.
Qed.

Lemma next_inv b l b' : run_inv b -> next b l = Some b' -> run_inv b'.
Proof.
  intros Hinv Hl. unfold next in Hl. destruct (crashed b); [done|].
  destruct (label_thread l) as [t|] eqn:Hlt.
  - destruct (threads b !! t) as [[n p]|] eqn:Ht; [|done]. cbn in Hl.
    destruct (srvs b !! n) as [s|] eqn:Hs; [|done]. cbn in Hl.
    destruct (is_met l); [by eapply met_step_inv|by eapply own_step_inv].
  - destruct l; try done; cbn in Hl.
    + injection Hl as <-. destruct Hinv as [Hk ? ? ? ? ?]. split; try done. cbn.
      intros t n p Ht. apply insert_known. by eapply Hk.
    + destruct (srvs b !! n) as [s|] eqn:Hs; [|done]. cbn in Hl. injection Hl as <-.
      assert (threads b !! fresh (dom (threads b)) = None) as Ht by apply not_elem_of_dom, is_fresh.
      pose proof (inv_ended _ Hinv). destruct start; moved Hinv Ht Ht.
    + destruct (mon b) eqn:Hm; try done. case_bool_decide; [|done]. injection Hl as <-.
      destruct Hinv as [Hk Hc Hst Ha Hsp He]. rewrite Hm in *. split; cbn; done.
    + destruct (mon b) eqn:Hm; try done. injection Hl as <-.
      destruct Hinv as [Hk Hc Hst Ha Hsp He]. rewrite Hm in *. unfold again. cbn in *.
      case_bool_decide; split; cbn; try done; lia.
Qed.

Inductive reachable : bot -> Prop :=
  | reach_new : reachable no_servers
  | reach_next b l b' : reachable b -> next b l = Some b' -> reachable b'.

Lemma reachable_inv b : reachable b -> run_inv b.
Proof. induction 1; [apply no_servers_inv|by eapply next_inv]. Qed.

Lemma steps_reachable b ls b' : reachable b -> steps b ls = Some b' -> reachable b'.
Proof.
  revert b. induction ls as [|l ls IH]; intros b Hb Hl; cbn in Hl; [by injection Hl as <-|].
  destruct (next b l) eqn:E; [|done]. eapply IH; [|exact Hl]. by eapply reach_next.
Qed.

Lemma live_counted m t n p : m !! t = Some (n, p) -> live p = true -> (0 < live_count m)%Z.
Proof.
  intros Ht Hp. unfold live_count. assert (size (filter is_live m) <> 0); [|lia].
  intros E%map_size_empty_inv. assert (filter is_live m !! t = Some (n, p)) as Hf by by apply map_lookup_filter_Some.
  by rewrite E, lookup_empty in Hf.
Qed.

(** C26. However the goroutines of the bot interleave: when the channel with the
    reasons of servers' deaths is closed no server runs any more; until then the
    monitor counts the servers that run; and when a goroutine waits for an
    answer, it is the only one, and the monitor is about to give the answer,
    for the server that it asked about. *)
Theorem monitor_counts b :
  reachable b ->
  (b.(mon) = Ended -> forall t n p, b.(threads) !! t = Some (n, p) -> live p = false) /\
  b.(servers) = (live_count b.(threads) + unit_of (is_telling b.(mon)))%Z /\
  (forall t n, b.(threads) !! t = Some (n, StartWaits) ->
     (exists v, b.(mon) = SaysStart n v) /\ forall t' n', b.(threads) !! t' = Some (n', StartWaits) -> t' = t) /\
  (forall t n, b.(threads) !! t = Some (n, StopWaits) ->
     owes_stop b.(mon) = true /\ forall t' n', b.(threads) !! t' = Some (n', StopWaits) -> t' = t).
Proof.
  intros Hr. destruct (reachable_inv b Hr) as [Hk Hc Hs Ha Ht He]. split; [|split; [done|split]].
  - intros Hm t n p Hp. destruct (live p) eqn:E; [|done]. pose proof (live_counted _ _ _ _ Hp E).
    rewrite (He Hm), Hm in Hc. cbn in Hc. lia.
  - intros t n Hw. apply Ha in Hw as Ho. split; [destruct (mon b); naive_solver|].
    rewrite Ho in Hs. rewrite bool_decide_true in Hs by done. destruct Hs as (t0 & n0 & _ & Hu).
    intros t' n' Hw'. apply Hu in Hw, Hw'. congruence.
  - intros t n Hw. destruct (owes_stop (mon b)); [|by destruct (Ht t n)]. split; [done|].
    destruct Ht as (t0 & n0 & _ & Hu). intros t' n' Hw'. apply Hu in Hw, Hw'. congruence.
Qed.

(** ** Runs that start a server only when it is not running *)

(** A goroutine of [startServer] that has not returned *)
Definition active (p : phase) : bool :=
  match p with StartAsks | StartWaits | Finishing => true | p => live p end.

(** A start of a server comes when no other goroutine of [startServer] for it
    is left. *)
Definition polite (b : bot) (l : label) : Prop :=
  match l with
  | Spawn true n => forall t p, b.(threads) !! t = Some (n, p) -> active p = false
  | _ => True
  end.

Inductive reachable_politely : bot -> Prop :=
  | polite_new : reachable_politely no_servers
  | polite_next b l b' : reachable_politely b -> polite b l -> next b l = Some b' -> reachable_politely b'.

(** What a goroutine knows of its server *)
Definition phase_ok (cl : gset nat) (p : phase) (s : srv) : Prop :=
  match p with
  | StartAsks | Finishing => s.(started) = false /\ s.(connected) = false
  | StartWaits => s.(killable) ∉ cl /\ s.(started) = false /\ s.(connected) = false
  | Enter x =>
    s.(killable) ∉ cl /\ s.(connected) = bool_decide (x = Loop) /\ (x = Loop -> s.(status) = STATUS_STARTED)
  | At x c =>
    s.(killable) ∉ cl /\ s.(connected) = bool_decide (x = Loop) /\ (x = Loop -> s.(status) = STATUS_STARTED) /\
    c = s.(killable)
  | Leaving _ => s.(killable) ∉ cl
  | Reports _ => s.(killable) ∈ cl /\ s.(connected) = false
  | Returned | StopAsks | StopWaits | Stopped _ => True
  end.

(** A server has one goroutine, whose view of it is right, or none and is at
    rest. *)
Definition server_ok (b : bot) (n : nat) (s : srv) : Prop :=
  (exists t p, b.(threads) !! t = Some (n, p) /\ active p = true /\ phase_ok b.(closed) p s /\
     forall t' p', b.(threads) !! t' = Some (n, p') -> active p' = true -> t' = t) \/
  ((forall t p, b.(threads) !! t = Some (n, p) -> active p = false) /\ s.(started) = false /\ s.(connected) = false).

Record polite_inv (b : bot) : Prop := {
  pol_run : run_inv b;
  pol_servers : forall n s, b.(srvs) !! n = Some s -> server_ok b n s;
  pol_chans : forall n s, b.(srvs) !! n = Some s -> s.(killable) < b.(chans);
  pol_distinct : forall n n' s s', b.(srvs) !! n = Some s -> b.(srvs) !! n' = Some s' ->
    s.(killable) = s'.(killable) -> n = n';
  pol_closed : forall c, c ∈ b.(closed) -> c < b.(chans);
  pol_start : forall n v, b.(mon) = SaysStart n v -> v = false;
  pol_kill : forall n c, b.(mon) = Kills n c -> exists s t p, b.(srvs) !! n = Some s /\ c = s.(killable) /\
    b.(threads) !! t = Some (n, p) /\ live p = true;
  pol_calm : b.(crashed) = false;
}.

Lemma no_servers_polite : polite_inv no_servers.
Proof. by split. Qed.

(** The goroutine of a server that has one *)
Lemma server_thread b n s t p :
  server_ok b n s -> b.(threads) !! t = Some (n, p) -> active p = true ->
  phase_ok b.(closed) p s /\ forall t' p', b.(threads) !! t' = Some (n, p') -> active p' = true -> t' = t.
Proof.
  intros [(t0 & p0 & H0 & Ha0 & Hok & Hu)|(Hnone & _)] Ht Hp; [|by rewrite (Hnone _ _ Ht) in Hp].
  apply (Hu _ _ Ht) in Hp as <-. rewrite Ht in H0. by injection H0 as ->.
Qed.

(** The server of a goroutine that moves, and another one *)
Lemma server_ok_moved b b' t n p p' s s' :
  server_ok b n s -> b.(threads) !! t = Some (n, p) -> active p = true ->
  b'.(threads) = <[t := (n, p')]> b.(threads) ->
  (if active p' then phase_ok b'.(closed) p' s' else s'.(started) = false /\ s'.(connected) = false) ->
  server_ok b' n s'.
Proof.
  intros Hok Ht Hp Hth Hp'. destruct (server_thread _ _ _ _ _ Hok Ht Hp) as [_ Hu]. unfold server_ok. rewrite Hth.
  destruct (active p') eqn:E; [left|right].
  - exists t, p'. rewrite lookup_insert_eq. split; [done|]. split; [done|]. split; [done|]. intros t' q Hq Ha.
    destruct (decide (t' = t)); [done|]. rewrite lookup_insert_ne in Hq by done. by eapply Hu.
  - split; [|done]. intros t' q Hq. destruct (decide (t' = t)) as [->|Hne].
    + rewrite lookup_insert_eq in Hq. by injection Hq as <-.
    + rewrite lookup_insert_ne in Hq by done. destruct (active q) eqn:Ha; [|done]. by apply (Hu _ _ Hq) in Ha.
Qed.

Lemma phase_ok_closed cl cl' p s :
  (s.(killable) ∈ cl' <-> s.(killable) ∈ cl) -> phase_ok cl p s -> phase_ok cl' p s.
Proof. intros H. destruct p; cbn; rewrite ?H; done. Qed.

Lemma server_ok_other b b' m s t p n :
  server_ok b m s -> b'.(threads) = <[t := (n, p)]> b.(threads) -> n <> m ->
  (forall q, b.(threads) !! t = Some (m, q) -> active q = false) ->
  (s.(killable) ∈ b'.(closed) <-> s.(killable) ∈ b.(closed)) -> server_ok b' m s.
Proof.
  intros Hok Hth Hne Hold Hc. unfold server_ok. rewrite Hth.
  assert (forall t' q, <[t:=(n, p)]> (threads b) !! t' = Some (m, q) -> threads b !! t' = Some (m, q)) as Hback.
  { intros t' q Hq. destruct (decide (t' = t)) as [->|Ht].
    - rewrite lookup_insert_eq in Hq. congruence.
    - by rewrite lookup_insert_ne in Hq. }
  destruct Hok as [(t0 & p0 & H0 & Ha & Hok & Hu)|(Hnone & Hs)]; [left|right].
  - exists t0, p0. split.
    + rewrite lookup_insert_ne; [done|]. intros ->. by rewrite (Hold _ H0) in Ha.
    + split; [done|]. split; [by eapply phase_ok_closed|]. intros t' q Hq. by eapply Hu, Hback.
  - split; [|done]. intros t' q Hq. by eapply Hnone, Hback.
Qed.

(** The channels of the servers stay apart. *)
Definition chans_ok (b : bot) : Prop :=
  (forall n s, b.(srvs) !! n = Some s -> s.(killable) < b.(chans)) /\
  (forall n n' s s', b.(srvs) !! n = Some s -> b.(srvs) !! n' = Some s' ->
     s.(killable) = s'.(killable) -> n = n') /\
  (forall c, c ∈ b.(closed) -> c < b.(chans)).

(** One server, and maybe its channel, is another. *)
Definition srv_moved (b b' : bot) (n : nat) (s' : srv) : Prop :=
  (forall m, b'.(srvs) !! m = if decide (m = n) then Some s' else b.(srvs) !! m).

Lemma chans_ok_moved b b' n s s' :
  chans_ok b -> b.(srvs) !! n = Some s -> srv_moved b b' n s' ->
  (s'.(killable) = s.(killable) /\ b'.(chans) = b.(chans) \/ s'.(killable) = b.(chans) /\ b'.(chans) = S b.(chans)) ->
  (b'.(closed) = b.(closed) \/ b'.(closed) = {[s.(killable)]} ∪ b.(closed)) -> chans_ok b'.
Proof.
  intros (H1 & H2 & H3) Hs Hm Hk Hc. unfold srv_moved in Hm. split; [|split].
  - intros m x Hx. rewrite Hm in Hx. case_decide.
    + injection Hx as <-. pose proof (H1 _ _ Hs). lia.
    + pose proof (H1 _ _ Hx). lia.
  - intros m m' x x' Hx Hx' E. rewrite Hm in Hx, Hx'.
    destruct (decide (m = n)) as [->|], (decide (m' = n)) as [->|]; [done|..].
    + injection Hx as <-. destruct Hk as [[Hk _]|[Hk _]].
      * symmetry. eapply H2; [exact Hx'|exact Hs|congruence].
      * pose proof (H1 _ _ Hx'). lia.
    + injection Hx' as <-. destruct Hk as [[Hk _]|[Hk _]].
      * eapply H2; [exact Hx|exact Hs|congruence].
      * pose proof (H1 _ _ Hx). lia.
    + by eapply H2.
  - intros c Hc'. pose proof (H1 _ _ Hs). destruct Hc as [Hc|Hc]; rewrite Hc in Hc'.
    + apply H3 in Hc'. lia.
    + apply elem_of_union in Hc' as [->%elem_of_singleton|Hc'%H3]; lia.
Qed.

Lemma pol_chans_ok b : polite_inv b -> chans_ok b.
Proof. intros [? ? ? ? ? ? ? ?]. done. Qed.

(** A goroutine of a server moves. *)
Lemma polite_moved b b' t n p p' s s' :
  polite_inv b -> run_inv b' -> b.(threads) !! t = Some (n, p) -> active p = true -> b.(srvs) !! n = Some s ->
  b'.(threads) = <[t := (n, p')]> b.(threads) -> srv_moved b b' n s' ->
  (if active p' then phase_ok b'.(closed) p' s' else s'.(started) = false /\ s'.(connected) = false) ->
  (s'.(killable) = s.(killable) /\ b'.(chans) = b.(chans) \/ s'.(killable) = b.(chans) /\ b'.(chans) = S b.(chans)) ->
  (b'.(closed) = b.(closed) \/ b'.(closed) = {[s.(killable)]} ∪ b.(closed)) ->
  (forall n v, b'.(mon) = SaysStart n v -> v = false) ->
  (b'.(mon) = b.(mon) /\ live p = live p' /\ s'.(killable) = s.(killable) \/ forall n c, b'.(mon) <> Kills n c) ->
  b'.(crashed) = false -> polite_inv b'.
Proof.
  intros Hinv Hrun Ht Hp Hs Hth Hsrv Hok Hk Hc Hst Hkill Hcr. pose proof (pol_chans_ok _ Hinv) as Hch.
  destruct (chans_ok_moved b b' n s s' Hch Hs Hsrv Hk Hc) as (H1 & H2 & H3).
  pose proof Hsrv as Hsrv'. unfold srv_moved in Hsrv'. split; try done.
  - intros m x Hx. rewrite Hsrv' in Hx. case_decide as Hm.
    + subst. injection Hx as <-. eapply server_ok_moved; [by eapply pol_servers|exact Ht|exact Hp|exact Hth|exact Hok].
    + eapply server_ok_other; [by eapply pol_servers|exact Hth|done| |].
      * intros q Hq. rewrite Ht in Hq. by injection Hq as <- <-.
      * destruct Hc as [->| ->]; [done|]. rewrite elem_of_union, elem_of_singleton.
        split; [|by right]. intros [E|E]; [|done]. destruct Hch as (_ & Hd & _). by destruct Hm; eapply Hd.
  - intros m c Hm. destruct Hkill as [(Hmon & Hl & Hsk)|Hno]; [|by destruct (Hno _ _ Hm)].
    rewrite Hmon in Hm. destruct (pol_kill _ Hinv _ _ Hm) as (x & t0 & q & Hx & -> & Ht0 & Hq).
    assert (exists t1 q1, b'.(threads) !! t1 = Some (m, q1) /\ live q1 = true) as (t1 & q1 & Ht1 & Hq1).
    { rewrite Hth. destruct (decide (t0 = t)) as [->|Hne].
      - rewrite Ht in Ht0. injection Ht0 as -> ->. exists t, p'. rewrite lookup_insert_eq. split; [done|congruence].
      - exists t0, q. by rewrite lookup_insert_ne. }
    destruct (decide (m = n)) as [->|Hne].
    + exists s', t1, q1. rewrite Hsrv', decide_True by done. split; [done|]. rewrite Hs in Hx. injection Hx as <-. done.
    + exists x, t1, q1. by rewrite Hsrv', decide_False.
Qed.

(** The goroutine that waits for an answer to a stop moves, or a new one
    comes. *)
Lemma polite_stop_moved b b' t n p s' :
  polite_inv b -> run_inv b' -> (forall m q, b.(threads) !! t = Some (m, q) -> active q = false) -> active p = false ->
  b'.(threads) = <[t := (n, p)]> b.(threads) ->
  (srv_moved b b' n s' /\ exists s, b.(srvs) !! n = Some s /\ (s' = s \/ s' = set_started false s)) ->
  b'.(chans) = b.(chans) -> b'.(closed) = b.(closed) ->
  (forall n v, b'.(mon) = SaysStart n v -> v = false) ->
  (forall n c, b'.(mon) = Kills n c -> b.(mon) = Kills n c \/
     exists s, b.(srvs) !! n = Some s /\ c = s.(killable) /\ s.(started) = true) ->
  b'.(crashed) = false -> polite_inv b'.
Proof.
  intros Hinv Hrun Hold Hp Hth (Hsrv & s & Hs & Hs') Hch Hc Hst Hkill Hcr.
  destruct (chans_ok_moved b b' n s s' (pol_chans_ok _ Hinv) Hs Hsrv) as (H1 & H2 & H3).
  { left. by destruct Hs' as [->| ->]. } { by left. }
  pose proof Hsrv as Hsrv'. unfold srv_moved in Hsrv'.
  assert (forall t' m q, active q = true -> b'.(threads) !! t' = Some (m, q) <-> b.(threads) !! t' = Some (m, q)) as Hact.
  { intros t' m q Hq. rewrite Hth. destruct (decide (t' = t)) as [->|Hne].
    - rewrite lookup_insert_eq. split; intros E; [injection E as <- <-; congruence|]. apply Hold in E. congruence.
    - by rewrite lookup_insert_ne. }
  assert (forall m x, b.(srvs) !! m = Some x -> server_ok b' m x /\ server_ok b' m (set_started false x)) as Hok.
  { intros m x Hx. destruct (pol_servers _ Hinv _ _ Hx) as [(t0 & q & H0 & Ha & Hq & Hu)|(Hnone & Hrest)].
    - split; (left; exists t0, q; rewrite Hact by done; split; [done|]; split; [done|]; split;
        [rewrite Hc; destruct q; naive_solver|intros t' q' Ht' Ha'; rewrite Hact in Ht' by done; by eapply Hu]).
    - assert (forall t' q, b'.(threads) !! t' = Some (m, q) -> active q = false) as Hn'.
      { intros t' q Hq. destruct (active q) eqn:E; [|done]. rewrite Hact in Hq by done. apply Hnone in Hq. congruence. }
      split; right; (split; [done|]); [done|]. split; [done|by destruct Hrest]. }
  split; try done.
  - intros m x Hx. rewrite Hsrv' in Hx. case_decide as Hm; [|by apply Hok].
    subst. injection Hx as <-. destruct Hs' as [->| ->]; by apply Hok.
  - intros m c Hm. destruct (Hkill _ _ Hm) as [Hm'|(x & Hx & -> & Hxs)].
    + destruct (pol_kill _ Hinv _ _ Hm') as (x & t0 & q & Hx & -> & Ht0 & Hq).
      exists (if decide (m = n) then s' else x), t0, q. rewrite Hsrv'. split; [by case_decide|]. split.
      { case_decide; [|done]. subst. rewrite Hs in Hx. injection Hx as <-. by destruct Hs' as [->| ->]. }
      split; [|done]. rewrite Hact; [done|]. by destruct q.
    + destruct (pol_servers _ Hinv _ _ Hx) as [(t0 & q & H0 & Ha & Hq & _)|(_ & Hrest)]; [|destruct Hrest; congruence].
      assert (live q = true) as Hl.
      { destruct q; try done; cbn in Hq; naive_solver congruence. }
      exists (if decide (m = n) then s' else x), t0, q. rewrite Hsrv'. split; [by case_decide|]. split.
      { case_decide; [|done]. subst. rewrite Hs in Hx. injection Hx as <-. by destruct Hs' as [->| ->]. }
      split; [|done]. by rewrite Hact.
Qed.

Lemma srv_same b b' n s : b'.(srvs) = b.(srvs) -> b.(srvs) !! n = Some s -> srv_moved b b' n s.
Proof. intros E Hs m. rewrite E. by case_decide; subst. Qed.
Lemma srv_set b b' n s : b'.(srvs) = <[n := s]> b.(srvs) -> srv_moved b b' n s.
Proof.
  intros E m. rewrite E. case_decide as Hm; [subst; apply lookup_insert_eq|by rewrite lookup_insert_ne].
Qed.

(** An own step, from the phase it starts in *)
Ltac own_moved Hinv Hrun Ht Hs :=
  eapply (polite_moved _ _ _ _ _ _ _ _ Hinv Hrun Ht eq_refl Hs);
  [reflexivity
  | first [apply srv_set; reflexivity | apply srv_same; [reflexivity|exact Hs]]
  | cbn; try done
  | left; by split
  | by left
  | apply (pol_start _ Hinv)
  | left; by split
  | apply (pol_calm _ Hinv)].

Lemma own_step_polite l t n p s b b' :
  polite_inv b -> b.(threads) !! t = Some (n, p) -> b.(srvs) !! n = Some s ->
  own_step l t n p s b = Some b' -> polite_inv b'.
Proof.
  intros Hinv Ht Hs Hl. pose proof (own_step_inv _ _ _ _ _ _ _ (pol_run _ Hinv) Ht Hs Hl) as Hrun.
  destruct (active p) eqn:Ha; [|by destruct l, p].
  destruct (server_thread _ _ _ _ _ (pol_servers _ Hinv _ _ Hs) Ht Ha) as [Hok _].
  destruct l, p; try done; cbn in Hl, Hok.
  - injection Hl as <-. destruct Hok as (H1 & H2 & H3). destruct s0; cbn in *; [rewrite H2 in *; cbn in *|..]; own_moved Hinv Hrun Ht Hs.
  - destruct s0; try done. injection Hl as <-. destruct Hok as (H1 & H2 & H3 & H4). own_moved Hinv Hrun Ht Hs.
  - destruct s0; try done. injection Hl as <-. destruct Hok as (H1 & H2 & H3 & H4).
    unfold lost in *. destruct (_ || _); own_moved Hinv Hrun Ht Hs.
  - destruct s0; try done. injection Hl as <-. destruct Hok as (H1 & H2 & H3 & H4). own_moved Hinv Hrun Ht Hs.
  - destruct s0; try done. injection Hl as <-. destruct Hok as (H1 & H2 & H3 & H4).
    unfold lost in *. destruct noReconn; cbn in *; own_moved Hinv Hrun Ht Hs.
  - destruct s0; try done. injection Hl as <-. destruct Hok as (H1 & H2 & H3 & H4). own_moved Hinv Hrun Ht Hs.
  - destruct Hok as (H1 & H2 & H3 & ->). by rewrite bool_decide_false in Hl.
  - unfold close_kill in Hl. rewrite bool_decide_false in Hl by done. injection Hl as <-.
    eapply (polite_moved _ _ _ _ _ _ _ _ Hinv Hrun Ht eq_refl Hs);
      [reflexivity|apply srv_set; reflexivity| |by left|by right|apply (pol_start _ Hinv)|by left|apply (pol_calm _ Hinv)].
    cbn. split; [|done]. apply elem_of_union_l, elem_of_singleton. done.
  - injection Hl as <-. own_moved Hinv Hrun Ht Hs.
Qed.

Lemma met_step_polite l t n p s b b' :
  polite_inv b -> b.(threads) !! t = Some (n, p) -> b.(srvs) !! n = Some s ->
  met_step l t n p s b = Some b' -> polite_inv b'.
Proof.
  intros Hinv Ht Hs Hl. pose proof (met_step_inv _ _ _ _ _ _ _ (pol_run _ Hinv) Ht Hs Hl) as Hrun.
  assert (active p = true -> phase_ok b.(closed) p s) as Hok.
  { intros Ha. by apply (server_thread _ _ _ _ _ (pol_servers _ Hinv _ _ Hs) Ht Ha). }
  destruct l, p; try done; cbn in Hl; destruct (mon b) eqn:Hm; try done.
  - unfold control in Hl. rewrite Hs in Hl. injection Hl as <-. destruct (Hok eq_refl) as [H1 H2].
    eapply (polite_moved _ _ _ _ _ _ _ _ Hinv Hrun Ht eq_refl Hs);
      [reflexivity|apply srv_set; reflexivity| |by right|by left| |by right|apply (pol_calm _ Hinv)]; cbn.
    + split; [|done]. intros Hc%(pol_closed _ Hinv). lia.
    + intros k v [= _ <-]. done.
  - unfold control in Hl. rewrite Hs in Hl. injection Hl as <-. destruct (started s) eqn:Hst.
    + eapply (polite_stop_moved _ _ t n StopWaits (set_started false s) Hinv Hrun);
        [intros m q Hq; rewrite Ht in Hq; by injection Hq as <- <-|done|reflexivity| |done|done|done| |apply (pol_calm _ Hinv)].
      * split; [apply srv_set; reflexivity|]. exists s. split; [done|by right].
      * cbn. intros k c [= <- <-]. right. by exists s.
    + eapply (polite_stop_moved _ _ t n StopWaits s Hinv Hrun);
        [intros m q Hq; rewrite Ht in Hq; by injection Hq as <- <-|done|reflexivity| |done|done|done|done|apply (pol_calm _ Hinv)].
      split; [apply srv_same; [reflexivity|done]|]. exists s. split; [done|by left].
  - assert (n0 = n) as ->.
    { apply (inv_asked _ (pol_run _ Hinv)) in Ht as Ho. rewrite Hm in Ho. by injection Ho. }
    unfold answer_start in Hl. rewrite Hs in Hl. cbn in Hl. injection Hl as <-.
    rewrite (pol_start _ Hinv n isStarted Hm) in *. destruct (Hok eq_refl) as (Hc & H1 & H2).
    unfold again in *. cbn in *.
    eapply (polite_moved _ _ _ _ _ _ _ _ Hinv Hrun Ht eq_refl Hs);
      [reflexivity|apply srv_set; reflexivity|by cbn|by left|by left| | |apply (pol_calm _ Hinv)];
      cbn; case_bool_decide; try done; by right.
  - injection Hl as <-. unfold again in *. cbn in *.
    eapply (polite_stop_moved _ _ t n (Stopped isStarted) s Hinv Hrun);
      [intros m q Hq; rewrite Ht in Hq; by injection Hq as <- <-|done|reflexivity| |done|done| | |apply (pol_calm _ Hinv)].
    + split; [apply srv_same; [reflexivity|done]|]. exists s. split; [done|by left].
    + cbn. by case_bool_decide.
    + cbn. by case_bool_decide.
  - case_bool_decide as Hc; [|done]. injection Hl as <-. destruct (Hok eq_refl) as (H1 & _).
    eapply (polite_moved _ _ _ _ _ _ _ _ Hinv Hrun Ht eq_refl Hs);
      [reflexivity|apply srv_same; [reflexivity|exact Hs]|by cbn|by left|by left|done|by right|apply (pol_calm _ Hinv)].
  - injection Hl as <-. destruct (Hok eq_refl) as (H1 & H2).
    eapply (polite_moved _ _ _ _ _ _ _ _ Hinv Hrun Ht eq_refl Hs);
      [reflexivity|apply srv_set; reflexivity|by cbn|by left|by left|done|by right|apply (pol_calm _ Hinv)].
Qed.

Lemma create_polite b name b' : polite_inv b -> next b (Create name) = Some b' -> polite_inv b'.
Proof.
  intros Hinv Hl. pose proof (next_inv _ _ _ (pol_run _ Hinv) Hl) as Hrun.
  unfold next in Hl. rewrite (pol_calm _ Hinv) in Hl. cbn in Hl.
  injection Hl as <-. set (n0 := fresh (dom (srvs b))) in *. set (s0 := Build_srv _ _ _ _ _) in *.
  assert (srvs b !! n0 = None) as Hn0 by apply not_elem_of_dom, is_fresh.
  assert (forall n x, <[n0 := s0]> (srvs b) !! n = Some x -> n = n0 /\ x = s0 \/ n <> n0 /\ srvs b !! n = Some x) as Hcase.
  { intros n x Hx. destruct (decide (n = n0)) as [->|Hne]; [rewrite lookup_insert_eq in Hx; left; split; congruence|].
    rewrite lookup_insert_ne in Hx by done. by right. }
  destruct (pol_chans_ok _ Hinv) as (H1 & H2 & H3).
  split; cbn; try apply Hinv; try done.
  * intros n x [[-> ->]|[Hne Hx]]%Hcase; [|by apply (pol_servers _ Hinv)]. right. cbn. split; [|done].
    intros t p Ht. destruct (inv_known _ (pol_run _ Hinv) _ _ _ Ht) as [y Hy]. by rewrite Hn0 in Hy.
  * intros n x [[-> ->]|[Hne Hx]]%Hcase; cbn; [lia|]. apply H1 in Hx. lia.
  * intros n n' x x' [[-> ->]|[Hne Hx]]%Hcase [[-> ->]|[Hne' Hx']]%Hcase; cbn; try done.
    -- apply H1 in Hx'. lia.
    -- apply H1 in Hx. lia.
    -- by apply H2.
  * intros c Hc%H3. lia.
  * intros n c Hm. destruct (pol_kill _ Hinv _ _ Hm) as (x & t & q & Hx & Hrest). exists x, t, q.
    split; [|done]. rewrite lookup_insert_ne; [done|]. intros <-. by rewrite Hn0 in Hx.
Qed.

Lemma spawn_polite b start n b' :
  polite_inv b -> polite b (Spawn start n) -> next b (Spawn start n) = Some b' -> polite_inv b'.
Proof.
  intros Hinv Hpol Hl. pose proof (next_inv _ _ _ (pol_run _ Hinv) Hl) as Hrun.
  unfold next in Hl. rewrite (pol_calm _ Hinv) in Hl. cbn in Hl.
  destruct (srvs b !! n) as [s|] eqn:Hs; [|done]. cbn in Hl. injection Hl as <-.
  set (t := fresh (dom (threads b))) in *.
  assert (threads b !! t = None) as Ht by apply not_elem_of_dom, is_fresh. destruct start.
  * (* a start *)
    assert (server_ok b n s) as Hsn by by apply (pol_servers _ Hinv).
    destruct Hsn as [(t0 & q & H0 & Ha & _)|(_ & Hst & Hco)]; [by rewrite (Hpol _ _ H0) in Ha|].
    split; cbn; try apply Hinv; try done.
    -- intros m x Hx. destruct (decide (m = n)) as [->|Hne].
       ++ rewrite Hs in Hx. injection Hx as <-. left. exists t, StartAsks. cbn. rewrite lookup_insert_eq.
          split; [done|]. split; [done|]. split; [done|]. intros t' q Hq Ha.
          destruct (decide (t' = t)); [done|]. rewrite lookup_insert_ne in Hq by done. by rewrite (Hpol _ _ Hq) in Ha.
       ++ eapply server_ok_other; [by apply (pol_servers _ Hinv)|reflexivity|done| |done].
          intros q Hq. by rewrite Ht in Hq.
    -- intros m c Hm. destruct (pol_kill _ Hinv _ _ Hm) as (x & t0 & q & Hx & Hc & Ht0 & Hq). exists x, t0, q.
       rewrite lookup_insert_ne; [done|]. intros <-. by rewrite Ht in Ht0.
  * eapply (polite_stop_moved _ _ t n StopAsks s Hinv Hrun);
      [intros m q Hq; by rewrite Ht in Hq|done|reflexivity| |done|done|apply (pol_start _ Hinv)| |apply (pol_calm _ Hinv)].
    -- split; [apply srv_same; [reflexivity|done]|]. exists s. split; [done|by left].
    -- intros m c Hm. by left.
Qed.

Lemma next_polite b l b' : polite_inv b -> polite b l -> next b l = Some b' -> polite_inv b'.
Proof.
  intros Hinv Hpol Hl. destruct (label_thread l) as [t|] eqn:Hlt.
  - unfold next in Hl. rewrite (pol_calm _ Hinv), Hlt in Hl.
    destruct (threads b !! t) as [[n p]|] eqn:Ht; [|done]. cbn in Hl.
    destruct (srvs b !! n) as [s|] eqn:Hs; [|done]. cbn in Hl.
    destruct (is_met l); [by eapply met_step_polite|by eapply own_step_polite].
  - pose proof (next_inv _ _ _ (pol_run _ Hinv) Hl) as Hrun.
    destruct l; try done; [by eapply create_polite|by eapply spawn_polite|..];
      unfold next in Hl; rewrite (pol_calm _ Hinv) in Hl; cbn in Hl.
    + destruct (mon b) eqn:Hm; try done. case_bool_decide; [|done]. injection Hl as <-.
      split; cbn; try apply Hinv; done.
    + destruct (mon b) eqn:Hm; try done. injection Hl as <-. unfold again in *. cbn in *.
      case_bool_decide; split; cbn; try apply Hinv; done.
Qed.

Lemma reachable_politely_inv b : reachable_politely b -> polite_inv b.
Proof. induction 1; [apply no_servers_polite|by eapply next_polite]. Qed.

(** A step that takes nothing from the outside: no network, no timer, no new
    start or stop *)
Definition internal (l : label) : bool :=
  match l with
  | Create _ | Spawn _ _ | Connected _ | Failed _ _ _ _ | Message _ | Disconnected _ _ | Elapsed _ => false
  | _ => true
  end.

Lemma next_thread b l t n p s :
  b.(crashed) = false -> label_thread l = Some t -> b.(threads) !! t = Some (n, p) -> b.(srvs) !! n = Some s ->
  next b l = (if is_met l then met_step else own_step) l t n p s b.
Proof. intros Hc Hl Ht Hs. unfold next. rewrite Hc, Hl, Ht. cbn. by rewrite Hs. Qed.

Lemma kill_happens b n c :
  polite_inv b -> b.(mon) = Kills n c ->
  exists ls v b', Forall (fun l => internal l = true) ls /\ length ls <= 2 /\ steps b ls = Some b' /\
    b'.(mon) = SaysStop v /\ b'.(crashed) = false /\ (forall m, is_Some (b.(srvs) !! m) -> is_Some (b'.(srvs) !! m)) /\
    forall t m, b.(threads) !! t = Some (m, StopWaits) -> b'.(threads) !! t = Some (m, StopWaits).
Proof.
  intros Hinv Hm. destruct (pol_kill _ Hinv _ _ Hm) as (s & t & p & Hs & -> & Ht & Hlive).
  pose proof (pol_calm _ Hinv) as Hcr.
  destruct (server_thread _ _ _ _ _ (pol_servers _ Hinv _ _ Hs) Ht) as [Hok _]; [by destruct p|].
  assert (forall q b1, b1.(threads) = <[t := (n, q)]> b.(threads) ->
    forall t' m, b.(threads) !! t' = Some (m, StopWaits) -> b1.(threads) !! t' = Some (m, StopWaits)) as Hkeep.
  { intros q b1 -> t' m Ht'. rewrite lookup_insert_ne; [done|]. intros <-. rewrite Ht in Ht'. injection Ht' as <- ->. done. }
  destruct p as [| |x|x c|err|err| | | | |]; try done; cbn in Hok.
  - destruct Hok as (Hc & Hco & _).
    set (b1 := enter t n x s b).
    assert (exists s1, b1.(srvs) !! n = Some s1 /\ (forall m, is_Some (b.(srvs) !! m) -> is_Some (b1.(srvs) !! m)) /\
      b1.(threads) = <[t := (n, At x s.(killable))]> b.(threads) /\
      b1.(mon) = b.(mon) /\ b1.(closed) = b.(closed) /\ b1.(crashed) = false) as (s1 & Hs1 & Hk1 & Ht1 & Hm1 & Hc1 & Hcr1).
    { unfold b1. destruct x; cbn in *; rewrite ?Hco; cbn; [|by exists s..].
      eexists. split; [apply lookup_insert_eq|]. split; [intros m; apply insert_known|]. done. }
    assert (next b (Eval t) = Some b1) as Hn1 by by rewrite (next_thread b (Eval t) t n (Enter x) s).
    clearbody b1. eexists [Eval t; Kill t], _, _. split; [by repeat constructor|]. split; [done|].
    cbn [steps]. rewrite Hn1. cbn [mbind option_bind].
    rewrite (next_thread b1 (Kill t) t n (At x s.(killable)) s1 Hcr1 eq_refl);
      [|by rewrite Ht1, lookup_insert_eq|done].
    cbn [is_met met_step]. rewrite Hm1, Hm, Hc1, bool_decide_true by done. cbn [mbind option_bind].
    split; [reflexivity|]. split; [reflexivity|]. split; [done|]. split; [done|].
    apply (Hkeep (Leaving (Some (killed_error x)))). cbn [threads set_mon set_thread].
    by rewrite Ht1, insert_insert_eq.
  - destruct Hok as (Hc & _ & _ & ->). eexists [Kill t], _, _. split; [by repeat constructor|]. split; [cbn; lia|].
    cbn [steps]. rewrite (next_thread b (Kill t) t n (At x s.(killable)) s) by done.
    cbn [is_met met_step]. rewrite Hm, bool_decide_true by done. cbn [mbind option_bind].
    split; [reflexivity|]. split; [reflexivity|]. split; [done|]. split; [done|].
    by apply (Hkeep (Leaving (Some (killed_error x)))).
  - eexists [CloseKill t; KillClosed], _, _. split; [by repeat constructor|]. split; [done|].
    cbn [steps]. rewrite (next_thread b (CloseKill t) t n (Leaving err) s) by done.
    cbn [is_met own_step]. unfold close_kill. rewrite bool_decide_false by done. cbn [mbind option_bind].
    unfold next. cbn. rewrite Hcr, Hm. rewrite bool_decide_true by (apply elem_of_union_l, elem_of_singleton; done).
    cbn. split; [reflexivity|]. split; [reflexivity|]. split; [done|]. split; [intros m; apply insert_known|].
    by apply (Hkeep (Reports err)).
  - destruct Hok as [Hc _]. eexists [KillClosed], _, _. split; [by repeat constructor|]. split; [cbn; lia|].
    unfold steps, next. cbn. rewrite Hcr, Hm, bool_decide_true by done. cbn.
    split; [reflexivity|]. split; [reflexivity|]. split; [done|]. by split.
Qed.

(** C27. A bot whose servers are started only when they are not running never
    panics by its channels, and has at most one goroutine for each server. *)
Theorem one_run_each b :
  reachable_politely b ->
  b.(crashed) = false /\
  forall t t' n p p', b.(threads) !! t = Some (n, p) -> b.(threads) !! t' = Some (n, p') ->
    active p = true -> active p' = true -> t = t'.
Proof.
  intros Hr. pose proof (reachable_politely_inv b Hr) as Hinv. split; [apply (pol_calm _ Hinv)|].
  intros t t' n p p' Ht Ht' Hp Hp'. destruct (inv_known _ (pol_run _ Hinv) _ _ _ Ht) as [s Hs].
  destruct (server_thread _ _ _ _ _ (pol_servers _ Hinv _ _ Hs) Ht Hp) as [_ Hu]. by symmetry; eapply Hu.
Qed.


(** ** Witnesses *)

Lemma monitor_counts_witness :
  exists b, steps no_servers (up ++ [Spawn false 0; Control 1; Kill 0; Answer 1; CloseKill 0; Report 0; Told]) = Some b /\
    b.(mon) = Ended /\ forall t n p, b.(threads) !! t = Some (n, p) -> live p = false.
Proof.
  eexists. split; [vm_compute; reflexivity|]. split; [reflexivity|].
  apply monitor_counts; [|reflexivity].
  apply (steps_reachable no_servers
    (up ++ [Spawn false 0; Control 1; Kill 0; Answer 1; CloseKill 0; Report 0; Told])); [apply reach_new|].
  vm_compute. reflexivity.
Defined.

(** A run is polite when its starts are of servers without goroutines. *)
Fixpoint polite_steps (b : bot) (ls : list label) : bool :=
  match ls with
  | [] => true
  | l :: ls =>
    match l with
    | Spawn true n => bool_decide (map_Forall (fun _ x => x.1 = n -> active x.2 = false) b.(threads))
    | _ => true
    end && match next b l with Some b => polite_steps b ls | None => false end
  end.

Lemma polite_steps_reachable b ls b' :
  reachable_politely b -> polite_steps b ls = true -> steps b ls = Some b' -> reachable_politely b'.
Proof.
  revert b. induction ls as [|l ls IH]; intros b Hb Hp Hl; cbn in *; [by injection Hl as <-|].
  apply andb_true_iff in Hp as [Hp Hrest]. destruct (next b l) as [b1|] eqn:E; [|done].
  eapply IH; [|exact Hrest|exact Hl]. eapply polite_next; [exact Hb| |exact E].
  destruct l; try done. destruct start; [|done]. apply bool_decide_eq_true in Hp.
  intros t p Ht. by apply (Hp t (n, p) Ht).
Qed.

Definition stopping : list label := up ++ [Spawn false 0; Control 1].

Lemma one_run_each_witness :
  exists b, steps no_servers stopping = Some b /\ b.(crashed) = false.
Proof.
  eexists. split; [vm_compute; reflexivity|].
  apply one_run_each, (polite_steps_reachable no_servers stopping); [apply polite_new|vm_compute; reflexivity..].
Defined.

