(* ===== verification/Console.v ===== *)
(** * Package bot: starting, stopping and running a bot (bot/bot.go)

    [Run] as the program's main goroutine beside those of [Lifecycle.v].  It
    is the only one that reads the reasons of servers' deaths, and it does not
    while it stops the servers one by one. *)

From S2P Require Import Prelude GoStrings Server Lifecycle.

(** ** Starting and stopping *)

(** bot/bot.go [Bot.Start]: a goroutine for each server, in the order of the
    map *)
Definition Start (order : list nat) (b : bot) : option bot := steps b (map (Spawn true) order).

(** bot/bot.go [Bot.StartNetwork]: [networks] is the bot's table of servers. *)
Definition StartNetwork (networks : gmap bytes nat) (networkID : bytes) (b : bot) : bool * option bot :=
  match networks !! networkID with
  | Some srv => (true, next b (Spawn true srv))
  | None => (false, Some b)
  end.

(** bot/bot.go [Bot.stopServer]: the caller from here on is a goroutine of its
    own number, which asks and waits for the answer; until it has it there is
    none. *)
Definition stopServer (srv : nat) (b : bot) : option (nat * bot) :=
  b' ← next b (Spawn false srv); Some (fresh (dom b.(threads)), b').
Definition stop_answer (t : nat) (b : bot) : option bool :=
  match b.(threads) !! t with Some (_, Stopped stopped) => Some stopped | _ => None end.

(** bot/bot.go [Bot.StopNetwork] *)
Definition StopNetwork (networks : gmap bytes nat) (networkID : bytes) (b : bot) : option (option nat * bot) :=
  match networks !! networkID with
  | Some srv => '(t, b) ← stopServer srv b; Some (Some t, b)
  | None => Some (None, b)
  end.

(** ** The main goroutine *)

(** Where [Run] is: in its [select]; in [Stop], with the servers that are left
    and the call of [stopServer] that has not returned; or behind its loop *)
Inductive main :=
  | Waits
  | Stopping (rest : list nat) (call : option nat)
  | Exits.

Record program := { p_bot : bot; p_main : main }.

Inductive event :=
  | Inside (l : label)             (** a step of the other goroutines *)
  | Interrupt (order : list nat)   (** a line or a signal; the order of the servers *)
  | Onward                         (** the main goroutine goes on in [Stop] *)
  | Death                          (** a server's death is received *)
  | Closed.                        (** [end] is closed *)

(** bot/bot.go [Bot.Stop]: one step, to the next server or behind the loop *)
Definition Stop_step (rest : list nat) (call : option nat) (b : bot) : option program :=
  match call, rest with
  | Some t, _ => _ ← stop_answer t b; Some {| p_bot := b; p_main := Stopping rest None |}
  | None, n :: rest => '(t, b) ← stopServer n b; Some {| p_bot := b; p_main := Stopping rest (Some t) |}
  | None, [] => Some {| p_bot := b; p_main := Exits |}
  end.

(** bot/bot.go:666-680 [Run]: the loop *)
Definition run_step (p : program) (e : event) : option program :=
  match e, p.(p_main) with
  | Inside Told, _ => None
  | Inside l, _ => b ← next p.(p_bot) l; Some {| p_bot := b; p_main := p.(p_main) |}
  | Interrupt order, Waits =>
    if bool_decide (list_to_set order = dom p.(p_bot).(srvs)) && bool_decide (NoDup order)
    then Some {| p_bot := p.(p_bot); p_main := Stopping order None |} else None
  | Onward, Stopping rest call => if p.(p_bot).(crashed) then None else Stop_step rest call p.(p_bot)
  | Death, Waits => b ← next p.(p_bot) Told; Some {| p_bot := b; p_main := Waits |}
  | Closed, Waits => if bool_decide (p.(p_bot).(mon) = Ended) then Some {| p_bot := p.(p_bot); p_main := Exits |} else None
  | _, _ => None
  end.

Fixpoint run_steps (p : program) (es : list event) : option program :=
  match es with [] => Some p | e :: es => p ← run_step p e; run_steps p es end.

(** bot/bot.go:643-653 [Run]: the bot when its loop begins *)
Definition Run_start (b : bot) (order : list nat) : option program :=
  b ← Start order b; Some {| p_bot := b; p_main := Waits |}.

(** ** A stop that never ends *)

(** The main goroutine asks for a stop, and the monitor waits for somebody to
    read a death, or is gone. *)
Definition hung (p : program) (t n : nat) (rest : list nat) : Prop :=
  p.(p_main) = Stopping rest (Some t) /\ p.(p_bot).(threads) !! t = Some (n, StopAsks) /\
  ((exists err, p.(p_bot).(mon) = Tells err) \/ p.(p_bot).(mon) = Ended).

(** A goroutine's own step moves it or ends the program, and is not the
    monitor's. *)
Lemma own_step_frame l t n p s b b' :
  own_step l t n p s b = Some b' ->
  b'.(mon) = b.(mon) /\ (b'.(threads) = b.(threads) \/ exists q, b'.(threads) = <[t := (n, q)]> b.(threads)).
Proof.
  intros Hl. destruct l, p; try done; cbn [own_step] in Hl; repeat case_match; try done;
    injection Hl as <-; unfold enter, lost, close_kill; repeat case_match; (split; [done|]); eauto.
Qed.

Lemma hung_own l t' n' q s b b' t n :
  own_step l t' n' q s b = Some b' -> b.(threads) !! t' = Some (n', q) ->
  b.(threads) !! t = Some (n, StopAsks) ->
  b'.(threads) !! t = Some (n, StopAsks) /\ b'.(mon) = b.(mon).
Proof.
  intros Hl Hq Ht. destruct (decide (t' = t)) as [->|Hne].
  { rewrite Ht in Hq. injection Hq as <- <-. by destruct l. }
  destruct (own_step_frame _ _ _ _ _ _ _ Hl) as [-> [->|[p ->]]]; [done|]. by rewrite lookup_insert_ne.
Qed.

Lemma hung_step p e p' t n rest : hung p t n rest -> run_step p e = Some p' -> hung p' t n rest.
Proof.
  intros (Hm & Ht & Hmon) He. destruct p as [b m]. cbn in *. subst m.
  destruct e as [l|order| | |]; cbn in He; try done.
  2:{ destruct (crashed b); [done|]. unfold stop_answer in He. by rewrite Ht in He. }
  assert ((b' ← next b l; Some {| p_bot := b'; p_main := Stopping rest (Some t) |}) = Some p') as Hn
    by (destruct l; done).
  destruct (next b l) as [b'|] eqn:E; [|done]. injection Hn as <-. split; [done|]. cbn [p_bot].
  unfold next in E. destruct (crashed b); [done|].
  destruct (label_thread l) as [t'|] eqn:El.
  - destruct (threads b !! t') as [[n' q]|] eqn:Eq; [|done]. cbn in E.
    destruct (srvs b !! n') as [s|]; [|done]. cbn in E. destruct (is_met l) eqn:Emet.
    + exfalso. clear He. destruct l; try done; cbn in E; destruct Hmon as [[err Hmon]|Hmon]; rewrite Hmon in E;
        by destruct q.
    + destruct (hung_own _ _ _ _ _ _ _ _ _ E Eq Ht) as [H1 ->]. by split.
  - destruct l; try done; cbn in E.
    + injection E as <-. by split.
    + destruct (srvs b !! n0); [|done]. injection E as <-. split; [|done]. cbn.
      rewrite lookup_insert_ne; [done|]. intros Hf. apply elem_of_dom_2 in Ht. rewrite <- Hf in Ht.
      by apply is_fresh in Ht.
    + destruct Hmon as [[err Hmon]|Hmon]; by rewrite Hmon in E.
Qed.

(** Once the program is interrupted while the monitor waits to report a death,
    or has ended: whatever the other goroutines do, stopping never returns and
    the program never comes to its end. *)
Theorem interrupt_hangs p t n rest es p' :
  hung p t n rest -> run_steps p es = Some p' -> p'.(p_main) = Stopping rest (Some t).
Proof.
  revert p. induction es as [|e es IH]; intros p Hh He; cbn in He; [injection He as <-; apply Hh|].
  destruct (run_step p e) as [p1|] eqn:E; [|done]. eapply IH; [|exact He]. by eapply hung_step.
Qed.

(** ** Runs *)

Definition new_program (names : list bytes) : option program :=
  b ← steps no_servers (map Create names); Run_start b (seq 0 (length names)).

Definition run_from (names : list bytes) (es : list event) : option program :=
  p ← new_program names; run_steps p es.

(** A server is started and connected. *)
Definition connect (t : nat) : list event :=
  map Inside [Control t; Answer t; Eval t; Connected t; Eval t].

(** A program with two servers that is interrupted, with the goroutines taking
    turns so that the deaths are reported after both were stopped, ends. *)
Example interrupt_ends :
  p_main <$> run_from [bs "a"; bs "b"] (connect 0 ++ connect 1 ++
    [Interrupt [0; 1]; Onward; Inside (Control 2); Inside (Kill 0); Inside (Answer 2); Onward;
     Onward; Inside (Control 3); Inside (Kill 1); Inside (Answer 3); Onward; Onward]) = Some Exits.
Proof. vm_compute. reflexivity. Qed.

(** When the first server is quick and its death is reported before the second
    is asked to stop, the program hangs. *)
Example quick_death_hangs :
  exists p, run_from [bs "a"; bs "b"] (connect 0 ++ connect 1 ++
    [Interrupt [0; 1]; Onward; Inside (Control 2); Inside (Kill 0); Inside (Answer 2); Onward;
     Inside (CloseKill 0); Inside (Report 0); Onward]) = Some p /\ hung p 3 1 [].
Proof.
  eexists. split; [vm_compute; reflexivity|]. split; [reflexivity|]. split; [reflexivity|]. left. by eexists.
Qed.

(** It hangs with one server, too, when that dies as the program is
    interrupted. *)
Lemma interrupt_hangs_witness :
  exists p, run_from [bs "a"] (connect 0 ++
    [Inside (Disconnected 0 true); Inside (CloseKill 0); Inside (Report 0); Interrupt [0]; Onward]) = Some p /\
    forall es p', run_steps p es = Some p' -> p'.(p_main) = Stopping [] (Some 1).
Proof.
  eexists. split; [vm_compute; reflexivity|]. intros es p'. apply (interrupt_hangs _ 1 0).
  split; [reflexivity|]. split; [reflexivity|]. left. by eexists.
Defined.
