(* ===== verification/Shutdown.v ===== *)
(** * Packages bot and inet: closing a connection (bot/server.go, inet/client.go)

    What the goroutines of a connection wait for: the pump, the siphon, the
    handlers that write, and the bot's goroutine that reads and then closes.
    The channels have no buffer, so a send and its receive are one step.
    [Server.Write] holds the server's lock for reading until the pump has
    taken its message, takes it once more in between to ask for the status,
    and [Server.Close] takes it for writing.  What is written and read is the matter of [Client.v]; here only who waits for whom
    is kept. *)

From S2P Require Import Prelude.

(** inet/client.go:193-253 [IrcClient.pump]: in its [select], taking a message
    from a writer, in [writeMessage], sending the error of a write on
    [killpump], or gone, with [pumpservice] closed *)
Inductive pump_phase := PSelect | PTake (w : nat) | PWrite | PFailed | PGone.

(** inet/client.go:274-294 [IrcClient.siphon]: in [conn.Read]; in the [select] of
    [extractMessages], with the messages that are left and whether the read
    failed; behind the loop, or sending the error on [killsiphon] with
    [siphonchan] closed; or gone *)
Inductive siphon_phase := SRead | SSend (k : nat) (failed : bool) | SFailed | SReports | SGone.

(** bot/server.go:105-109 [Server.Write]: a writer has the lock and is to take it
    again in [GetStatus]; waits for the pump's service; or sends its message *)
Inductive writer_phase := WAsks | WWaits | WSends.

(** bot/server.go:237-246 [Server.Close]: the bot's goroutine still reads
    messages, waits for the lock, receives from [killpump], then from
    [killsiphon], or is through *)
Inductive closer_phase := CReads | CLocks | CPump | CSiphon | CThrough.

#[export] Instance pump_phase_eq_dec : EqDecision pump_phase.
Proof. solve_decision. Defined.
#[export] Instance writer_phase_eq_dec : EqDecision writer_phase.
Proof. solve_decision. Defined.

Record connection := {
  pump : pump_phase;
  siphon : siphon_phase;
  writers : gmap nat writer_phase;
  closer : closer_phase;
  conn_open : bool;
}.

(** A client whose workers have been spawned *)
Definition spawned : connection :=
  {| pump := PSelect; siphon := SRead; writers := ∅; closer := CReads; conn_open := true |}.

Definition with_pump (p : pump_phase) (c : connection) : connection := {| pump := p; siphon := c.(siphon);
  writers := c.(writers); closer := c.(closer); conn_open := c.(conn_open) |}.
Definition with_siphon (s : siphon_phase) (c : connection) : connection := {| pump := c.(pump); siphon := s;
  writers := c.(writers); closer := c.(closer); conn_open := c.(conn_open) |}.
Definition with_writers (f : gmap nat writer_phase -> gmap nat writer_phase) (c : connection) : connection :=
  {| pump := c.(pump); siphon := c.(siphon); writers := f c.(writers); closer := c.(closer);
     conn_open := c.(conn_open) |}.
Definition with_closer (k : closer_phase) (c : connection) : connection := {| pump := c.(pump);
  siphon := c.(siphon); writers := c.(writers); closer := k; conn_open := c.(conn_open) |}.
Definition hang_up (c : connection) : connection := {| pump := c.(pump); siphon := c.(siphon);
  writers := c.(writers); closer := c.(closer); conn_open := false |}.

Inductive label :=
  | Calls (w : nat)                    (** a handler calls [Server.Write] and has the lock *)
  | Asks (w : nat) (stopped : bool)    (** and has the status, having locked again *)
  | Serve (w : nat)                    (** the pump gives its channel to a writer *)
  | Give (w : nat) (now : bool)        (** and takes the message, to write it now or to queue it *)
  | Timer                              (** the sleeper or the pinger *)
  | Wrote
  | WriteFails
  | Got (k : nat) (failed : bool)      (** a read brought some messages *)
  | ReadFails
  | Deliver                            (** a message goes to the bot's goroutine *)
  | CloseChan                          (** [close(c.siphonchan)] *)
  | SeesEnd                            (** the bot's goroutine finds it closed *)
  | Killed                             (** or is told to stop *)
  | Lock                               (** it has the lock, and closes the socket *)
  | PumpEnds                           (** receives from [killpump] *)
  | SiphonEnds                         (** receives from [killsiphon] *)
  | Eof (w : nat).                     (** a writer finds [pumpservice] closed *)

(** What follows the last message of a read *)
Definition after_read (k : nat) (failed : bool) : siphon_phase :=
  match k with 0 => if failed then SFailed else SRead | _ => SSend k failed end.

(** A writer has its answer and gives the lock back. *)
Definition leave (w : nat) : connection -> connection := with_writers (delete w).

(** inet/client.go:193-253 [IrcClient.pump]: the steps of the pump and of the
    writers with it *)
Definition pump_next (l : label) (c : connection) : option connection :=
  match l, c.(pump) with
  | Serve w, PSelect =>
    if bool_decide (c.(writers) !! w = Some WWaits)
    then Some (with_pump (PTake w) (with_writers (<[w := WSends]>) c)) else None
  | Give w now, PTake w' =>
    if bool_decide (w = w' /\ c.(writers) !! w = Some WSends)
    then Some (with_pump (if now : bool then PWrite else PSelect) (leave w c)) else None
  | Timer, PSelect => Some (with_pump PWrite c)
  | Wrote, PWrite => if c.(conn_open) then Some (with_pump PSelect c) else None
  | WriteFails, PWrite => Some (with_pump PFailed c)
  | Eof w, PGone =>
    if bool_decide (c.(writers) !! w = Some WWaits) then Some (leave w c) else None
  | _, _ => None
  end.

(** inet/client.go:274-294 [IrcClient.siphon]: the steps of the siphon *)
Definition siphon_next (l : label) (c : connection) : option connection :=
  match l, c.(siphon), c.(closer) with
  | Got k failed, SRead, _ => if c.(conn_open) then Some (with_siphon (after_read k failed) c) else None
  | ReadFails, SRead, _ => Some (with_siphon SFailed c)
  | Deliver, SSend (S k) failed, CReads => Some (with_siphon (after_read k failed) c)
  | CloseChan, SFailed, _ => Some (with_siphon SReports c)
  | _, _, _ => None
  end.

(** bot/server.go:101-113 [Server.Write]: the lock is given for reading while
    nobody has it or waits for it for writing, also to those that have it for
    reading. *)
Definition write_next (l : label) (c : connection) : option connection :=
  match l, c.(closer) with
  | Calls w, CReads =>
    if bool_decide (c.(writers) !! w = None) then Some (with_writers (<[w := WAsks]>) c) else None
  | Asks w stopped, CReads =>
    if bool_decide (c.(writers) !! w = Some WAsks)
    then Some (if stopped : bool then leave w c else with_writers (<[w := WWaits]>) c) else None
  | _, _ => None
  end.

(** inet/client.go:334-354 [IrcClient.Close]: the closing goroutine, from the end
    of the messages to that of the siphon *)
Definition close_next (l : label) (c : connection) : option connection :=
  match l, c.(closer) with
  | SeesEnd, CReads => match c.(siphon) with SReports => Some (with_closer CLocks c) | _ => None end
  | Killed, CReads => Some (with_closer CLocks c)
  | Lock, CLocks =>
    if bool_decide (c.(writers) = ∅) then Some (with_closer CPump (hang_up c)) else None
  | PumpEnds, CPump =>
    match c.(pump) with
    | PSelect | PFailed => Some (with_closer CSiphon (with_pump PGone c))
    | _ => None
    end
  | SiphonEnds, CSiphon =>
    match c.(siphon) with
    | SSend (S _) _ | SReports => Some (with_closer CThrough (with_siphon SGone c))
    | _ => None
    end
  | _, _ => None
  end.

Definition next (c : connection) (l : label) : option connection :=
  match l with
  | Serve _ | Give _ _ | Timer | Wrote | WriteFails | Eof _ => pump_next l c
  | Got _ _ | ReadFails | Deliver | CloseChan => siphon_next l c
  | Calls _ | Asks _ _ => write_next l c
  | SeesEnd | Killed | Lock | PumpEnds | SiphonEnds => close_next l c
  end.

Fixpoint steps (c : connection) (ls : list label) : option connection :=
  match ls with [] => Some c | l :: ls => c ← next c l; steps c ls end.

Inductive reachable : connection -> Prop :=
  | reach_spawned : reachable spawned
  | reach_next c l c' : reachable c -> next c l = Some c' -> reachable c'.

(** ** The deadlock *)

(** The bot's goroutine waits for the lock, and of those that hold it none can
    go on: the pump, after a write that failed, waits to be asked about it by
    the bot's goroutine, or the holder itself waits to lock again. *)
Definition deadlocked (c : connection) : Prop :=
  c.(closer) = CLocks /\
  ((c.(pump) = PFailed /\ c.(writers) <> ∅) \/ exists w, c.(writers) !! w = Some WAsks).

(** Who asks for the status while the bot's goroutine waits, asks for ever. *)
Lemma asks_next c l c' w :
  c.(closer) = CLocks -> c.(writers) !! w = Some WAsks -> next c l = Some c' ->
  c'.(closer) = CLocks /\ c'.(writers) !! w = Some WAsks.
Proof.
  intros Hc Hw Hl. destruct l; cbn in Hl; rewrite ?Hc in Hl; try done;
    try match type of Hl with context [pump c] => destruct (pump c); try done end;
    try match type of Hl with context [siphon c] => destruct (siphon c) as [|[]| | |]; try done end;
    try (destruct (conn_open c); [|done]); try (case_bool_decide as Hb; [|done]); injection Hl as <-; cbn; try done.
  - split; [done|]. rewrite lookup_insert_ne; [done|congruence].
  - split; [done|]. rewrite lookup_delete_ne; [done|]. destruct Hb. congruence.
  - rewrite Hb in Hw. by rewrite lookup_empty in Hw.
  - split; [done|]. rewrite lookup_delete_ne; [done|congruence].
Qed.

Lemma failed_next c l c' :
  c.(closer) = CLocks -> c.(pump) = PFailed -> c.(writers) <> ∅ -> next c l = Some c' ->
  c'.(closer) = CLocks /\ c'.(pump) = PFailed /\ c'.(writers) <> ∅.
Proof.
  intros Hc Hp Hw Hl. destruct l; cbn in Hl; rewrite ?Hp, ?Hc in Hl; try done;
    try (by rewrite bool_decide_false in Hl); destruct (siphon c) as [|[]| | |]; try done;
    try (destruct (conn_open c); [|done]); by injection Hl as <-.
Qed.

Lemma deadlocked_next c l c' : deadlocked c -> next c l = Some c' -> deadlocked c'.
Proof.
  intros [Hc [[Hp Hw]|[w Hw]]] Hl; unfold deadlocked.
  - destruct (failed_next _ _ _ Hc Hp Hw Hl) as (? & ? & ?). auto.
  - destruct (asks_next _ _ _ _ Hc Hw Hl). eauto.
Qed.

Lemma deadlocked_steps c ls c' : deadlocked c -> steps c ls = Some c' -> deadlocked c'.
Proof.
  revert c. induction ls as [|l ls IH]; intros c Hd Hs; cbn in Hs; [by injection Hs as <-|].
  destruct (next c l) as [c1|] eqn:E; [|done]. eapply IH; [|exact Hs]. by eapply deadlocked_next.
Qed.

(** ** Everything else ends *)

(** A writer that sends is the one the pump takes from; until the lock is had,
    the socket is open and pump and siphon are there. *)
Record conn_inv (c : connection) : Prop := {
  inv_take : forall w, c.(writers) !! w = Some WSends <-> c.(pump) = PTake w;
  inv_there : c.(closer) = CReads \/ c.(closer) = CLocks ->
    c.(conn_open) = true /\ c.(pump) <> PGone /\ c.(siphon) <> SGone;
  inv_send : forall failed, c.(siphon) <> SSend 0 failed;
}.

Lemma spawned_inv : conn_inv spawned.
Proof. by split; cbn. Qed.

Lemma after_read_send k failed failed' : after_read k failed <> SSend 0 failed' /\ after_read k failed <> SGone.
Proof. destruct k; cbn; [by destruct failed|done]. Qed.

(** A step that leaves pump and writers as they are *)
Lemma inv_aside c c' :
  conn_inv c -> c'.(pump) = c.(pump) -> c'.(writers) = c.(writers) ->
  (c'.(closer) = CReads \/ c'.(closer) = CLocks -> c'.(conn_open) = true /\ c'.(siphon) <> SGone /\
    (c.(closer) = CReads \/ c.(closer) = CLocks)) ->
  (forall failed, c'.(siphon) <> SSend 0 failed) -> conn_inv c'.
Proof.
  intros [Ht Hn Hs] Hp Hw Hthere Hsend. split; [intros w; by rewrite Hp, Hw| |done].
  intros (H1 & H2 & H3)%Hthere. rewrite Hp. split; [done|]. split; [by apply Hn|done].
Qed.

Lemma pump_next_inv l c c' : conn_inv c -> pump_next l c = Some c' -> conn_inv c'.
Proof.
  intros [Ht Hn Hs] Hl. destruct l; try done; cbn in Hl; destruct (pump c) eqn:Hp; try done;
    try (case_bool_decide as Hb; [|done]); try (destruct (conn_open c) eqn:Ho; [|done]); injection Hl as <-;
    (split; cbn; [intros w'|intros H; destruct (Hn H) as (? & ? & ?); repeat split; try done; by try destruct now|done]).
  - split; [intros [[<- _]|[Hne Hw']]%lookup_insert_Some; [done|by apply Ht in Hw']|].
    intros [= ->]. apply lookup_insert_eq.
  - destruct Hb as [-> Hb]. split; [|by destruct now]. intros [Hne Hw']%lookup_delete_Some.
    apply Ht in Hw'. congruence.
  - by split; [intros ?%Ht|].
  - by split; [intros ?%Ht|].
  - by split; [intros ?%Ht|].
  - rewrite Hp. split; [intros [Hne Hw']%lookup_delete_Some; by apply Ht in Hw'|done].
Qed.

(** Changes of the writers that leave those that send alone *)
Lemma unsent_insert (W : gmap nat writer_phase) w w' ph :
  ph <> WSends -> W !! w <> Some WSends -> <[w := ph]> W !! w' = Some WSends <-> W !! w' = Some WSends.
Proof.
  intros Hph Hw. destruct (decide (w = w')) as [<-|]; [|by rewrite lookup_insert_ne].
  rewrite lookup_insert_eq. split; [by intros [=]|done].
Qed.
Lemma unsent_delete (W : gmap nat writer_phase) w w' :
  W !! w <> Some WSends -> delete w W !! w' = Some WSends <-> W !! w' = Some WSends.
Proof.
  intros Hw. destruct (decide (w = w')) as [<-|]; [|by rewrite lookup_delete_ne].
  by rewrite lookup_delete_eq.
Qed.

Lemma writers_inv c f :
  conn_inv c -> (forall w, f c.(writers) !! w = Some WSends <-> c.(writers) !! w = Some WSends) ->
  conn_inv (with_writers f c).
Proof. intros [Ht Hn Hs] Hf. split; cbn; [intros w; by rewrite Hf|done..]. Qed.

Lemma conn_next_inv c l c' : conn_inv c -> next c l = Some c' -> conn_inv c'.
Proof.
  intros Hinv Hl. pose proof Hinv as [Ht Hn Hs].
  destruct l; cbn [next] in Hl; try (by eapply pump_next_inv); cbn in Hl.
  - destruct (closer c) eqn:Hc; try done. case_bool_decide as Hw; [|done]. injection Hl as <-.
    apply writers_inv; [done..|]. intros w'. by apply unsent_insert; [|rewrite Hw].
  - destruct (closer c) eqn:Hc; try done. case_bool_decide as Hw; [|done]. injection Hl as <-.
    destruct stopped; (apply writers_inv; [done..|]); intros w';
      [apply unsent_delete; by rewrite Hw|by apply unsent_insert; [|rewrite Hw]].
  - destruct (siphon c) eqn:E; try done. destruct (conn_open c) eqn:Eo; [|done]. injection Hl as <-.
    apply (inv_aside c); cbn; try done; [|apply after_read_send]. intros H. split; [done|]. split; [apply (after_read_send k failed true)|done].
  - destruct (siphon c) eqn:E; try done. injection Hl as <-. apply (inv_aside c); cbn; try done.
    intros H. split; [by apply Hn|done].
  - destruct (siphon c) as [|[|k] failed| | |] eqn:E; try done. destruct (closer c) eqn:Ec; try done. injection Hl as <-.
    apply (inv_aside c); cbn; rewrite ?Ec; try done; [|apply after_read_send].
    intros _. split; [apply Hn; by left|]. split; [apply (after_read_send k failed true)|by left].
  - destruct (siphon c) eqn:E; try done. injection Hl as <-. apply (inv_aside c); cbn; try done.
    intros H. split; [by apply Hn|done].
  - destruct (closer c) eqn:Ec; try done. destruct (siphon c) eqn:E; try done. injection Hl as <-.
    apply (inv_aside c); cbn; rewrite ?E; try done. intros _. split; [apply Hn; by left|]. split; [done|by left].
  - destruct (closer c) eqn:Ec; try done. injection Hl as <-. apply (inv_aside c); cbn; try done.
    intros _. split; [apply Hn; by left|]. split; [apply Hn; by left|by left].
  - destruct (closer c) eqn:Ec; try done. case_bool_decide; [|done]. injection Hl as <-.
    apply (inv_aside c); cbn; try done. by intros [].
  - destruct (closer c) eqn:Ec; try done. destruct (pump c) eqn:Ep; try done; injection Hl as <-;
      (split; cbn; [|by intros []|done]); intros w; (split; [intros H; by apply Ht in H|done]).
  - destruct (closer c) eqn:Ec; try done.
    destruct (siphon c) as [|[]| | |] eqn:E; try done; injection Hl as <-; (apply (inv_aside c); cbn; try done); by intros [].
Qed.

Lemma conn_reachable_inv c : reachable c -> conn_inv c.
Proof. induction 1; [apply spawned_inv|by eapply conn_next_inv]. Qed.

(** What can be reached *)
Definition leads (c c' : connection) : Prop := exists ls, steps c ls = Some c'.

Lemma leads_refl c : leads c c.
Proof. by exists []. Qed.
Lemma leads_step l c c1 c' : next c l = Some c1 -> leads c1 c' -> leads c c'.
Proof. intros Hl [ls H]. exists (l :: ls). cbn. by rewrite Hl. Qed.
Lemma leads_trans c c1 c' : leads c c1 -> leads c1 c' -> leads c c'.
Proof.
  intros [ls H]. revert c H. induction ls as [|l ls IH]; intros c H; cbn in H; [by injection H as ->|].
  destruct (next c l) as [c2|] eqn:E; [|done]. intros Hc'. by eapply leads_step, IH.
Qed.

(** The close is through in some run. *)
Definition can_close (c : connection) : Prop := exists c', leads c c' /\ c'.(closer) = CThrough.

Lemma can_close_step l c c1 : next c l = Some c1 -> can_close c1 -> can_close c.
Proof. intros Hl (c' & H & Hc). exists c'. by split; [eapply leads_step|]. Qed.
Lemma can_close_leads c c1 : leads c c1 -> can_close c1 -> can_close c.
Proof. intros Hl (c' & H & Hc). exists c'. by split; [eapply leads_trans|]. Qed.

Lemma can_close_last l c c1 : next c l = Some c1 -> c1.(closer) = CThrough -> can_close c.
Proof. intros Hl Hc. exists c1. split; [|done]. by eapply leads_step, leads_refl. Qed.

(** With the socket closed the siphon reports, in the middle of a read or after it. *)
Lemma siphon_ends p s W o :
  s <> SGone -> (forall f, s <> SSend 0 f) -> can_close (Build_connection p s W CSiphon o).
Proof.
  intros Hs H0.
  assert (can_close (Build_connection p SFailed W CSiphon o)) as Hf.
  { eapply (can_close_step CloseChan); [reflexivity|]. by eapply (can_close_last SiphonEnds); [reflexivity|]. }
  destruct s as [|[|n] f| | |]; [|by destruct (H0 f)| |done| |done].
  - by eapply (can_close_step ReadFails); [reflexivity|].
  - by eapply (can_close_last SiphonEnds); [reflexivity|].
  - by eapply (can_close_last SiphonEnds); [reflexivity|].
Qed.

(** Nobody holds the lock: the socket is closed and both workers end. *)
Lemma workers_end p s o :
  p = PSelect \/ p = PFailed -> s <> SGone -> (forall f, s <> SSend 0 f) ->
  can_close (Build_connection p s ∅ CLocks o).
Proof.
  intros Hp Hs H0. apply (can_close_step Lock _ (Build_connection p s ∅ CPump false)); [done|].
  apply (can_close_step PumpEnds _ (Build_connection PGone s ∅ CSiphon false)); [by destruct Hp as [-> | ->]|].
  by apply siphon_ends.
Qed.

(** The pump serves all that wait for it. *)
Lemma writers_leave s W o :
  (forall w ph, W !! w = Some ph -> ph = WWaits) ->
  leads (Build_connection PSelect s W CLocks o) (Build_connection PSelect s ∅ CLocks o).
Proof.
  induction W as [|w ph W Hw IH] using map_ind; intros H; [apply leads_refl|].
  assert (ph = WWaits) as -> by (apply (H w); apply lookup_insert_eq).
  apply (leads_step (Serve w) _ (Build_connection (PTake w) s (<[w := WSends]> W) CLocks o)).
  { cbn. rewrite bool_decide_true by apply lookup_insert_eq. unfold with_pump, with_writers; cbn. by rewrite insert_insert_eq. }
  apply (leads_step (Give w false) _ (Build_connection PSelect s W CLocks o)).
  { cbn. rewrite bool_decide_true by (split; [done|apply lookup_insert_eq]). unfold leave, with_pump, with_writers; cbn.
    by rewrite delete_insert_id. }
  apply IH. intros w' ph' Hw'. apply (H w'). rewrite lookup_insert_ne; [done|]. intros ->. congruence.
Qed.

(** ** Whether the server closes *)

(** C32. A goroutine of the bot that has come to [Server.Close] can get through it
    if and only if the connection is not deadlocked. *)
Theorem close_returns_iff c :
  reachable c -> c.(closer) = CLocks -> can_close c <-> ~ deadlocked c.
Proof.
  intros [Ht Hn Hs]%conn_reachable_inv Hc. split.
  { intros (c' & [ls Hls] & Hc') Hd. destruct (deadlocked_steps _ _ _ Hd Hls) as [Hd' _]. congruence. }
  destruct c as [p s W k o]; cbn in *. subst k. destruct (Hn (or_intror eq_refl)) as (-> & Hp & Hsg). intros Hd.
  assert (forall w, W !! w <> Some WAsks) as Ha by (intros w Hw; apply Hd; split; [done|right; by exists w]).
  assert (forall W', (forall w ph, W' !! w = Some ph -> ph = WWaits) ->
    can_close (Build_connection PSelect s W' CLocks true)) as Hsel.
  { intros W' HW'. eapply can_close_leads; [by apply writers_leave|by apply workers_end; [left|..]]. }
  destruct p as [|w| | |]; [apply Hsel| | | |done].
  - intros w [] Hw; [by destruct (Ha w)|done|by apply Ht in Hw].
  - apply (can_close_step (Give w false) _ (Build_connection PSelect s (delete w W) CLocks true)).
    { cbn. by rewrite bool_decide_true by (split; [done|by apply Ht]). }
    apply Hsel. intros w' [] [Hne Hw]%lookup_delete_Some; [by destruct (Ha w')|done|]. apply Ht in Hw. congruence.
  - apply (can_close_step Wrote _ (Build_connection PSelect s W CLocks true)); [done|].
    apply Hsel. intros w [] Hw; [by destruct (Ha w)|done|by apply Ht in Hw].
  - destruct (decide (W = ∅)) as [-> |HW]; [by apply workers_end; [right|..]|]. destruct Hd. split; [done|by left].
Qed.

Lemma conn_steps_reachable ls c c' : reachable c -> steps c ls = Some c' -> reachable c'.
Proof.
  revert c. induction ls as [|l ls IH]; intros c Hc Hs; cbn in Hs; [by injection Hs as <-|].
  destruct (next c l) as [c1|] eqn:E; [|done]. eapply IH; [|exact Hs]. by eapply reach_next.
Qed.

(** A handler's first message fails while its second waits, and the siphon
    tells the bot of the end *)
Definition failing_run : list label :=
  [Calls 0; Asks 0 false; Serve 0; Give 0 true; WriteFails; Calls 0; Asks 0 false; ReadFails; CloseChan; SeesEnd].
(** The bot is told to stop while a handler is about to ask for the status *)
Definition killed_run : list label := [Calls 0; Killed].
(** A handler's only message fails *)
Definition closing_run : list label :=
  [Calls 0; Asks 0 false; Serve 0; Give 0 true; WriteFails; ReadFails; CloseChan; SeesEnd; Lock; PumpEnds; SiphonEnds].

Definition demo_failed : connection := Build_connection PFailed SReports {[0 := WWaits]} CLocks true.
Definition demo_killed : connection := Build_connection PSelect SRead {[0 := WAsks]} CLocks true.

Lemma failing_ends : steps spawned failing_run = Some demo_failed.
Proof. by vm_compute. Qed.
Lemma killed_ends : steps spawned killed_run = Some demo_killed.
Proof. by vm_compute. Qed.

(** Both ways into the deadlock, and one past it *)
Example writers_hang :
  (reachable demo_failed /\ deadlocked demo_failed) /\ (reachable demo_killed /\ deadlocked demo_killed) /\
  closer <$> steps spawned closing_run = Some CThrough.
Proof.
  split; [|split; [|by vm_compute]]; (split; [by eapply conn_steps_reachable;
    [apply reach_spawned|apply failing_ends || apply killed_ends]|split; [done|]]); [by left|right; by exists 0].
Qed.

Example close_returns_iff_witness : reachable demo_failed /\ ~ can_close demo_failed.
Proof.
  assert (reachable demo_failed) as Hr by exact (conn_steps_reachable failing_run spawned _ reach_spawned failing_ends).
  split; [exact Hr|]. intros H. apply (close_returns_iff demo_failed Hr eq_refl) in H.
  apply H. split; [done|by left].
Defined.
