(* ===== verification/Bot.v ===== *)
(** * Package bot: the bot (bot/bot.go)

    The record that joins the other packages, how it is made from a
    configuration, what it offers to extensions, and what becomes of a line
    that a server sends: it is parsed, given to the state of its network and
    then to the four dispatchers.  The store's provider, which opens the
    database, and the logging library, which may fail to open its file, are
    arguments.  Handlers and commands run in goroutines of their own; what is
    started is part of the result.  Locks are left out. *)

From S2P Require Import Prelude GoStrings NetworkInfo Event Parse Client State StoredUser Store Effects.
From S2P Require Import ConfigMap NetCTX Config Validation.
From S2P Require Import DispatchCore Dispatcher Cmd Cmds CoreCmds Server CoreHandler.

(** bot/bot.go:49-49 [errInvalidConfig] *)
Definition errInvalidConfig : bytes := bs "bot: Invalid Configuration".
(** bot/bot.go:52-52 [errUnknownServerID] *)
Definition errUnknownServerID : bytes := bs "bot: Unknown Network id".

Section Bot.
Context {CT : CaseTables} {BC : Bcrypt} {K : KV} {G : Gob} {RZ : RangeOrder Z} {RO : RangeOrder bytes}.
Context (print : Heap -> val -> bytes).
Context (prov : bytes -> bytes + DB) (open_log : bytes -> option bytes).
Context (now : Z).

(** bot/server.go:62-98 [Server]: the record of [Server.v] with the
    dispatchers, the handler and its count of nicks.  [n_shared] says that its
    configuration is the very object the bot has. *)
Record Net := {
  n_server : Server;
  n_shared : bool;
  n_dispatcher : Dispatcher;
  n_cmds : Cmds.Cmds;
  n_handler : option (Z * nat);
}.

(** bot/bot.go:78-109 [Bot]: its servers, configuration, store and
    dispatchers *)
Record Bot := {
  b_servers : gmap bytes Net;
  b_conf : Config.Config;
  b_store : option Store.Store;
  b_dispatcher : Dispatcher;
  b_cmds : Cmds.Cmds;
  b_attachHandlers : bool;
}.

Definition set_servers (b : Bot) (m : gmap bytes Net) : Bot := {| b_servers := m; b_conf := b.(b_conf);
  b_store := b.(b_store); b_dispatcher := b.(b_dispatcher); b_cmds := b.(b_cmds);
  b_attachHandlers := b.(b_attachHandlers) |}.
Definition set_store (b : Bot) (s : option Store.Store) : Bot := {| b_servers := b.(b_servers);
  b_conf := b.(b_conf); b_store := s; b_dispatcher := b.(b_dispatcher); b_cmds := b.(b_cmds);
  b_attachHandlers := b.(b_attachHandlers) |}.
Definition set_bot_dispatcher (b : Bot) (d : Dispatcher) : Bot := {| b_servers := b.(b_servers);
  b_conf := b.(b_conf); b_store := b.(b_store); b_dispatcher := d; b_cmds := b.(b_cmds);
  b_attachHandlers := b.(b_attachHandlers) |}.
Definition set_bot_cmds (b : Bot) (c : Cmds.Cmds) : Bot := {| b_servers := b.(b_servers);
  b_conf := b.(b_conf); b_store := b.(b_store); b_dispatcher := b.(b_dispatcher); b_cmds := c;
  b_attachHandlers := b.(b_attachHandlers) |}.
Definition set_net_server (n : Net) (s : Server) : Net := {| n_server := s; n_shared := n.(n_shared);
  n_dispatcher := n.(n_dispatcher); n_cmds := n.(n_cmds); n_handler := n.(n_handler) |}.
Definition set_net_dispatcher (n : Net) (d : Dispatcher) : Net := {| n_server := n.(n_server);
  n_shared := n.(n_shared); n_dispatcher := d; n_cmds := n.(n_cmds); n_handler := n.(n_handler) |}.
Definition set_net_cmds (n : Net) (c : Cmds.Cmds) : Net := {| n_server := n.(n_server);
  n_shared := n.(n_shared); n_dispatcher := n.(n_dispatcher); n_cmds := c; n_handler := n.(n_handler) |}.
Definition set_net (b : Bot) (networkID : bytes) (n : Net) : Bot :=
  set_servers b (<[networkID := n]> b.(b_servers)).

(** ** What extensions are offered *)

(** bot/bot.go [Bot.getServer] *)
Definition getServer (b : Bot) (networkID : bytes) : option Net := b.(b_servers) !! networkID.

(** bot/bot.go [Bot.Register]: [None] is the loop on an identifier that is
    taken; [draws] are those of [rand.Int]. *)
Definition Register (fuel : nat) (draws : nat -> Z) (b : Bot) (event : bytes) (handler : Handler)
    : option (Z * Bot) :=
  '(id, d) ← Dispatcher.Register fuel draws b.(b_dispatcher) event handler;
  Some (id, set_bot_dispatcher b d).

(** bot/bot.go [Bot.RegisterNetwork] *)
Definition RegisterNetwork (fuel : nat) (draws : nat -> Z) (b : Bot) (networkID event : bytes)
    (handler : Handler) : option (Z * option bytes * Bot) :=
  match getServer b networkID with
  | Some s =>
    '(id, d) ← Dispatcher.Register fuel draws s.(n_dispatcher) event handler;
    Some (id, None, set_net b networkID (set_net_dispatcher s d))
  | None => Some (0%Z, Some errUnknownServerID, b)
  end.

(** bot/bot.go [Bot.Unregister] *)
Definition Unregister (b : Bot) (event : bytes) (id : Z) : bool * Bot :=
  let '(ok, d) := Dispatcher.Unregister b.(b_dispatcher) event id in (ok, set_bot_dispatcher b d).

(** bot/bot.go [Bot.UnregisterNetwork] *)
Definition UnregisterNetwork (b : Bot) (networkID event : bytes) (id : Z) : bool * option bytes * Bot :=
  match getServer b networkID with
  | Some s =>
    let '(ok, d) := Dispatcher.Unregister s.(n_dispatcher) event id in
    (ok, None, set_net b networkID (set_net_dispatcher s d))
  | None => (false, Some errUnknownServerID, b)
  end.

(** bot/bot.go [Bot.RegisterCmd]: the registry of commands is one for all
    bots. *)
Definition RegisterCmd (b : Bot) (g : Registry) (command : nat) : go (option bytes * Bot * Registry) :=
  '(err, c, g) ← Cmds.Register b.(b_cmds) g GLOBAL command;
  Ret (err, set_bot_cmds b c, g).

(** bot/bot.go [Bot.RegisterNetworkCmd] *)
Definition RegisterNetworkCmd (b : Bot) (g : Registry) (networkID : bytes) (command : nat)
    : go (option bytes * Bot * Registry) :=
  match getServer b networkID with
  | Some s =>
    '(err, c, g) ← Cmds.Register s.(n_cmds) g networkID command;
    Ret (err, set_net b networkID (set_net_cmds s c), g)
  | None => Ret (Some errUnknownServerID, b, g)
  end.

(** bot/bot.go [Bot.UnregisterCmd] *)
Definition UnregisterCmd (b : Bot) (g : Registry) (command : bytes) : bool * Bot * Registry :=
  let '(ok, c, g) := Cmds.Unregister b.(b_cmds) g GLOBAL command in (ok, set_bot_cmds b c, g).

(** bot/bot.go [Bot.UnregisterNetworkCmd] *)
Definition UnregisterNetworkCmd (b : Bot) (g : Registry) (networkID command : bytes) : bool * Bot * Registry :=
  match getServer b networkID with
  | Some s =>
    let '(ok, c, g) := Cmds.Unregister s.(n_cmds) g networkID command in
    (ok, set_net b networkID (set_net_cmds s c), g)
  | None => (false, b, g)
  end.

(** bot/bot.go [Bot.OpenState] *)
Definition OpenState (b : Bot) (networkID : bytes) : option State.State :=
  s ← getServer b networkID; s.(n_server).(Server.state).

(** bot/bot.go [Bot.ReadState]: what the callback gives, when it is called *)
Definition ReadState {A} (b : Bot) (networkID : bytes) (fn : State.State -> A) : option A :=
  fn <$> OpenState b networkID.

(** bot/bot.go [Bot.ReadStore]: looking up changes the store's cache. *)
Definition ReadStore (b : Bot) (fn : Store.Store -> Store.Store) : bool * Bot :=
  match b.(b_store) with
  | Some s => (true, set_store b (Some (fn s)))
  | None => (false, b)
  end.
(** bot/bot.go [Bot.WriteStore] *)
Definition WriteStore (b : Bot) (fn : Store.Store -> Store.Store) : bool * Bot := ReadStore b fn.
(** bot/bot.go [Bot.OpenReadStore] *)
Definition OpenReadStore (b : Bot) : option Store.Store := b.(b_store).
(** bot/bot.go [Bot.OpenWriteStore] *)
Definition OpenWriteStore (b : Bot) : option Store.Store := b.(b_store).

(** bot/bot.go [Bot.NetworkWriter]: the server the writer writes to *)
Definition NetworkWriter (b : Bot) (networkID : bytes) : option Server :=
  n_server <$> getServer b networkID.

(** bot/bot.go [Bot.Close]: [err] is what closing the database gives *)
Definition Close (b : Bot) (err : option bytes) : option bytes * Bot :=
  match b.(b_store) with
  | Some _ => (err, set_store b None)
  | None => (None, b)
  end.

(** ** Making a bot *)

(** bot/bot.go [CheckConfig]: [c.Validate] keeps its errors in the
    configuration. *)
Definition CheckConfig (h : Heap) (c : Config.Config) : go (bool * Config.Config) :=
  match Validation.Errors c with
  | _ :: _ => Ret (false, c)
  | [] => Validate print h c
  end.

(** bot/bot.go [Bot.createStore] *)
Definition createStore (filename : bytes) : bytes + Store.Store := NewStore (prov filename).

(** bot/bot.go [Bot.createDispatching], and [Server.createDispatching] of
    bot/server.go *)
Definition createDispatching (prefix : Z) (channels : list bytes) : Dispatcher * Cmds.Cmds :=
  let core := NewDispatchCore channels in (NewDispatcher core, NewCmds prefix core).

(** The core handler of a server, whose methods are those of an event
    handler *)
Definition core_handler : Handler :=
  {| hid := 0; implements := fun i => bool_decide (i = EventHandler) |}.

(** bot/bot.go [Bot.createServer]: [draw] is the first number [rand.Int]
    gives, which is free in a new table. *)
Definition createServer (draw : Z) (attachHandlers shared : bool) (netID : bytes) (h : Heap) (conf : Config.Config)
    : go (bytes + Net) :=
  let s := {| Server.networkID := netID; Server.status := STATUS_STOPPED; Server.statusListeners := None;
              Server.conf := conf; Server.netInfo := NewNetworkInfo; Server.client := None;
              Server.state := None; Server.serverIndex := 0 |} in
  cfg ← deref (Config.Network h conf netID);
  let '(d, cmds) := createDispatching (NetCTX.Prefix h cfg).1 [] in
  '(err, s) ← (if (NetCTX.NoState h cfg).1 then Ret (None, s) else Server.createState s);
  match err with
  | Some err => Ret (inl err)
  | None =>
    if attachHandlers then
      match Dispatcher.Register 0 (fun _ => draw) d RAW core_handler with
      | Some (id, d) => Ret (inr {| n_server := s; n_shared := shared; n_dispatcher := d; n_cmds := cmds;
                                    n_handler := Some (id, 0) |})
      | None => Panic
      end
    else Ret (inr {| n_server := s; n_shared := shared; n_dispatcher := d; n_cmds := cmds; n_handler := None |})
  end.

(** bot/bot.go:555-561 [createBot]: the servers, with the numbers that are
    drawn for them *)
Fixpoint create_servers (draw : bytes -> Z) (attachHandlers : bool) (h : Heap) (conf : Config.Config)
    (networks : list bytes) (servers : gmap bytes Net) : go (bytes + gmap bytes Net) :=
  match networks with
  | [] => Ret (inr servers)
  | net :: networks =>
    r ← createServer (draw net) attachHandlers true net h conf;
    match r with
    | inl err => Ret (inl err)
    | inr server => create_servers draw attachHandlers h conf networks (<[net := server]> servers)
    end
  end.

(** bot/bot.go:542-553 [createBot]: there is a store when one network wants
    it *)
Definition makes_store (h : Heap) (conf : Config.Config) (networks : list bytes) : go bool :=
  go_fold (fun makeStore net =>
    cfg ← deref (Config.Network h conf net);
    Ret (makeStore || negb (NetCTX.NoStore h cfg).1)) false networks.

(** bot/bot.go:517-534 [createBot]: opening the log, without a provider of
    handlers *)
Definition createLog (h : Heap) (conf : Config.Config) : option bytes :=
  let '(file, ok) := Config.LogFile h conf in if ok : bool then open_log file else None.

(** bot/bot.go [createBot]: the error or the bot, and the registry of
    commands; [handler] stands for the core commands' handler. *)
Definition createBot (draw : bytes -> Z) (handler : nat) (attachHandlers attachCommands : bool)
    (h : Heap) (conf : Config.Config) (g : Registry) : go ((bytes + Bot) * Registry) :=
  match createLog h conf with
  | Some err => Ret (inl err, g)
  | None =>
    let networks := Config.Networks h conf in
    cfg ← deref (Config.Network h conf []);
    let '(d, cmds) := createDispatching (NetCTX.Prefix h cfg).1 [] in
    makeStore ← makes_store h conf networks;
    match (if (makeStore : bool)
           then match createStore (Config.StoreFile h conf).1 with inl err => inl err | inr s => inr (Some s) end
           else inr None) with
    | inl err => Ret (inl err, g)
    | inr store =>
      r ← create_servers draw attachHandlers h conf networks ∅;
      match r with
      | inl err => Ret (inl err, g)
      | inr servers =>
        let b c := {| b_servers := servers; b_conf := conf; b_store := store; b_dispatcher := d;
                      b_cmds := c; b_attachHandlers := attachHandlers |} in
        if attachCommands && negb (NetCTX.NoStore h cfg).1 then
          '(err, cmds, g) ← NewCoreCmds handler cmds g;
          Ret (match err with Some err => inl err | None => inr (b cmds) end, g)
        else Ret (inr (b cmds), g)
      end
    end
  end.

(** bot/bot.go [NewBot] *)
Definition NewBot (draw : bytes -> Z) (handler : nat) (h : Heap) (conf : Config.Config) (g : Registry)
    : go ((bytes + Bot) * Registry) :=
  '(ok, conf) ← CheckConfig h conf;
  if negb ok then Ret (inl errInvalidConfig, g)
  else createBot draw handler true true h conf g.

(** ** Messages *)

(** What dispatching an event starts: the handlers of the bot and of the
    network, and the commands of the bot and of the network *)
Record started := {
  st_handlers : list Handler;
  st_net_handlers : list Handler;
  st_cmd : outcome;
  st_net_cmd : outcome;
}.

Context (has_method : nat -> bytes -> bool).

(** bot/bot.go [Bot.dispatchMessage]: the global commands are looked for with
    the prefix of the network. *)
Definition dispatchMessage (g : Registry) (networkID : bytes) (n : Net) (b : Bot) (ev : Event)
    : go (started * Bot) :=
  let '(_, hs, d) := Dispatcher.Dispatch b.(b_dispatcher) ev in
  let '(_, hs', d') := Dispatcher.Dispatch n.(n_dispatcher) ev in
  let b := set_net (set_bot_dispatcher b d) networkID (set_net_dispatcher n d') in
  let state := OpenState b networkID in
  '(o, store) ← Cmds.Dispatch state has_method b.(b_cmds) g networkID (GetPrefix n.(n_cmds)) ev b.(b_store);
  '(o', store) ← Cmds.Dispatch state has_method n.(n_cmds) g networkID 0 ev store;
  Ret ({| st_handlers := hs; st_net_handlers := hs'; st_cmd := o; st_net_cmd := o' |}, set_store b store).

(** bot/bot.go:265-271 [Bot.dispatch]: the event of a line *)
Definition line_event (networkID : bytes) (s : Server) (line : bytes) : option Event :=
  match Parse now line with
  | inl _ => None
  | inr ev => Some {| Name := ev.(Name); Sender := ev.(Sender); Args := ev.(Args); Time := ev.(Time);
                      NetworkID := networkID; NetInfo := Some s.(Server.netInfo) |}
  end.

(** bot/bot.go:259-278 [Bot.dispatch]: what is read from the connection: a
    line that cannot be parsed is logged and dropped. *)
Definition handle_line (g : Registry) (networkID : bytes) (b : Bot) (line : bytes) : go (option started * Bot) :=
  n ← deref (getServer b networkID);
  match line_event networkID n.(n_server) line with
  | None => Ret (None, b)
  | Some ev =>
    st ← match n.(n_server).(Server.state) with
         | Some st => st ← Update st ev; Ret (Some st)
         | None => Ret None
         end;
    let n := set_net_server n (Server.set_state n.(n_server) st) in
    '(r, b) ← dispatchMessage g networkID n (set_net b networkID n) ev;
    Ret (Some r, b)
  end.

(** bot/bot.go:255-256 [Bot.dispatch]: the event of a connection that is made,
    and the one of its end at 285-286 *)
Definition connection_event (name networkID : bytes) (s : Server) : Event :=
  NewEvent now networkID (Some s.(Server.netInfo)) name networkID [].

(** bot/bot.go [Bot.dispatch]: a connection from the event of its start to that
    of its end, with the lines that were read in between *)
Definition dispatch (g : Registry) (networkID : bytes) (b : Bot) (lines : list bytes) : go (list started * Bot) :=
  n ← deref (getServer b networkID);
  '(r, b) ← dispatchMessage g networkID n b (connection_event CONNECT networkID n.(n_server));
  '(rs, b) ← go_fold (fun '(rs, b) line =>
      '(r, b) ← handle_line g networkID b line;
      Ret (rs ++ match r with Some r => [r] | None => [] end, b)) ([r], b) lines;
  n ← deref (getServer b networkID);
  '(r, b) ← dispatchMessage g networkID n b (connection_event DISCONNECT networkID n.(n_server));
  Ret (rs ++ [r], b).
End Bot.
