(* ===== verification/BotConfig.v ===== *)
(** * Package bot: changing the configuration of a running bot (bot/botconfig.go)

    What replacing the configuration does to the servers of a bot.  Servers
    that are started or stopped, lines that are written, and errors that are
    reported to [botEnd] are part of the result, in order; the goroutines
    behind them are those of [Lifecycle.v]. *)

From S2P Require Import Prelude GoStrings Fmt Event Client Store StoredUser.
From S2P Require Import ConfigMap NetCTX Config Validation ConfigFile.
From S2P Require Import Dispatcher Cmds Server CoreHandler Bot.

(** bot/botconfig.go:13-13 [errFmtNewServer] *)
Definition errFmtNewServer : bytes := bs "bot: The new server (%v) could not be instantiated: %v".

(** What the bot does besides changing its records *)
Inductive effect :=
  | Starts (netID : bytes)
  | Stops (netID : bytes)
  | Writes (netID : bytes) (line : bytes)
  | Reports (err : bytes).

Section BotConfig.
Context {CT : CaseTables} {BC : Bcrypt} {K : KV} {G : Gob} {RZ : RangeOrder Z} {RO : RangeOrder bytes}.
Context {T : Toml} {F : Files}.
Context (print : Heap -> val -> bytes).
(** Whether the pump of a network's client takes what is written *)
Context (pump_open : bytes -> bool).

(** bot/botconfig.go [Bot.ReadConfig] *)
Definition ReadConfig {A} (b : Bot) (fn : Config.Config -> A) : A := fn b.(b_conf).

(** The configuration object of the bot changes, and with it that of every
    server that shares it. *)
Definition set_conf (b : Bot) (c : Config.Config) : Bot := {|
  b_servers := (fun n => if n.(n_shared) then
                   set_net_server n {| Server.networkID := n.(n_server).(Server.networkID);
                     Server.status := n.(n_server).(Server.status);
                     Server.statusListeners := n.(n_server).(Server.statusListeners); Server.conf := c;
                     Server.netInfo := n.(n_server).(Server.netInfo); Server.client := n.(n_server).(Server.client);
                     Server.state := n.(n_server).(Server.state);
                     Server.serverIndex := n.(n_server).(Server.serverIndex) |}
                 else n) <$> b.(b_servers);
  b_conf := c; b_store := b.(b_store); b_dispatcher := b.(b_dispatcher); b_cmds := b.(b_cmds);
  b_attachHandlers := b.(b_attachHandlers) |}.

(** bot/botconfig.go [Bot.WriteConfig] *)
Definition WriteConfig (b : Bot) (fn : Config.Config -> Config.Config) : Bot := set_conf b (fn b.(b_conf)).

(** bot/botconfig.go [Bot.startNewServers]: which networks are new is read from
    the bot's configuration and not from its servers; the new servers keep the
    configuration they are made from. *)
Fixpoint start_new (draw : bytes -> Z) (h : Heap) (newConfig : Config.Config) (networks : list bytes) (b : Bot)
    : go (list effect * Bot) :=
  match networks with
  | [] => Ret ([], b)
  | net :: networks =>
    '(e, b) ← match Config.Network h b.(b_conf) net with
              | Some _ => Ret ([], b)
              | None =>
                r ← createServer (draw net) b.(b_attachHandlers) false net h newConfig;
                Ret match r with
                    | inl err => ([Reports (Sprintf errFmtNewServer [VString net; VOther (bs "error") err])], b)
                    | inr server => ([Starts net], set_net b net server)
                    end
              end;
    '(es, b) ← start_new draw h newConfig networks b;
    Ret (e ++ es, b)
  end.
Definition startNewServers (draw : bytes -> Z) (h : Heap) (newConfig : Config.Config) (b : Bot) :=
  start_new draw h newConfig (Config.Networks h newConfig) b.

(** bot/botconfig.go [Server.rehashConfig]: the new nick is asked for; the
    error of writing it is not looked at. *)
Definition rehashConfig (h : Heap) (s : Server) (newConfig : Config.Config) : go (list effect) :=
  old ← deref (Config.Network h s.(Server.conf) s.(Server.networkID));
  new ← deref (Config.Network h newConfig s.(Server.networkID));
  let oldNick := (NetCTX.Nick h old).1 in
  let newNick := (NetCTX.Nick h new).1 in
  if bool_decide (newNick <> oldNick) then
    let line := P_NICK ++ bs " :" ++ newNick in
    r ← Server_Write s (pump_open s.(Server.networkID)) line;
    Ret match r with inl _ => [] | inr _ => [Writes s.(Server.networkID) line] end
  else Ret [].

(** bot/botconfig.go:45-53 [Bot.ReplaceConfig]: the loop over the servers *)
Fixpoint update_servers (h : Heap) (newConfig : Config.Config) (l : list (bytes * Net)) (b : Bot)
    : go (list effect * Bot) :=
  match l with
  | [] => Ret ([], b)
  | (netID, s) :: l =>
    '(e, b) ← match Config.Network h newConfig netID with
              | None => Ret ([Stops netID], Bot.set_servers b (delete netID b.(b_servers)))
              | Some _ => e ← rehashConfig h s.(n_server) newConfig; Ret (e, b)
              end;
    '(es, b) ← update_servers h newConfig l b;
    Ret (e ++ es, b)
  end.

(** bot/botconfig.go [Bot.ReplaceConfig]: whether it did anything, with the
    checked configuration; [None] is fuel that ran out in copying it. *)
Definition ReplaceConfig (n : nat) (draw : bytes -> Z) (h : Heap) (newConfig : Config.Config) (b : Bot)
    : go (option (bool * Config.Config * list effect * Bot * Heap)) :=
  '(ok, newConfig) ← Validate print h newConfig;
  if negb ok then Ret (Some (false, newConfig, [], b, h)) else
  '(es, b) ← startNewServers draw h newConfig b;
  '(es', b) ← update_servers h newConfig (range b.(b_servers)) b;
  Ret ('(c, h) ← Config.Replace n h b.(b_conf) newConfig;
       Some (true, newConfig, es ++ es', set_conf b c, h)).

(** bot/botconfig.go [Bot.Rehash]: the file that is read is that of the store;
    no server is started, stopped or told. *)
Definition Rehash (n : nat) (h : Heap) (b : Bot) : go (option (option bytes * Bot * Heap)) :=
  let fname := (Config.StoreFile h b.(b_conf)).1 in
  let '(c, h) := Config.NewConfig h in
  let '(c, h) := FromFile h c fname in
  '(ok, c) ← CheckConfig print h c;
  if negb ok then Ret (Some (Some errInvalidConfig, b, h)) else
  Ret ('(c, h) ← Config.Replace n h b.(b_conf) c; Some (None, set_conf b c, h)).

(** bot/botconfig.go [Bot.DumpConfig] *)
Definition DumpConfig (h : Heap) (b : Bot) : option bytes * list (bytes * bytes) := ToFile h b.(b_conf) [].

(** bot/botconfig.go [contains] *)
Definition contains (a b : list bytes) : bool :=
  if bool_decide (length a <> length b) then false
  else forallb (fun x => existsb (fun y => bool_decide (x = y)) b) a.
End BotConfig.
