(* ===== verification/BotSpec.v ===== *)
(** * What the bot guarantees

    A configuration makes a bot with a server for every network, ready as its
    settings say ([createBot_ready]); replacing the configuration keeps the
    servers those of the configuration ([ReplaceConfig_in_sync]); and a line
    from a server goes through parser, state, dispatchers and commanders
    ([line_goes_through]). *)

From S2P Require Import Prelude GoStrings NetworkInfo Event Parse Client Modes ChannelModes UserModes State StateInv StateRun.
From S2P Require Import StoredUser Store StoreInv Effects ConfigMap NetCTX Config Validation ConfigFile.
From S2P Require Import ConfigSpec ConfigClone DispatchCore Dispatcher Cmd Cmds CmdRun CoreText CoreCmds CoreRun.
From S2P Require Import Server CoreHandler Bot BotConfig.

(** ** A new server *)

(** The state of a network of which nothing is known yet *)
Lemma new_state : exists k u, NewState (Some NewNetworkInfo) = Ret (inr (set_tables empty_state k u)).
Proof.
  unfold NewState, SetNetworkInfo.
  destruct (NewChannelModeKindsCSV _) as [?|k] eqn:E1; [exfalso; by vm_compute in E1|].
  destruct (NewUserModeKinds _) as [[?|u]|] eqn:E2; [exfalso; by vm_compute in E2| |exfalso; by vm_compute in E2].
  by exists k, u.
Qed.

Section Spec.
Context {CT : CaseTables}.

(** A server as its network's settings want it *)
Definition net_ready (draw : Z) (attach shared : bool) (netID : bytes) (h : Heap) (conf : Config.Config) (n : Net) : Prop :=
  exists cfg, Config.Network h conf netID = Some cfg /\
  n.(n_server).(Server.networkID) = netID /\ n.(n_server).(Server.conf) = conf /\ n.(n_shared) = shared /\
  n.(n_server).(Server.status) = STATUS_STOPPED /\ n.(n_server).(Server.client) = None /\
  GetPrefix n.(n_cmds) = (NetCTX.Prefix h cfg).1 /\
  (if (NetCTX.NoState h cfg).1 then n.(n_server).(Server.state) = None
   else exists st, n.(n_server).(Server.state) = Some st /\ state_wf st /\ no_nil st) /\
  n.(n_dispatcher).(events) = (if attach then {[RAW := {[draw := core_handler]}]} else ∅) /\
  Cmds.commands n.(n_cmds) = ∅.

Lemma createServer_ready draw attach shared netID h conf cfg :
  Config.Network h conf netID = Some cfg ->
  exists n, createServer draw attach shared netID h conf = Ret (inr n) /\ net_ready draw attach shared netID h conf n.
Proof.
  intros Hc. unfold createServer. rewrite Hc. cbn [deref mbind go_bind createDispatching]. cbn beta iota zeta.
  destruct new_state as (k & u & Hs).
  assert (state_wf (set_tables empty_state k u) /\ no_nil (set_tables empty_state k u)) as [Hw Hn].
  { split; [apply empty_state_wf|]. by split. }
  destruct (NetCTX.NoState h cfg).1 eqn:En; cbn [mbind go_bind].
  - destruct attach; cbn; (eexists; split; [reflexivity|]); exists cfg; cbn; rewrite En; by repeat split.
  - unfold Server.createState. cbn [Server.netInfo]. rewrite Hs. cbn [mbind go_bind].
    destruct attach; cbn; (eexists; split; [reflexivity|]); exists cfg; cbn; rewrite En;
      (split; [done|]); do 5 (split; [done|]); (split; [done|]); (split; [by eexists|]); by split.
Qed.

Lemma create_servers_ready draw attach h conf networks m :
  Forall (fun net => is_Some (Config.Network h conf net)) networks ->
  exists m', create_servers draw attach h conf networks m = Ret (inr m') /\
    (forall net, is_Some (m' !! net) <-> net ∈ networks \/ is_Some (m !! net)) /\
    (forall net n, m' !! net = Some n -> m !! net = Some n \/ net_ready (draw net) attach true net h conf n).
Proof.
  intros Hn. revert m. induction Hn as [|net networks [cfg Hc] _ IH]; intros m; cbn [create_servers].
  { exists m. split; [done|]. split; [|by left]. intros net. rewrite elem_of_nil. tauto. }
  destruct (createServer_ready (draw net) attach true net h conf cfg Hc) as (n & -> & Hr). cbn [mbind go_bind].
  destruct (IH (<[net := n]> m)) as (m' & -> & Hd & Hall). exists m'. split; [done|]. split.
  - intros net'. rewrite Hd, elem_of_cons, lookup_insert_is_Some'. naive_solver.
  - intros net' n' Hn'. destruct (Hall _ _ Hn') as [Hi|Hi]; [|by right].
    destruct (decide (net' = net)) as [->|Hne].
    + rewrite lookup_insert_eq in Hi. injection Hi as <-. by right.
    + rewrite lookup_insert_ne in Hi by done. by left.
Qed.

(** ** The core commands are registered *)

Lemma makeIdentifier_inj s a b : makeIdentifier s a = makeIdentifier s b -> a = b.
Proof. unfold makeIdentifier. intros H. by apply app_inv_head, app_inv_head in H. Qed.

Definition entry_ok (e : core_entry) : Prop :=
  e.(en_Name) <> [] /\ e.(en_Desc) <> [] /\ (parseArgs (core_cmd 0 e)).1 = None.
#[export] Instance entry_ok_dec e : Decision (entry_ok e).
Proof. apply _. Defined.

Lemma commands_ok : Forall entry_ok CoreCmds.commands /\ NoDup (map en_Name CoreCmds.commands).
Proof. split; decide_now. Qed.

Lemma register_core_ok h entries c g :
  Forall entry_ok entries -> NoDup (map en_Name entries) ->
  (forall e, e ∈ entries -> globalCmdRegistry g !! makeIdentifier GLOBAL e.(en_Name) = None) ->
  exists c' g', register_core h entries c g = Ret (None, c', g') /\ c'.(prefix) = c.(prefix) /\ Cmds.core c' = Cmds.core c /\
    (forall name, is_Some (Cmds.commands c' !! name) <-> name ∈ map en_Name entries \/ is_Some (Cmds.commands c !! name)) /\
    (forall id, is_Some (globalCmdRegistry g' !! id) <->
       id ∈ map (fun e => makeIdentifier GLOBAL e.(en_Name)) entries \/ is_Some (globalCmdRegistry g !! id)).
Proof.
  intros He Hd Hfree. revert c g Hfree. induction He as [|e entries (E1 & E2 & E3) _ IH]; intros c g Hfree; cbn [register_core].
  { exists c, g. split; [done|]. split; [done|]. split; [done|]. cbn.
    split; intros x; rewrite elem_of_nil; tauto. }
  cbn [map] in Hd. apply NoDup_cons in Hd as [Hnot Hd].
  set (p := fresh (dom (cmd_heap g))). set (g1 := {| cmd_heap := _ |}).
  assert (cmd_heap g1 !! p = Some (core_cmd h e)) as Hp by apply lookup_insert_eq.
  assert (registrable g1 GLOBAL (core_cmd h e)) as Hreg.
  { unfold registrable. cbn. assert (globalCmdRegistry g !! makeIdentifier GLOBAL (en_Name e) = None) as Hf by (apply Hfree; by left).
    do 2 (split; [done|]). split; [done|]. split; [by decide_now|]. split; [done|]. split; [done|].
    pose proof (parseArgs_texts (core_cmd 0 e)) as Ha. destruct (parseArgs (core_cmd 0 e)) as [err c1]. cbn in E3, Ha.
    by apply Ha. }
  destruct (Register_cases c g1 GLOBAL p _ Hp) as [(err & _ & Hno)|[(err & cmd' & _ & Hno & _)|[-> _]]]; try done.
  cbn [mbind go_bind].
  set (c2 := {| Cmds.core := _ |}). set (g2 := {| cmd_heap := _ |}).
  destruct (IH Hd c2 g2) as (c' & g' & -> & Hpre & Hcore & Hcmds & Hids).
  { intros e' He'. unfold g2. cbn [globalCmdRegistry]. rewrite lookup_insert_ne; [apply Hfree; by right|].
    intros Heq%makeIdentifier_inj. apply Hnot. cbn in Heq. rewrite Heq. by apply list_elem_of_fmap_2. }
  exists c', g'. split; [done|]. split; [done|]. split; [done|]. split.
  - intros name. rewrite Hcmds. unfold c2. cbn [Cmds.commands map]. rewrite elem_of_cons, lookup_insert_is_Some'. cbn. naive_solver.
  - intros id. rewrite Hids. unfold g2. cbn [globalCmdRegistry map]. rewrite elem_of_cons, lookup_insert_is_Some'. cbn. naive_solver.
Qed.

(** ** A new bot *)

Section Made.
Context {BC : Bcrypt} {K : KV} {G : Gob} {RO : RangeOrder bytes}.
Context (prov : bytes -> bytes + DB) (open_log : bytes -> option bytes).

(** Whether a network uses the store *)
Definition stores (h : Heap) (conf : Config.Config) (net : bytes) : Prop :=
  exists cfg, Config.Network h conf net = Some cfg /\ (NetCTX.NoStore h cfg).1 = false.

Lemma makes_store_spec h conf networks :
  Forall (fun net => is_Some (Config.Network h conf net)) networks ->
  exists v, makes_store h conf networks = Ret v /\ (v = true <-> exists net, net ∈ networks /\ stores h conf net).
Proof.
  intros Hn. unfold makes_store.
  assert (forall acc, exists v, go_fold (fun makeStore net =>
    cfg ← deref (Config.Network h conf net); Ret (makeStore || negb (NetCTX.NoStore h cfg).1)) acc networks = Ret v /\
    (v = true <-> acc = true \/ exists net, net ∈ networks /\ stores h conf net)) as Hall.
  { induction Hn as [|net networks [cfg Hc] _ IH]; intros acc; cbn [go_fold].
    { exists acc. split; [done|]. split; [by left|]. intros [|(net & Hnet & _)]; [done|]. by apply elem_of_nil in Hnet. }
    rewrite Hc. cbn [deref mbind go_bind]. destruct (IH (acc || negb (NetCTX.NoStore h cfg).1)) as (v & -> & Hv).
    exists v. split; [done|]. rewrite Hv, orb_true_iff, negb_true_iff. split.
    - intros [[Ha|Hs]|(net' & Hin & Hs)]; [by left|right; exists net|right; exists net'].
      + split; [by left|by exists cfg].
      + split; [by right|done].
    - intros [Ha|(net' & [->|Hin]%elem_of_cons & Hs)]; [by left; left| |right; by exists net'].
      left. right. destruct Hs as (cfg' & Hc' & Hs). rewrite Hc in Hc'. by injection Hc' as <-. }
  destruct (Hall false) as (v & Hv & Hiff). exists v. split; [done|]. rewrite Hiff. naive_solver.
Qed.

(** A bot that is ready to start *)
Record bot_ready (draw : bytes -> Z) (attachH attachC : bool) (h : Heap) (conf : Config.Config) (b : Bot) : Prop := {
  br_servers : forall net, is_Some (b.(b_servers) !! net) <-> net ∈ Config.Networks h conf;
  br_server : forall net n, b.(b_servers) !! net = Some n -> net_ready (draw net) attachH true net h conf n;
  br_conf : b.(b_conf) = conf;
  br_store : is_Some b.(b_store) <-> exists net, net ∈ Config.Networks h conf /\ stores h conf net;
  br_prefix : forall cfg, Config.Network h conf [] = Some cfg -> GetPrefix b.(b_cmds) = (NetCTX.Prefix h cfg).1;
  br_cmds : forall name, is_Some (Cmds.commands b.(b_cmds) !! name) <->
    attachC = true /\ stores h conf [] /\ name ∈ map en_Name CoreCmds.commands;
}.

(** Everything a message goes through is in order. *)
Record bot_ok (g : Registry) (b : Bot) : Prop := {
  ok_nets : forall id n, b.(b_servers) !! id = Some n ->
    state_ok n.(n_server).(Server.state) /\ cmds_wf n.(n_cmds) g;
  ok_store : store_ok b.(b_store);
  ok_cmds : cmds_wf b.(b_cmds) g;
}.

Lemma bot_ok_net g b id n :
  bot_ok g b -> state_ok n.(n_server).(Server.state) -> cmds_wf n.(n_cmds) g -> bot_ok g (set_net b id n).
Proof.
  intros [H1 H2 H3] Hst Hc. split; [|done|done]. cbn. intros id' n' [[<- <-]|[_ Hn]]%lookup_insert_Some; [done|].
  by eapply H1.
Qed.

Lemma register_core_wf h entries c g err c' g' :
  cmds_wf c g -> register_core h entries c g = Ret (err, c', g') -> cmds_wf c' g'.
Proof.
  revert c g. induction entries as [|e entries IH]; intros c g Hwf; cbn [register_core].
  { by intros [= _ <- <-]. }
  set (p := fresh (dom (cmd_heap g))). set (g1 := {| cmd_heap := _ |}).
  assert (p ∉ dom (cmd_heap g)) as Hp by apply is_fresh.
  assert (cmds_wf c g1) as Hwf1.
  { destruct Hwf as [W1 W2]. split.
    - intros q cmd. unfold g1. cbn [cmd_heap]. intros [[<- <-]|[_ Hq]]%lookup_insert_Some; [done|exact (W1 q cmd Hq)].
    - intros name q (cmd & H1 & H2)%W2. exists cmd. split; [|done]. unfold g1. cbn [cmd_heap].
      rewrite lookup_insert_ne; [done|]. intros <-. by apply elem_of_dom_2, Hp in H1. }
  intros ([[e1 c1] g2] & H1 & H2)%bind_Ret_inv. pose proof (Register_wf _ _ _ _ _ _ _ Hwf1 H1) as Hwf2.
  destruct e1; [by injection H2 as _ <- <-|]. by eapply IH.
Qed.

Lemma createBot_ok draw handler attachH attachC h conf g d :
  createLog open_log h conf = None ->
  Forall (fun net => is_Some (Config.Network h conf net)) (Config.Networks h conf) ->
  prov (Config.StoreFile h conf).1 = inr d ->
  (forall e, e ∈ CoreCmds.commands -> globalCmdRegistry g !! makeIdentifier GLOBAL e.(en_Name) = None) ->
  heap_ok (cmd_heap g) ->
  exists b g', createBot prov open_log draw handler attachH attachC h conf g = Ret (inr b, g') /\
    bot_ready draw attachH attachC h conf b /\ bot_ok g' b.
Proof.
  intros Hlog Hnets Hprov Hfree Hheap. unfold createBot. rewrite Hlog.
  assert (Config.Network h conf [] = Some {| NetCTX.parent := None; NetCTX.network := Config.root conf |}) as Hroot by done.
  set (cfg := {| NetCTX.parent := None; NetCTX.network := Config.root conf |}) in *. rewrite Hroot.
  cbn [deref mbind go_bind createDispatching].
  destruct (makes_store_spec h conf _ Hnets) as (v & -> & Hv). cbn [mbind go_bind].
  unfold createStore. rewrite Hprov. cbn [NewStore].
  destruct (create_servers_ready draw attachH h conf _ ∅ Hnets) as (m & Hm & Hdom & Hall).
  set (st := {| db := d; cache := ∅; authed := ∅; checkedFirst := false; suheap := ∅ |}).
  assert ((if v then inr (Some st) else inr None) = inr (A := bytes) (if v then Some st else None)) as -> by by destruct v.
  rewrite Hm. cbn [mbind go_bind].
  assert (forall net, is_Some (m !! net) <-> net ∈ Config.Networks h conf) as Hdom'.
  { intros net. rewrite Hdom, lookup_empty. split; [|by left]. intros [?|[]%is_Some_None]. done. }
  assert (forall net n, m !! net = Some n -> net_ready (draw net) attachH true net h conf n) as Hall'.
  { intros net n Hn. destruct (Hall _ _ Hn) as [H|H]; [by rewrite lookup_empty in H|done]. }
  assert (is_Some (if v then Some st else None) <-> exists net, net ∈ Config.Networks h conf /\ stores h conf net) as Hst.
  { rewrite <- Hv. destruct v; by split. }
  assert (stores h conf [] <-> (NetCTX.NoStore h cfg).1 = false) as Hno.
  { split; [|by exists cfg]. intros (cfg' & [= <-] & H). done. }
  assert (store_ok (if v then Some st else None)) as Hstore.
  { destruct v; [|done]. split; unfold st; cbn [Store.cache Store.authed]; [intros ? ?; by rewrite lookup_empty..|].
    rewrite map_size_empty. apply Nat.le_0_l. }
  assert (forall p dc g', heap_ok (cmd_heap g') -> cmds_wf (NewCmds p dc) g') as Hnew.
  { intros p dc g' Hg'. split; [done|]. by intros ? ?. }
  assert (forall b' g', b'.(b_servers) = m -> heap_ok (cmd_heap g') -> store_ok b'.(b_store) -> cmds_wf b'.(b_cmds) g' ->
    bot_ok g' b') as Hbot.
  { intros b' g' Hb' Hg' Hs' Hc'. split; [|done|done]. rewrite Hb'. intros id n (cfg' & _ & _ & _ & _ & _ & _ & _ & Hstate & _ & Hcmds)%Hall'.
    split.
    - destruct (NetCTX.NoState h cfg').1; [by rewrite Hstate|]. by destruct Hstate as (s & -> & Hw & _).
    - split; [done|]. intros name p. by rewrite Hcmds, lookup_empty. }
  destruct (attachC && negb (NetCTX.NoStore h cfg).1) eqn:Ea.
  - apply andb_true_iff in Ea as [-> Ea%negb_true_iff]. unfold NewCoreCmds.
    destruct commands_ok as [C1 C2].
    destruct (register_core_ok handler CoreCmds.commands (NewCmds (NetCTX.Prefix h cfg).1 (NewDispatchCore [])) g C1 C2 Hfree)
      as (c' & g' & Hrc & Hpre & _ & Hcmds & _).
    pose proof (register_core_wf _ _ _ _ _ _ _ (Hnew _ _ _ Hheap) Hrc) as Hwf. rewrite Hrc.
    cbn [mbind go_bind]. eexists _, _. split; [reflexivity|].
    split; [|apply Hbot; [done|apply Hwf|done|done]]. split; cbn; try done.
    + by intros cfg' [= <-].
    + intros name. rewrite Hcmds. cbn. rewrite lookup_empty.
      split; [intros [?|[]%is_Some_None]; by rewrite Hno|]. intros (_ & _ & ?). by left.
  - eexists _, _. split; [reflexivity|]. split; [|apply Hbot; [done|done|done|by apply Hnew]]. split; cbn; try done.
    + by intros cfg' [= <-].
    + intros name. rewrite lookup_empty. split; [intros []%is_Some_None|]. intros (-> & Hs%Hno & _).
      by rewrite Hs in Ea.
Qed.

Context (print : Heap -> val -> bytes).

End Made.

(** ** Another configuration *)

Section Replaced.
Context {BC : Bcrypt} {K : KV} {G : Gob} {RO : RangeOrder bytes}.
Implicit Types (h : Heap) (c : Config.Config).

Lemma elem_of_Networks h c net :
  net ∈ Config.Networks h c <-> is_Some (at_key h (get h (Config.root c) (bs "networks")) net).
Proof.
  unfold Config.Networks, entries. destruct (get h (Config.root c) (bs "networks")) as [nets|]; cbn.
  - unfold at_key. cbn. split.
    + intros ([k v] & -> & Hin%elem_of_range)%list_elem_of_fmap. cbn in *.
      destruct (h !! nets); cbn in *; [by exists v|by rewrite lookup_empty in Hin].
    + intros [v Hv]. apply list_elem_of_fmap. exists (net, v). split; [done|]. apply elem_of_range.
      by destruct (h !! nets).
  - split; [by intros ?%elem_of_nil|by intros []].
Qed.

(** Every network of the configuration has a name and is a map. *)
Definition conf_ok h c : Prop := forall net, net ∈ Config.Networks h c -> net <> [] /\ is_Some (Config.Network h c net).

Lemma Network_named h c net : net <> [] -> is_Some (Config.Network h c net) -> net ∈ Config.Networks h c.
Proof.
  rewrite elem_of_Networks. unfold Config.Network. destruct net as [|x net]; [done|]. intros _.
  destruct (get h (Config.root c) (bs "networks")) as [nets|]; [|by intros []].
  unfold get. by destruct (at_key h (Some nets) (x :: net)); [|intros []].
Qed.

Lemma conf_ok_Network h c net : conf_ok h c -> net <> [] -> Config.Network h c net = None <-> net ∉ Config.Networks h c.
Proof.
  intros Hok Hne. split.
  - intros Hn Hin. apply Hok in Hin as [_ [x Hx]]. congruence.
  - intros Hnot. apply eq_None_not_Some. intros Hs. by apply Hnot, Network_named.
Qed.

Lemma at_key_kept h h' m key v :
  (forall l, l ∈ dom h -> h' !! l = h !! l) -> at_key h m key = Some v -> at_key h' m key = Some v.
Proof.
  intros Hk. unfold at_key. destruct m as [l|]; [|done]. cbn. intros H. rewrite Hk; [done|].
  apply elem_of_dom. by destruct (h !! l).
Qed.

Lemma Network_kept h h' c net x :
  (forall l, l ∈ dom h -> h' !! l = h !! l) -> Config.Network h c net = Some x -> Config.Network h' c net = Some x.
Proof.
  intros Hk. assert (forall m k l, get h m k = Some l -> get h' m k = Some l) as Hget.
  { intros m k l. unfold get. destruct (at_key h m k) as [v|] eqn:E; [|done].
    by rewrite (at_key_kept _ _ _ _ _ Hk E). }
  unfold Config.Network. destruct net as [|y net]; [done|].
  destruct (get h (Config.root c) (bs "networks")) as [nets|] eqn:E1; [|done]. rewrite (Hget _ _ _ E1).
  destruct (get h (Some nets) (y :: net)) as [l|] eqn:E2; [|done]. by rewrite (Hget _ _ _ E2).
Qed.

(** A copy of a configuration has the same networks. *)
Lemma copied_networks h h' c c' :
  conf_ok h c -> (forall path key, same_value (entry_at h c path key) (entry_at h' c' path key)) ->
  conf_ok h' c' /\ forall net, net ∈ Config.Networks h' c' <-> net ∈ Config.Networks h c.
Proof.
  intros Hok Hsame. assert (forall net, net ∈ Config.Networks h' c' <-> net ∈ Config.Networks h c) as Hin.
  { intros net. rewrite !elem_of_Networks. specialize (Hsame [bs "networks"] net). unfold entry_at in Hsame. cbn [walk foldl] in Hsame.
    destruct (at_key h _ net) as [v|], (at_key h' _ net) as [v'|]; cbn in Hsame; try done; naive_solver. }
  split; [|done]. intros net [Hne [x Hx]]%Hin%Hok. split; [done|].
  unfold Config.Network in *. destruct net as [|y net]; [done|].
  specialize (Hsame [bs "networks"] (y :: net)). unfold entry_at in Hsame. cbn [walk foldl] in Hsame.
  destruct (get h (Config.root c) (bs "networks")) as [nets|]; [|done].
  unfold get at 1 in Hx. destruct (at_key h (Some nets) (y :: net)) as [v|]; [|done].
  destruct (at_key h' _ (y :: net)) as [v'|] eqn:E'; [|done]. cbn in Hsame.
  assert (exists q, v' = VMap (Some q)) as [q ->] by by destruct v.
  destruct (get h' (Config.root c') (bs "networks")) as [nets'|]; [|done]. unfold get. rewrite E'. by eexists.
Qed.

Context (print : Heap -> val -> bytes) (pump_open : bytes -> bool).

Lemma start_new_spec draw h nc networks b :
  Forall (fun net => is_Some (Config.Network h nc net)) networks ->
  let new net := Config.Network h b.(b_conf) net = None in
  exists b', start_new draw h nc networks b = Ret (map Starts (filter new networks), b') /\
    b'.(b_conf) = b.(b_conf) /\
    (forall net n, b'.(b_servers) !! net = Some n -> b.(b_servers) !! net = Some n /\ ~ (net ∈ networks /\ new net) \/
       net ∈ networks /\ new net /\ net_ready (draw net) b.(b_attachHandlers) false net h nc n) /\
    (forall net, is_Some (b'.(b_servers) !! net) <-> is_Some (b.(b_servers) !! net) \/ net ∈ networks /\ new net).
Proof.
  intros Hn new. revert b new. induction Hn as [|net networks [cfg Hc] _ IH]; intros b new; cbn [start_new].
  { exists b. split; [done|]. split; [done|]. split.
    - intros net n Hl. left. split; [done|]. intros [?%elem_of_nil _]. done.
    - intros net. split; [by left|]. intros [|[?%elem_of_nil _]]; done. }
  rewrite filter_cons. destruct (decide (new net)) as [Eo|Eo]; unfold new in Eo.
  2: { apply not_eq_None_Some in Eo as [old Eo]. rewrite Eo. cbn [mbind go_bind].
    destruct (IH b) as (b' & -> & Hconf & Hall & Hdom).
    exists b'. split; [done|]. split; [done|]. split.
    + intros net' n Hl. destruct (Hall _ _ Hl) as [[H1 H2]|(H1 & H2)].
      * left. split; [done|]. intros [[->|Hin]%elem_of_cons Hnew]; [unfold new in Hnew; congruence|]. by apply H2.
      * right. split; [by right|done].
    + intros net'. rewrite Hdom, elem_of_cons. split; [naive_solver|].
      intros [|[[->|] Hnew]]; [by left|unfold new in Hnew; congruence|by right]. }
  rewrite Eo. destruct (createServer_ready (draw net) b.(b_attachHandlers) false net h nc cfg Hc) as (n & -> & Hr).
  cbn [mbind go_bind]. destruct (IH (set_net b net n)) as (b' & -> & Hconf & Hall & Hdom).
  cbn [mbind go_bind app map]. exists b'. split; [done|]. split; [done|].
  cbn [set_net Bot.set_servers b_conf b_servers b_attachHandlers] in *. split.
    + intros net' n' Hl. destruct (Hall _ _ Hl) as [[H1 H2]|(H1 & H2 & H3)]; [|right; split; [by right|done]].
      destruct (decide (net' = net)) as [->|Hne].
      * rewrite lookup_insert_eq in H1. injection H1 as <-. right. split; [by left|done].
      * rewrite lookup_insert_ne in H1 by done. left. split; [done|].
        intros [[?|Hin]%elem_of_cons Hnew]; [done|]. by apply H2.
    + intros net'. rewrite Hdom, elem_of_cons, lookup_insert_is_Some'. unfold new. naive_solver.
Qed.

(** A server can be told a nick: it is stopped, or has a client. *)
Definition tellable (n : Net) : Prop :=
  n.(n_server).(Server.status) = STATUS_STOPPED \/ is_Some n.(n_server).(Server.client).

Lemma rehashConfig_returns h n nc :
  tellable n -> is_Some (Config.Network h n.(n_server).(Server.conf) n.(n_server).(Server.networkID)) ->
  is_Some (Config.Network h nc n.(n_server).(Server.networkID)) ->
  exists es, rehashConfig pump_open h n.(n_server) nc = Ret es /\ forall e, e ∈ es -> exists line, e = Writes n.(n_server).(Server.networkID) line.
Proof.
  intros Ht [x Hx] [y Hy]. unfold rehashConfig. rewrite Hx, Hy. cbn [deref mbind go_bind].
  case_bool_decide; [|exists []; split; [done|intros e He; by apply elem_of_nil in He]].
  unfold Server_Write, GetStatus. set (line := P_NICK ++ _).
  assert (line <> []) as Hl by (unfold line, P_NICK; by intros E).
  destruct line as [|a line']; [done|]. destruct Ht as [->|[cl ->]].
  - exists []. split; [done|]. intros e He. by apply elem_of_nil in He.
  - case_bool_decide; cbn; eexists; (split; [reflexivity|]); intros e He.
    + apply list_elem_of_singleton in He as ->. by eexists.
    + by apply elem_of_nil in He.
Qed.

Lemma update_servers_spec h nc l b :
  Forall (fun x => x.2.(n_server).(Server.networkID) = x.1 /\ tellable x.2 /\
    is_Some (Config.Network h x.2.(n_server).(Server.conf) x.1)) l ->
  let gone net := Config.Network h nc net = None in
  exists es b', update_servers pump_open h nc l b = Ret (es, b') /\ b'.(b_conf) = b.(b_conf) /\
    (forall net, b'.(b_servers) !! net =
       if bool_decide (net ∈ l.*1 /\ gone net) then None else b.(b_servers) !! net) /\
    (forall net, Stops net ∈ es <-> net ∈ l.*1 /\ gone net) /\ (forall net, Starts net ∉ es).
Proof.
  intros Hl gone. revert b. induction Hl as [|[net n] l (H1 & H2 & H3) _ IH]; intros b; cbn [update_servers].
  { exists [], b. split; [done|]. split; [done|]. split.
    - intros net. rewrite bool_decide_false; [done|]. by intros [?%elem_of_nil _].
    - split; intros net; rewrite !elem_of_nil; tauto. }
  cbn [fst snd] in *. rewrite fmap_cons. cbn [fst].
  destruct (Config.Network h nc net) as [x|] eqn:Ex; cbn [mbind go_bind].
  - rewrite <- H1 in H3. destruct (rehashConfig_returns h n nc H2 H3) as (e & -> & He).
    { rewrite H1, Ex. by eexists. }
    cbn [mbind go_bind]. destruct (IH b) as (es & b' & -> & Hconf & Hs & Hst & Hno). cbn [mbind go_bind].
    exists (e ++ es), b'. split; [done|]. split; [done|].
    assert (forall net', net' ∈ net :: l.*1 /\ gone net' <-> net' ∈ l.*1 /\ gone net') as Hiff.
    { intros net'. rewrite elem_of_cons. split; [|naive_solver]. intros [[->|] Hg]; [unfold gone in Hg; congruence|done]. }
    split; [|split].
    + intros net'. rewrite Hs. by rewrite (bool_decide_ext _ _ (Hiff net')).
    + intros net'. rewrite elem_of_app, Hst, Hiff. split; [|by right]. intros [Hin|]; [|done].
      by apply He in Hin as [line [=]].
    + intros net'. rewrite elem_of_app. intros [Hin|Hin]; [by apply He in Hin as [line [=]]|by eapply Hno].
  - destruct (IH (Bot.set_servers b (delete net b.(b_servers)))) as (es & b' & -> & Hconf & Hs & Hst & Hno).
    cbn [mbind go_bind]. exists ([Stops net] ++ es), b'. split; [done|]. split; [done|]. split; [|split].
    + intros net'. rewrite Hs. cbn [Bot.set_servers b_servers]. destruct (decide (net' = net)) as [->|Hne].
      * rewrite lookup_delete_eq, (bool_decide_true (net ∈ net :: _ /\ _)) by (split; [by left|done]).
        by destruct (bool_decide _).
      * rewrite lookup_delete_ne by done. apply (f_equal (fun v : bool => if v then _ else _)), bool_decide_ext.
        rewrite elem_of_cons. naive_solver.
    + intros net'. rewrite elem_of_app, list_elem_of_singleton, Hst, elem_of_cons. split; [|naive_solver].
      intros [[= ->]|[]]; [split; [by left|done]|split; [by right|done]].
    + intros net'. rewrite elem_of_app, list_elem_of_singleton. intros [[=]|Hin]. by eapply Hno.
Qed.

(** The servers of the bot are those of its configuration. *)
Record in_sync (h : Heap) (b : Bot) : Prop := {
  sy_conf : conf_ok h b.(b_conf);
  sy_servers : forall net, is_Some (b.(b_servers) !! net) <-> net ∈ Config.Networks h b.(b_conf);
  sy_server : forall net n, b.(b_servers) !! net = Some n ->
    n.(n_server).(Server.networkID) = net /\ is_Some (Config.Network h n.(n_server).(Server.conf) net);
}.

(** What replacing a configuration does to the servers *)
Lemma replaced_servers draw h nc b :
  in_sync h b -> conf_ok h nc -> (forall net n, b.(b_servers) !! net = Some n -> tellable n) ->
  exists es1 es2 b1 b2, startNewServers draw h nc b = Ret (es1, b1) /\
    update_servers pump_open h nc (range b1.(b_servers)) b1 = Ret (es2, b2) /\ b2.(b_conf) = b.(b_conf) /\
    (forall net, is_Some (b2.(b_servers) !! net) <-> net ∈ Config.Networks h nc) /\
    (forall net n, b2.(b_servers) !! net = Some n -> b.(b_servers) !! net = Some n \/
       net ∉ Config.Networks h b.(b_conf) /\ net_ready (draw net) b.(b_attachHandlers) false net h nc n) /\
    (forall net, Starts net ∈ es1 ++ es2 <-> net ∈ Config.Networks h nc /\ net ∉ Config.Networks h b.(b_conf)) /\
    (forall net, Stops net ∈ es1 ++ es2 <-> net ∈ Config.Networks h b.(b_conf) /\ net ∉ Config.Networks h nc).
Proof.
  intros Hsy Hnc Htell. unfold startNewServers.
  destruct (start_new_spec draw h nc (Config.Networks h nc) b) as (b1 & Hb1 & Hc1 & Hall1 & Hdom1).
  { apply Forall_forall. intros net Hnet. by apply Hnc. }
  destruct (update_servers_spec h nc (range b1.(b_servers)) b1) as (es2 & b2 & Hb2 & Hc2 & Hs2 & Hst2 & Hno2).
  { apply Forall_forall. intros [net n] Hin%elem_of_range. cbn [fst snd].
    destruct (Hall1 _ _ Hin) as [[H0 _]|(_ & _ & cfg & Hcfg & H1 & H2 & _ & H3 & _)].
    - destruct (sy_server _ _ Hsy _ _ H0). split; [done|]. split; [by eapply Htell|done].
    - split; [done|]. split; [by left|]. rewrite H2, Hcfg. by eexists. }
  assert (forall net, net ∈ (range b1.(b_servers)).*1 <-> is_Some (b1.(b_servers) !! net)) as Hran.
  { intros net. split.
    - intros ([k n] & -> & Hin%elem_of_range)%list_elem_of_fmap. by exists n.
    - intros [n Hn]. apply list_elem_of_fmap. exists (net, n). split; [done|by apply elem_of_range]. }
  assert (forall net, is_Some (b1.(b_servers) !! net) <->
    net ∈ Config.Networks h b.(b_conf) \/ net ∈ Config.Networks h nc) as Hdom.
  { intros net. rewrite Hdom1, (sy_servers _ _ Hsy). split; [tauto|]. intros [|Hin]; [by left|].
    destruct (decide (net ∈ Config.Networks h b.(b_conf))) as [|Hn]; [by left|]. right. split; [done|].
    apply conf_ok_Network; [apply Hsy|by apply Hnc in Hin as [? _]|done]. }
  assert (forall net, is_Some (b1.(b_servers) !! net) -> Config.Network h nc net = None <-> net ∉ Config.Networks h nc) as Hgone.
  { intros net Hnet%Hdom. apply conf_ok_Network; [done|]. destruct Hnet as [H|H]; [by apply (sy_conf _ _ Hsy) in H as [? _]|by apply Hnc in H as [? _]]. }
  exists (map Starts (filter (fun net => Config.Network h b.(b_conf) net = None) (Config.Networks h nc))), es2, b1, b2.
  split; [exact Hb1|]. split; [exact Hb2|]. split; [congruence|]. split; [|split; [|split]].
  - intros net. rewrite Hs2. case_bool_decide as Hd.
    + destruct Hd as [H1%Hran H2%Hgone]; [|done]. split; [intros []%is_Some_None|done].
    + rewrite Hdom. split; [|by right]. intros H0. destruct (decide (net ∈ Config.Networks h nc)) as [|Hn]; [done|].
      exfalso. apply Hd. assert (is_Some (b_servers b1 !! net)) as H1 by by apply Hdom. split; [by apply Hran|by apply Hgone].
  - intros net n. rewrite Hs2. case_bool_decide; [done|]. intros Hn.
    destruct (Hall1 _ _ Hn) as [[H0 _]|(Hin & Hnew & Hr)]; [by left|]. right. split; [|done].
    apply conf_ok_Network in Hnew; [done|apply Hsy|by apply Hnc in Hin as [? _]].
  - intros net. rewrite elem_of_app. split.
    + intros [Hin|Hin]; [|by apply Hno2 in Hin]. apply list_elem_of_fmap in Hin as (k & [= <-] & Hin).
      apply list_elem_of_filter in Hin as [Hk Hin]. split; [done|].
      apply conf_ok_Network in Hk; [done|apply Hsy|by apply Hnc in Hin as [? _]].
    + intros [Hin Hout]. left. apply list_elem_of_fmap. exists net. split; [done|]. apply list_elem_of_filter.
      split; [|done]. apply conf_ok_Network; [apply Hsy|by apply Hnc in Hin as [? _]|done].
  - intros net. rewrite elem_of_app, Hst2, Hran. split.
    + intros [Hin|[H1 H2]]; [by apply list_elem_of_fmap in Hin as (k & [=] & _)|].
      apply Hgone in H2; [|done]. split; [|done]. apply Hdom in H1 as [|]; [done|by destruct H2].
    + intros [H1 H2]. assert (is_Some (b_servers b1 !! net)) as H3 by (apply Hdom; by left).
      right. split; [done|]. by apply Hgone.
Qed.


(** A server that was added by a replacement has the configuration it was made
    from and not the bot's: what changes later it does not see. *)
Lemma added_server_stale b c net n :
  b.(b_servers) !! net = Some n -> n.(n_shared) = false -> (set_conf b c).(b_servers) !! net = Some n.
Proof. intros Hn Hs. unfold set_conf. cbn. by rewrite lookup_fmap, Hn; cbn; rewrite Hs. Qed.

(** Reading the configuration again looks for it in the store's file. *)
Lemma Rehash_reads_store {T : Toml} {F : Files} n h b err :
  (Config.StoreFile h b.(b_conf)).1 <> [] -> os_Open (Config.StoreFile h b.(b_conf)).1 = inl err ->
  exists h', Rehash print n h b = Ret (Some (Some errInvalidConfig, b, h')).
Proof.
  intros Hne Ho. unfold Rehash. destruct (Config.NewConfig h) as [c h1] eqn:Ec. unfold FromFile, fromFile.
  destruct (Config.StoreFile h (b_conf b)).1 as [|x f]; [done|]. rewrite Ho.
  assert (Validation.Errors (addError c errMsgFileError [error_value err]) <> []) as He.
  { unfold Validation.Errors, addError. cbn [Config.errors]. intros E%eq_sym%app_cons_not_nil. done. }
  unfold CheckConfig. destruct (Validation.Errors _) as [|e ers]; [done|]. by eexists.
Qed.
End Replaced.

(** ** A line from a server *)

Section Lines.
Context {BC : Bcrypt} {K : KV} {G : Gob} {RZ : RangeOrder Z} {RO : RangeOrder bytes}.
Context (now : Z) (has_method : nat -> bytes -> bool).

(** The handlers of a dispatcher for an event *)
Definition handlers_for (d : Dispatcher) (ev : Event) : list Handler :=
  (map_to_list (default ∅ (d.(events) !! ToUpper ev.(Name)))).*2 ++ (map_to_list (default ∅ (d.(events) !! RAW))).*2.

Lemma dispatchMessage_ok g id n b ev :
  bot_ok g b -> b.(b_servers) !! id = Some n -> is_Some ev.(NetInfo) ->
  (message_bit ev <> 0%Z -> 2 <= length ev.(Args)) ->
  exists r b', dispatchMessage has_method g id n b ev = Ret (r, b') /\ bot_ok g b' /\
    r.(st_handlers) ≡ₚ handlers_for b.(b_dispatcher) ev /\ r.(st_net_handlers) ≡ₚ handlers_for n.(n_dispatcher) ev /\
    (forall id', id' <> id -> b'.(b_servers) !! id' = b.(b_servers) !! id') /\
    exists n', b'.(b_servers) !! id = Some n' /\ n'.(n_server) = n.(n_server).
Proof.
  intros Hok Hn Hni Hlen. destruct (ok_nets _ _ Hok _ _ Hn) as [Hst Hc]. unfold dispatchMessage.
  pose proof (Dispatch_starts b.(b_dispatcher) ev) as Hd1. pose proof (Dispatch_starts n.(n_dispatcher) ev) as Hd2.
  destruct (Dispatcher.Dispatch (b_dispatcher b) ev) as [[ok1 hs1] d1].
  destruct (Dispatcher.Dispatch (n_dispatcher n) ev) as [[ok2 hs2] d2].
  cbn beta iota zeta.
  assert (OpenState (set_net (set_bot_dispatcher b d1) id (set_net_dispatcher n d2)) id = Server.state (n_server n)) as ->.
  { unfold OpenState, getServer. cbn. by rewrite lookup_insert_eq. }
  cbn [b_cmds b_store set_net Bot.set_servers set_bot_dispatcher].
  destruct (Dispatch_runs _ has_method b.(b_cmds) g id (GetPrefix n.(n_cmds)) ev b.(b_store) Hst (ok_store _ _ Hok) (ok_cmds _ _ Hok))
    as (o1 & s1 & -> & Hs1); [by split; [apply Hlen|]|]. cbn [mbind go_bind].
  destruct (Dispatch_runs _ has_method n.(n_cmds) g id 0 ev s1 Hst Hs1 Hc) as (o2 & s2 & -> & Hs2); [by split; [apply Hlen|]|].
  cbn [mbind go_bind]. eexists _, _. split; [reflexivity|]. cbn [set_store b_servers st_handlers st_net_handlers b_store b_cmds].
  split; [|split; [apply Hd1|split; [apply Hd2|split]]].
  - split; cbn; [|done|apply Hok]. intros id' n'. destruct (decide (id' = id)) as [->|Hne].
    + rewrite lookup_insert_eq. intros [= <-]. done.
    + rewrite lookup_insert_ne by done. apply Hok.
  - intros id' Hne. cbn. by rewrite lookup_insert_ne.
  - eexists. cbn. split; [apply lookup_insert_eq|done].
Qed.

Lemma line_event_network id s line ev :
  line_event now id s line = Some ev -> ev.(NetworkID) = id /\ ev.(NetInfo) = Some s.(Server.netInfo).
Proof. unfold line_event. destruct (Parse now line); [done|]. by intros [= <-]. Qed.

(** A line whose event the state of its network takes *)
Lemma handle_line_runs g id n b line ev :
  bot_ok g b -> b.(b_servers) !! id = Some n -> line_event now id n.(n_server) line = Some ev ->
  (forall st, n.(n_server).(Server.state) = Some st -> exists st', Update st ev = Ret st' /\ state_wf st') ->
  (message_bit ev <> 0%Z -> 2 <= length ev.(Args)) ->
  exists r b', handle_line now has_method g id b line = Ret (Some r, b') /\ bot_ok g b' /\
    r.(st_handlers) ≡ₚ handlers_for b.(b_dispatcher) ev /\
    r.(st_net_handlers) ≡ₚ handlers_for n.(n_dispatcher) ev /\
    (forall id', id' <> id -> b'.(b_servers) !! id' = b.(b_servers) !! id') /\
    exists n' st', b'.(b_servers) !! id = Some n' /\ n'.(n_server) = Server.set_state n.(n_server) st' /\
      match n.(n_server).(Server.state) with
      | Some st => exists st1, Update st ev = Ret st1 /\ st' = Some st1
      | None => st' = None
      end.
Proof.
  intros Hok Hn El Hst Hlen. unfold handle_line, getServer. rewrite Hn. cbn [deref mbind go_bind]. rewrite El.
  destruct (line_event_network _ _ _ _ El) as [_ Hni].
  assert (exists st', (match Server.state (n_server n) with
      | Some st => st ← Update st ev; Ret (Some st) | None => Ret None end) = Ret st' /\ state_ok st' /\
      match n.(n_server).(Server.state) with
      | Some st => exists st1, Update st ev = Ret st1 /\ st' = Some st1
      | None => st' = None
      end) as (st' & -> & Hwf & Hupd).
  { destruct (Server.state (n_server n)) as [st|]; [|by exists None].
    destruct (Hst st eq_refl) as (st1 & E & W). exists (Some st1). rewrite E. split; [done|]. split; [done|by exists st1]. }
  cbn [mbind go_bind]. set (n1 := set_net_server n _).
  assert (bot_ok g (set_net b id n1)) as Hok1.
  { apply bot_ok_net; [done|done|]. by apply (ok_nets _ _ Hok id n). }
  destruct (dispatchMessage_ok g id n1 (set_net b id n1) ev Hok1) as (r & b' & -> & Hok' & H1 & H2 & H3 & n' & H4 & H5);
    [by cbn; rewrite lookup_insert_eq|by rewrite Hni|done|].
  cbn [mbind go_bind]. exists r, b'. split; [done|]. split; [done|]. split; [done|]. split; [done|]. split.
  - intros id' Hne. rewrite H3 by done. cbn. by rewrite lookup_insert_ne.
  - by exists n', st'.
Qed.

(** A line from a server goes all the way through: what cannot be parsed is
    dropped, and any event whose arguments its handlers can read updates the
    state of its network, starts every handler of the bot and of the network
    that is registered for it, and no other, and is looked at by both
    commanders; nothing panics, what was in order stays so, and the other
    networks stay as they are. *)
Theorem line_goes_through g id n b line :
  bot_ok g b -> b.(b_servers) !! id = Some n ->
  match line_event now id n.(n_server) line with
  | None => handle_line now has_method g id b line = Ret (None, b)
  | Some ev =>
    (forall st, n.(n_server).(Server.state) = Some st ->
       no_nil st /\ handleable st ev /\ forall s1, note_sender st ev = Ret s1 -> event_ok s1 ev) ->
    (message_bit ev <> 0%Z -> 2 <= length ev.(Args)) ->
    exists r b', handle_line now has_method g id b line = Ret (Some r, b') /\ bot_ok g b' /\
      r.(st_handlers) ≡ₚ handlers_for b.(b_dispatcher) ev /\
      r.(st_net_handlers) ≡ₚ handlers_for n.(n_dispatcher) ev /\
      (forall id', id' <> id -> b'.(b_servers) !! id' = b.(b_servers) !! id') /\
      exists n', b'.(b_servers) !! id = Some n' /\
        match n.(n_server).(Server.state) with
        | Some st => exists st', Update st ev = Ret st' /\ n'.(n_server).(Server.state) = Some st'
        | None => n'.(n_server).(Server.state) = None
        end
  end.
Proof.
  intros Hok Hn. destruct (line_event now id (n_server n) line) as [ev|] eqn:El.
  2:{ unfold handle_line, getServer. rewrite Hn. cbn [deref mbind go_bind]. by rewrite El. }
  intros Hst Hlen.
  destruct (handle_line_runs g id n b line ev Hok Hn El) as (r & b' & H & Hok' & H1 & H2 & H3 & n' & st' & H4 & H5 & H6); [|done|].
  { intros st Es. destruct (Hst st Es) as (Hnn & Hh & Hev). destruct (ok_nets _ _ Hok _ _ Hn) as [Hw _]. rewrite Es in Hw.
    destruct (Update_runs st ev Hw Hnn Hh) as [st1 E]. exists st1. split; [done|]. by eapply Update_wf. }
  exists r, b'. repeat (split; [done|]). exists n'. split; [done|]. rewrite H5. cbn.
  destruct (Server.state (n_server n)) as [st|]; [|done]. destruct H6 as (st1 & E & ->). by exists st1.
Qed.

(** In a channel, a command of the bot or of a network is started only by a
    message whose text starts with the prefix of that network, if it has one. *)
Theorem network_prefix g id n b ev r b' h how cev :
  dispatchMessage has_method g id n b ev = Ret (r, b') -> GetPrefix n.(n_cmds) <> 0%Z ->
  IsTargetChan ev = Ret true -> st_cmd r = Started h how cev \/ st_net_cmd r = Started h how cev ->
  exists text word words c name, ev.(Args) !! 1 = Some text /\ Fields text = word :: words /\
    ToLower word = c :: name /\ code c = GetPrefix n.(n_cmds).
Proof.
  intros Hd Hp Hchan Hr. unfold dispatchMessage in Hd.
  destruct (Dispatcher.Dispatch (b_dispatcher b) ev) as [[ok1 hs1] d1].
  destruct (Dispatcher.Dispatch (n_dispatcher n) ev) as [[ok2 hs2] d2].
  apply bind_Ret_inv in Hd as ([o1 s1] & H1 & Hd). apply bind_Ret_inv in Hd as ([o2 s2] & H2 & Hd).
  injection Hd as <- <-. cbn in Hr. unfold GetPrefix in *.
  assert (exists c ov store store', Cmds.Dispatch (OpenState (set_net (set_bot_dispatcher b d1) id (set_net_dispatcher n d2)) id)
    has_method c g id ov ev store = Ret (Started h how cev, store') /\
    (if decide (ov = 0%Z) then prefix c else ov) = prefix (n_cmds n)) as (c & ov & store & store' & Hs & Hov).
  { destruct Hr as [->| ->]; [exists (b_cmds b), (prefix (n_cmds n))|exists (n_cmds n), 0%Z];
      eexists _, _; (split; [eassumption|]); by case_decide. }
  destruct (Dispatch_started_ok _ _ _ _ _ _ _ _ _ _ _ _ Hs) as (isChan & ch & name & words & p & cmd & Hnames & _).
  destruct Hnames as (text & word & Ht & Hf & Hch). destruct isChan.
  - destruct Hch as (_ & _ & _ & c0 & Hw & Hc0). rewrite Hov in Hc0. by exists text, word, words, c0, name.
  - destruct Hch as (_ & Hno & _). congruence.
Qed.

(** A message without a text, which the parser lets pass, is a panic in the
    goroutine that reads from the server, and ends the program. *)
Lemma short_message_panics g id n b ev :
  message_bit ev <> 0%Z -> length ev.(Args) <= 1 -> dispatchMessage has_method g id n b ev = Panic.
Proof.
  intros Hb Hlen. unfold dispatchMessage.
  destruct (Dispatcher.Dispatch (b_dispatcher b) ev) as [[ok1 hs1] d1].
  destruct (Dispatcher.Dispatch (n_dispatcher n) ev) as [[ok2 hs2] d2].
  assert (forall st c ov store, Cmds.Dispatch st has_method c g id ov ev store = Panic) as Hp; [|cbn zeta; by rewrite Hp].
  intros st c ov store. unfold Cmds.Dispatch. fold (message_bit ev). cbn zeta. rewrite decide_False by done.
  unfold index. by rewrite (lookup_ge_None_2 (Args ev) 1) by lia.
Qed.
End Lines.
End Spec.
