(* ===== verification/BotRun.v ===== *)
(** * Runs of a whole bot

    A bot that is made from a concrete configuration, and what it does; with
    the witnesses of [BotSpec.v]. *)

From S2P Require Import Prelude GoStrings NetworkInfo Event Client State StateInv StateRun StoredUser Store.
From S2P Require Import ConfigMap NetCTX Config Validation ConfigFile ConfigSpec ConfigClone.
From S2P Require Import DispatchCore Dispatcher Cmd Cmds CmdRun CoreCmds CoreRun Server CoreHandler Bot BotConfig BotSpec.

#[local] Existing Instance ascii_tables.
#[local] Existing Instance salted.
#[local] Existing Instance mem_kv.
#[local] Existing Instance demo_gob.

(** Two configurations: the second has a network more, and another nick. *)
Definition network_map (nick : string) : gmap bytes val := {[
  bs "servers" := VStrs [bs "irc.test.net:6667"]; bs "nick" := VStr (bs nick);
  bs "username" := VStr (bs "bot"); bs "realname" := VStr (bs "A bot") ]}.
Definition two_confs : Heap := {[
  0 := {[bs "networks" := VMap (Some 1)]};
  1 := {[bs "net" := VMap (Some 2)]};
  2 := network_map "Bot";
  3 := {[bs "networks" := VMap (Some 4)]};
  4 := {[bs "net" := VMap (Some 5); bs "other" := VMap (Some 6)]};
  5 := network_map "Bob";
  6 := network_map "Bot" ]}.
Definition conf_at (l : nat) : Config.Config := {| Config.values := l; Config.errors := []; Config.filename := [] |}.

Definition no_commands : Registry := {| cmd_heap := ∅; globalCmdRegistry := ∅ |}.
Definition open_store (filename : bytes) : bytes + DB := inr ∅.
Definition opens (file : bytes) : option bytes := None.

Definition made : go ((bytes + Bot) * Registry) :=
  NewBot demo_print open_store opens (fun _ => 1%Z) 7 two_confs (conf_at 0) no_commands.

Lemma no_commands_ok : heap_ok (cmd_heap no_commands).
Proof. intros p cmd. cbn. by rewrite lookup_empty. Qed.


(** A second bot in the same program is refused, since the commands of the
    first are in the registry of all. *)
Example second_bot_refused :
  match made with
  | Ret (inr _, g) =>
    match NewBot demo_print open_store opens (fun _ => 1%Z) 7 two_confs (conf_at 0) g with
    | Ret (inl err, _) => err = bs "bot: A core command registration failed: cmd: Duplicate command registration attempted (GLOBAL:register)"
    | _ => False
    end
  | _ => False
  end.
Proof. vm_compute. reflexivity. Qed.

(** ** Replacing the configuration *)

Definition made_bot : Bot := match made with Ret (inr b, _) => b | _ =>
  {| b_servers := ∅; b_conf := conf_at 0; b_store := None; b_dispatcher := NewDispatcher (NewDispatchCore []);
     b_cmds := NewCmds 0 (NewDispatchCore []); b_attachHandlers := true |} end.

Lemma made_parts : exists b g, made = Ret (inr b, g) /\
  bot_ready (fun _ => 1%Z) true true two_confs (conf_at 0) b /\ bot_ok g b.
Proof.
  assert (made = createBot open_store opens (fun _ => 1%Z) 7 true true two_confs (conf_at 0) no_commands) as Hmade.
  { unfold made, NewBot. replace (CheckConfig demo_print two_confs (conf_at 0)) with (Ret (true, conf_at 0)); [done|].
    vm_compute. reflexivity. }
  rewrite Hmade. apply createBot_ok with (d := (∅ : gmap bytes bytes)); 
    [vm_compute; reflexivity|decide_now|reflexivity|intros e _; apply lookup_empty|].
  apply no_commands_ok.
Qed.

Lemma made_ready : bot_ready (fun _ => 1%Z) true true two_confs (conf_at 0) made_bot.
Proof. destruct made_parts as (b & g & Hb & Hr & _). unfold made_bot. by rewrite Hb. Qed.

(** Checking that the maps of a configuration nest within a measure, for maps
    without slices of maps *)
Definition nests (h : Heap) (S : gset nat) (rank : nat -> nat) : Prop :=
  S ⊆ dom h /\ map_Forall (fun l m => l ∈ S -> map_Forall (fun _ v =>
    Forall (fun l' => l' ∈ S /\ rank l' < rank l) (children v) /\
    match v with VMaps _ => False | _ => True end) m) h.

#[local] Instance nests_dec h S rank : Decision (nests h S rank).
Proof.
  unfold nests. apply and_dec; [apply _|]. apply map_Forall_dec. intros l m. apply impl_dec; [apply _|].
  apply map_Forall_dec. intros _ v. apply and_dec; [apply _|]. destruct v; apply _.
Defined.

Lemma nests_source h S rank : nests h S rank -> source_ok h S rank.
Proof.
  intros [H1 H2]. assert (forall l key v, l ∈ S -> at_key h (Some l) key = Some v ->
    Forall (fun l' => l' ∈ S /\ rank l' < rank l) (children v) /\ match v with VMaps _ => False | _ => True end) as Hv.
  { intros l key v Hl Hat. unfold at_key in Hat. cbn in Hat. destruct (h !! l) as [m|] eqn:Em; [|done].
    exact (H2 l m Em Hl key v Hat). }
  split; [done| |].
  - intros l key v l' Hl Hat Hin. destruct (Hv _ _ _ Hl Hat) as [Hf _]. rewrite Forall_forall in Hf. by apply Hf.
  - intros l key ls l' Hl Hat _. by destruct (Hv _ _ _ Hl Hat) as [_ []].
Qed.

Lemma conf_ok_check h c :
  Forall (fun net => net <> [] /\ is_Some (Config.Network h c net)) (Config.Networks h c) -> conf_ok h c.
Proof. intros H. unfold conf_ok. by apply Forall_forall. Qed.

Lemma made_in_sync : in_sync two_confs made_bot.
Proof.
  destruct made_ready as [H1 H2 H3 _ _ _]. split; rewrite ?H3; [|done|].
  - apply conf_ok_check. decide_now.
  - intros net n (cfg & Hc & Hid & -> & _)%H2. split; [done|]. rewrite Hc. by eexists.
Qed.


(** ** Messages *)

Definition made_registry : Registry := match made with Ret (_, g) => g | _ => no_commands end.

(** The bot, welcomed by its server *)
Definition made_net : Net := match made_bot.(b_servers) !! bs "net" with Some n =>
  set_net_server n (Server.set_state n.(n_server) (Some demo_welcomed)) | None =>
  {| n_server := demo_server; n_shared := true; n_dispatcher := NewDispatcher (NewDispatchCore []);
     n_cmds := NewCmds 0 (NewDispatchCore []); n_handler := None |} end.
Definition welcomed_bot : Bot := set_net made_bot (bs "net") made_net.

Lemma welcomed_ok : bot_ok made_registry welcomed_bot.
Proof.
  destruct made_parts as (b & g & Hb & Hr & Hok). unfold welcomed_bot, made_net.
  assert (made_bot = b) as -> by (unfold made_bot; by rewrite Hb).
  assert (made_registry = g) as -> by (unfold made_registry; by rewrite Hb).
  assert (is_Some (b_servers b !! bs "net")) as [n0 Hn0].
  { apply (br_servers _ _ _ _ _ _ Hr). decide_now. }
  rewrite Hn0. destruct (ok_nets _ _ Hok _ _ Hn0) as [_ Hc].
  apply bot_ok_net; [exact Hok|apply demo_welcomed_wf|exact Hc].
Qed.

Definition demo_line : bytes := bs ":ann!a@one PRIVMSG #chan :.hello there".

Lemma line_goes_through_witness :
  exists r b', handle_line 0 (fun _ _ => false) made_registry (bs "net") welcomed_bot demo_line = Ret (Some r, b') /\
    bot_ok made_registry b' /\ r.(st_net_handlers) = [core_handler].
Proof.
  assert (b_servers welcomed_bot !! bs "net" = Some made_net) as Hn by apply lookup_insert_eq.
  pose proof (line_goes_through 0 (fun _ _ => false) made_registry (bs "net") made_net welcomed_bot demo_line
    welcomed_ok Hn) as H.
  destruct (line_event 0 (bs "net") (n_server made_net) demo_line) as [ev|] eqn:El; [|vm_compute in El; discriminate El].
  vm_compute in El. injection El as <-. destruct H as (r & b' & H1 & H2 & _ & H3 & _).
  - intros st Hst. vm_compute in Hst. injection Hst as <-. split; [split; decide_now|]. split.
    + split; [decide_now|]. split; [decide_now|]. split; by eexists.
    + intros s1 _. by split.
  - intros _. decide_now.
  - exists r, b'. split; [exact H1|]. split; [exact H2|].
    vm_compute in H3. symmetry in H3. by apply Permutation_length_1_inv in H3.
Defined.

Definition demo_gusers : Event := demo_event PRIVMSG (bs "ann!a@one") [bs "#chan"; bs ".GUSERS"].

Definition is_started (m : go (started * Bot)) : bool :=
  match m with Ret (r, _) => match st_cmd r with Started _ _ _ => true | _ => false end | Panic => false end.

Lemma network_prefix_witness :
  exists c name, ToLower (bs ".GUSERS") = c :: name /\ code c = GetPrefix made_net.(n_cmds).
Proof.
  assert (is_started (dispatchMessage (fun _ _ => false) made_registry (bs "net") made_net welcomed_bot demo_gusers) = true) as Hs
    by (vm_compute; reflexivity).
  destruct (dispatchMessage (fun _ _ => false) made_registry (bs "net") made_net welcomed_bot demo_gusers)
    as [[r b']|] eqn:E; [|discriminate Hs]. cbn [is_started] in Hs.
  destruct (st_cmd r) as [| |h how cev] eqn:Er; [discriminate Hs..|].
  destruct (network_prefix (fun _ _ => false) made_registry (bs "net") made_net welcomed_bot demo_gusers r b' h how cev E)
    as (text & word & words & c & name & H1 & H2 & H3 & H4).
  - intros H. vm_compute in H. discriminate H.
  - vm_compute. reflexivity.
  - left. exact Er.
  - injection H1 as <-. vm_compute in H2. injection H2 as <- _. exists c, name. split; [exact H3|exact H4].
Defined.

(** Two lists that do not have the same elements as often *)
Example contains_counts_nothing : contains [bs "a"; bs "a"; bs "b"] [bs "a"; bs "b"; bs "b"] = true.
Proof. vm_compute. reflexivity. Qed.
