(* ===== verification/Connection.v ===== *)
(** * A connection from its first byte to its last

    The parts of the program together: the client cuts what it reads into
    messages ([Client.v]), the parser makes events of them ([Parse.v]), the
    state of the network takes them ([State.v]), and the dispatchers and the
    commanders of the bot and of the network look at them ([Bot.v]).  Handlers
    and commands that are started run beside this and are part of the
    result. *)

From S2P Require Import Prelude GoStrings NetworkInfo Event Parse Client Modes UserModes State StateInv StateRun StateCrash.
From S2P Require Import StoredUser Store ConfigMap NetCTX Config Validation ConfigFile.
From S2P Require Import DispatchCore Dispatcher Cmd Cmds CmdRun CoreRun Server CoreHandler Bot BotSpec BotRun.

Section Connection.
Context {CT : CaseTables} {BC : Bcrypt} {K : KV} {G : Gob}.
Context (now : Z) (has_method : nat -> bytes -> bool).
Implicit Types (g : Registry) (b : Bot) (s : Server) (lines : list bytes).

(** What a line makes of the server it comes from *)
Definition absorb (id : bytes) (s : Server) (line : bytes) : go Server :=
  match line_event now id s line with
  | None => Ret s
  | Some ev =>
    match s.(Server.state) with
    | None => Ret s
    | Some st => st ← Update st ev; Ret (Server.set_state s (Some st))
    end
  end.

(** A line that can be read: what parses has the arguments that dispatching
    asks for, and is taken by the state. *)
Definition readable_line (id : bytes) (s : Server) (line : bytes) : bool :=
  match line_event now id s line with
  | None => true
  | Some ev =>
    (bool_decide (message_bit ev = 0%Z) || bool_decide (2 <= length ev.(Args))) &&
    match s.(Server.state) with None => true | Some st => accepts st ev end
  end.

Fixpoint readable (id : bytes) (s : Server) (lines : list bytes) : bool :=
  match lines with
  | [] => true
  | line :: lines =>
    readable_line id s line && match absorb id s line with Ret s => readable id s lines | Panic => false end
  end.

Definition parses (line : bytes) : bool := match Parse now line with inl _ => false | inr _ => true end.

(** The bot with the network [id] in the state [s], all in order *)
Record serving g (id : bytes) (s : Server) b : Prop := {
  sv_ok : bot_ok g b;
  sv_server : exists n, b.(b_servers) !! id = Some n /\ n.(n_server) = s;
  sv_nil : forall st, s.(Server.state) = Some st -> no_nil st;
}.

Lemma set_state_same s : Server.set_state s s.(Server.state) = s.
Proof. by destruct s. Qed.

Lemma line_served g id s b line :
  serving g id s b -> readable_line id s line = true ->
  exists r b' s', absorb id s line = Ret s' /\ handle_line now has_method g id b line = Ret (r, b') /\ serving g id s' b' /\
    (is_Some r <-> parses line = true) /\
    (forall id', id' <> id -> b'.(b_servers) !! id' = b.(b_servers) !! id').
Proof.
  intros [Hok (n & Hn & <-) Hnil] Hr. unfold readable_line in Hr. unfold absorb.
  destruct (line_event now id (n_server n) line) as [ev|] eqn:El.
  2:{ exists None, b, n.(n_server). split; [done|]. split.
      { unfold handle_line, getServer. rewrite Hn. cbn [deref mbind go_bind]. by rewrite El. }
      split; [by split; [|exists n|]|]. split; [|done]. unfold line_event in El. unfold parses.
      destruct (Parse now line); [|done]. split; [by intros []|done]. }
  apply andb_prop in Hr as [Hlen Hst].
  assert (forall st, n.(n_server).(Server.state) = Some st -> exists st', Update st ev = Ret st' /\ state_wf st' /\ no_nil st') as Hup.
  { intros st Es. rewrite Es in Hst. destruct (ok_nets _ _ Hok _ _ Hn) as [Hw _]. rewrite Es in Hw.
    apply Update_accepts; [done|by apply Hnil|done]. }
  destruct (handle_line_runs now has_method g id n b line ev Hok Hn El) as (r & b' & H & Hok' & _ & _ & H3 & n' & st' & H4 & H5 & H6).
  { intros st Es. destruct (Hup st Es) as (st' & ? & ? & _). by exists st'. }
  { intros Hb. apply orb_prop in Hlen as [E|E]; apply bool_decide_eq_true in E; done. }
  exists (Some r), b', (Server.set_state (n_server n) st'). split; [|split; [done|split; [|split; [|done]]]].
  - destruct (Server.state (n_server n)) as [st|] eqn:Es.
    + destruct H6 as (st1 & -> & ->). done.
    + rewrite H6, <- Es. by rewrite set_state_same.
  - split; [done|by exists n'|]. intros st1 Es1. cbn in Es1. subst st'.
    destruct (Server.state (n_server n)) as [st|]; [|done].
    destruct H6 as (st2 & E & [= ->]). destruct (Hup st eq_refl) as (st3 & E3 & _ & N3). congruence.
  - unfold line_event in El. unfold parses. by destruct (Parse now line).
Qed.

Lemma connection_event_served g id s b name :
  serving g id s b -> message_bit (connection_event now name id s) = 0%Z ->
  forall n, b.(b_servers) !! id = Some n -> n.(n_server) = s ->
  exists r b', dispatchMessage has_method g id n b (connection_event now name id s) = Ret (r, b') /\ serving g id s b' /\
    (forall id', id' <> id -> b'.(b_servers) !! id' = b.(b_servers) !! id').
Proof.
  intros [Hok _ Hnil] Hb n Hn Hs.
  destruct (dispatchMessage_ok has_method g id n b (connection_event now name id s) Hok Hn) as (r & b' & H & Hok' & _ & _ & H3 & n' & H4 & H5);
    [done|done|].
  exists r, b'. split; [done|]. split; [|done]. split; [done| |done]. exists n'. by rewrite H5.
Qed.

Lemma lines_served g id s b lines rs :
  serving g id s b -> readable id s lines = true ->
  exists rs' b' s', go_fold (absorb id) s lines = Ret s' /\
    go_fold (fun '(rs, b) line => '(r, b) ← handle_line now has_method g id b line;
               Ret (rs ++ match r with Some r => [r] | None => [] end, b)) (rs, b) lines = Ret (rs', b') /\
    serving g id s' b' /\ length rs' = length rs + length (filter parses lines) /\
    (forall id', id' <> id -> b'.(b_servers) !! id' = b.(b_servers) !! id').
Proof.
  revert s b rs. induction lines as [|line lines IH]; intros s b rs Hs Hr; cbn [go_fold readable] in *.
  { exists rs, b, s. split; [done|]. split; [done|]. split; [done|]. split; [cbn; lia|done]. }
  apply andb_prop in Hr as [Hl Hr]. destruct (line_served g id s b line Hs Hl) as (r & b1 & s1 & Ha & Hh & Hs1 & Hp & Ho1).
  rewrite Ha in Hr |- *. rewrite Hh. cbn [mbind go_bind].
  destruct (IH s1 b1 (rs ++ match r with Some r => [r] | None => [] end) Hs1 Hr) as (rs' & b' & s' & H1 & H2 & H3 & H4 & H5).
  exists rs', b', s'. split; [done|]. split; [done|]. split; [done|]. split.
  - rewrite H4, length_app, filter_cons. destruct r as [r|]; case_decide as Hd; cbn.
    + lia.
    + exfalso. apply Hd. apply Is_true_true. by apply Hp.
    + exfalso. apply Is_true_true in Hd. apply Hp in Hd as [? ?]. done.
    + lia.
  - intros id' Hne. by rewrite H5, Ho1.
Qed.

End Connection.

(** ** A run *)

#[local] Existing Instance ascii_tables.
#[local] Existing Instance salted.
#[local] Existing Instance mem_kv.
#[local] Existing Instance demo_gob.

Definition crlf_end : bytes := [byte_of 13; byte_of 10].

(** The client is welcomed, joins, is told who is there, is given a mode and
    spoken to; the last line is not of the protocol. *)
Definition demo_stream : bytes := concat (map (fun l => l ++ crlf_end) [
  bs ":irc.test.net 001 Bot :Welcome to the network Bot!bot@host";
  bs ":Bot!bot@host JOIN #chan";
  bs ":irc.test.net 353 Bot = #chan :@ann +Bot";
  bs ":ann!a@one MODE #chan +v ann";
  bs ":ann!a@one PRIVMSG #chan :hello there";
  bs ":" ]).

(** The stream in pieces of seven bytes *)
Fixpoint pieces (n : nat) (s : bytes) : list bytes :=
  match n with
  | 0 => [s]
  | S n => take 7 s :: pieces n (drop 7 s)
  end.
Definition demo_reads : list bytes := pieces 40 demo_stream.

Definition fresh_net : Net := match made_bot.(b_servers) !! bs "net" with Some n => n | None => made_net end.
Definition demo_lines : list bytes := (siphon (fun _ => false) (map (fun d => (d, None)) demo_reads) [] []).1.

Lemma demo_lines_readable : readable 0 (bs "net") fresh_net.(n_server) demo_lines = true.
Proof. vm_compute. reflexivity. Qed.

Lemma fresh_net_there : b_servers made_bot !! bs "net" = Some fresh_net.
Proof. vm_compute. reflexivity. Qed.

Lemma made_bot_ok : bot_ok made_registry made_bot.
Proof.
  destruct made_parts as (b & g & Hb & _ & Hok).
  assert (made_bot = b) as -> by (unfold made_bot; by rewrite Hb).
  assert (made_registry = g) as -> by (unfold made_registry; by rewrite Hb). exact Hok.
Qed.

Lemma fresh_net_no_nil st : fresh_net.(n_server).(Server.state) = Some st -> no_nil st.
Proof. intros H. vm_compute in H. injection H as <-. split; decide_now. Qed.


(** Who is on the channel in the end, and with which modes; and the server
    that breaks the protocol: a mode for someone who is not there is not
    readable, and ends the bot. *)
Example connection_ends :
  (match go_fold (absorb 0 (bs "net")) fresh_net.(n_server) demo_lines with
   | Ret s => (fun st => map (fun n => (l ← GetUsersChannelModes st (bs n) (bs "#chan"); UserModes_String st.(sumodes) <$> st.(mheap) !! l))
                         ["ann"; "bot"; "me"]%string) <$> Server.state s
   | Panic => None
   end) = Some [Some (bs "ov"); Some (bs "v"); None] /\
  let ghost := demo_lines ++ [bs ":ann!a@one MODE #chan +v ghost"] in
  readable 0 (bs "net") fresh_net.(n_server) ghost = false /\
  is_panic (dispatch 0 (fun _ _ => false) made_registry (bs "net") made_bot ghost) = true.
Proof. vm_compute. by split. Qed.
