(* ===== verification/Proto.v ===== *)
(** * Package irc: the names of the protocol (irc/proto.go)

    All names of events that the program gives to authors of handlers, as
    tables; that the constants other files use are in them; which names stand
    for the same event; and that a server can send the events that the bot
    means to be its own. *)

From S2P Require Import Prelude GoStrings Hosts NetworkInfo Event Parse Writer Effects StoredUser Store.
From S2P Require Import ConfigMap NetCTX Config DispatchCore Dispatcher Server CoreHandler Bot.

(** irc/proto.go:6-19 [JOIN]: the events of the protocol *)
Definition protocol_events : list (string * string) := (
  [("JOIN", "JOIN"); ("KICK", "KICK"); ("MODE", "MODE"); ("NICK", "NICK"); ("NOTICE", "NOTICE"); ("PART", "PART");
   ("PING", "PING"); ("PONG", "PONG"); ("PRIVMSG", "PRIVMSG"); ("QUIT", "QUIT"); ("TOPIC", "TOPIC");
   ("CTCP", "PRIVMSG"); ("CTCPReply", "NOTICE")])%string.

(** irc/proto.go:24-108 [RPL_WELCOME]: the replies *)
Definition protocol_replies : list (string * string) := (
  [("RPL_WELCOME", "001"); ("RPL_YOURHOST", "002"); ("RPL_CREATED", "003"); ("RPL_MYINFO", "004");
   ("RPL_ISUPPORT", "005"); ("RPL_BOUNCE", "005"); ("RPL_USERHOST", "302"); ("RPL_ISON", "303");
   ("RPL_AWAY", "301"); ("RPL_UNAWAY", "305"); ("RPL_NOWAWAY", "306"); ("RPL_WHOISUSER", "311");
   ("RPL_WHOISSERVER", "312"); ("RPL_WHOISOPERATOR", "313"); ("RPL_WHOISIDLE", "317"); ("RPL_ENDOFWHOIS", "318");
   ("RPL_WHOISCHANNELS", "319"); ("RPL_WHOWASUSER", "314"); ("RPL_ENDOFWHOWAS", "369"); ("RPL_LISTSTART", "321");
   ("RPL_LIST", "322"); ("RPL_LISTEND", "323"); ("RPL_UNIQOPIS", "325"); ("RPL_CHANNELMODEIS", "324");
   ("RPL_NOTOPIC", "331"); ("RPL_TOPIC", "332"); ("RPL_INVITING", "341"); ("RPL_SUMMONING", "342");
   ("RPL_INVITELIST", "346"); ("RPL_ENDOFINVITELIST", "347"); ("RPL_EXCEPTLIST", "348");
   ("RPL_ENDOFEXCEPTLIST", "349"); ("RPL_VERSION", "351"); ("RPL_WHOREPLY", "352"); ("RPL_ENDOFWHO", "315");
   ("RPL_NAMREPLY", "353"); ("RPL_ENDOFNAMES", "366"); ("RPL_LINKS", "364"); ("RPL_ENDOFLINKS", "365");
   ("RPL_BANLIST", "367"); ("RPL_ENDOFBANLIST", "368"); ("RPL_INFO", "371"); ("RPL_ENDOFINFO", "374");
   ("RPL_MOTDSTART", "375"); ("RPL_MOTD", "372"); ("RPL_ENDOFMOTD", "376"); ("RPL_YOUREOPER", "381");
   ("RPL_REHASHING", "382"); ("RPL_YOURESERVICE", "383"); ("RPL_TIME", "391"); ("RPL_USERSSTART", "392");
   ("RPL_USERS", "393"); ("RPL_ENDOFUSERS", "394"); ("RPL_NOUSERS", "395"); ("RPL_TRACELINK", "200");
   ("RPL_TRACECONNECTING", "201"); ("RPL_TRACEHANDSHAKE", "202"); ("RPL_TRACEUNKNOWN", "203");
   ("RPL_TRACEOPERATOR", "204"); ("RPL_TRACEUSER", "205"); ("RPL_TRACESERVER", "206"); ("RPL_TRACESERVICE", "207");
   ("RPL_TRACENEWTYPE", "208"); ("RPL_TRACECLASS", "209"); ("RPL_TRACERECONNECT", "210"); ("RPL_TRACELOG", "261");
   ("RPL_TRACEEND", "262"); ("RPL_STATSLINKINFO", "211"); ("RPL_STATSCOMMANDS", "212"); ("RPL_ENDOFSTATS", "219");
   ("RPL_STATSUPTIME", "242"); ("RPL_STATSOLINE", "243"); ("RPL_UMODEIS", "221"); ("RPL_SERVLIST", "234");
   ("RPL_SERVLISTEND", "235"); ("RPL_LUSERCLIENT", "251"); ("RPL_LUSEROP", "252"); ("RPL_LUSERUNKNOWN", "253");
   ("RPL_LUSERCHANNELS", "254"); ("RPL_LUSERME", "255"); ("RPL_ADMINME", "256"); ("RPL_ADMINLOC1", "257");
   ("RPL_ADMINLOC2", "258"); ("RPL_ADMINEMAIL", "259"); ("RPL_TRYAGAIN", "263")])%string.

(** irc/proto.go:110-162 [ERR_NOSUCHNICK]: the errors *)
Definition protocol_errors : list (string * string) := (
  [("ERR_NOSUCHNICK", "401"); ("ERR_NOSUCHSERVER", "402"); ("ERR_NOSUCHCHANNEL", "403");
   ("ERR_CANNOTSENDTOCHAN", "404"); ("ERR_TOOMANYCHANNELS", "405"); ("ERR_WASNOSUCHNICK", "406");
   ("ERR_TOOMANYTARGETS", "407"); ("ERR_NOSUCHSERVICE", "408"); ("ERR_NOORIGIN", "409");
   ("ERR_NORECIPIENT", "411"); ("ERR_NOTEXTTOSEND", "412"); ("ERR_NOTOPLEVEL", "413"); ("ERR_WILDTOPLEVEL", "414");
   ("ERR_BADMASK", "415"); ("ERR_UNKNOWNCOMMAND", "421"); ("ERR_NOMOTD", "422"); ("ERR_NOADMININFO", "423");
   ("ERR_FILEERROR", "424"); ("ERR_NONICKNAMEGIVEN", "431"); ("ERR_ERRONEUSNICKNAME", "432");
   ("ERR_NICKNAMEINUSE", "433"); ("ERR_NICKCOLLISION", "436"); ("ERR_UNAVAILRESOURCE", "437");
   ("ERR_USERNOTINCHANNEL", "441"); ("ERR_NOTONCHANNEL", "442"); ("ERR_USERONCHANNEL", "443");
   ("ERR_NOLOGIN", "444"); ("ERR_SUMMONDISABLED", "445"); ("ERR_USERSDISABLED", "446");
   ("ERR_NOTREGISTERED", "451"); ("ERR_NEEDMOREPARAMS", "461"); ("ERR_ALREADYREGISTRED", "462");
   ("ERR_NOPERMFORHOST", "463"); ("ERR_PASSWDMISMATCH", "464"); ("ERR_YOUREBANNEDCREEP", "465");
   ("ERR_YOUWILLBEBANNED", "466"); ("ERR_KEYSET", "467"); ("ERR_CHANNELISFULL", "471"); ("ERR_UNKNOWNMODE", "472");
   ("ERR_INVITEONLYCHAN", "473"); ("ERR_BANNEDFROMCHAN", "474"); ("ERR_BADCHANNELKEY", "475");
   ("ERR_BADCHANMASK", "476"); ("ERR_NOCHANMODES", "477"); ("ERR_BANLISTFULL", "478"); ("ERR_NOPRIVILEGES", "481");
   ("ERR_CHANOPRIVSNEEDED", "482"); ("ERR_CANTKILLSERVER", "483"); ("ERR_RESTRICTED", "484");
   ("ERR_UNIQOPPRIVSNEEDED", "485"); ("ERR_NOOPERHOST", "491"); ("ERR_UMODEUNKNOWNFLAG", "501");
   ("ERR_USERSDONTMATCH", "502")])%string.

(** irc/proto.go:170-172 [RAW]: the events the bot makes itself *)
Definition pseudo_events : list (string * string) := (
  [("RAW", "RAW"); ("CONNECT", "CONNECT"); ("DISCONNECT", "DISCONNECT")])%string.

Definition protocol_names : list (string * string) :=
  protocol_events ++ protocol_replies ++ protocol_errors ++ pseudo_events.

(** The text of a name *)
Definition text_of (name : string) : option bytes :=
  (fun p => bs p.2.2) <$> list_find (fun p => p.1 = name) protocol_names.

(** The constants of the other files are those of the tables. *)
Example constants_agree :
  map text_of ["JOIN"; "KICK"; "MODE"; "NICK"; "NOTICE"; "PART"; "PING"; "PONG"; "PRIVMSG"; "QUIT"; "TOPIC"; "RPL_WELCOME";
    "RPL_MYINFO"; "RPL_ISUPPORT"; "RPL_CHANNELMODEIS"; "RPL_TOPIC"; "RPL_WHOREPLY"; "RPL_NAMREPLY"; "RPL_BANLIST";
    "ERR_NICKNAMEINUSE"; "ERR_BANNEDFROMCHAN"; "RAW"; "CONNECT"; "DISCONNECT"]%string =
  map Some [JOIN; KICK; MODE; NICK; NOTICE; PART; P_PING; P_PONG; PRIVMSG; QUIT; TOPIC; RPL_WELCOME;
    RPL_MYINFO; RPL_ISUPPORT; RPL_CHANNELMODEIS; RPL_TOPIC; RPL_WHOREPLY; RPL_NAMREPLY; RPL_BANLIST;
    ERR_NICKNAMEINUSE; ERR_BANNEDFROMCHAN; RAW; CONNECT; DISCONNECT].
Proof. vm_compute. reflexivity. Qed.

(** Names that stand for the same event *)
Definition synonyms : list (string * string) :=
  concat (imap (fun i p => map (fun q => (p.1, q.1)) (filter (fun q => q.2 = p.2) (drop (S i) protocol_names))) protocol_names).

Example synonyms_are :
  synonyms = [("NOTICE", "CTCPReply"); ("PRIVMSG", "CTCP"); ("RPL_ISUPPORT", "RPL_BOUNCE")]%string.
Proof. vm_compute. reflexivity. Qed.

Section Forged.
Context {CT : CaseTables}.

(** The event of the bot's own making, sent by a server *)
Definition forged (name : bytes) : bytes := bs ":irc.test.net " ++ name ++ bs " x".

Lemma forged_parses now id s :
  Forall (fun p => exists ev, line_event now id s (forged (bs p.2)) = Some ev /\ ev.(Name) = bs p.2 /\ ev.(NetworkID) = id)
    pseudo_events.
Proof. repeat (constructor; [eexists; repeat split; vm_compute; reflexivity|]). constructor. Qed.

(** The core handler does for a server's CONNECT what it does when the
    connection is made: it sends the password and logs in again. *)
Theorem forged_connect {W E : Type} (Write : bytes -> W -> W * option E) (h : Heap) (scale : Z) now id s :
  exists ev, line_event now id s (forged CONNECT) = Some ev /\
    HandleRaw Write h scale ev = HandleRaw Write h scale (connection_event now CONNECT id s).
Proof.
  pose proof (forged_parses now id s) as H. rewrite Forall_forall in H.
  destruct (H ("CONNECT", "CONNECT")%string) as (ev & Hev & Hn & Hid); [by right; left|].
  exists ev. split; [exact Hev|]. unfold HandleRaw. change (bs (("CONNECT", "CONNECT")%string).2) with CONNECT in Hn.
  rewrite Hn. cbn zeta. rewrite (bool_decide_false (CONNECT = P_PING)) by done. rewrite (bool_decide_true (CONNECT = CONNECT)) by done.
  cbn [Name connection_event NewEvent]. unfold on_connect. by rewrite Hid.
Qed.
End Forged.
