(* ===== verification/Locks.v ===== *)
(** * Packages data, cmd and bot: the locks of states and store
    (data/locker.go, dispatch/cmd/event.go, bot/bot.go)

    What the goroutines of a bot do with the locks of the networks' states and
    of the store: the goroutine of a server changes the state with each message
    and opens state and store for the commands, commands close what was opened
    for them, the core commands write to the store and the core handler reads
    and changes the state.  A goroutine is the sequence of its actions on the
    locks; what it does in between is the matter of the other files.  The
    servers of the bot stay the same: replacing the configuration is left out,
    and so are the locks of a server's client, of which [Shutdown.v] tells. *)

From S2P Require Import Prelude GoStrings Event CoreHandler Cmds.

(** ** Mutexes and goroutines *)

Inductive lock := LState (networkID : bytes) | LStore.
#[export] Instance lock_eq_dec : EqDecision lock.
Proof. solve_decision. Defined.

(** The actions of an [RWMutex]; [Lock] is two: waiting, from when on nobody
    is let in for reading, and having the lock when the last reader is out. *)
Inductive action := RLock (l : lock) | RUnlock (l : lock) | Wait (l : lock) | Lock (l : lock) | Unlock (l : lock).

(** What a goroutine still has to do; [Go] starts another one. *)
Inductive prog := Ends | Do (a : action) (p : prog) | Go (q p : prog).

Record mutex := { readers : nat; writing : option bool }.
Definition unlocked : mutex := {| readers := 0; writing := None |}.

Record world := { mutexes : lock -> mutex; goroutines : list prog }.

(** [None]: the goroutine has to wait; a panic: a fatal error of the runtime,
    for a lock is given back that nobody has. *)
Definition act_mutex (a : action) (m : mutex) : option (go mutex) :=
  match a with
  | RLock _ =>
    match m.(writing) with
    | None => Some (Ret {| readers := S m.(readers); writing := None |})
    | Some _ => None
    end
  | RUnlock _ =>
    match m.(readers) with
    | 0 => Some Panic
    | S n => Some (Ret {| readers := n; writing := m.(writing) |})
    end
  | Wait _ =>
    match m.(writing) with
    | None => Some (Ret {| readers := m.(readers); writing := Some false |})
    | Some _ => None
    end
  | Lock _ =>
    match m.(readers) with
    | 0 => Some (Ret {| readers := 0; writing := Some true |})
    | S _ => None
    end
  | Unlock _ =>
    match m.(writing) with
    | Some true => Some (Ret {| readers := m.(readers); writing := None |})
    | _ => Some Panic
    end
  end.

Definition lock_of (a : action) : lock :=
  match a with RLock l | RUnlock l | Wait l | Lock l | Unlock l => l end.

Definition set_mutex (l : lock) (m : mutex) (f : lock -> mutex) : lock -> mutex :=
  fun l' => if decide (l = l') then m else f l'.

(** One action of one goroutine *)
Definition step (w : world) (i : nat) : option (go world) :=
  match w.(goroutines) !! i with
  | Some (Do a p) =>
    r ← act_mutex a (w.(mutexes) (lock_of a));
    Some (m ← r; Ret {| mutexes := set_mutex (lock_of a) m w.(mutexes);
                        goroutines := <[i := p]> w.(goroutines) |})
  | Some (Go q p) => Some (Ret {| mutexes := w.(mutexes); goroutines := <[i := p]> w.(goroutines) ++ [q] |})
  | _ => None
  end.

(** The goroutines take turns as the list says. *)
Fixpoint run (w : world) (turns : list nat) : option (go world) :=
  match turns with
  | [] => Some (Ret w)
  | i :: turns => r ← step w i; match r with Ret w => run w turns | Panic => Some Panic end
  end.

Definition start (ps : list prog) : world := {| mutexes := fun _ => unlocked; goroutines := ps |}.
Definition ended (w : world) : Prop := Forall (eq Ends) w.(goroutines).

(** ** The interface *)

(** data/locker.go:4-28 [Locker]: what each end of a use does, put before the rest
    of a goroutine *)
Class Locker := {
  OpenState : bytes -> prog -> prog;
  CloseState : bytes -> prog -> prog;
  OpenReadStore : prog -> prog;
  CloseReadStore : prog -> prog;
  OpenWriteStore : prog -> prog;
  CloseWriteStore : prog -> prog;
}.

Section Locker.
Context {L : Locker}.

(** data/locker.go:7-7 [Locker.ReadState]: around a callback that uses no locks *)
Definition ReadState (networkID : bytes) (p : prog) : prog := OpenState networkID (CloseState networkID p).
(** data/locker.go:15-15 [Locker.ReadStore] *)
Definition ReadStore (p : prog) : prog := OpenReadStore (CloseReadStore p).
(** data/locker.go:23-23 [Locker.WriteStore] *)
Definition WriteStore (p : prog) : prog := OpenWriteStore (CloseWriteStore p).

(** ** Commands *)

(** dispatch/cmd/event.go:152-155 [Event.Close]: the fields of the event *)
Definition clear_event (ev : CmdEvent) : CmdEvent := set_sender ev None None None None.

(** dispatch/cmd/event.go:150-162 [Event.Close]: the locks; [closed] is what [once]
    remembers. *)
Definition Event_Close (networkID : bytes) (closed : bool) (p : prog) : prog :=
  if closed then p else CloseState networkID (CloseReadStore p).

(** What a handler of commands does with locks: it may close its event, and
    write to the store. *)
Inductive call := Closes | Writes.

(** dispatch/cmd/cmds.go:328-339 [Cmds.Dispatch]: the goroutine of a command; its
    event is closed when the handler returns or panics. *)
Fixpoint command (networkID : bytes) (closed : bool) (cs : list call) : prog :=
  match cs with
  | [] => Event_Close networkID closed Ends
  | Closes :: cs => Event_Close networkID closed (command networkID true cs)
  | Writes :: cs => WriteStore (command networkID closed cs)
  end.

(** dispatch/cmd/cmds.go:294-342 [Cmds.Dispatch]: the locks on each of its ways out *)
Definition Dispatch (networkID : bytes) (o : outcome) (calls : list call) (p : prog) : prog :=
  match o with
  | Ignored => p
  | Refused _ _ => OpenState networkID (OpenReadStore (Event_Close networkID false p))
  | Started _ _ _ => OpenState networkID (OpenReadStore (Go (command networkID false calls) p))
  end.

(** bot/core_commands.go:339-342 [coreCmds.register]: a core command that writes to
    the store closes its event first, and one that does not comes to neither. *)
Definition core_calls (writes : bool) : list call := if writes then [Closes; Writes] else [].

(** ** Messages *)

(** bot/bot.go:273-277 [Bot.dispatch]: the server's own lock is held while its state
    is changed. *)
Definition update_state (networkID : bytes) (p : prog) : prog :=
  Do (Wait (LState networkID)) (Do (Lock (LState networkID)) (Do (Unlock (LState networkID)) p)).

(** bot/core_handler.go:96-158 [coreHandler.HandleRaw]: the locks it takes, when
    it comes to them; it has no lock of these when it returns earlier *)
Definition HandleRaw (networkID name : bytes) : prog :=
  if decide (name = KICK \/ name = ERR_BANNEDFROMCHAN) then ReadState networkID Ends
  else if decide (name = JOIN) then
    Do (RLock (LState networkID)) (Do (RUnlock (LState networkID)) Ends)
  else if decide (name = RPL_MYINFO \/ name = RPL_ISUPPORT) then update_state networkID Ends
  else Ends.

(** A message, the handlers it is given to, and what dispatching it as a command
    comes to, for the bot and for the network, with the calls of the commands *)
Record message := {
  m_update : bool;                  (** it comes from the line, not from the bot itself *)
  m_handlers : list prog;
  m_cmd : outcome;
  m_calls : list call;
  m_net_cmd : outcome;
  m_net_calls : list call;
}.

(** bot/bot.go:291-296 [Bot.dispatchMessage]: what the goroutine of a server does
    with a message *)
Definition handle_message (networkID : bytes) (m : message) (p : prog) : prog :=
  let p := Dispatch networkID m.(m_cmd) m.(m_calls) (Dispatch networkID m.(m_net_cmd) m.(m_net_calls) p) in
  let p := foldr Go p m.(m_handlers) in
  if m.(m_update) then update_state networkID p else p.

Definition server (s : bytes * list message) : prog := foldr (handle_message s.1) Ends s.2.
End Locker.

(** The implementation.  [known] are the networks the bot has. *)
Section Bot_Locker.
Context (known : bytes -> bool).

(** bot/bot.go:416-424 [Bot.OpenState] *)
Definition Bot_OpenState (networkID : bytes) (p : prog) : prog :=
  if known networkID then Do (RLock (LState networkID)) p else p.
(** bot/bot.go:427-432 [Bot.CloseState] *)
Definition Bot_CloseState (networkID : bytes) (p : prog) : prog :=
  if known networkID then Do (RUnlock (LState networkID)) p else p.

(** bot/bot.go:449-482 [Bot.OpenReadStore]: and the methods after it *)
Definition Bot_Locker : Locker := {|
  OpenState := Bot_OpenState;
  CloseState := Bot_CloseState;
  OpenReadStore := Do (RLock LStore);
  CloseReadStore := Do (RUnlock LStore);
  OpenWriteStore := fun p => Do (Wait LStore) (Do (Lock LStore) p);
  CloseWriteStore := Do (Unlock LStore);
|}.
End Bot_Locker.

(** ** Discipline *)

(** What a goroutine has, or waits for when the flag is false *)
Record held := { in_state : option bytes; in_store : bool; in_write : option (lock * bool) }.
#[export] Instance held_eq_dec : EqDecision held.
Proof. solve_decision. Defined.

Definition nothing : held := {| in_state := None; in_store := false; in_write := None |}.
Definition only (l : lock) (b : bool) : held := {| in_state := None; in_store := false; in_write := Some (l, b) |}.

(** The order that is kept: a state before the store, at most one of each for
    reading, and a lock for writing only with nothing else. *)
Definition take (h : held) (a : action) : option held :=
  match a with
  | RLock (LState n) =>
    if decide (h = nothing) then Some {| in_state := Some n; in_store := false; in_write := None |} else None
  | RLock LStore =>
    if decide (h.(in_store) = false /\ h.(in_write) = None)
    then Some {| in_state := h.(in_state); in_store := true; in_write := None |} else None
  | RUnlock (LState n) =>
    if decide (h.(in_state) = Some n)
    then Some {| in_state := None; in_store := h.(in_store); in_write := h.(in_write) |} else None
  | RUnlock LStore =>
    if h.(in_store) then Some {| in_state := h.(in_state); in_store := false; in_write := h.(in_write) |} else None
  | Wait l =>
    if decide (h = nothing) then Some (only l false) else None
  | Lock l => if decide (h = only l false) then Some (only l true) else None
  | Unlock l => if decide (h = only l true) then Some nothing else None
  end.

(** A goroutine that has [h] keeps the order, and ends with nothing; one that
    it starts takes over what it has. *)
Fixpoint disciplined (h : held) (p : prog) : bool :=
  match p with
  | Ends => bool_decide (h = nothing)
  | Do a p => match take h a with Some h => disciplined h p | None => false end
  | Go q p => disciplined h q && disciplined nothing p
  end.

(** How much there is to do *)
Fixpoint size (p : prog) : nat :=
  match p with Ends => 0 | Do _ p => S (size p) | Go q p => S (size q + size p) end.
Definition work (w : world) : nat := sum_list_with size w.(goroutines).

(** ** Keeping the books *)

Definition reads (l : lock) (h : held) : nat :=
  match l with
  | LState n => if decide (h.(in_state) = Some n) then 1 else 0
  | LStore => if h.(in_store) then 1 else 0
  end.
Definition writes (l : lock) (b : bool) (h : held) : nat :=
  if decide (h.(in_write) = Some (l, b)) then 1 else 0.

Definition total (f : held -> nat) (hs : list held) : nat := sum_list_with f hs.

(** A mutex counts those that have it. *)
Record counted (l : lock) (m : mutex) (hs : list held) : Prop := {
  ct_readers : m.(readers) = total (reads l) hs;
  ct_waits : total (writes l false) hs = (if decide (m.(writing) = Some false) then 1 else 0);
  ct_has : total (writes l true) hs = (if decide (m.(writing) = Some true) then 1 else 0);
  ct_alone : m.(writing) = Some true -> m.(readers) = 0;
}.

Record books (w : world) (hs : list held) : Prop := {
  bk_prog : Forall2 (fun h p => disciplined h p = true) hs w.(goroutines);
  bk_count : forall l, counted l (w.(mutexes) l) hs;
}.

Lemma total_insert f hs i h h' :
  hs !! i = Some h -> total f (<[i := h']> hs) + f h = total f hs + f h'.
Proof.
  unfold total. revert i. induction hs as [|x hs IH]; intros [|i] Hi; try done; simpl in *.
  - injection Hi as ->. lia.
  - specialize (IH i Hi). lia.
Qed.

Lemma total_app f hs h : total f (hs ++ [h]) = total f hs + f h.
Proof. unfold total. rewrite sum_list_with_app. cbn. lia. Qed.

Lemma total_ex f hs : 0 < total f hs -> exists i h, hs !! i = Some h /\ 0 < f h.
Proof.
  induction hs as [|x hs IH]; cbn; [lia|]. intros H. destruct (decide (0 < f x)) as [Hx|Hx].
  - by exists 0, x.
  - destruct IH as (i & h & Hi & Hh); [unfold total; lia|]. by exists (S i), h.
Qed.

Lemma total_0 f hs : (forall i h, hs !! i = Some h -> f h = 0) -> total f hs = 0.
Proof.
  intros H. destruct (decide (0 < total f hs)) as [(i & h & Hi & Hh)%total_ex|]; [|lia].
  rewrite (H i h Hi) in Hh. lia.
Qed.

Definition one (b : bool) : nat := if b then 1 else 0.
#[export] Instance action_eq_dec : EqDecision action.
Proof. solve_decision. Defined.

(** What an action changes in the accounts of a lock *)
Lemma take_reads h a h' l :
  take h a = Some h' ->
  reads l h' + one (bool_decide (a = RUnlock l)) = reads l h + one (bool_decide (a = RLock l)).
Proof.
  intros H. destruct a as [[n|]|[n|]|[n|]|[n|]|[n|]], l as [n'|]; cbn in H; repeat case_decide; simplify_eq; cbn;
    repeat case_bool_decide; simplify_eq; cbn; repeat case_decide; simplify_eq; try done;
    try (destruct (in_store h); simplify_eq; cbn; repeat case_decide; simplify_eq); try done; naive_solver.
Qed.

Lemma take_writes h a h' l b :
  take h a = Some h' ->
  writes l b h' + one (bool_decide (a = if b then Unlock l else Lock l)) =
  writes l b h + one (bool_decide (a = if b then Lock l else Wait l)).
Proof.
  intros H. unfold writes. destruct a as [[n|]|[n|]|l'|l'|l'], b; cbn in H; repeat case_decide; simplify_eq; cbn;
    repeat case_bool_decide; simplify_eq; cbn in *; repeat case_decide; simplify_eq; try done;
    try (destruct (in_store h); simplify_eq; cbn in *; repeat case_decide; simplify_eq); try done; naive_solver.
Qed.

Lemma total_take hs i h a h' l :
  hs !! i = Some h -> take h a = Some h' ->
  total (reads l) (<[i := h']> hs) + one (bool_decide (a = RUnlock l)) =
    total (reads l) hs + one (bool_decide (a = RLock l)) /\
  forall b, total (writes l b) (<[i := h']> hs) + one (bool_decide (a = if b then Unlock l else Lock l)) =
    total (writes l b) hs + one (bool_decide (a = if b then Lock l else Wait l)).
Proof.
  intros Hi Ht. split.
  - pose proof (total_insert (reads l) hs i h h' Hi). pose proof (take_reads h a h' l Ht). lia.
  - intros b. pose proof (total_insert (writes l b) hs i h h' Hi). pose proof (take_writes h a h' l b Ht). lia.
Qed.

(** An action keeps the account of its mutex, *)
Lemma counted_act a m hs hs' r :
  let l := lock_of a in
  counted l m hs -> act_mutex a m = Some r ->
  (total (reads l) hs' + one (bool_decide (a = RUnlock l)) = total (reads l) hs + one (bool_decide (a = RLock l))) ->
  (forall b, total (writes l b) hs' + one (bool_decide (a = if b then Unlock l else Lock l)) =
             total (writes l b) hs + one (bool_decide (a = if b then Lock l else Wait l))) ->
  exists m', r = Ret m' /\ counted l m' hs'.
Proof.
  intros l [H1 H2 H3 H4] Hr Hreads Hw. pose proof (Hw false) as Hf. pose proof (Hw true) as Ht. clear Hw. cbn in Hf, Ht.
  rewrite H2 in Hf. rewrite H3 in Ht. rewrite <- H1 in Hreads.
  destruct m as [n wr]. cbn in *.
  destruct a; cbn in *; subst l; unfold one in *; repeat case_bool_decide; try congruence;
    destruct wr as [[]|], n; cbn in *; repeat case_decide; simplify_eq; try lia;
    (eexists; split; [reflexivity|]; split; cbn; repeat case_decide; simplify_eq; lia || naive_solver).
Qed.

(** and that of every other. *)
Lemma counted_other a m hs hs' l :
  l <> lock_of a -> counted l m hs ->
  (total (reads l) hs' + one (bool_decide (a = RUnlock l)) = total (reads l) hs + one (bool_decide (a = RLock l))) ->
  (forall b, total (writes l b) hs' + one (bool_decide (a = if b then Unlock l else Lock l)) =
             total (writes l b) hs + one (bool_decide (a = if b then Lock l else Wait l))) ->
  counted l m hs'.
Proof.
  intros Hl [H1 H2 H3 H4] Hr Hw. pose proof (Hw false) as Hf. pose proof (Hw true) as Ht. clear Hw. cbn in Hf, Ht.
  unfold one in *. repeat case_bool_decide; try (by subst); rewrite !Nat.add_0_r in Hr, Hf, Ht.
  split; [by rewrite Hr|by rewrite Hf|by rewrite Ht|done].
Qed.

(** A goroutine that starts another hands over what it has. *)
Lemma counted_go l m hs i h :
  hs !! i = Some h -> counted l m hs -> counted l m (<[i := nothing]> hs ++ [h]).
Proof.
  intros Hi [H1 H2 H3 H4].
  assert (forall f, f nothing = 0 -> total f (<[i := nothing]> hs ++ [h]) = total f hs) as Hf.
  { intros f Hf. rewrite total_app. pose proof (total_insert f hs i h nothing Hi). lia. }
  assert (reads l nothing = 0) by (by destruct l).
  split; rewrite ?Hf; done.
Qed.

Lemma size_insert (ps : list prog) i p p' :
  ps !! i = Some p -> sum_list_with size (<[i := p']> ps) + size p = sum_list_with size ps + size p'.
Proof.
  revert i. induction ps as [|x ps IH]; intros [|i] Hi; try done; simpl in *.
  - injection Hi as ->. lia.
  - specialize (IH i Hi). lia.
Qed.

(** Every step is one of a disciplined world: no lock is given back that
    nobody has, and there is less to do. *)
Lemma step_books w hs i r :
  books w hs -> step w i = Some r ->
  exists w' hs', r = Ret w' /\ books w' hs' /\ work w = S (work w').
Proof.
  intros [Hp Hc] Hs. unfold step in Hs. destruct (goroutines w !! i) as [[|a p|q p]|] eqn:Hg; try done.
  - destruct (act_mutex a (mutexes w (lock_of a))) as [r'|] eqn:Ha; [|done]. injection Hs as <-.
    destruct (Forall2_lookup_r _ _ _ _ _ Hp Hg) as (h & Hi & Hd). cbn in Hd.
    destruct (take h a) as [h'|] eqn:Ht; [|done].
    assert (forall l, _) as Htot by (intros l; exact (total_take hs i h a h' l Hi Ht)).
    destruct (counted_act a _ hs (<[i := h']> hs) r' (Hc _) Ha (proj1 (Htot _)) (proj2 (Htot _))) as (m' & -> & Hm').
    eexists _, (<[i := h']> hs). split; [reflexivity|]. split; [split; cbn|].
    + by apply Forall2_insert.
    + intros l. unfold set_mutex. destruct (decide (lock_of a = l)) as [<-|]; [done|].
      destruct (Htot l). by apply (counted_other a _ hs).
    + unfold work; cbn. pose proof (size_insert _ _ _ p Hg). cbn in *. lia.
  - injection Hs as <-. destruct (Forall2_lookup_r _ _ _ _ _ Hp Hg) as (h & Hi & Hd). cbn in Hd.
    apply andb_prop in Hd as [Hd1 Hd2]. eexists _, (<[i := nothing]> hs ++ [h]). split; [reflexivity|].
    split; [split; cbn|].
    + apply Forall2_app; [by apply Forall2_insert|by repeat constructor].
    + intros l. by apply counted_go.
    + unfold work; cbn. rewrite sum_list_with_app. pose proof (size_insert _ _ _ p Hg). cbn in *. lia.
Qed.

Lemma run_books w hs turns r :
  books w hs -> run w turns = Some r ->
  exists w' hs', r = Ret w' /\ books w' hs' /\ work w = length turns + work w'.
Proof.
  revert w hs. induction turns as [|i turns IH]; intros w hs Hb Hr; cbn in Hr.
  - injection Hr as <-. by exists w, hs.
  - destruct (step w i) as [r1|] eqn:Hs; [|done].
    destruct (step_books _ _ _ _ Hb Hs) as (w1 & hs1 & -> & Hb1 & Hw). cbn in Hr.
    destruct (IH _ _ Hb1 Hr) as (w' & hs' & -> & Hb' & Hw'). exists w', hs'. split; [done|]. split; [done|]. cbn. lia.
Qed.

Lemma start_books ps : Forall (fun p => disciplined nothing p = true) ps -> books (start ps) (replicate (length ps) nothing).
Proof.
  intros Hp.
  assert (forall f, f nothing = 0 -> total f (replicate (length ps) nothing) = 0) as Hf.
  { intros f Hf. apply total_0. intros i h [-> _]%lookup_replicate. done. }
  split; cbn.
  - by apply Forall2_replicate_l.
  - intros l. split; cbn; rewrite ?Hf; try done. by destruct l.
Qed.

(** ** Nobody waits for ever *)

(** Who cannot go on has ended, or waits for a lock in the order that is kept. *)
Lemma waits_for w i h p :
  w.(goroutines) !! i = Some p -> disciplined h p = true -> step w i = None ->
  (p = Ends /\ h = nothing) \/
  (h = nothing /\ exists l, (w.(mutexes) l).(writing) <> None) \/
  (h.(in_store) = false /\ h.(in_write) = None /\ (w.(mutexes) LStore).(writing) <> None) \/
  (exists l, h = only l false /\ (w.(mutexes) l).(readers) <> 0).
Proof.
  intros Hg Hd Hs. unfold step in Hs. rewrite Hg in Hs. destruct p as [|a p|q p]; [|clear Hg|done].
  { left. split; [done|]. by apply bool_decide_eq_true in Hd. }
  cbn in Hd. destruct a as [l|l|l|l|l]; cbn in Hs.
  - destruct (writing (mutexes w l)) eqn:Hw; [|done]. destruct l; cbn in Hd; case_decide as Hh; try done.
    + right; left. split; [done|]. eexists. by rewrite Hw.
    + destruct Hh. right; right; left. by rewrite Hw.
  - by destruct (readers (mutexes w l)).
  - destruct (writing (mutexes w l)) eqn:Hw; [|done]. cbn in Hd. case_decide; [|done].
    right; left. split; [done|]. eexists. by rewrite Hw.
  - destruct (readers (mutexes w l)) eqn:Hr; [done|]. cbn in Hd. case_decide; [|done].
    right; right; right. exists l. by rewrite Hr.
  - by destruct (writing (mutexes w l)) as [[]|].
Qed.

(** A lock that nobody has for reading is not waited for. *)
Lemma not_written w hs l :
  books w hs -> (forall i, step w i = None) -> (forall i h, hs !! i = Some h -> reads l h = 0) ->
  (w.(mutexes) l).(writing) = None.
Proof.
  intros [Hp Hc] Hs Hr. destruct (Hc l) as [H1 H2 H3 _]. rewrite (total_0 _ _ Hr) in H1.
  destruct (writing (mutexes w l)) as [b|] eqn:Hw; [|done]. exfalso.
  assert (0 < total (writes l b) hs) as (i & h & Hi & Hh)%total_ex by (destruct b; rewrite ?H2, ?H3, decide_True by done; lia).
  unfold writes in Hh. destruct (decide (in_write h = Some (l, b))) as [E|]; [|lia].
  destruct (Forall2_lookup_l _ _ _ _ _ Hp Hi) as (p & Hg & Hd).
  destruct (waits_for _ _ _ _ Hg Hd (Hs i)) as [[_ ->]|[[-> _]|[(_ & E' & _)|(l' & -> & E')]]]; try done; [congruence|].
  cbn in E. injection E as -> <-. congruence.
Qed.

Lemma stuck_ended w hs : books w hs -> (forall i, step w i = None) -> ended w.
Proof.
  intros Hb Hs. pose proof Hb as [Hp Hc].
  assert (forall i h, hs !! i = Some h -> exists p, goroutines w !! i = Some p /\
    ((p = Ends /\ h = nothing) \/ (h = nothing /\ exists l, (w.(mutexes) l).(writing) <> None) \/
     (h.(in_store) = false /\ h.(in_write) = None /\ (w.(mutexes) LStore).(writing) <> None) \/
     (exists l, h = only l false /\ (w.(mutexes) l).(readers) <> 0))) as Hh.
  { intros i h Hi. destruct (Forall2_lookup_l _ _ _ _ _ Hp Hi) as (p & Hg & Hd).
    exists p. split; [done|]. by eapply waits_for. }
  assert (writing (mutexes w LStore) = None) as Hstore.
  { apply (not_written w hs); [done..|]. intros i h Hi. cbn.
    destruct (Hh i h Hi) as (p & _ & [[_ ->]|[[-> _]|[(-> & _)|(l & -> & _)]]]); done. }
  assert (forall l, writing (mutexes w l) = None) as Hall.
  { intros [n|]; [|done]. apply (not_written w hs); [done..|]. intros i h Hi. cbn.
    destruct (Hh i h Hi) as (p & _ & [[_ ->]|[[-> _]|[(_ & _ & ?)|(l & -> & _)]]]); done. }
  apply Forall_lookup_2. intros i p Hi. destruct (Forall2_lookup_r _ _ _ _ _ Hp Hi) as (h & Hi' & Hd).
  assert (forall l, readers (mutexes w l) = 0) as Hr.
  { intros l. rewrite (ct_readers _ _ _ (Hc l)). apply total_0. intros j h' Hj.
    destruct (Hh j h' Hj) as (p' & _ & [[_ ->]|[[-> _]|[(_ & _ & ?)|(l' & -> & _)]]]); try done; by destruct l. }
  destruct (waits_for _ _ _ _ Hi Hd (Hs i)) as [[-> _]|[[_ [l Hl]]|[(_ & _ & ?)|(l & _ & Hl)]]];
    [done|by rewrite Hall in Hl|done|by rewrite Hr in Hl].
Qed.

Lemma ended_unlocked w hs l : books w hs -> ended w -> w.(mutexes) l = unlocked.
Proof.
  intros [Hp Hc] He.
  assert (forall f, f nothing = 0 -> total f hs = 0) as Hf.
  { intros f Hf. apply total_0. intros i h Hi. destruct (Forall2_lookup_l _ _ _ _ _ Hp Hi) as (p & Hg & Hd).
    rewrite <- (Forall_lookup_1 _ _ _ _ He Hg) in Hd. by apply bool_decide_eq_true in Hd as ->. }
  destruct (Hc l) as [H1 H2 H3 _]. rewrite Hf in H1 by (by destruct l). rewrite Hf in H2, H3 by done.
  destruct (mutexes w l) as [n [[]|]]; cbn in *; subst; done.
Qed.

(** A disciplined world goes on until all have ended and all locks are free. *)
Lemma disciplined_runs ps turns r :
  Forall (fun p => disciplined nothing p = true) ps -> run (start ps) turns = Some r ->
  exists w, r = Ret w /\ work (start ps) = length turns + work w /\
    ((exists i w', step w i = Some (Ret w')) \/ (ended w /\ forall l, w.(mutexes) l = unlocked)).
Proof.
  intros Hp%start_books Hr. destruct (run_books _ _ _ _ Hp Hr) as (w & hs & -> & Hb & Hw).
  exists w. split; [done|]. split; [done|].
  destruct (decide (Exists (fun i => is_Some (step w i)) (seq 0 (length (goroutines w))))) as [He|Hn].
  - left. apply Exists_exists in He as (i & _ & [r Hi]).
    destruct (step_books _ _ _ _ Hb Hi) as (w' & _ & -> & _). by exists i, w'.
  - right. assert (ended w) as He; [|split; [done|]; intros l; by eapply ended_unlocked].
    apply (stuck_ended w hs Hb). intros i. destruct (step w i) eqn:E; [|done]. exfalso. apply Hn, Exists_exists.
    exists i. split; [|by rewrite E]. apply elem_of_seq. split; [lia|].
    unfold step in E. destruct (goroutines w !! i) eqn:Hg; [|done]. by apply lookup_lt_Some in Hg.
Qed.

(** ** The goroutines of the bot *)

(** What commands rely on: opening state and store in this order and closing
    both, or writing to the store, ends as it began. *)
Class Orderly (L : Locker) := {
  opened : bytes -> held;
  open_law n p : disciplined nothing (OpenState n (OpenReadStore p)) = disciplined (opened n) p;
  close_law n p : disciplined (opened n) (CloseState n (CloseReadStore p)) = disciplined nothing p;
  read_law n p : disciplined nothing (OpenState n (CloseState n p)) = disciplined nothing p;
  write_law p : disciplined nothing (OpenWriteStore (CloseWriteStore p)) = disciplined nothing p;
}.

#[export] Instance Bot_Orderly known : Orderly (Bot_Locker known).
Proof.
  refine {| opened := fun n => {| in_state := if known n then Some n else None; in_store := true; in_write := None |} |}.
  - intros n p. cbn. unfold Bot_OpenState. by destruct (known n).
  - intros n p. cbn. unfold Bot_CloseState. destruct (known n); cbn; [|done]. rewrite decide_True by done. done.
  - intros n p. cbn. unfold Bot_OpenState, Bot_CloseState. destruct (known n); [|done].
    repeat (cbn; rewrite decide_True by done). done.
  - intros p. reflexivity.
Defined.

(** A handler that writes to the store has closed its event. *)
Fixpoint closes_first (closed : bool) (cs : list call) : bool :=
  match cs with
  | [] => true
  | Closes :: cs => closes_first true cs
  | Writes :: cs => closed && closes_first closed cs
  end.

Definition orderly (m : message) : bool :=
  forallb (disciplined nothing) m.(m_handlers) && closes_first false m.(m_calls) && closes_first false m.(m_net_calls).

Lemma core_calls_close writes : closes_first false (core_calls writes) = true.
Proof. by destruct writes. Qed.

Section Orderly.
Context {L : Locker} {OL : Orderly L}.

Lemma command_disciplined n closed cs :
  closes_first closed cs = true ->
  disciplined (if closed then nothing else opened n) (command n closed cs) = true.
Proof.
  revert closed. induction cs as [|[] cs IH]; intros closed H; cbn in *.
  - destruct closed; cbn; [done|]. by rewrite close_law.
  - destruct closed; cbn; [by apply (IH true)|]. rewrite close_law. by apply (IH true).
  - apply andb_prop in H as [-> H]. unfold WriteStore. rewrite write_law. by apply (IH true).
Qed.

Lemma Dispatch_disciplined n o cs p :
  closes_first false cs = true -> disciplined nothing (Dispatch n o cs p) = disciplined nothing p.
Proof.
  intros H. destruct o; cbn; [done|by rewrite open_law, close_law|].
  rewrite open_law. cbn. by rewrite (command_disciplined n false cs H).
Qed.

Lemma update_state_disciplined n p : disciplined nothing (update_state n p) = disciplined nothing p.
Proof. unfold update_state. repeat (cbn; rewrite decide_True by done). done. Qed.

Lemma HandleRaw_disciplined n name : disciplined nothing (HandleRaw n name) = true.
Proof.
  unfold HandleRaw, ReadState. repeat case_decide; [by rewrite read_law| |by rewrite update_state_disciplined|done].
  repeat (cbn; rewrite decide_True by done). done.
Qed.

Lemma server_disciplined s : forallb orderly s.2 = true -> disciplined nothing (server s) = true.
Proof.
  destruct s as [n ms]. unfold server. cbn [fst snd]. induction ms as [|m ms IH]; intros H; [done|].
  apply andb_prop in H as [Hm H]. cbn [foldr]. unfold handle_message. unfold orderly in Hm.
  apply andb_prop in Hm as [[Hh Hc]%andb_prop Hn].
  set (p := Dispatch n _ _ _).
  assert (disciplined nothing p = true) as Hp by (unfold p; rewrite !Dispatch_disciplined; auto).
  assert (disciplined nothing (foldr Go p (m_handlers m)) = true) as Hg.
  { revert Hh. generalize (m_handlers m) as qs. induction qs as [|q qs IHq]; cbn; [done|].
    intros [-> Hq]%andb_prop. by apply IHq. }
  destruct (m_update m); [by rewrite update_state_disciplined|done].
Qed.
End Orderly.

(** C31. Whatever messages the servers of a bot get, and in whatever order their
    goroutines and those of handlers and commands take turns: if every command
    that writes to the store closes its event first, no lock is given back
    that nobody has, the turns are no more than there are actions, and either
    some goroutine can go on or all have ended and every lock is free. *)
Theorem locks_end known servers turns r :
  Forall (fun s => forallb orderly s.2 = true) servers ->
  run (start (map (server (L := Bot_Locker known)) servers)) turns = Some r ->
  exists w, r = Ret w /\
    work (start (map (server (L := Bot_Locker known)) servers)) = length turns + work w /\
    ((exists i w', step w i = Some (Ret w')) \/ (ended w /\ forall l, w.(mutexes) l = unlocked)).
Proof.
  intros Hs. apply disciplined_runs, Forall_map. eapply Forall_impl; [exact Hs|].
  intros s H. by apply server_disciplined.
Qed.

(** A message of a channel that registers a user, and a join the core handler
    looks at *)
Definition demo_started : outcome := Started 0 (CallCmd (bs "register")) new_event.
Definition demo_register : message :=
  {| m_handlers := [HandleRaw (L := Bot_Locker (fun _ => true)) (bs "net") JOIN]; m_update := true;
     m_cmd := demo_started; m_calls := core_calls true; m_net_cmd := Refused (bs "bob") (bs "no"); m_net_calls := [] |}.
Definition demo_servers : list (bytes * list message) := [(bs "net", [demo_register]); (bs "other", [demo_register])].
Definition demo_turns : list nat := replicate 11 0.

Lemma demo_servers_orderly : Forall (fun s => forallb orderly s.2 = true) demo_servers.
Proof. repeat constructor. Qed.

Definition demo_world : go world :=
  default Panic (run (start (map (server (L := Bot_Locker (fun _ => true))) demo_servers)) demo_turns).

Lemma demo_world_run :
  run (start (map (server (L := Bot_Locker (fun _ => true))) demo_servers)) demo_turns = Some demo_world.
Proof. by vm_compute. Qed.

Example locks_end_witness :
  Forall (fun s => forallb orderly s.2 = true) demo_servers /\ exists w, demo_world = Ret w /\
    ((exists i w', step w i = Some (Ret w')) \/ (ended w /\ forall l, w.(mutexes) l = unlocked)).
Proof.
  split; [exact demo_servers_orderly|].
  destruct (locks_end (fun _ => true) demo_servers demo_turns demo_world demo_servers_orderly demo_world_run)
    as (w & H & _ & Hw). by exists w.
Defined.

(** A command that writes to the store with its event open waits for itself,
    and the goroutine of the server waits for it with the next message. *)
Example unclosed_hangs :
  let m := {| m_handlers := []; m_update := true; m_cmd := demo_started; m_calls := [Writes];
              m_net_cmd := Ignored; m_net_calls := [] |} in
  match run (start [server (L := Bot_Locker (fun _ => true)) (bs "net", [m; m])]) (replicate 6 0 ++ [1; 0]) with
  | Some (Ret w) => map (step w) [0; 1] = [None; None] /\ map size w.(goroutines) = [10; 4]
  | _ => False
  end.
Proof. vm_compute. by split. Qed.
