(* ===== verification/Rehash.v ===== *)
(** * Package bot: replacing the configuration while servers run
    (bot/botconfig.go, bot/bot.go)

    [BotConfig.v] says what replacing the configuration does to the servers.
    Here is who waits for whom meanwhile: [ReplaceConfig] holds the lock of
    the table of servers while it stops, one by one, those whose networks are
    gone; the monitor ends a server by a receive from its [killable]; and the
    goroutine of a server, which sends there only between two messages, takes
    that lock for reading when it dispatches a command. *)

From S2P Require Import Prelude GoStrings.

(** bot/bot.go:257-283 [Bot.dispatch]: the goroutine of a server is in its
    [select], or in [getServer], before the lock or with it, or it has been
    told to end *)
Inductive serving_phase := DLoop | DAsks | DHolds | DEnded.

(** bot/botconfig.go:40-56 [Bot.ReplaceConfig]: not called; before the lock;
    stopping the servers that are left, with the first told or not; through *)
Inductive replace_phase :=
  | RIdle
  | RWaits (todo : list bytes)
  | RStops (todo : list bytes)
  | RTold (n : bytes) (todo : list bytes)
  | RThrough.

#[export] Instance serving_phase_eq_dec : EqDecision serving_phase.
Proof. solve_decision. Defined.

Record replacing := { replacer : replace_phase; servers : gmap bytes serving_phase }.

Inductive label :=
  | Message (n : bytes)           (** a message with a command *)
  | RLocks (n : bytes)            (** [getServer] has the lock for reading *)
  | RUnlocks (n : bytes)
  | Replace (todo : list bytes)   (** a call of [ReplaceConfig] *)
  | Locks
  | Tells                         (** the monitor takes up the next stop *)
  | Stops                         (** and answers it *)
  | Unlocks.

Definition with_server (n : bytes) (p : serving_phase) (c : replacing) : replacing :=
  {| replacer := c.(replacer); servers := <[n := p]> c.(servers) |}.
Definition with_replacer (p : replace_phase) (c : replacing) : replacing :=
  {| replacer := p; servers := c.(servers) |}.

(** bot/bot.go:626-634 [Bot.getServer]: the steps of the goroutine of a server;
    the lock is not given for reading while it is held or waited for. *)
Definition serve_next (l : label) (c : replacing) : option replacing :=
  match l with
  | Message n => match c.(servers) !! n with Some DLoop => Some (with_server n DAsks c) | _ => None end
  | RLocks n =>
    match c.(servers) !! n, c.(replacer) with
    | Some DAsks, (RIdle | RThrough) => Some (with_server n DHolds c)
    | _, _ => None
    end
  | RUnlocks n => match c.(servers) !! n with Some DHolds => Some (with_server n DLoop c) | _ => None end
  | _ => None
  end.

(** bot/bot.go:151-170 [Bot.monitorServers]: what it does for a stop; a server
    that does not run is answered for at once. *)
Definition stop_next (n : bytes) (todo : list bytes) (c : replacing) : option replacing :=
  match c.(servers) !! n with
  | Some DLoop => Some (with_replacer (RStops todo) (with_server n DEnded c))
  | Some DEnded | None => Some (with_replacer (RStops todo) c)
  | _ => None
  end.

Definition nobody_holds (c : replacing) : Prop := map_Forall (fun _ p => p <> DHolds) c.(servers).

(** bot/botconfig.go:35-57 [Bot.ReplaceConfig]: the lock, the stops and the end *)
Definition replace_next (l : label) (c : replacing) : option replacing :=
  match l, c.(replacer) with
  | Replace todo, RIdle => Some (with_replacer (RWaits todo) c)
  | Locks, RWaits todo => if bool_decide (nobody_holds c) then Some (with_replacer (RStops todo) c) else None
  | Tells, RStops (n :: todo) => Some (with_replacer (RTold n todo) c)
  | Stops, RTold n todo => stop_next n todo c
  | Unlocks, RStops [] => Some (with_replacer RThrough c)
  | _, _ => None
  end.

Definition next_replacing (c : replacing) (l : label) : option replacing :=
  match l with
  | Message _ | RLocks _ | RUnlocks _ => serve_next l c
  | _ => replace_next l c
  end.

Fixpoint run_replacing (c : replacing) (ls : list label) : option replacing :=
  match ls with [] => Some c | l :: ls => c ← next_replacing c l; run_replacing c ls end.

(** The servers that are still to be stopped *)
Definition left_to_stop (c : replacing) : list bytes :=
  match c.(replacer) with RWaits todo | RStops todo => todo | RTold n todo => n :: todo | _ => [] end.

(** The goroutine of a server that is to be stopped asks for the lock. *)
Definition caught (c : replacing) : Prop := Exists (fun n => c.(servers) !! n = Some DAsks) (left_to_stop c).

(** Replacing gets to its end in some run. *)
Definition gets_through (c : replacing) : Prop :=
  exists ls c', run_replacing c ls = Some c' /\ c'.(replacer) = RThrough.

(** ** A caught goroutine stays caught *)

Lemma caught_next c l c' : caught c -> next_replacing c l = Some c' -> caught c'.
Proof.
  unfold caught. rewrite !Exists_exists. intros (m & Hin & Hm) Hl.
  assert (match c.(replacer) with RIdle | RThrough => False | _ => True end) as Hr.
  { unfold left_to_stop in Hin. destruct (replacer c); try done; by apply not_elem_of_nil in Hin. }
  destruct l as [n|n|n|todo| | | |]; cbn in Hl.
  - destruct (servers c !! n) as [[]|] eqn:E; try done. injection Hl as <-. exists m. split; [done|].
    cbn. destruct (decide (n = m)) as [->|]; [by rewrite lookup_insert_eq|by rewrite lookup_insert_ne].
  - destruct (servers c !! n) as [[]|]; try done. by destruct (replacer c).
  - destruct (servers c !! n) as [[]|] eqn:E; try done. injection Hl as <-. exists m. split; [done|].
    cbn. rewrite lookup_insert_ne; [done|]. intros ->. congruence.
  - by destruct (replacer c).
  - destruct (replacer c) eqn:Er; try done. case_bool_decide; [|done]. injection Hl as <-.
    exists m. split; [|done]. unfold left_to_stop in *. by rewrite Er in Hin.
  - destruct (replacer c) as [| |[|n todo]| |] eqn:Er; try done. injection Hl as <-.
    exists m. split; [|done]. unfold left_to_stop in *. by rewrite Er in Hin.
  - destruct (replacer c) as [| | |n todo|] eqn:Er; try done. unfold left_to_stop in Hin. rewrite Er in Hin.
    unfold stop_next in Hl. apply elem_of_cons in Hin as [->|Hin]; [by rewrite Hm in Hl|].
    destruct (servers c !! n) as [[]|] eqn:En; try done; injection Hl as <-; exists m; (split; [done|]); cbn; try done.
    rewrite lookup_insert_ne; [done|]. intros ->. congruence.
  - destruct (replacer c) as [| |[|n todo]| |] eqn:Er; try done. unfold left_to_stop in Hin. rewrite Er in Hin.
    by apply not_elem_of_nil in Hin.
Qed.

Lemma caught_run c ls c' : caught c -> run_replacing c ls = Some c' -> caught c'.
Proof.
  revert c. induction ls as [|l ls IH]; intros c Hc Hr; cbn in Hr; [by injection Hr as <-|].
  destruct (next_replacing c l) as [c1|] eqn:E; [|done]. eapply IH; [|exact Hr]. by eapply caught_next.
Qed.

(** ** The way through *)

Lemma through_step l c c1 : next_replacing c l = Some c1 -> gets_through c1 -> gets_through c.
Proof. intros Hl (ls & c' & H & Hc). exists (l :: ls), c'. cbn. by rewrite Hl. Qed.

(** A goroutine that neither asks nor holds *)
Definition stoppable (ss : gmap bytes serving_phase) (n : bytes) : Prop :=
  ss !! n <> Some DAsks /\ ss !! n <> Some DHolds.

(** The monitor's answer ends such a server and leaves the others as they are. *)
Lemma told_through n todo ss :
  Forall (stoppable ss) (n :: todo) ->
  (forall ss', Forall (stoppable ss') todo -> gets_through (Build_replacing (RStops todo) ss')) ->
  gets_through (Build_replacing (RTold n todo) ss).
Proof.
  intros [[H1 H2] Hs]%Forall_cons Hgo.
  assert (exists ss', stop_next n todo (Build_replacing (RTold n todo) ss) = Some (Build_replacing (RStops todo) ss') /\
    (ss' = ss \/ ss' = <[n := DEnded]> ss)) as (ss' & Hn & Hss).
  { unfold stop_next. cbn. destruct (ss !! n) as [[]|]; try done; eauto. }
  eapply (through_step Stops); [exact Hn|]. apply Hgo. eapply Forall_impl; [exact Hs|]. intros m [M1 M2].
  destruct Hss as [-> | ->]; [done|]. unfold stoppable.
  destruct (decide (n = m)) as [->|]; [by rewrite lookup_insert_eq|by rewrite lookup_insert_ne].
Qed.

Lemma stops_through todo ss : Forall (stoppable ss) todo -> gets_through (Build_replacing (RStops todo) ss).
Proof.
  revert ss. induction todo as [|n todo IH]; intros ss Hs.
  { exists [Unlocks]. by eexists. }
  eapply (through_step Tells); [reflexivity|]. by apply told_through.
Qed.

Lemma release_through todo (ks : list bytes) ss :
  (forall n, ss !! n = Some DHolds -> n ∈ ks) ->
  (forall ss', (forall n, ss' !! n <> Some DHolds) -> (forall n, ss' !! n = Some DAsks -> ss !! n = Some DAsks) ->
     gets_through (Build_replacing (RWaits todo) ss')) ->
  gets_through (Build_replacing (RWaits todo) ss).
Proof.
  revert ss. induction ks as [|k ks IH]; intros ss Hks Hgo.
  { apply Hgo; [|done]. intros n Hn%Hks. by apply not_elem_of_nil in Hn. }
  destruct (decide (ss !! k = Some DHolds)) as [Hk|Hk].
  - apply (through_step (RUnlocks k) _ (Build_replacing (RWaits todo) (<[k := DLoop]> ss))); [by cbn; rewrite Hk|]. apply IH.
    + intros n [[_ [=]]|[Hne Hn%Hks]]%lookup_insert_Some. apply elem_of_cons in Hn as [->|]; done.
    + intros ss' H1 H2. apply Hgo; [done|]. intros n Hn%H2. by apply lookup_insert_Some in Hn as [[_ [=]]|[_ ?]].
  - apply IH; [|done]. intros n Hn. specialize (Hks n Hn). apply elem_of_cons in Hks as [->|]; done.
Qed.

(** While servers are stopped, no goroutine has the lock for reading. *)
Definition locked_out (c : replacing) : Prop :=
  match c.(replacer) with RStops _ | RTold _ _ => forall n, c.(servers) !! n <> Some DHolds | _ => True end.

Lemma locked_out_next c l c' : locked_out c -> next_replacing c l = Some c' -> locked_out c'.
Proof.
  unfold locked_out. intros Hi Hl.
  assert (forall n p, p <> DHolds -> (forall m, servers c !! m <> Some DHolds) -> forall m, <[n := p]> (servers c) !! m <> Some DHolds) as Hput.
  { intros n p Hp Hc m [[_ [= ->]]|[_ Hm]]%lookup_insert_Some; [done|by eapply Hc]. }
  destruct l as [n|n|n|todo| | | |]; cbn in Hl.
  - destruct (servers c !! n) as [[]|]; try done. injection Hl as <-. cbn. destruct (replacer c); by try apply Hput.
  - destruct (servers c !! n) as [[]|]; try done. by destruct (replacer c) eqn:E; try done; injection Hl as <-; cbn; rewrite E.
  - destruct (servers c !! n) as [[]|]; try done. injection Hl as <-. cbn. destruct (replacer c); by try apply Hput.
  - destruct (replacer c); try done. by injection Hl as <-.
  - destruct (replacer c); try done. case_bool_decide as Hb; [|done]. injection Hl as <-. cbn. intros n Hn. by apply (Hb n DHolds).
  - destruct (replacer c) as [| |[]| |]; try done. by injection Hl as <-.
  - destruct (replacer c); try done. unfold stop_next in Hl.
    destruct (servers c !! n) as [[]|]; try done; injection Hl as <-; cbn; by try apply Hput.
  - destruct (replacer c) as [| |[]| |]; try done. by injection Hl as <-.
Qed.

Lemma locked_out_run c ls c' : locked_out c -> run_replacing c ls = Some c' -> locked_out c'.
Proof.
  revert c. induction ls as [|l ls IH]; intros c Hc Hr; cbn in Hr; [by injection Hr as <-|].
  destruct (next_replacing c l) as [c1|] eqn:E; [|done]. eapply IH; [|exact Hr]. by eapply locked_out_next.
Qed.


(** Two servers, of which one is to be stopped and dispatches a command at the
    wrong time, or a moment earlier *)
Definition two_serving : replacing := {| replacer := RIdle; servers := {[bs "a" := DLoop; bs "b" := DLoop]} |}.
Definition caught_run_of : list label := [Message (bs "a"); Replace [bs "a"]; Locks].
Definition early_run : list label :=
  [Message (bs "a"); RLocks (bs "a"); Replace [bs "a"]; RUnlocks (bs "a"); Locks; Message (bs "b"); Tells; Stops; Unlocks; RLocks (bs "b")].

Definition demo_caught : replacing :=
  {| replacer := RStops [bs "a"]; servers := <[bs "a" := DAsks]> {[bs "a" := DLoop; bs "b" := DLoop]} |}.
Lemma demo_caught_run : run_replacing two_serving caught_run_of = Some demo_caught.
Proof. vm_compute. reflexivity. Qed.
Lemma demo_is_caught : caught demo_caught.
Proof. by left. Qed.

Example replacing_waits_for_ever :
  (~ exists ls c', run_replacing demo_caught ls = Some c' /\ c'.(replacer) = RThrough) /\
  (c ← run_replacing two_serving early_run; Some (c.(replacer), c.(servers) !! bs "a", c.(servers) !! bs "b")) =
    Some (RThrough, Some DEnded, Some DHolds).
Proof.
  split; [|by vm_compute]. intros (ls & c' & H & Hc). apply (caught_run _ _ _ demo_is_caught) in H.
  unfold caught, left_to_stop in H. rewrite Hc in H. by inversion H.
Qed.

