(* ===== verification/Markov.v ===== *)
(** * The example program: random text (markov.go)

    A chain counts, for every run of [prefixLen] words of a text, the words
    that follow it, and generates text by walking from run to run.  The words
    of a reader are what [fmt.Fscan] cuts it into; the numbers [rand.Intn]
    draws are an argument. *)

From S2P Require Import Prelude GoStrings.

(** markov.go [Prefix.String] *)
Definition Prefix_String (p : list bytes) : bytes := Join p (bs " ").

(** markov.go [Prefix.Shift]: slicing off the first word panics when there is
    none. *)
Definition Shift (p : list bytes) (word : bytes) : go (list bytes) :=
  match p with [] => Panic | _ :: p => Ret (p ++ [word]) end.

(** markov.go [Chain] *)
Record Chain := { chain : gmap bytes (list bytes); prefixLen : Z }.

(** markov.go [NewChain] *)
Definition NewChain (prefixLen : Z) : Chain := {| chain := ∅; prefixLen := prefixLen |}.

(** [make(Prefix, n)] *)
Definition make_prefix (n : Z) : go (list bytes) :=
  if decide (0 <= n)%Z then Ret (replicate (Z.to_nat n) []) else Panic.

(** What [fmt.Fscan] reads, one after the other, into a string: invalid bytes
    are read as U+FFFD. *)
Definition scan_words (text : bytes) : list bytes := Fields (string_of_runes (runes text)).

(** markov.go:88-96 [Chain.Build]: the loop *)
Fixpoint build_loop (p : list bytes) (words : list bytes) (c : gmap bytes (list bytes))
    : go (gmap bytes (list bytes)) :=
  match words with
  | [] => Ret c
  | s :: words =>
    let key := Prefix_String p in
    let c := <[key := default [] (c !! key) ++ [s]]> c in
    p ← Shift p s;
    build_loop p words c
  end.

(** markov.go [Chain.Build]: of a reader that has the text and ends *)
Definition Build (c : Chain) (text : bytes) : go Chain :=
  p ← make_prefix c.(prefixLen);
  m ← build_loop p (scan_words text) c.(chain);
  Ret {| chain := m; prefixLen := c.(prefixLen) |}.

(** markov.go:103-111 [Chain.Generate]: the loop, [i] the number of the draw *)
Fixpoint generate_loop (draw : nat -> nat) (m : gmap bytes (list bytes)) (n i : nat) (p : list bytes)
    : go (list bytes) :=
  match n with
  | 0 => Ret []
  | S n =>
    match default [] (m !! Prefix_String p) with
    | [] => Ret []
    | choices =>
      next ← index choices (draw i `mod` length choices);
      p ← Shift p next;
      words ← generate_loop draw m n (S i) p;
      Ret (next :: words)
    end
  end.

(** markov.go [Chain.Generate] *)
Definition Generate (draw : nat -> nat) (c : Chain) (n : Z) : go bytes :=
  p ← make_prefix c.(prefixLen);
  words ← generate_loop draw c.(chain) (Z.to_nat n) 0 p;
  Ret (Join words (bs " ")).

(** ** The reference: the words with what comes before them *)

(** The words of a text behind [k] empty ones *)
Definition padded (k : nat) (words : list bytes) : list bytes := replicate k [] ++ words.

(** Every word with the [k] words before it *)
Definition transitions (k : nat) (words : list bytes) : list (list bytes * bytes) :=
  imap (fun i w => (take k (drop i (padded k words)), w)) words.

(** The words that come after [p], in order *)
Definition followers (k : nat) (words : list bytes) (p : list bytes) : list bytes :=
  snd <$> filter (fun t => t.1 = p) (transitions k words).

(** What can be a prefix of [k] words *)
Definition prefix_ok (k : nat) (p : list bytes) : Prop := length p = k /\ Forall (fun w => " "%char ∉ w) p.

Lemma Prefix_String_inj k p q : 0 < k -> prefix_ok k p -> prefix_ok k q -> Prefix_String p = Prefix_String q -> p = q.
Proof.
  intros Hk [Lp Fp] [Lq Fq] E. rewrite <- (SplitByte_Join p " "%char), <- (SplitByte_Join q " "%char);
    [f_equal; exact E|intros ->; cbn in *; lia|done|intros ->; cbn in *; lia|done].
Qed.

Lemma scan_words_plain text : Forall (fun w => " "%char ∉ w) (scan_words text).
Proof.
  eapply Forall_impl; [apply Fields_no_space|]. intros w H Hin. by specialize (H _ Hin eq_refl).
Qed.

Lemma padded_plain k words : Forall (fun w => " "%char ∉ w) words -> Forall (fun w => " "%char ∉ w) (padded k words).
Proof. intros H. apply Forall_app. split; [|done]. apply Forall_replicate. by intros ?%not_elem_of_nil. Qed.

Lemma last_prefix_ok k words :
  Forall (fun w => " "%char ∉ w) words -> prefix_ok k (drop (length words) (padded k words)).
Proof.
  intros H. split; [unfold padded; rewrite length_drop, length_app, length_replicate; lia|].
  by apply Forall_drop, padded_plain.
Qed.

Lemma padded_snoc k words w : padded k (words ++ [w]) = padded k words ++ [w].
Proof. unfold padded. by rewrite app_assoc. Qed.

Lemma length_padded k words : length (padded k words) = k + length words.
Proof. unfold padded. by rewrite length_app, length_replicate. Qed.

(** Shifting moves from the last words to the last words. *)
Lemma Shift_last k words w :
  0 < k -> Shift (drop (length words) (padded k words)) w
           = Ret (drop (length (words ++ [w])) (padded k (words ++ [w]))).
Proof.
  intros Hk. rewrite padded_snoc, length_app. cbn [length].
  pose proof (length_padded k words) as Hl.
  rewrite drop_app_le by lia. rewrite Nat.add_1_r.
  destruct (drop (length words) (padded k words)) as [|x l] eqn:E.
  { apply (f_equal length) in E. rewrite length_drop in E. cbn in E. lia. }
  cbn [Shift]. rewrite <- Nat.add_1_r, <- drop_drop, E. done.
Qed.

Lemma transitions_snoc k words w :
  transitions k (words ++ [w]) = transitions k words ++ [(drop (length words) (padded k words), w)].
Proof.
  unfold transitions. rewrite imap_app. cbn. rewrite Nat.add_0_r. f_equal.
  - apply imap_ext. intros i x Hi%lookup_lt_Some. f_equal. rewrite padded_snoc.
    rewrite drop_app_le by (rewrite length_padded; lia).
    rewrite take_app_le; [done|]. rewrite length_drop, length_padded. lia.
  - rewrite padded_snoc, drop_app_le by (rewrite length_padded; lia).
    rewrite take_app_le by (rewrite length_drop, length_padded; lia).
    rewrite take_ge; [done|]. rewrite length_drop, length_padded. lia.
Qed.

Lemma followers_snoc k words w p :
  followers k (words ++ [w]) p
  = followers k words p ++ (if decide (drop (length words) (padded k words) = p) then [w] else []).
Proof.
  unfold followers. rewrite transitions_snoc, filter_app, fmap_app. f_equal.
  rewrite filter_cons, filter_nil. cbn. by case_decide.
Qed.

(** A table that holds the words a function gives for every prefix *)
Definition counts (k : nat) (f : list bytes -> list bytes) (m : gmap bytes (list bytes)) : Prop :=
  forall p, prefix_ok k p -> default [] (m !! Prefix_String p) = f p.

Lemma build_loop_counts k f done_ words m :
  0 < k -> Forall (fun w => " "%char ∉ w) (done_ ++ words) ->
  counts k (fun p => f p ++ followers k done_ p) m ->
  exists m', build_loop (drop (length done_) (padded k done_)) words m = Ret m' /\
    counts k (fun p => f p ++ followers k (done_ ++ words) p) m'.
Proof.
  intros Hk. revert done_ m. induction words as [|w words IH]; intros done_ m Hf Hc.
  { exists m. by rewrite app_nil_r. }
  cbn [build_loop]. cbn zeta. rewrite Shift_last by done. cbn [mbind go_bind].
  assert (done_ ++ w :: words = (done_ ++ [w]) ++ words) as Hmid by by rewrite <- app_assoc.
  rewrite Hmid in Hf |- *. apply IH; [done|].
  intros p Hp. rewrite followers_snoc. apply Forall_app in Hf as [[Hd _]%Forall_app _].
  pose proof (last_prefix_ok k done_ Hd) as Hl. case_decide as E.
  - subst p. rewrite lookup_insert_eq. cbn. by rewrite (Hc _ Hl), app_assoc.
  - rewrite app_nil_r, lookup_insert_ne; [by apply Hc|]. intros Hs. apply E. by eapply Prefix_String_inj.
Qed.

Lemma make_prefix_pos k : 0 < k -> make_prefix (Z.of_nat k) = Ret (drop 0 (padded k [])).
Proof.
  intros Hk. unfold make_prefix, padded. rewrite decide_True by lia. by rewrite Nat2Z.id, app_nil_r.
Qed.

(** Building adds, to the words that are known for a prefix, those that follow
    it in the text, in the order of the text. *)
Lemma Build_counts k f c text :
  0 < k -> c.(prefixLen) = Z.of_nat k -> counts k f c.(chain) ->
  exists c', Build c text = Ret c' /\ c'.(prefixLen) = Z.of_nat k /\
    counts k (fun p => f p ++ followers k (scan_words text) p) c'.(chain).
Proof.
  intros Hk Hl Hc. unfold Build. rewrite Hl, (make_prefix_pos k Hk). cbn [mbind go_bind].
  destruct (build_loop_counts k f [] (scan_words text) (chain c) Hk (scan_words_plain text)) as (m & Hm & Hm').
  { intros p Hp. rewrite (Hc p Hp). cbn. by rewrite app_nil_r. }
  cbn [length] in Hm. rewrite Hm. cbn [mbind go_bind]. eexists. split; [done|]. by split.
Qed.

(** Without a prefix, the first word panics. *)
Example Build_no_prefix : Build (NewChain 0) (bs "I am") = Panic.
Proof. reflexivity. Qed.

(** ** Generating *)

(** A walk: every word is one that is known for the words before it. *)
Definition walk (k : nat) (f : list bytes -> list bytes) (ws : list bytes) : Prop :=
  Forall (fun t => t.2 ∈ f t.1) (transitions k ws).

Lemma generate_loop_walk draw k f m n i ws :
  0 < k -> counts k f m -> (forall p w, w ∈ f p -> " "%char ∉ w) ->
  Forall (fun w => " "%char ∉ w) ws -> walk k f ws ->
  exists ws', generate_loop draw m n i (drop (length ws) (padded k ws)) = Ret ws' /\ length ws' <= n /\
    walk k f (ws ++ ws') /\
    (length ws' < n -> f (drop (length (ws ++ ws')) (padded k (ws ++ ws'))) = []).
Proof.
  intros Hk Hc Hf. revert i ws. induction n as [|n IH]; intros i ws Hws Hw.
  { exists []. rewrite app_nil_r. split; [done|]. split; [done|]. split; [done|]. cbn. lia. }
  cbn [generate_loop]. rewrite (Hc _ (last_prefix_ok k ws Hws)).
  destruct (f (drop (length ws) (padded k ws))) as [|x choices] eqn:Ef.
  { exists []. rewrite app_nil_r. split; [done|]. split; [cbn; lia|]. by split. }
  destruct (lookup_lt_is_Some_2 (x :: choices) (draw i `mod` length (x :: choices))) as [w Hx].
  { apply Nat.mod_upper_bound. done. }
  unfold index. rewrite Hx. cbn [deref mbind go_bind]. rewrite Shift_last by done. cbn [mbind go_bind].
  apply list_elem_of_lookup_2 in Hx. rewrite <- Ef in Hx.
  destruct (IH (S i) (ws ++ [w])) as (ws' & -> & Hl & Hw' & He).
  { apply Forall_app. split; [done|]. apply Forall_singleton. by eapply Hf. }
  { unfold walk. rewrite transitions_snoc. apply Forall_app. split; [done|]. by apply Forall_singleton. }
  cbn [mbind go_bind]. exists (w :: ws').
  assert (ws ++ w :: ws' = (ws ++ [w]) ++ ws') as -> by by rewrite <- app_assoc.
  split; [done|]. split; [cbn; lia|]. split; [done|]. cbn. intros. apply He. lia.
Qed.

Lemma followers_plain k words p w :
  Forall (fun w => " "%char ∉ w) words -> w ∈ followers k words p -> " "%char ∉ w.
Proof.
  intros Hf (t & -> & [_ Ht]%list_elem_of_filter)%list_elem_of_fmap.
  apply elem_of_lookup_imap in Ht as (i & x & -> & Hx). rewrite Forall_forall in Hf. apply Hf.
  by eapply list_elem_of_lookup_2.
Qed.

(** What is generated from a text *)
Definition sample (draw : nat -> nat) (k : nat) (text : bytes) (n : Z) : go bytes :=
  c ← Build (NewChain (Z.of_nat k)) text;
  Generate draw c n.

Lemma followers_counts k text : 0 < k ->
  exists c, Build (NewChain (Z.of_nat k)) text = Ret c /\ c.(prefixLen) = Z.of_nat k /\
    counts k (followers k (scan_words text)) c.(chain).
Proof.
  intros Hk. destruct (Build_counts k (fun _ => []) (NewChain (Z.of_nat k)) text Hk eq_refl) as (c & Hc & Hl & Hm).
  { intros p _. cbn. by rewrite lookup_empty. }
  by exists c.
Qed.

Lemma Generate_loop_run draw k c n :
  0 < k -> c.(prefixLen) = Z.of_nat k ->
  Generate draw c n = (words ← generate_loop draw c.(chain) (Z.to_nat n) 0 (drop 0 (padded k []));
                       Ret (Join words (bs " "))).
Proof. intros Hk Hl. unfold Generate. by rewrite Hl, (make_prefix_pos k Hk). Qed.

Lemma walk_nil k f : walk k f [].
Proof. constructor. Qed.

(** Text that is generated from a chain of a text, whatever is drawn, has at
    most the words asked for; each of its words follows, somewhere in the
    text, the words it comes after; and it is shorter only when it has come
    to words that nothing follows. *)
Theorem generated_walk draw k text n :
  0 < k ->
  exists ws, sample draw k text n = Ret (Join ws (bs " ")) /\ length ws <= Z.to_nat n /\
    (forall p w, (p, w) ∈ transitions k ws -> (p, w) ∈ transitions k (scan_words text)) /\
    (length ws < Z.to_nat n -> followers k (scan_words text) (drop (length ws) (padded k ws)) = []).
Proof.
  intros Hk. destruct (followers_counts k text Hk) as (c & Hc & Hl & Hm).
  unfold sample. rewrite Hc. cbn [mbind go_bind]. rewrite (Generate_loop_run _ k) by done.
  destruct (generate_loop_walk draw k _ _ (Z.to_nat n) 0 [] Hk Hm
    (fun p w => followers_plain k _ p w (scan_words_plain text)) (Forall_nil_2 _) (walk_nil k _))
    as (ws & Hg & Hn & Hw & He).
  cbn [length] in Hg. rewrite Hg. exists ws. split; [done|]. split; [done|]. split; [|done].
  intros p w Ht. unfold walk in Hw. rewrite Forall_forall in Hw. specialize (Hw _ Ht). cbn in Hw.
  apply list_elem_of_fmap in Hw as ([p' w'] & -> & [Hp Hin]%list_elem_of_filter). cbn in *. by subst.
Qed.

Lemma generated_walk_witness :
  0 < 1 /\ exists ws, sample (fun i => i) 1 (bs "a b a c a b") 9 = Ret (Join ws (bs " ")) /\ length ws <= Z.to_nat 9 /\
    (forall p w, (p, w) ∈ transitions 1 ws -> (p, w) ∈ transitions 1 (scan_words (bs "a b a c a b"))) /\
    (length ws < Z.to_nat 9 -> followers 1 (scan_words (bs "a b a c a b")) (drop (length ws) (padded 1 ws)) = []).
Proof. split; [lia|]. apply (generated_walk (fun i => i) 1 (bs "a b a c a b") 9). lia. Defined.

Example sample_run : sample (fun i => i) 1 (bs "a b a c a b") 9 = Ret (bs "a c a b a b a c a").
Proof. vm_compute. reflexivity. Qed.

(** ** A text without repetitions *)

(** All the runs of [k] words of a text, the last one too *)
Definition runs (k : nat) (words : list bytes) : list (list bytes) :=
  (transitions k words).*1 ++ [drop (length words) (padded k words)].

Lemma filter_none {A} `{EqDecision A} {B} (l : list (A * B)) p :
  p ∉ l.*1 -> snd <$> filter (fun t => t.1 = p) l = [].
Proof.
  induction l as [|[q x] l IH]; [done|]. rewrite fmap_cons, not_elem_of_cons. intros [Hq Hp].
  rewrite filter_cons. cbn [fst] in *. rewrite decide_False by (by intros ->). by apply IH.
Qed.

Lemma filter_unique {A} `{EqDecision A} {B} (l : list (A * B)) p w :
  NoDup l.*1 -> (p, w) ∈ l -> snd <$> filter (fun t => t.1 = p) l = [w].
Proof.
  induction l as [|[q x] l IH]; [by intros _ ?%not_elem_of_nil|]. rewrite fmap_cons, NoDup_cons. cbn [fst]. intros [Hq Hnd].
  rewrite filter_cons. cbn [fst]. intros [[= -> ->]|Hin]%elem_of_cons.
  - rewrite decide_True by done. rewrite fmap_cons. by rewrite filter_none.
  - rewrite decide_False; [by apply IH|]. intros ->. apply Hq.
    apply list_elem_of_fmap. by exists (p, w).
Qed.

(** Every word comes after the words before it. *)
Lemma next_transition k done_ w rest :
  (drop (length done_) (padded k done_), w) ∈ transitions k (done_ ++ w :: rest).
Proof.
  rewrite (cons_middle w done_ rest), app_assoc. induction rest as [|x rest IH] using rev_ind.
  - rewrite app_nil_r, transitions_snoc. apply elem_of_app. right. by apply list_elem_of_singleton.
  - rewrite app_assoc, transitions_snoc. apply elem_of_app. by left.
Qed.

(** A text in which no run of [prefixLen] words comes twice is generated
    again, word for word, whatever is drawn. *)
Theorem unique_text_again draw k text n :
  0 < k -> NoDup (runs k (scan_words text)) -> length (scan_words text) <= Z.to_nat n ->
  sample draw k text n = Ret (Join (scan_words text) (bs " ")).
Proof.
  intros Hk Hnd Hn. destruct (followers_counts k text Hk) as (c & Hc & Hl & Hm).
  unfold sample. rewrite Hc. cbn [mbind go_bind]. rewrite (Generate_loop_run _ k) by done.
  pose proof (scan_words_plain text) as Hp. set (words := scan_words text) in *.
  assert (forall rest done_ i m, words = done_ ++ rest -> length rest <= m ->
    generate_loop draw (chain c) m i (drop (length done_) (padded k done_)) = Ret rest) as H.
  { intros rest. induction rest as [|w rest IH]; intros done_ i m Hw Hlen.
    - destruct m; [done|]. cbn [generate_loop]. rewrite app_nil_r in Hw. subst done_.
      rewrite (Hm _ (last_prefix_ok k words Hp)).
      assert (followers k words (drop (length words) (padded k words)) = []) as ->; [|done].
      apply NoDup_app in Hnd as (_ & Hnot & _). apply filter_none. intros Hin. apply (Hnot _ Hin).
      by apply list_elem_of_singleton.
    - destruct m; [cbn in Hlen; lia|]. cbn [generate_loop].
      assert (Forall (fun w => " "%char ∉ w) done_) as Hd by (rewrite Hw in Hp; by apply Forall_app in Hp as [? _]).
      rewrite (Hm _ (last_prefix_ok k done_ Hd)).
      assert (followers k words (drop (length done_) (padded k done_)) = [w]) as ->.
      { apply filter_unique; [by apply NoDup_app in Hnd as [? _]|].
        rewrite Hw. by apply next_transition. }
      rewrite Nat.mod_1_r. cbn [index lookup list_lookup deref mbind go_bind].
      unfold index. cbn. rewrite Shift_last by done. cbn [mbind go_bind].
      rewrite (IH (done_ ++ [w]) (S i) m); [done|by rewrite <- app_assoc|cbn in Hlen; lia]. }
  pose proof (H words [] 0 (Z.to_nat n) eq_refl Hn) as Hall. cbn [length] in Hall. by rewrite Hall.
Qed.

Lemma unique_text_again_witness :
  sample (fun i => i) 1 (bs "I am not  a number!") 20 = Ret (Join (scan_words (bs "I am not  a number!")) (bs " ")).
Proof. apply (unique_text_again (fun i => i) 1 (bs "I am not  a number!") 20); [lia|decide_now|decide_now]. Defined.
