(* ===== verification/Simple.v ===== *)
(** * The example program: a bot with quotes, queries and a sandbox (simple.go)

    The commands of the example's handlers, over a state that holds the
    quotes, the bot's store, the files the program makes and the writer.  The
    database of quotes, the web queries and what the tools of the sandbox do
    with a source are parameters.  The bot with all its commands is put
    together at the end, and runs a message from the commander to the
    answer. *)

From S2P Require Import Prelude GoStrings Fmt Effects NetworkInfo Event DispatchCore Dispatcher Cmd Cmds.
From S2P Require Import Channel UserModes StoredUser State Store Writer CoreCmds Bot.

(** Package quotes: a database of quotes with its operations *)
Class Quotes (Q : Type) := {
  db_AddQuote : Q -> bytes -> bytes -> Z * option bytes * Q;
  db_DelQuote : Q -> Z -> bool * option bytes * Q;
  db_EditQuote : Q -> Z -> bytes -> bool * option bytes * Q;
  db_GetQuote : Q -> Z -> bytes * option bytes;
  db_RandomQuote : Q -> Z * bytes * option bytes;
  db_NQuotes : Q -> Z;
  db_GetDetails : Q -> Z -> Z * bytes * option bytes;
}.

(** Package query: what is found, or the error *)
Class Web := {
  query_YouTube : bytes -> bytes * option bytes;
  query_Wolfram : bytes -> bytes * option bytes;
  query_Google : bytes -> bytes * option bytes;
  query_Weather : bytes -> bytes * option bytes;
}.

(** What the operating system and the tools do with a source: the errors of
    making, writing and closing its file; the error of goimports, what it
    writes to [stderr], and the source it leaves; the same for the build, with
    the program it makes; the error of starting the program; and, unless it
    takes longer than four seconds, how it ends, with [stderr] and its output. *)
Record sandbox := {
  sb_create : option bytes;
  sb_write : option bytes;
  sb_close : option bytes;
  sb_goimports : option bytes * bytes * bytes;
  sb_build : option bytes * bytes * bytes;
  sb_start : option bytes;
  sb_wait : option (option bytes * bytes * bytes);
}.

(** ** Text *)

(** simple.go:27-27 [sanitizeNewline]: [strings.NewReplacer] with ["\r\n"] and ["\n"]: at every place the first
    that matches *)
Fixpoint sanitizeNewline (s : bytes) : bytes :=
  match s with
  | c :: s' =>
    if bool_decide (c = byte_of 10) then " "%char :: sanitizeNewline s'
    else match s' with
         | c' :: s'' =>
           if bool_decide (c = byte_of 13) && bool_decide (c' = byte_of 10)
           then " "%char :: sanitizeNewline s'' else c :: sanitizeNewline s'
         | [] => [c]
         end
  | [] => []
  end.

(** simple.go:28-28 [rgxSpace]: the class [\s] *)
Definition re_space (c : ascii) : bool := bool_decide (code c ∈ [9; 10; 12; 13; 32]%Z).

(** Replacing [\s{2,}]: [run] is the white space that was read last. *)
Definition end_run (run : bytes) : bytes := match run with [] | [_] => run | _ => bs " " end.
Fixpoint collapse (run s : bytes) : bytes :=
  match s with
  | [] => end_run run
  | c :: s => if re_space c then collapse (run ++ [c]) s else end_run run ++ c :: collapse [] s
  end.

(** simple.go [sanitize] *)
Definition sanitize (str : bytes) : bytes := collapse [] (sanitizeNewline str).

(** [l[:z]] *)
Definition slice_to {A} (l : list A) (z : Z) : go (list A) :=
  if decide (0 <= z <= Z.of_nat (length l))%Z then Ret (List.firstn (Z.to_nat z) l) else Panic.

(** simple.go:228-234 [Queryer.Calc]: what is left of an answer that is too
    long; [sandboxGo] ends with the same lines. *)
Definition two_lines (target out : bytes) : go bytes :=
  let maxlen := (2 * (510 - 62 - 7 - Z.of_nat (length target) - 3 - 2))%Z in
  if decide (maxlen < Z.of_nat (length out))%Z
  then out ← slice_to out (maxlen - 3); Ret (out ++ bs "...") else Ret out.

(** *** Dates *)

(** The date of a day, counted from the first of January 1970, in the
    Gregorian calendar *)
Definition civil (day : Z) : Z * Z * Z :=
  let z := (day + 719468)%Z in
  let era := (z / 146097)%Z in
  let doe := (z mod 146097)%Z in
  let yoe := ((doe - doe / 1460 + doe / 36524 - doe / 146096) / 365)%Z in
  let doy := (doe - (365 * yoe + yoe / 4 - yoe / 100))%Z in
  let mp := ((5 * doy + 2) / 153)%Z in
  let m := (if bool_decide (mp < 10) then mp + 3 else mp - 9)%Z in
  ((yoe + 400 * era + (if bool_decide (m <= 2) then 1 else 0))%Z, m, (doy - (153 * mp + 2) / 5 + 1)%Z).

Definition month_name (m : Z) : bytes :=
  default [] (map bs ["January"; "February"; "March"; "April"; "May"; "June"; "July"; "August";
                      "September"; "October"; "November"; "December"]%string !! (Z.to_nat m - 1)).

(** A number with zeros in front *)
Definition padded_int (width : nat) (z : Z) : bytes :=
  let digits := Itoa (Z.abs z) in
  (if bool_decide (z < 0)%Z then bs "-" else []) ++ replicate (width - length digits) "0"%char ++ digits.

(** simple.go:33-33 [dateFormat]: [time.Unix(date, 0).UTC()] in this format,
    within the years an [int64] of seconds can be counted from *)
Definition date_text (date : Z) : bytes :=
  let '(y, m, d) := civil (date / 86400) in
  let secs := (date mod 86400)%Z in
  let hour := (secs / 3600)%Z in
  let hour12 := (if bool_decide (hour mod 12 = 0) then 12 else hour mod 12)%Z in
  month_name m ++ bs " " ++ padded_int 2 d ++ bs ", " ++ padded_int 4 y ++ bs " at " ++ Itoa hour12 ++ bs ":" ++
    padded_int 2 (secs mod 3600 / 60) ++ (if bool_decide (12 <= hour)%Z then bs "pm" else bs "am") ++ bs " UTC".

(** ["\x02Quote:\x02 "], and what else is in bold *)
Definition bold (s : bytes) : bytes := byte_of 2 :: s ++ [byte_of 2].
Definition quote_tag : bytes := bold (bs "Quote:") ++ bs " ".
Definition go_tag : bytes := bold (bs "go:") ++ bs " ".
Definition error_value (err : bytes) : value := VOther (bs "error") err.

Section Simple.
Context {CT : CaseTables} {BC : Bcrypt} {K : KV} {G : Gob} {RO : RangeOrder bytes}.
Context {Q : Type} {QD : Quotes Q} {WE : Web}.
Context (state : option State.State).
Context {W E : Type} (Write : bytes -> W -> W * option E).

Record senv := {
  s_db : Q;
  s_store : option Store.Store;
  s_files : gmap bytes bytes;
  s_w : W;
}.
Abbreviation simpleM := (eff senv).

Definition with_db (q : Q) (s : senv) : senv := {| s_db := q; s_store := s.(s_store);
  s_files := s.(s_files); s_w := s.(s_w) |}.
Definition with_files (f : gmap bytes bytes -> gmap bytes bytes) (s : senv) : senv := {| s_db := s.(s_db);
  s_store := s.(s_store); s_files := f s.(s_files); s_w := s.(s_w) |}.

(** A call of the writer, whose error nobody looks at *)
Definition say (call : W -> go (option (W * option E))) : simpleM unit := fun s =>
  match call s.(s_w) with
  | Panic => (Panicked, s)
  | Ret None => (Hangs, s)
  | Ret (Some (w, _)) => (Done tt, {| s_db := s.(s_db); s_store := s.(s_store); s_files := s.(s_files); s_w := w |})
  end.

(** The event of the message, and that of the command *)
Context (ircev : Event) (ev : CmdEvent).

Definition nick : bytes := Event_Nick ircev.
Definition notice (args : list value) : simpleM unit := say (Notice Write nick args).
Definition noticef (format : bytes) (args : list value) : simpleM unit := say (Noticef Write nick format args).
Definition notify (args : list value) : simpleM unit := say (Notify Write ircev nick args).
Definition notifyf (format : bytes) (args : list value) : simpleM unit := say (Notifyf Write ircev nick format args).
(** [return nil] *)
Definition nil_error : simpleM (option bytes) := mret None.
Definition then_nil (m : simpleM unit) : simpleM (option bytes) := m ;; nil_error.

(** ** Quotes *)

Definition id_arg : bytes := GetArg ev (bs "id").
Definition quote_arg : bytes := GetArg ev (bs "quote").
Definition not_an_id : simpleM (option bytes) := then_nil (notice [VString (quote_tag ++ bs "Not a valid id.")]).
Definition quote_error (err : bytes) : simpleM (option bytes) :=
  then_nil (noticef (quote_tag ++ bs "%v") [error_value err]).

(** simple.go [Quoter.Addquote] *)
Definition Addquote : simpleM (option bytes) :=
  match quote_arg with
  | [] => nil_error
  | quote =>
    '(id, err) ← (fun s => let '(id, err, q) := db_AddQuote s.(s_db) nick quote in (Done (id, err), with_db q s));
    match err with
    | Some err => quote_error err
    | None => then_nil (noticef (quote_tag ++ bs "Added quote #%d") [int_value id])
    end
  end.

(** simple.go [Quoter.Delquote]: the format is given to [Notice], which does
    not look for verbs. *)
Definition Delquote : simpleM (option bytes) :=
  match Atoi id_arg with
  | None => not_an_id
  | Some id =>
    '(did, err) ← (fun s => let '(did, err, q) := db_DelQuote s.(s_db) id in (Done (did, err), with_db q s));
    match err with
    | Some err => quote_error err
    | None =>
      then_nil (if (did : bool) then noticef (quote_tag ++ bs "Quote %d deleted.") [int_value id]
                else notice [VString (quote_tag ++ bs "Could not find quote %d."); int_value id])
    end
  end.

(** simple.go [Quoter.Editquote] *)
Definition Editquote : simpleM (option bytes) :=
  match quote_arg with
  | [] => nil_error
  | quote =>
    match Atoi id_arg with
    | None => not_an_id
    | Some id =>
      '(did, err) ← (fun s => let '(did, err, q) := db_EditQuote s.(s_db) id quote in (Done (did, err), with_db q s));
      match err with
      | Some err => quote_error err
      | None =>
        then_nil (if (did : bool) then noticef (quote_tag ++ bs "Quote %d updated.") [int_value id]
                  else notice [VString (quote_tag ++ bs "Could not find quote %d."); int_value id])
      end
    end
  end.

(** simple.go:143-157 [Quoter.Quote]: the quote that is looked for, with its
    number and the error; [None] stands for an id that is none.  The error of
    looking up a quote by its number goes to a variable of the inner block. *)
Definition find_quote (q : Q) : option (Z * bytes * option bytes) :=
  match id_arg with
  | [] => Some (db_RandomQuote q)
  | strid => match Atoi strid with
             | None => None
             | Some id => Some (id, (db_GetQuote q id).1, None)
             end
  end.

(** simple.go [Quoter.Quote] *)
Definition Quote : simpleM (option bytes) :=
  q ← reads s_db;
  match find_quote q with
  | None => not_an_id
  | Some (_, _, Some err) => quote_error err
  | Some (_, [], None) => then_nil (notify [VString (quote_tag ++ bs "Does not exist.")])
  | Some (id, quote, None) =>
    then_nil (notifyf (byte_of 2 :: bs "Quote (" ++ [byte_of 2] ++ bs "#%d" ++ [byte_of 2] ++ bs "):" ++
                       [byte_of 2] ++ bs " %s") [int_value id; VString quote])
  end.

(** simple.go [Quoter.Quotes] *)
Definition Quotes_ : simpleM (option bytes) :=
  q ← reads s_db;
  then_nil (notifyf (quote_tag ++ bs "%d quote(s) in database.") [int_value (db_NQuotes q)]).

(** simple.go [Quoter.Details] *)
Definition Details : simpleM (option bytes) :=
  match Atoi id_arg with
  | None => not_an_id
  | Some id =>
    q ← reads s_db;
    match db_GetDetails q id with
    | (_, _, Some err) => quote_error err
    | (date, author, None) =>
      then_nil (notifyf (byte_of 2 :: bs "Quote (" ++ [byte_of 2] ++ bs "#%d" ++ [byte_of 2] ++ bs "):" ++
                         [byte_of 2] ++ bs " Created on %s by %s")
                  [int_value id; VString (date_text date); VString author])
    end
  end.

(** simple.go [Quoter.Quoteweb] *)
Definition Quoteweb : simpleM (option bytes) :=
  then_nil (notify [VString (quote_tag ++ bs "http://bitforge.ca:8000")]).

(** ** Queries *)

(** simple.go [Queryer.PrivmsgChannel] *)
Definition PrivmsgChannel : simpleM unit :=
  msg ← pure_go (Message ircev);
  match query_YouTube msg with
  | (c :: out, _) => target ← pure_go (Target ircev); say (Privmsg Write target [VString (c :: out)])
  | ([], Some err) => notice [VString err]
  | ([], None) => mret tt
  end.

(** What the three queries do with an answer *)
Definition answer (shorten : bytes -> go bytes) (r : bytes * option bytes) : simpleM (option bytes) :=
  match r with
  | (c :: out, _) => out ← pure_go (shorten (sanitize (c :: out))); then_nil (notify [VString out])
  | ([], Some err) => then_nil (notice [VString err])
  | ([], None) => nil_error
  end.

Definition query_arg : bytes := GetArg ev (bs "query").

(** simple.go [Queryer.Calc] *)
Definition Calc : simpleM (option bytes) :=
  answer (fun out => target ← Target ircev; two_lines target out) (query_Wolfram query_arg).
(** simple.go [Queryer.Google] *)
Definition Google : simpleM (option bytes) := answer Ret (query_Google query_arg).
(** simple.go [Queryer.Weather] *)
Definition Weather : simpleM (option bytes) := answer Ret (query_Weather query_arg).

(** ** The sandbox *)

Context (tmp : bytes) (frand : Z) (tools : bytes -> sandbox).

(** [filepath.Join(tmp, name)] for a clean [tmp] *)
Definition tmp_file (name : bytes) : bytes := tmp ++ bs "/" ++ name.
Definition srcfile : bytes := tmp_file (Sprintf (bs "%d.go") [VInt (bs "uint32") frand]).
Definition exefile : bytes := tmp_file (Sprintf (bs "%d") [VInt (bs "uint32") frand]).

Definition write_file (name content : bytes) : simpleM unit := changes (with_files (<[name := content]>)).

(** The deferred [os.Remove]s, which run when the function returns and when it
    panics *)
Definition removing (names : list bytes) {A} (m : simpleM A) : simpleM A := fun s =>
  match m s with
  | (Hangs, s) => (Hangs, s)
  | (r, s) => (r, with_files (fun fs => foldl (fun fs n => delete n fs) fs names) s)
  end.

(** simple.go:319-323 [sandboxGo]: the closure [putStdErr] *)
Definition putStdErr (msg buf e : bytes) : simpleM (option bytes) :=
  let errMsg := Replace e [byte_of 10] (bs "; ") in
  let outmsg := Replace buf [byte_of 10] (bs "; ") in
  then_nil (notifyf (go_tag ++ bs "%s: %v; %s")
              [VString msg; VString errMsg; VOther (bs "[]uint8") outmsg]).

(** simple.go:371-380 [sandboxGo]: what the program wrote is put behind a tag
    and is the format of the answer. *)
Definition show_output (targ stdout : bytes) : simpleM (option bytes) :=
  let outbytes := Replace stdout [byte_of 1] [] in
  out ← pure_go (two_lines targ (Sprintf (go_tag ++ bs "%s") [VOther (bs "[]uint8") outbytes]));
  then_nil (notifyf out []).

(** simple.go:325-369 [sandboxGo]: the tools; a program that cannot be started
    has written nothing. *)
Definition run_tools (targ : bytes) (r : sandbox) : simpleM (option bytes) :=
  let '(err, stderr, source) := r.(sb_goimports) in
  write_file srcfile source ;;
  match err with
  | Some err => putStdErr (bs "Failed to format source") stderr err
  | None =>
    let '(err, stderr, program) := r.(sb_build) in
    match err with
    | Some err => putStdErr (bs "Failed to compile") stderr err
    | None =>
      write_file exefile program ;;
      match r.(sb_start), r.(sb_wait) with
      | Some err, _ => putStdErr (bs "Failed to run") [] err
      | None, None => then_nil (notifyf (go_tag ++ bs "Program took too long, terminated.") [])
      | None, Some (Some err, stderr, _) => putStdErr (bs "Failed to run") stderr err
      | None, Some (None, _, stdout) => show_output targ stdout
      end
    end
  end.

(** simple.go [sandboxGo] *)
Definition sandboxGo (basecode : bytes) : simpleM (option bytes) :=
  let source := Sprintf basecode [VString (GetArg ev (bs "code"))] in
  let r := tools source in
  targ ← pure_go (Target ircev);
  removing [exefile; srcfile]
    match r.(sb_create) with
    | Some err => mret (Some err)
    | None =>
      write_file srcfile [] ;;
      match r.(sb_write) with
      | Some err => mret (Some err)
      | None =>
        write_file srcfile source ;;
        match r.(sb_close) with
        | Some err => mret (Some err)
        | None => run_tools targ r
        end
      end
    end.

Definition newline : bytes := [byte_of 10].
(** simple.go [Runnable.Go] *)
Definition Go : simpleM (option bytes) :=
  sandboxGo (bs "package main" ++ newline ++ newline ++ bs "func main() {" ++ newline ++ bs "%s" ++ newline ++ bs "}").
(** simple.go [Runnable.Gop] *)
Definition Gop : simpleM (option bytes) :=
  sandboxGo (bs "package main" ++ newline ++ newline ++ bs "func main() {" ++ newline ++ bs "fmt.Println(%s)" ++
             newline ++ bs "}").

(** ** Modes *)

Definition flag_o : Z := 111.
Definition flag_v : Z := 118.

(** simple.go [putPeopleUp] *)
Definition putPeopleUp (ch : bytes) (a : option StoredUser) : simpleM bool :=
  match a with
  | Some a =>
    if HasFlag a ircev.(NetworkID) ch flag_o then
      say (Sendf Write (bs "MODE %s +o :%s") [VString ch; VString nick]) ;; mret true
    else if HasFlag a ircev.(NetworkID) ch flag_v then
      say (Sendf Write (bs "MODE %s +v :%s") [VString ch; VString nick]) ;; mret true
    else mret false
  | None => mret false
  end.

(** What a pointer to a stored user points to; [nil] is no user. *)
Definition pointed (p : ptr) : simpleM (option StoredUser) := fun s =>
  match p with
  | None => (Done None, s)
  | Some l => match st ← s.(s_store); st.(suheap) !! l with
              | Some u => (Done (Some u), s)
              | None => (Panicked, s)
              end
  end.

(** simple.go [Handler.Up] *)
Definition Up : simpleM (option bytes) :=
  match ev.(ce_TargetChannel) with
  | None => mret (Some (bs "Must be a channel that the bot is on."))
  | Some l =>
    chname ← pure_go (st ← deref state; ch ← deref (st.(cheap) !! l); Ret (Channel_Name ch));
    user ← pointed ev.(ce_StoredUser);
    did ← putPeopleUp chname user;
    mret (if did : bool then None else Some (MakeFlagsError (bs "ov")))
  end.

(** simple.go [Handler.HandleRaw] *)
Definition HandleRaw : simpleM unit :=
  if bool_decide (ircev.(Name) = JOIN) then
    store ← reads s_store;
    match store with
    | None => mret tt
    | Some s =>
      a ← pointed (GetAuthedUser s ircev.(NetworkID) ircev.(Sender));
      ch ← pure_go (Target ircev);
      putPeopleUp ch a ;; mret tt
    end
  else mret tt.

(** simple.go [Handler.PrivmsgUser] *)
Definition PrivmsgUser : simpleM unit :=
  msg ← pure_go (Message ircev);
  let flds := Fields msg in
  if bool_decide (nick = bs "Aaron") then
    f0 ← pure_go (index flds 0);
    if bool_decide (f0 = bs "do") then say (Send Write [VString (Join (drop 1 flds) (bs " "))]) else mret tt
  else mret tt.

(** ** Handlers *)

Definition core_id : nat := 0.
Definition quoter : nat := 1.
Definition queryer : nat := 2.
Definition runnable : nat := 3.
Definition handler : nat := 4.

(** simple.go:58-72 [Quoter.Cmd], which the other three handlers have too *)
Definition Cmd_nothing : simpleM (option bytes) := nil_error.

(** The methods of the handlers that have the type of a command *)
Definition methods (h : nat) : list (bytes * simpleM (option bytes)) :=
  match h with
  | 1 => [(bs "Addquote", Addquote); (bs "Delquote", Delquote); (bs "Editquote", Editquote); (bs "Quote", Quote);
          (bs "Quotes", Quotes_); (bs "Details", Details); (bs "Quoteweb", Quoteweb)]
  | 2 => [(bs "Calc", Calc); (bs "Google", Google); (bs "Weather", Weather)]
  | 3 => [(bs "Go", Go); (bs "Gop", Gop)]
  | 4 => [(bs "Up", Up)]
  | _ => []
  end.

Definition run_method (h : nat) (m : bytes) : simpleM (option bytes) :=
  match List.find (fun x => bool_decide (x.1 = m)) (methods h) with Some (_, f) => f | None => Cmd_nothing end.
End Simple.

(** Whether a handler has a method: the names do not depend on the rest. *)
Definition simple_has_method (h : nat) (m : bytes) : bool :=
  bool_decide (m ∈ match h with
                   | 1 => map bs ["Addquote"; "Delquote"; "Editquote"; "Quote"; "Quotes"; "Details"; "Quoteweb"]
                   | 2 => map bs ["Calc"; "Google"; "Weather"]
                   | 3 => map bs ["Go"; "Gop"]
                   | 4 => map bs ["Up"]
                   | _ => []
                   end%string).

(** ** The program *)

(** simple.go:455-505 [main]: the commands of quotes *)
Definition quote_commands : list Cmd :=
  let c desc name args := MkCmd (bs "quote") (bs desc) (bs name) (Some quoter) CMD_PRIVMSG ALL (map bs args) in
  let a desc name args := MkAuthCmd (bs "quote") (bs desc) (bs name) (Some quoter) CMD_PRIVMSG ALL 0 (bs "Q") (map bs args) in
  [c "Retrieves a quote. Randomly selects a quote if no id is provided." "quote" ["[id]"];
   c "Shows the number of quotes in the database." "quotes" [];
   c "Gets the details for a specific quote." "details" ["id"];
   c "Adds a quote to the database." "addquote" ["quote..."];
   a "Removes a quote from the database." "delquote" ["id"];
   a "Edits an existing quote." "editquote" ["id"; "quote..."];
   c "Shows the address for the quote webserver." "quoteweb" []]%string.

(** simple.go:507-527 [main]: the commands of queries *)
Definition query_commands : list Cmd :=
  let c desc name := MkCmd (bs "query") (bs desc) (bs name) (Some queryer) CMD_PRIVMSG ALL [bs "query..."] in
  [c "Submits a query to Google." "google"; c "Submits a query to Wolfram Alpha." "calc";
   c "Fetches a weather report from yr.no." "weather"]%string.

(** simple.go:530-543 [main]: the commands of the sandbox *)
Definition run_commands : list Cmd :=
  let c desc name := MkCmd (bs "runnable") (bs desc) (bs name) (Some runnable) CMD_PRIVMSG ALL [bs "code..."] in
  [c "Runs a snippet of sandboxed go code." "go";
   c "Runs a snippet of sandboxed go code inside fmt.Println()." "gop"]%string.

(** simple.go:549-556 [main]: the command of the modes *)
Definition up_command : Cmd :=
  MkAuthCmd (bs "simple") (bs "Gives the user ops or voice if they have o or v flags respectively.") (bs "up")
    (Some handler) CMD_PRIVMSG ALL 0 [] [bs "#chan"].

Definition simple_commands : list Cmd := quote_commands ++ query_commands ++ run_commands ++ [up_command].

(** A command is made and registered; nobody looks at the error. *)
Definition register_one {CT : CaseTables} (cmd : Cmd) (c : Cmds) (g : Registry) : go (Cmds * Registry) :=
  let p := fresh (dom g.(cmd_heap)) in
  '(_, c, g) ← Cmds.Register c {| cmd_heap := <[p := cmd]> g.(cmd_heap);
                                  globalCmdRegistry := g.(globalCmdRegistry) |} GLOBAL p;
  Ret (c, g).

Definition register_all {CT : CaseTables} (l : list Cmd) (c : Cmds) (g : Registry) : go (Cmds * Registry) :=
  go_fold (fun '(c, g) cmd => register_one cmd c g) (c, g) l.

(** The handlers of events: a queryer is told of messages to channels, a
    handler of private ones and of everything else. *)
Definition queryer_handler : Handler :=
  {| hid := queryer; implements := fun i => bool_decide (i = PrivmsgChannelHandler) |}.
Definition handler_handler : Handler :=
  {| hid := handler; implements := fun i => bool_decide (i = EventHandler) || bool_decide (i = PrivmsgUserHandler) |}.

(** simple.go:453-557 [main]: what is registered with a bot.  The tables of
    events and of commands are apart, so the three events come first here;
    [None] is the loop on a number that is taken. *)
Definition simple_setup {CT : CaseTables} {K : KV} (fuel : nat) (draws : nat -> nat -> Z) (b : Bot) (g : Registry)
    : option (go (Bot * Registry)) :=
  '(_, b1) ← Bot.Register fuel (draws 0) b PRIVMSG queryer_handler;
  '(_, b2) ← Bot.Register fuel (draws 1) b1 PRIVMSG handler_handler;
  '(_, b3) ← Bot.Register fuel (draws 2) b2 JOIN handler_handler;
  Some ('(c, g) ← register_all simple_commands b3.(b_cmds) g; Ret (set_bot_cmds b3 c, g)).

(** ** A message from the commander to the answer *)

Section Conversation.
Context {CT : CaseTables} {BC : Bcrypt} {K : KV} {G : Gob} {RO : RangeOrder bytes}.
Context {Q : Type} {QD : Quotes Q} {WE : Web}.
Context (state : option State.State).
Context {W E : Type} (Write : bytes -> W -> W * option E).
Context (tmp : bytes) (tools : bytes -> sandbox).

(** The core commands work on the store and the writer. *)
Definition of_core {A} (m : eff (CoreCmds.env (W := W)) A) : eff (senv (Q := Q) (W := W)) A := fun s =>
  let '(r, e) := m {| e_store := s.(s_store); e_w := s.(s_w) |} in
  (r, {| s_db := s.(s_db); s_store := e.(e_store); s_files := s.(s_files); s_w := e.(e_w) |}).

(** [writer.Notice(nick, err.Error())] when there is an error *)
Definition tell (ircev : Event) (err : option bytes) : eff (senv (Q := Q) (W := W)) unit :=
  match err with
  | Some err => say (Notice Write (Event_Nick ircev) [VString err])
  | None => mret tt
  end.

(** dispatch/cmd/cmds.go:322-338 [Cmds.Dispatch]: the goroutine of a command of
    the example or of the core, with what it draws, and the notices the sender
    is sent *)
Definition simple_converse (salt : Salt) (draws : list Z) (frand : Z) (c : Cmds) (g : Registry)
    (overridePrefix : Z) (ircev : Event) : eff (senv (Q := Q) (W := W)) unit := fun s =>
  match Cmds.Dispatch state simple_has_method c g ircev.(NetworkID) overridePrefix ircev s.(s_store) with
  | Panic => (Panicked, s)
  | Ret (o, store) =>
    let s := {| s_db := s.(s_db); s_store := store; s_files := s.(s_files); s_w := s.(s_w) |} in
    match o with
    | Ignored => (Done tt, s)
    | Refused _ err => tell ircev (Some err) s
    | Started h (CallMethod m) ev =>
      (run_method state Write ircev ev tmp frand tools h m ≫= tell ircev) s
    | Started h (CallCmd cmd) ev =>
      ((if decide (h = core_id) then of_core (coreCmds_Cmd state Write g salt draws ircev ev cmd)
        else Cmd_nothing) ≫= tell ircev) s
    end
  end.
End Conversation.
