(* ===== verification/SimpleRun.v ===== *)
(** * The example program: who can do what (simple.go)

    The commands of the example together with the core commands and the
    commander: the quotes that are there change only for those with the flag
    for it; the sandbox removes its files; and runs of a bot with the
    example's commands. *)

From S2P Require Import Prelude GoStrings Hosts Fmt Effects NetworkInfo Event DispatchCore Cmd Cmds CmdRun.
From S2P Require Import Channel UserModes Access JSONStorer StoredUser State StateInv StateRun Store StoreInv.
From S2P Require Import Writer CoreText CoreCmds CoreRun CoreSpec CoreGate Simple.

(** ** Dates *)

(** The days before a year, and before a month of it, from the calendar's
    rules *)
Definition leap (y : Z) : bool :=
  bool_decide (y mod 4 = 0)%Z && (negb (bool_decide (y mod 100 = 0)%Z) || bool_decide (y mod 400 = 0)%Z).
Definition month_days (leap : bool) (m : Z) : Z :=
  if bool_decide (m = 2)%Z then (if leap then 29 else 28)
  else if bool_decide (m ∈ [4; 6; 9; 11]%Z) then 30 else 31.
Definition days_before_month (leap : bool) (m : Z) : Z :=
  foldr Z.add 0%Z (map (month_days leap) (seqZ 1 (m - 1))).
Definition days_before_year (y : Z) : Z :=
  (365 * (y - 1) + (y - 1) / 4 - (y - 1) / 100 + (y - 1) / 400)%Z.
(** The number of a date, the first of January 1970 being 0 *)
Definition day_number (date : Z * Z * Z) : Z :=
  let '(y, m, d) := date in
  (days_before_year y + days_before_month (leap y) m + d - 1 - days_before_year 1970)%Z.
Definition is_date (date : Z * Z * Z) : Prop :=
  let '(y, m, d) := date in (1 <= m <= 12 /\ 1 <= d <= month_days (leap y) m)%Z.

#[local] Instance is_date_dec date : Decision (is_date date).
Proof. destruct date as [[y m] d]. unfold is_date. apply _. Defined.

(** Some days, one by one *)
Fixpoint all_days (n : nat) (z : Z) : bool :=
  match n with
  | 0 => true
  | S n => bool_decide (day_number (civil z) = z) && bool_decide (is_date (civil z)) && all_days n (z + 1)
  end.

(** Four years' days have the numbers of the calendar. *)
Example four_years : all_days 1461 (day_number (2012, 1, 1))%Z = true.
Proof. vm_compute. reflexivity. Qed.

Example date_texts :
  map date_text [0; 951782400; 1404172799; -1]%Z
  = map bs ["January 01, 1970 at 12:00am UTC"; "February 29, 2000 at 12:00am UTC"; "June 30, 2014 at 11:59pm UTC";
            "December 31, 1969 at 11:59pm UTC"]%string.
Proof. vm_compute. reflexivity. Qed.

(** ** Text *)

(** No two bytes of white space next to each other *)
Fixpoint single_spaced (s : bytes) : bool :=
  match s with
  | c :: s' => match s' with c' :: _ => negb (re_space c && re_space c') | [] => true end && single_spaced s'
  | [] => true
  end.

Lemma end_run_short run :
  Forall (fun c => re_space c = true) run -> end_run run = [] \/ exists c, end_run run = [c] /\ (c ∈ run \/ c = " "%char) /\ re_space c = true.
Proof.
  intros H. destruct run as [|c [|c' run]]; [by left| |]; right; cbn.
  - exists c. apply Forall_inv in H. split; [done|]. split; [left; by left|done].
  - exists " "%char. split; [done|]. split; [by right|done].
Qed.

Lemma collapse_spaced run s :
  Forall (fun c => re_space c = true) run -> single_spaced (collapse run s) = true.
Proof.
  revert run. induction s as [|c s IH]; intros run Hr; cbn [collapse].
  { by destruct (end_run_short run Hr) as [->|(c & -> & _)]. }
  destruct (re_space c) eqn:Ec.
  { apply IH. apply Forall_app. split; [done|]. by apply Forall_singleton. }
  assert (single_spaced (c :: collapse [] s) = true) as H1.
  { cbn [single_spaced]. rewrite IH by constructor. rewrite andb_true_r.
    destruct (collapse [] s); [done|]. by rewrite Ec. }
  destruct (end_run_short run Hr) as [->|(x & -> & _ & Hx)]; [done|].
  change ([x] ++ c :: collapse [] s) with (x :: c :: collapse [] s).
  change (single_spaced (x :: c :: collapse [] s))
    with (negb (re_space x && re_space c) && single_spaced (c :: collapse [] s)).
  by rewrite H1, Ec, andb_false_r.
Qed.

Lemma collapse_bytes run s c : c ∈ collapse run s -> c ∈ run \/ c ∈ s \/ c = " "%char.
Proof.
  assert (forall run, c ∈ end_run run -> c ∈ run \/ c = " "%char) as He.
  { intros [|x [|y l]]; cbn; auto. intros ->%list_elem_of_singleton. by right. }
  revert run. induction s as [|x s IH]; intros run; cbn [collapse]; [intros [|]%He; auto|].
  destruct (re_space x).
  - intros [[H|H]%elem_of_app|[H|H]]%IH; [by left| |right; left; by right|by auto].
    apply list_elem_of_singleton in H as ->. right. left. by left.
  - intros [[|]%He|H]%elem_of_app; [by left|by auto|]. apply elem_of_cons in H as [->|H]; [right; left; by left|].
    apply IH in H as [H|[H|H]]; [by apply not_elem_of_nil in H|right; left; by right|by auto].
Qed.

Lemma sanitizeNewline_lines s : byte_of 10 ∉ sanitizeNewline s.
Proof.
  remember (length s) as n eqn:Hn. assert (length s <= n) as H by lia. clear Hn. revert s H.
  induction n as [|n IH]; intros [|c s] H; try (intros ?%not_elem_of_nil; done); [cbn in H; lia|].
  cbn in H. cbn [sanitizeNewline]. case_bool_decide as Hc.
  { rewrite elem_of_cons. intros [?|?]; [done|]. by apply (IH s); [lia|]. }
  destruct s as [|c' s]; [rewrite elem_of_cons; intros [?|?%not_elem_of_nil]; [congruence|done]|].
  destruct (bool_decide (c = byte_of 13) && bool_decide (c' = byte_of 10)).
  - rewrite elem_of_cons. intros [?|?]; [done|]. by apply (IH s); [cbn in H; lia|].
  - rewrite elem_of_cons. intros [?|?]; [congruence|]. by apply (IH (c' :: s)); [cbn in *; lia|].
Qed.

(** What is sanitized is one line, with single spaces. *)
Lemma sanitize_spec s : byte_of 10 ∉ sanitize s /\ single_spaced (sanitize s) = true.
Proof.
  split; [|apply collapse_spaced; constructor].
  intros [H|[H|H]]%collapse_bytes; [by apply not_elem_of_nil in H|by apply sanitizeNewline_lines in H|done].
Qed.

(** What is left of an answer fits in the length of two lines; for a target
    too long for that, cutting panics. *)
Lemma two_lines_spec target out :
  match two_lines target out with
  | Ret out' => (Z.of_nat (length out') <= Z.max 0 (2 * (436 - Z.of_nat (length target))))%Z
  | Panic => (434 < length target)%nat /\ (2 * (436 - Z.of_nat (length target)) < Z.of_nat (length out))%Z
  end.
Proof.
  unfold two_lines, slice_to. cbn zeta.
  set (m := (2 * (510 - 62 - 7 - Z.of_nat (length target) - 3 - 2))%Z).
  assert (m = 2 * (436 - Z.of_nat (length target)))%Z as Hm by (unfold m; lia). rewrite <- Hm.
  destruct (decide (m < Z.of_nat (length out))%Z); [|lia].
  destruct (decide (0 <= m - 3 <= Z.of_nat (length out))%Z) as [H|H]; cbn [mbind go_bind].
  - rewrite length_app, length_firstn. change (length (bs "...")) with 3. lia.
  - lia.
Qed.

(** ** What the commands leave alone *)

Section Simple.
Context {CT : CaseTables} {BC : Bcrypt} {K : KV} {G : Gob} {RO : RangeOrder bytes}.
Context {Q : Type} {QD : Quotes Q} {WE : Web}.
Context (state : option State.State).
Context {W E : Type} (Write : bytes -> W -> W * option E).
Context (tmp : bytes) (tools : bytes -> sandbox).
Abbreviation simpleM := (eff (senv (Q := Q) (W := W))).

(** A run changes the state only as [R] allows, however it ends. *)
Definition within {A} (R : senv -> senv -> Prop) (m : simpleM A) : Prop := forall s, R s (m s).2.

Section within.
Context (R : senv (Q := Q) (W := W) -> senv (Q := Q) (W := W) -> Prop) `{!PreOrder R}.

Lemma within_ret {A} (a : A) : within R (mret a).
Proof. by intros s. Qed.
Lemma within_bind {A B} (m : simpleM A) (f : A -> simpleM B) :
  within R m -> (forall a, within R (f a)) -> within R (m ≫= f).
Proof.
  intros Hm Hf s. unfold mbind, eff_bind. specialize (Hm s).
  destruct (m s) as [[a| |] s1]; cbn in *; [|done|done]. etransitivity; [exact Hm|apply Hf].
Qed.
Lemma within_pure_go {A} (m : go A) : within R (pure_go m).
Proof. by intros s. Qed.
Lemma within_reads {A} (f : senv -> A) : within R (reads f).
Proof. by intros s. Qed.
Lemma within_pointed p : within R (pointed p).
Proof. intros s. destruct p as [l|]; cbn; [|done]. by destruct (s.(s_store) ≫= _). Qed.
End within.

(** The quotes are the same; the files are the same but for two. *)
Definition same_db (s s' : senv (Q := Q) (W := W)) : Prop := s'.(s_db) = s.(s_db).
Definition same_but (a b : bytes) (s s' : senv (Q := Q) (W := W)) : Prop :=
  same_db s s' /\ s'.(s_store) = s.(s_store) /\ forall n, n <> a -> n <> b -> s'.(s_files) !! n = s.(s_files) !! n.

#[local] Instance same_db_pre : PreOrder same_db.
Proof. unfold same_db. split; [done|]. intros ? ? ? H1 H2. by rewrite H2. Qed.
#[local] Instance same_but_pre a b : PreOrder (same_but a b).
Proof.
  split; [done|]. intros x y z (A1 & A2 & A3) (B1 & B2 & B3).
  split; [by etransitivity|]. split; [congruence|]. intros n Ha Hb. rewrite B3, A3; done.
Qed.

Lemma within_say (call : W -> go (option (W * option E))) a b : within (same_but a b) (say (Q := Q) call).
Proof. intros s. unfold say. by destruct (call _) as [[[]|]|]. Qed.
Lemma within_weaken {A} a b (m : simpleM A) : within (same_but a b) m -> within same_db m.
Proof. intros H s. apply H. Qed.
Lemma within_write a b name content : name = a \/ name = b -> within (same_but a b) (write_file (Q := Q) (W := W) name content).
Proof.
  intros Hn s. split; [done|]. split; [done|]. intros n Ha Hb. cbn. rewrite lookup_insert_ne; [done|].
  by destruct Hn as [->| ->].
Qed.

#[local] Hint Resolve within_ret within_bind within_pure_go within_reads within_pointed within_say within_write : within.
#[local] Ltac kept := repeat first
  [ progress intros
  | apply within_ret | apply within_say | apply within_pure_go | apply within_reads | apply within_pointed
  | apply within_write; by auto
  | apply within_bind
  | case_match ]; try apply _.

Context (ircev : Event) (ev : CmdEvent).

Lemma answer_kept a b shorten r : within (same_but a b) (answer Write ircev shorten r).
Proof. unfold answer, then_nil, nil_error, notify, notice. kept. Qed.
Lemma putPeopleUp_kept a b ch u : within (same_but a b) (putPeopleUp Write ircev ch u).
Proof. unfold putPeopleUp. kept. Qed.
Lemma Up_kept a b : within (same_but a b) (Up state Write ircev ev).
Proof. unfold Up. kept. apply putPeopleUp_kept. Qed.

(** The methods of quotes that only read *)
Lemma readers_kept a b : within (same_but a b) (Quote Write ircev ev) /\ within (same_but a b) (Quotes_ Write ircev) /\
  within (same_but a b) (Details Write ircev ev) /\ within (same_but a b) (Quoteweb Write ircev).
Proof.
  unfold Quote, Quotes_, Details, Quoteweb, not_an_id, quote_error, then_nil, nil_error, notice, noticef, notify, notifyf.
  split; [|split; [|split]]; kept.
Qed.

Lemma run_tools_kept frand targ r :
  within (same_but (srcfile tmp frand) (exefile tmp frand)) (run_tools Write ircev tmp frand targ r).
Proof.
  unfold run_tools, show_output, putStdErr, then_nil, nil_error, notifyf. kept.
Qed.

Lemma delete_none {A} (m m0 : gmap bytes A) a b :
  (forall n, n <> a -> n <> b -> m !! n = m0 !! n) -> m0 !! a = None -> m0 !! b = None ->
  delete a (delete b m) = m0.
Proof.
  intros Hm Ha Hb. apply map_eq. intros n. destruct (decide (n = a)) as [->|Hna]; [by rewrite lookup_delete_eq|].
  rewrite lookup_delete_ne by done. destruct (decide (n = b)) as [->|Hnb]; [by rewrite lookup_delete_eq|].
  rewrite lookup_delete_ne by done. by apply Hm.
Qed.

(** However running a snippet ends, with an error, an answer or a panic: the
    files that were made for it are gone, and the quotes and the store are as
    they were. *)
Theorem sandbox_cleans frand basecode (s : senv (Q := Q) (W := W)) r s' :
  s.(s_files) !! srcfile tmp frand = None -> s.(s_files) !! exefile tmp frand = None ->
  sandboxGo Write ircev ev tmp frand tools basecode s = (r, s') -> r <> Hangs ->
  s'.(s_files) = s.(s_files) /\ s'.(s_db) = s.(s_db) /\ s'.(s_store) = s.(s_store).
Proof.
  intros Ha Hb. unfold sandboxGo. cbn zeta. unfold mbind, eff_bind, pure_go.
  destruct (Target ircev) as [targ|]; [|by intros [= <- <-]]. unfold removing.
  match goal with |- context [match ?m s with _ => _ end] => set (body := m) end.
  assert (within (same_but (srcfile tmp frand) (exefile tmp frand)) body) as Hk
    by (unfold body; kept; apply run_tools_kept).
  specialize (Hk s) as (H1 & H2 & H3). destruct (body s) as [r1 s1]. cbn [snd] in *.
  assert (foldl (fun fs n => delete n fs) (s_files s1) [exefile tmp frand; srcfile tmp frand] = s_files s) as Hf.
  { cbn. by apply delete_none. }
  destruct r1; intros [= <- <-] Hr; [| |done]; by split.
Qed.

(** ** Who changes the quotes *)

(** What a command of quotes does to them *)
Definition adds (q q' : Q) : Prop := exists quote, q' = (db_AddQuote q (Event_Nick ircev) quote).2.
Definition deletes_or_edits (q q' : Q) : Prop :=
  (exists id, q' = (db_DelQuote q id).2) \/ exists id quote, q' = (db_EditQuote q id quote).2.

Lemma after_write {A} (f : senv (Q := Q) (W := W) -> A * Q) (rest : A -> simpleM (option bytes)) s :
  (forall a, within same_db (rest a)) ->
  s_db (((fun s => let '(a, q) := f s in (Done a, with_db q s)) ≫= rest) s).2 = (f s).2.
Proof.
  intros H. unfold mbind, eff_bind. destruct (f s) as [a q]. apply H.
Qed.

Lemma then_nil_db m : within same_db m -> within same_db (then_nil (Q := Q) (W := W) m).
Proof. intros H. apply within_bind; [apply _|done|]. intros _. by apply within_ret, _. Qed.
Lemma say_db (call : W -> go (option (W * option E))) : within same_db (say (Q := Q) call).
Proof. apply (within_weaken [] []), within_say. Qed.

#[local] Ltac told := unfold not_an_id, quote_error, notice, noticef; repeat first
  [ apply then_nil_db | apply say_db | case_match ].

Lemma Addquote_db s : let s' := (Addquote Write ircev ev s).2 in
  s_db s' = s_db s \/ adds (s_db s) (s_db s').
Proof.
  cbn zeta. unfold Addquote. destruct (quote_arg ev) as [|c l]; [by left|]. right. exists (c :: l).
  unfold mbind, eff_bind. fold nick. unfold nick. destruct (db_AddQuote _ _ _) as [[id err] q].
  destruct err; match goal with |- context [?m (with_db q s)] => assert (within same_db m) as H by told end; apply H.
Qed.
Lemma Delquote_db s : let s' := (Delquote Write ircev ev s).2 in
  s_db s' = s_db s \/ deletes_or_edits (s_db s) (s_db s').
Proof.
  cbn zeta. unfold Delquote. destruct (Atoi _) as [id|].
  - right. left. exists id. unfold mbind, eff_bind. destruct (db_DelQuote _ _) as [[did err] q].
    destruct err; match goal with |- context [?m (with_db q s)] => assert (within same_db m) as H by told end; apply H.
  - left. assert (within same_db (not_an_id Write ircev)) as H by told. apply H.
Qed.
Lemma Editquote_db s : let s' := (Editquote Write ircev ev s).2 in
  s_db s' = s_db s \/ deletes_or_edits (s_db s) (s_db s').
Proof.
  cbn zeta. unfold Editquote. destruct (quote_arg ev) as [|c l]; [by left|]. destruct (Atoi _) as [id|].
  - right. right. exists id, (c :: l). unfold mbind, eff_bind. destruct (db_EditQuote _ _ _) as [[did err] q].
    destruct err; match goal with |- context [?m (with_db q s)] => assert (within same_db m) as H by told end; apply H.
  - left. assert (within same_db (not_an_id Write ircev)) as H by told. apply H.
Qed.

Lemma sandbox_db frand basecode : within same_db (sandboxGo Write ircev ev tmp frand tools basecode).
Proof.
  unfold sandboxGo. cbn zeta. apply within_bind; [apply _|apply within_pure_go, _|]. intros targ s. unfold removing.
  match goal with |- context [match ?m s with _ => _ end] => set (body := m) end.
  assert (within (same_but (srcfile tmp frand) (exefile tmp frand)) body) as Hk
    by (unfold body; kept; apply run_tools_kept).
  specialize (Hk s) as (H1 & _). by destruct (body s) as [[] s1].
Qed.

(** Which method of which handler does what to the quotes *)
Lemma method_db frand h m s :
  let s' := (run_method state Write ircev ev tmp frand tools h m s).2 in
  s_db s' = s_db s \/ adds (s_db s) (s_db s') \/
  (h = quoter /\ (m = bs "Delquote" \/ m = bs "Editquote")) /\ deletes_or_edits (s_db s) (s_db s').
Proof.
  cbn zeta. unfold run_method.
  assert (forall x : simpleM (option bytes), within (same_but [] []) x -> within same_db x) as Hw
    by (intros x Hx; by apply (within_weaken [] [])).
  destruct (readers_kept [] []) as (R1 & R2 & R3 & R4).
  destruct h as [|[|[|[|[|h]]]]]; cbn [methods List.find fst snd];
    repeat (case_bool_decide; [subst m|]); try (by left); try (left; by apply Hw);
    try (left; by apply Hw, answer_kept); try (left; apply sandbox_db); try (left; by apply Hw, Up_kept).
  - destruct (Addquote_db s); [by left|by right; left].
  - destruct (Delquote_db s); [by left|]. right. right. auto.
  - destruct (Editquote_db s); [by left|]. right. right. auto.
Qed.
End Simple.

(** ** The bot with all its commands *)

(** Every command of the example is given to a method of its handler, and the
    two that change quotes ask for the flag Q. *)
Definition entry_ok {CT : CaseTables} (sc : Cmd) : bool :=
  match cmd_Handler sc with
  | Some h =>
    match called simple_has_method h (cmd_Cmd sc) with
    | CallMethod m =>
      (bool_decide (m <> bs "Delquote") && bool_decide (m <> bs "Editquote") || bool_decide (h <> quoter))
      || RequireAuth sc && bool_decide (ReqFlags sc = bs "Q")
    | CallCmd _ => false
    end
  | None => false
  end.

Lemma entries_ok {CT : CaseTables} : forallb entry_ok simple_commands = true.
Proof. vm_compute. reflexivity. Qed.

(** A command of the table is one of the core handler's or was made for one of
    the example. *)
Definition simple_entry (name : bytes) (cmd : Cmd) : Prop :=
  cmd_Handler cmd = Some core_id \/
  exists sc, sc ∈ simple_commands /\ cmd_Cmd sc = name /\ cmd_Handler cmd = cmd_Handler sc /\
    RequireAuth cmd = RequireAuth sc /\ ReqFlags cmd = ReqFlags sc.

Lemma register_all_table {CT : CaseTables} P l c g c' g' :
  (forall cmd, cmd ∈ l -> P (cmd_Cmd cmd) (parseArgs cmd).2) -> table P c g ->
  register_all l c g = Ret (c', g') -> table P c' g'.
Proof.
  revert c g. induction l as [|cmd l IH]; intros c g Hl Ht; [by intros [= <- <-]|].
  unfold register_all. cbn [go_fold]. intros ([c1 g1] & H1 & H)%bind_Ret_inv.
  apply bind_Ret_inv in H1 as ([[err c2] g2] & H1 & [= <- <-]).
  refine (IH c2 g2 _ _ H); [intros; apply Hl; by right|].
  eapply (Register_table P c g GLOBAL cmd); [done|apply Hl; by left|exact H1].
Qed.

Lemma simple_table {CT : CaseTables} pre d g0 c0 g1 c g :
  NewCoreCmds core_id (NewCmds pre d) g0 = Ret (None, c0, g1) ->
  register_all simple_commands c0 g1 = Ret (c, g) -> table simple_entry c g.
Proof.
  intros H0 H1. eapply register_all_table; [|eapply register_core_keeps; [| |exact H0]|exact H1].
  - intros cmd Hc. right. exists cmd. destruct (parseArgs_access cmd) as [-> ->].
    by destruct (parseArgs_keeps cmd) as (_ & -> & _).
  - intros e _. left. by destruct (parseArgs_keeps (core_cmd core_id e)) as (_ & -> & _).
  - by intros ? ?.
Qed.

Section Bot.
Context {CT : CaseTables} {BC : Bcrypt} {K : KV} {G : Gob} {RO : RangeOrder bytes}.
Context {Q : Type} {QD : Quotes Q} {WE : Web}.
Context (state : option State.State).
Context {W E : Type} (Write : bytes -> W -> W * option E).
Context (tmp : bytes) (tools : bytes -> sandbox).

Abbreviation simpleM := (eff (senv (Q := Q) (W := W))).

Lemma tell_db ircev err : within same_db (tell (Q := Q) Write ircev err).
Proof. destruct err; [apply say_db|by intros s]. Qed.
Lemma then_tell ircev (m : simpleM (option bytes)) s : s_db ((m ≫= tell Write ircev) s).2 = s_db (m s).2.
Proof.
  unfold mbind, eff_bind. destruct (m s) as [[err| |] s1]; [|done|done]. apply tell_db.
Qed.

(** C35. Whatever message the example bot is given, by whomever and however the
    command ends: the quotes stay as they are, or the sender adds one in its
    own name, or one is removed or edited, and then the sender is logged in
    with the flag Q. *)
Theorem quotes_need_flag pre d g0 c0 g1 c g salt draws frand ov ircev (s : senv (Q := Q) (W := W)) :
  NewCoreCmds core_id (NewCmds pre d) g0 = Ret (None, c0, g1) ->
  register_all simple_commands c0 g1 = Ret (c, g) ->
  let s' := (simple_converse state Write tmp tools salt draws frand c g ov ircev s).2 in
  s'.(s_db) = s.(s_db) \/ adds ircev s.(s_db) s'.(s_db) \/
  deletes_or_edits s.(s_db) s'.(s_db) /\
    exists store, s.(s_store) = Some store /\ flagged store ircev (bs "Q").
Proof.
  intros H0 H1. pose proof (simple_table _ _ _ _ _ _ _ H0 H1) as Ht. cbn zeta. unfold simple_converse.
  destruct (Cmds.Dispatch _ _ _ _ _ _ _ _) as [[o store']|] eqn:Ed; [|by left].
  set (s1 := {| s_db := s_db s; s_store := store'; s_files := s_files s; s_w := s_w s |}).
  destruct o as [|nick err|h how ev]; [by left|left; apply (tell_db ircev (Some err) s1)|].
  destruct (Dispatch_started_ok _ _ _ _ _ _ _ _ _ _ _ _ Ed)
    as (isChan & ch & name & words & p & cmd & Hn & Hc & Hp & Hh & _ & _ & -> & Hauth).
  destruct (Ht _ _ Hc) as (cmd' & Hp' & He). rewrite Hp in Hp'. injection Hp' as <-.
  assert (forall m : simpleM (option bytes), s_db ((m ≫= tell Write ircev) s1).2 = s_db (m s1).2) as Hthen
    by (intros m; apply then_tell).
  destruct He as [Hcore|(sc & Hsc & <- & Hsh & A1 & A2)].
  { rewrite Hh in Hcore. injection Hcore as ->. left.
    change (called simple_has_method core_id name) with (CallCmd name). cbv beta iota.
    rewrite Hthen. cbn [decide]. rewrite decide_True by done. unfold of_core.
    by destruct (coreCmds_Cmd state Write g salt draws ircev ev name _). }
  pose proof (proj1 (forallb_forall entry_ok simple_commands) entries_ok sc (proj1 (list_elem_of_In _ _) Hsc)) as Hok.
  unfold entry_ok in Hok. rewrite <- Hsh, Hh in Hok.
  destruct (called simple_has_method h (cmd_Cmd sc)) as [m|]; [|done]. rewrite Hthen.
  destruct (method_db state Write tmp tools ircev ev frand h m s1) as [H|[H|[[-> Hm] H]]]; [by left|by right; left|].
  right. right. split; [exact H|].
  assert (RequireAuth cmd = true /\ ReqFlags cmd = bs "Q") as [B1 B2].
  { rewrite A1, A2. apply orb_true_iff in Hok as [Hno|[Hr Hf%bool_decide_eq_true]%andb_true_iff]; [|done].
    exfalso. apply orb_true_iff in Hno as [[Hx%bool_decide_eq_true Hy%bool_decide_eq_true]%andb_true_iff|
      Hz%bool_decide_eq_true]; [by destruct Hm|done]. }
  destruct (Hauth B1) as (store & l & Hst & _ & Hg). exists store. split; [exact Hst|].
  destruct Hg as (x & X1 & X2 & _ & X4). exists l, x, ch. split; [done|]. split; [done|].
  rewrite B2 in X4. split; [|by apply X4].
  destruct Hn as (text & word & _ & _ & Hch). destruct isChan; [right; apply Hch|left; apply Hch].
Qed.
End Bot.

(** ** Runs *)

#[local] Existing Instance ascii_tables.
#[local] Existing Instance salted.
#[local] Existing Instance mem_kv.
#[local] Existing Instance demo_gob.

(** Quotes in a list, by their place; editing and deleting leave a gap. *)
#[local] Instance list_quotes : Quotes (list (bytes * bytes)) := {|
  db_AddQuote q author text := (Z.of_nat (length q), None, q ++ [(author, text)]);
  db_DelQuote q id := match q !! Z.to_nat id with
                      | Some _ => (true, None, <[Z.to_nat id := ([], [])]> q)
                      | None => (false, None, q) end;
  db_EditQuote q id text := match q !! Z.to_nat id with
                            | Some (author, _) => (true, None, <[Z.to_nat id := (author, text)]> q)
                            | None => (false, None, q) end;
  db_GetQuote q id := match q !! Z.to_nat id with
                      | Some (_, text) => (text, None)
                      | None => ([], Some (bs "sql: database is locked")) end;
  db_RandomQuote q := (0%Z, match q with (_, text) :: _ => text | [] => [] end, None);
  db_NQuotes q := Z.of_nat (length q);
  db_GetDetails q id := match q !! Z.to_nat id with
                        | Some (author, _) => (1404172799%Z, author, None)
                        | None => (0%Z, [], Some (bs "no such quote")) end;
|}.

#[local] Instance demo_web : Web := {|
  query_YouTube s := ([], None);
  query_Wolfram s := (replicate 415 "x"%char ++ " "%char :: replicate 446 "y"%char, None);
  query_Google s := (s ++ [byte_of 13; byte_of 10; byte_of 10] ++ bs "  is" ++ [byte_of 9] ++ bs " a line", None);
  query_Weather s := ([], Some (bs "no weather"));
|}.

(** A sandbox in which every program prints its source *)
Definition demo_tools (source : bytes) : sandbox := {|
  sb_create := None; sb_write := None; sb_close := None; sb_goimports := (None, [], source);
  sb_build := (None, [], bs "ELF"); sb_start := None; sb_wait := Some (None, [], source) |}.

Definition no_bot : Cmds * Registry :=
  (NewCmds 0 {| chans := None; waiter := 0 |}, {| cmd_heap := ∅; globalCmdRegistry := ∅ |}).

(** The bot with the core commands, and with those of the example *)
Definition made_core : go (option bytes * Cmds * Registry) :=
  NewCoreCmds core_id (NewCmds (code "!") {| chans := None; waiter := 0 |})
    {| cmd_heap := ∅; globalCmdRegistry := ∅ |}.
Definition demo_core : Cmds * Registry := match made_core with Ret (None, c, g) => (c, g) | _ => no_bot end.
Definition simple_bot : Cmds * Registry :=
  match register_all simple_commands demo_core.1 demo_core.2 with Ret cg => cg | Panic => no_bot end.

Lemma demo_core_made : made_core = Ret (None, demo_core.1, demo_core.2).
Proof.
  assert (match made_core with Ret (None, _, _) => true | _ => false end = true) as H by (vm_compute; reflexivity).
  unfold demo_core. by destruct made_core as [[[[] ?] ?]|].
Qed.
Lemma simple_bot_made : register_all simple_commands demo_core.1 demo_core.2 = Ret (simple_bot.1, simple_bot.2).
Proof.
  assert (is_panic (register_all simple_commands demo_core.1 demo_core.2) = false) as H by (vm_compute; reflexivity).
  unfold simple_bot. by destruct (register_all _ _ _) as [[]|].
Qed.

Definition simple_env : senv (Q := list (bytes * bytes)) (W := demo_log) := {| s_db := []; s_store := Some empty_store; s_files := ∅; s_w := [] |}.

Definition simple_talk (l : list Event) :=
  (each (simple_converse demo_net log_write (bs "/tmp") demo_tools "x"%char (repeat 0%Z 10) 7 simple_bot.1 simple_bot.2 0)
     l simple_env).2.

(** What the bot answers, without the bytes for bold *)
Definition simple_answers (l : list Event) : list bytes :=
  map (List.filter (fun c => bool_decide (c <> byte_of 2))) (simple_talk l).(s_w).

(** A database error in looking up a quote by its number is lost and reported
    as a quote that is not there; a number that is not found is printed behind
    its verb. *)
Example quote_answers :
  drop 2 (simple_answers [ann "register secret"; bob "register hunter2"; bob "addquote hello  world"; eve "quote 0";
    bob "delquote 0"; ann "delquote 5"; ann "details 0"; bob "quote 9"; bob "quote x"; ann "delquote 0"; eve "quotes"])
  = map bs ["NOTICE bob :Quote: Added quote #0";
            "NOTICE eve :Quote (#0): hello world";
            "NOTICE bob :Access Denied: (Q) flag(s) required.";
            "NOTICE ann :Quote: Could not find quote %d.5";
            "NOTICE ann :Quote (#0): Created on June 30, 2014 at 11:59pm UTC by bob";
            "NOTICE bob :Quote: Does not exist.";
            "NOTICE bob :Quote: Not a valid id.";
            "NOTICE ann :Quote: Quote 0 deleted.";
            "NOTICE eve :Quote: 1 quote(s) in database."]%string.
Proof. vm_compute. reflexivity. Qed.

(** What a program prints is a format: here it prints its source. *)
Example output_is_a_format :
  map (List.firstn 55) (simple_answers [bob "gop 1%d"; bob "google a"; bob "weather b"])
  = [bs "NOTICE bob :go: package main" ++ newline ++ newline ++ bs "func main() {" ++ newline ++ bs "fmt.Println";
     bs "NOTICE bob :a is a line"; bs "NOTICE bob :no weather"] /\
  last (simple_answers [bob "gop 1%d"])
  = Some (bs "NOTICE bob :go: package main" ++ newline ++ newline ++ bs "func main() {" ++ newline ++
          bs "fmt.Println(1%!d(MISSING))" ++ newline ++ bs "}").
Proof. split; vm_compute; reflexivity. Qed.

(** An answer cut to the length of two lines can take three, since lines end
    at a space. *)
Example two_lines_are_three : map length (simple_answers [bob_chan "!calc 1+1"]) = [430; 448; 28].
Proof. vm_compute. reflexivity. Qed.

(** Modes are given by flags, and only on channels the bot knows. *)
Example up_answers :
  drop 2 (simple_answers [ann "register secret"; bob "register hunter2"; ann_chan "!up"; ann "up #chan";
                          bob "up #chan"; ann "up #other"; eve "up #chan"])
  = map bs ["MODE #chan +o :ann"; "MODE #chan +o :ann"; "NOTICE bob :Access Denied: (ov) flag(s) required.";
            "NOTICE ann :Must be a channel that the bot is on.";
            "NOTICE eve :Access Denied: You are not authenticated. To authenticate message me: auth <password>. To create an account message me: register <password>."]%string.
Proof. vm_compute. reflexivity. Qed.

(** Whoever takes the nick makes the bot send anything; a blank message from it
    is a panic. *)
Example aaron_sends :
  let run text := PrivmsgUser log_write (says "Aaron!x@anywhere" "me" text) simple_env in
  s_w (run "do  QUIT :bye").2 = [bs "QUIT :bye"] /\ (run " ").1 = Panicked.
Proof. by vm_compute. Qed.

Lemma sandbox_cleans_witness :
  let s := simple_env in
  s.(s_files) !! srcfile (bs "/tmp") 7 = None /\ s.(s_files) !! exefile (bs "/tmp") 7 = None /\
  let '(r, s') := sandboxGo log_write (bob "go x") new_event (bs "/tmp") 7 demo_tools (bs "%s") s in
  s'.(s_files) = s.(s_files) /\ s'.(s_db) = s.(s_db) /\ s'.(s_store) = s.(s_store).
Proof.
  cbn zeta. split; [done|]. split; [done|].
  destruct (sandboxGo log_write (bob "go x") new_event (bs "/tmp") 7 demo_tools (bs "%s") simple_env) as [r s'] eqn:E1.
  assert (r <> Hangs) as Hr.
  { apply (f_equal fst) in E1. cbn [fst] in E1. rewrite <- E1. by vm_compute. }
  apply (sandbox_cleans log_write (bs "/tmp") demo_tools (bob "go x") new_event 7 (bs "%s") simple_env r s');
    [reflexivity|reflexivity|exact E1|exact Hr].
Defined.

Lemma quotes_need_flag_witness :
  let s' := (simple_converse demo_net log_write (bs "/tmp") demo_tools demo_salt (repeat 0%Z 10) 7
               simple_bot.1 simple_bot.2 0 (bob "addquote hello") simple_env).2 in
  s'.(s_db) = [] \/ adds (bob "addquote hello") [] s'.(s_db) \/
  deletes_or_edits [] s'.(s_db) /\
    exists store, Some empty_store = Some store /\ flagged store (bob "addquote hello") (bs "Q").
Proof.
  apply (quotes_need_flag demo_net log_write (bs "/tmp") demo_tools (code "!") {| chans := None; waiter := 0 |}
           {| cmd_heap := ∅; globalCmdRegistry := ∅ |} demo_core.1 demo_core.2 simple_bot.1 simple_bot.2
           demo_salt (repeat 0%Z 10) 7 0 (bob "addquote hello") simple_env demo_core_made simple_bot_made).
Defined.
